(** * Volatility trading system: decision and control engine

    A shallow embedding of the replay engine of the repository
    (kill switch, risk limiter, position sizer, regime signal engine and
    the per-bar simulation loop of [run_single_mode]) together with the
    properties its specification states about them.

    Numbers.  Python [int] is [Z].  Python [float] is modelled by the
    rationals [Q] with exact arithmetic; comparisons are the boolean
    comparisons of [Q].  The one non-finite value the code produces on
    purpose, [float("inf")] for the chop score, is a constructor of its
    own ([xfloat]).  A float division whose divisor is zero raises
    [ZeroDivisionError] in Python; in the metric computation the division
    is the checked [pydiv], so that a missing guard shows up as [Raise]. *)

From Stdlib Require Import ZArith QArith Qabs Qround Qminmax.
From Stdlib Require Import List String Bool Lia Lqa.
From Equations Require Import Equations.
Import ListNotations.

Open Scope Q_scope.

(* ===================================================================== *)
(** ** Python numerics                                                     *)
(* ===================================================================== *)

(** [x < y] on floats, as a boolean. *)
Definition Qlt_bool (x y : Q) : bool := negb (Qle_bool y x).

Declare Scope py_scope.
Delimit Scope py_scope with py.
Notation "x <=? y" := (Qle_bool x y) (at level 70, no associativity) : py_scope.
Notation "x <? y" := (Qlt_bool x y) (at level 70, no associativity) : py_scope.
Notation "x >=? y" := (Qle_bool y x) (at level 70, no associativity) : py_scope.
Notation "x >? y" := (Qlt_bool y x) (at level 70, no associativity) : py_scope.
Open Scope py_scope.

(** The integer [n] used in float arithmetic. *)
Notation "'float' n" := (inject_Z n) (at level 9, n at level 9) : py_scope.

(** Exceptions the modelled code can raise. *)
Inductive PyExn : Type :=
| ZeroDivisionError
| ValueError.

Inductive Result (A : Type) : Type :=
| Ok (a : A)
| Raise (e : PyExn).
Arguments Ok {A} a.
Arguments Raise {A} e.

Definition bind {A B : Type} (r : Result A) (k : A -> Result B) : Result B :=
  match r with
  | Ok a => k a
  | Raise e => Raise e
  end.

Notation "x <- r ;; k" := (bind r (fun x => k))
  (at level 61, r at next level, right associativity) : py_scope.

(** [x / y] on floats: raises on a zero divisor. *)
Definition pydiv (x y : Q) : Result Q :=
  if Qeq_bool y 0 then Raise ZeroDivisionError else Ok (x / y).

(** [round(x)] with one argument: nearest integer, ties to the even one. *)
Definition py_round (x : Q) : Z :=
  let f := Qfloor x in
  let r := x - float f in
  if r <? 0.5 then f
  else if r >? 0.5 then (f + 1)%Z
  else if Z.even f then f else (f + 1)%Z.

(** [int(a // b)] on floats. *)
Definition py_floordiv (a b : Q) : Z := Qfloor (a / b).

Definition CONTRACT_MULTIPLIER : Q := 100.

(* ===================================================================== *)
(** ** risk/kill_switch.py                                                 *)
(* ===================================================================== *)

Module KillSwitch.

Record KillSwitchAction : Type := mkAction {
  flatten_positions : bool;
  size_factor : Q;
  zone : string;
  reasons : list string
}.

Record t : Type := mk {
  gamma_green_threshold : Q;   (* G1 *)
  gamma_red_threshold : Q;     (* G2 *)
  gamma_yellow_size_factor : Q;
  gamma_red_size_factor : Q;
  kill_drawdown_threshold : Q  (* D1 *)
}.

(** The dataclass defaults. *)
Definition default_action : KillSwitchAction :=
  mkAction false 1 "green" [].

Definition defaults : t := mk 5 10 0.5 0.25 0.12.

Definition evaluate (self : t) (gamma_risk total_drawdown : Q)
  : KillSwitchAction :=
  let action := default_action in
  if gamma_risk <=? gamma_green_threshold self then
    mkAction (flatten_positions action) 1 "green" (reasons action)
  else if gamma_risk <=? gamma_red_threshold self then
    mkAction (flatten_positions action) (gamma_yellow_size_factor self)
             "yellow" (reasons action ++ ["GAMMA_YELLOW_THROTTLE"%string])
  else
    let action :=
      mkAction (flatten_positions action) (gamma_red_size_factor self)
               "red" (reasons action ++ ["GAMMA_RED_THROTTLE"%string]) in
    if total_drawdown >? kill_drawdown_threshold self then
      mkAction true (size_factor action) (zone action)
               (reasons action ++ ["GAMMA_RED_DRAWDOWN_KILL"%string])
    else action.

End KillSwitch.

(* ===================================================================== *)
(** ** risk/limits.py                                                      *)
(* ===================================================================== *)

Module RiskLimits.

Record t : Type := mk {
  initial_capital : Q;
  max_capital_at_risk : Q;
  max_leverage : Q;
  max_abs_gamma : Q;
  max_abs_vega : Q
}.

(** [RiskLimits(initial_capital=c)]: the other fields at their defaults. *)
Definition with_capital (c : Q) : t := mk c 0.20 6 75 300.

(** Both divisions sit behind the [projected_equity <= 0] return, so
    they are never evaluated at a zero divisor. *)
Definition trade_allowed (self : t)
    (projected_option_contracts : Z)
    (option_price projected_notional projected_gamma_abs
     projected_vega_abs projected_equity : Q) : bool * string :=
  if projected_equity <=? 0 then (false, "Equity exhausted"%string)
  else
    let capital_at_risk_ratio :=
      Qabs (float projected_option_contracts * option_price
            * CONTRACT_MULTIPLIER) / projected_equity in
    if capital_at_risk_ratio >? max_capital_at_risk self then
      (false, "Blocked: capital-at-risk limit breached"%string)
    else
      let leverage := projected_notional / projected_equity in
      if leverage >? max_leverage self then
        (false, "Blocked: leverage limit breached"%string)
      else if projected_gamma_abs >? max_abs_gamma self then
        (false, "Blocked: gamma limit breached"%string)
      else if projected_vega_abs >? max_abs_vega self then
        (false, "Blocked: vega limit breached"%string)
      else (true, EmptyString).

End RiskLimits.

(* ===================================================================== *)
(** ** analytics/exposure.py, analytics/drawdown.py                        *)
(* ===================================================================== *)

Record Exposures : Type := mkExposures {
  delta_exposure : Q;
  gamma_exposure : Q;
  vega_exposure : Q;
  option_notional : Q;
  hedge_notional : Q;
  notional_exposure : Q
}.

Definition compute_exposures (option_contracts hedge_shares : Z)
    (spot_price option_price option_delta option_gamma option_vega : Q)
  : Exposures :=
  let option_delta_shares :=
    float option_contracts * option_delta * CONTRACT_MULTIPLIER in
  let total_delta := option_delta_shares + float hedge_shares in
  let gamma_exposure :=
    float option_contracts * option_gamma * CONTRACT_MULTIPLIER in
  let vega_exposure :=
    float option_contracts * option_vega * CONTRACT_MULTIPLIER in
  let option_notional :=
    Qabs (float option_contracts * option_price * CONTRACT_MULTIPLIER) in
  let hedge_notional := Qabs (float hedge_shares * spot_price) in
  let notional_exposure := option_notional + hedge_notional in
  mkExposures total_delta gamma_exposure vega_exposure
              option_notional hedge_notional notional_exposure.

Module DrawdownTracker.

Record t : Type := mk {
  peak_equity : Q;
  max_drawdown : Q
}.

Definition peek (self : t) (equity : Q) : Q :=
  let peak := Qmax (peak_equity self) equity in
  if peak <=? 0 then 0
  else Qmax 0 ((peak - equity) / peak).

(** Returns the tracker after the update and the current drawdown. *)
Definition update (self : t) (equity : Q) : t * Q :=
  let self :=
    if equity >? peak_equity self then mk equity (max_drawdown self)
    else self in
  let current_drawdown := peek self equity in
  let self :=
    if current_drawdown >? max_drawdown self
    then mk (peak_equity self) current_drawdown
    else self in
  (self, current_drawdown).

End DrawdownTracker.

(* ===================================================================== *)
(** ** execution/trades.py, execution/hedge.py                             *)
(* ===================================================================== *)

Record OptionTradeResult : Type := mkOptionTradeResult {
  new_contracts : Z;
  option_cash : Q;
  traded_contracts : Z;
  option_notional_traded : Q;
  option_fees : Q;
  option_slippage : Q
}.

Definition execute_option_trade (current_contracts target_contracts : Z)
    (option_price cash fee_per_contract slippage_bps : Q)
  : OptionTradeResult :=
  let trade_qty := (target_contracts - current_contracts)%Z in
  let notional := float (Z.abs trade_qty) * option_price * CONTRACT_MULTIPLIER in
  let fees := float (Z.abs trade_qty) * fee_per_contract in
  let slippage := notional * (slippage_bps / 10000) in
  let cash_change :=
    - (float trade_qty * option_price * CONTRACT_MULTIPLIER) - fees - slippage in
  let new_cash := cash + cash_change in
  mkOptionTradeResult target_contracts new_cash trade_qty notional fees slippage.

(** The keyword defaults of [execute_option_trade]. *)
Definition default_fee_per_contract : Q := 0.65.
Definition default_option_slippage_bps : Q := 5.

Record HedgeTradeResult : Type := mkHedgeTradeResult {
  new_shares : Z;
  hedge_cash : Q;
  traded_shares : Z;
  hedge_notional_traded : Q;
  hedge_fees : Q;
  hedge_slippage : Q
}.

Definition rebalance_delta_hedge (current_shares target_shares : Z)
    (spot_price cash fee_per_share slippage_bps : Q)
  : HedgeTradeResult :=
  let trade_shares := (target_shares - current_shares)%Z in
  let notional := float (Z.abs trade_shares) * spot_price in
  let fees := float (Z.abs trade_shares) * fee_per_share in
  let slippage := notional * (slippage_bps / 10000) in
  let cash_change := - (float trade_shares * spot_price) - fees - slippage in
  let new_cash := cash + cash_change in
  mkHedgeTradeResult target_shares new_cash trade_shares notional fees slippage.

(** The keyword defaults of [rebalance_delta_hedge]. *)
Definition default_fee_per_share : Q := 0.005.
Definition default_hedge_slippage_bps : Q := 1.

(* ===================================================================== *)
(** ** strategy/position_sizing.py                                         *)
(* ===================================================================== *)

Definition target_option_contracts (signal : Z)
    (option_price capital_base max_capital_at_risk size_factor : Q) : Z :=
  if (signal =? 0)%Z || (option_price <=? 0) || (capital_base <=? 0) then 0%Z
  else
    let bounded_size := Qmax 0 (Qmin size_factor 1) in
    let risk_budget := capital_base * max_capital_at_risk * bounded_size in
    let per_contract_notional := option_price * CONTRACT_MULTIPLIER in
    let contracts := py_floordiv risk_budget per_contract_notional in
    if (contracts <=? 0)%Z then 0%Z
    else if (signal >? 0)%Z then contracts else (- contracts)%Z.

Definition target_contracts_by_vega_budget (signal : Z)
    (capital_base option_vega max_abs_vega_ratio size_factor : Q) : Z :=
  if (signal =? 0)%Z || (capital_base <=? 0) || (option_vega <=? 0) then 0%Z
  else
    let bounded_size := Qmax 0 (Qmin size_factor 1) in
    let target_abs_vega :=
      capital_base * Qmax 0 max_abs_vega_ratio * bounded_size in
    let per_contract_vega := option_vega * CONTRACT_MULTIPLIER in
    let contracts := py_floordiv target_abs_vega per_contract_vega in
    if (contracts <=? 0)%Z then 0%Z
    else if (signal >? 0)%Z then contracts else (- contracts)%Z.

(* ===================================================================== *)
(** ** strategy/signal.py                                                  *)
(* ===================================================================== *)

Inductive StrategyMode : Type := mode_short | mode_long | mode_adaptive.

Inductive Stance : Type := SHORT_VOL | LONG_VOL | FLAT | PAUSED.

Definition Stance_eqb (a b : Stance) : bool :=
  match a, b with
  | SHORT_VOL, SHORT_VOL | LONG_VOL, LONG_VOL
  | FLAT, FLAT | PAUSED, PAUSED => true
  | _, _ => false
  end.

(** A float that may be [float("inf")]. *)
Inductive xfloat : Type :=
| Finite (q : Q)
| Infinity.

Record SignalConfig : Type := mkSignalConfig {
  rv_short_window : Z;
  rv_medium_window : Z;
  trend_window : Z;
  long_chop_window : Z;

  short_edge_threshold : Q;
  short_edge_collapse_tolerance : Q;
  short_trend_threshold : Q;
  short_jump_threshold : Q;
  short_rv_change_threshold : Q;

  long_edge_threshold : Q;
  long_max_iv_premium : Q;
  long_edge_collapse_tolerance : Q;
  long_rv_rise_threshold : Q;
  long_chop_threshold : Q;
  long_two_way_chop_score_threshold : Q;
  long_two_way_trend_threshold : Q;

  cooldown_bars : Z;
  adaptive_enter_persist_bars : Z;
  adaptive_exit_persist_bars : Z;
  adaptive_pause_bars : Z;
  adaptive_short_edge_enter : Q;
  adaptive_short_edge_exit : Q;
  adaptive_short_trend_enter : Q;
  adaptive_short_trend_exit : Q;
  adaptive_vov_low : Q;
  adaptive_vov_high : Q;
  adaptive_vov_exit : Q;
  adaptive_long_cheapness_enter : Q;
  adaptive_long_cheapness_exit : Q;
  adaptive_long_trend_max : Q;
  adaptive_confidence_buffer : Q
}.

Definition DEFAULT_SIGNAL_CONFIG : SignalConfig :=
  mkSignalConfig 30 240 120 30
                 0.02 0.005 0.004 0.006 0.06
                 0.015 0.03 0.005 0.003 0.00025 2 0.008
                 30 3 2 30
                 0.02 0.01 0.004 0.006 0.003 0.006 0.004
                 0.003 0.0015 0.008 0.001.

Definition min_warmup_bars (c : SignalConfig) : Z :=
  Z.max (Z.max (rv_short_window c) (rv_medium_window c)) (trend_window c).

Record SignalDecision : Type := mkSignalDecision {
  stance : Stance;
  signal : Z;
  reason : string;
  pricing_filter_passed : bool;
  path_filter_passed : bool;
  instability_filter_passed : bool;
  two_way_filter_passed : bool;
  edge : Q;
  edge_velocity : Q;
  rv_short : Q;
  rv_medium : Q;
  trend_strength : Q;
  jump_abs_return : Q;
  rv_change : Q;
  choppiness : Q;
  chop_score : xfloat;
  cooldown_remaining : Z;
  cooldown_active : bool
}.

Definition len {A : Type} (l : list A) : Z := Z.of_nat (List.length l).

(** [sum(values)]: left to right from 0. *)
Definition pysum (values : list Q) : Q := fold_left Qplus values 0.

(** [values[-w:]] for [w >= 1]: the last [w] items, all of them when
    there are fewer. *)
Definition last_items {A : Type} (w : Z) (values : list A) : list A :=
  skipn (List.length values - Z.to_nat w) values.

Definition _rolling_mean (values : list Q) (window : Z) : Result Q :=
  match values with
  | [] => Ok 0
  | _ =>
      let w := Z.max 1 (Z.min window (len values)) in
      let subset := last_items w values in
      pydiv (pysum subset) (float (len subset))
  end.

Definition _safe_price_trend_strength (spot : Q) (prices : list Q)
    (window : Z) : Result Q :=
  baseline <- _rolling_mean prices window ;;
  if baseline <=? 0 then Ok 0
  else
    ratio <- pydiv spot baseline ;;
    Ok (Qabs (ratio - 1)).

Definition _signal_for_stance (s : Stance) : Z :=
  match s with
  | LONG_VOL => 1
  | SHORT_VOL => -1
  | _ => 0
  end.

(** The metrics dictionary of [_base_metrics]. *)
Record Metrics : Type := mkMetrics {
  m_rv_short : Q;
  m_rv_medium : Q;
  m_edge : Q;
  m_edge_velocity : Q;
  m_trend_strength : Q;
  m_jump_abs_return : Q;
  m_rv_change : Q;
  m_choppiness : Q;
  m_chop_score : xfloat
}.

(** [choppiness / denom if denom > 1e-12 else float("inf")]. *)
Definition chop_score_of (choppiness denom : Q) : Result xfloat :=
  if denom >? 1e-12 then
    q <- pydiv choppiness denom ;; Ok (Finite q)
  else Ok Infinity.

Module RegimeSignalEngine.

(** The mutable fields of the engine object. *)
Record t : Type := mk {
  mode : StrategyMode;
  config : SignalConfig;
  prev_edge : option Q;
  prev_stance : Stance;
  cooldown_remaining : Z;
  adaptive_state : Stance;
  adaptive_pause_remaining : Z;
  adaptive_short_enter_count : Z;
  adaptive_long_enter_count : Z;
  adaptive_short_exit_count : Z;
  adaptive_long_exit_count : Z;
  adaptive_pause_reason : string
}.

Definition init (m : StrategyMode) (c : SignalConfig) : t :=
  mk m c None FLAT 0 FLAT 0 0 0 0 0 EmptyString.

(** Field assignments [self.f = v]. *)
Definition set_prev_edge (v : option Q) (s : t) : t :=
  mk (mode s) (config s) v (prev_stance s) (cooldown_remaining s)
     (adaptive_state s) (adaptive_pause_remaining s)
     (adaptive_short_enter_count s) (adaptive_long_enter_count s)
     (adaptive_short_exit_count s) (adaptive_long_exit_count s)
     (adaptive_pause_reason s).
Definition set_prev_stance (v : Stance) (s : t) : t :=
  mk (mode s) (config s) (prev_edge s) v (cooldown_remaining s)
     (adaptive_state s) (adaptive_pause_remaining s)
     (adaptive_short_enter_count s) (adaptive_long_enter_count s)
     (adaptive_short_exit_count s) (adaptive_long_exit_count s)
     (adaptive_pause_reason s).
Definition set_cooldown_remaining (v : Z) (s : t) : t :=
  mk (mode s) (config s) (prev_edge s) (prev_stance s) v
     (adaptive_state s) (adaptive_pause_remaining s)
     (adaptive_short_enter_count s) (adaptive_long_enter_count s)
     (adaptive_short_exit_count s) (adaptive_long_exit_count s)
     (adaptive_pause_reason s).
Definition set_adaptive_state (v : Stance) (s : t) : t :=
  mk (mode s) (config s) (prev_edge s) (prev_stance s) (cooldown_remaining s)
     v (adaptive_pause_remaining s)
     (adaptive_short_enter_count s) (adaptive_long_enter_count s)
     (adaptive_short_exit_count s) (adaptive_long_exit_count s)
     (adaptive_pause_reason s).
Definition set_adaptive_pause_remaining (v : Z) (s : t) : t :=
  mk (mode s) (config s) (prev_edge s) (prev_stance s) (cooldown_remaining s)
     (adaptive_state s) v
     (adaptive_short_enter_count s) (adaptive_long_enter_count s)
     (adaptive_short_exit_count s) (adaptive_long_exit_count s)
     (adaptive_pause_reason s).
Definition set_adaptive_short_enter_count (v : Z) (s : t) : t :=
  mk (mode s) (config s) (prev_edge s) (prev_stance s) (cooldown_remaining s)
     (adaptive_state s) (adaptive_pause_remaining s)
     v (adaptive_long_enter_count s)
     (adaptive_short_exit_count s) (adaptive_long_exit_count s)
     (adaptive_pause_reason s).
Definition set_adaptive_long_enter_count (v : Z) (s : t) : t :=
  mk (mode s) (config s) (prev_edge s) (prev_stance s) (cooldown_remaining s)
     (adaptive_state s) (adaptive_pause_remaining s)
     (adaptive_short_enter_count s) v
     (adaptive_short_exit_count s) (adaptive_long_exit_count s)
     (adaptive_pause_reason s).
Definition set_adaptive_short_exit_count (v : Z) (s : t) : t :=
  mk (mode s) (config s) (prev_edge s) (prev_stance s) (cooldown_remaining s)
     (adaptive_state s) (adaptive_pause_remaining s)
     (adaptive_short_enter_count s) (adaptive_long_enter_count s)
     v (adaptive_long_exit_count s)
     (adaptive_pause_reason s).
Definition set_adaptive_long_exit_count (v : Z) (s : t) : t :=
  mk (mode s) (config s) (prev_edge s) (prev_stance s) (cooldown_remaining s)
     (adaptive_state s) (adaptive_pause_remaining s)
     (adaptive_short_enter_count s) (adaptive_long_enter_count s)
     (adaptive_short_exit_count s) v
     (adaptive_pause_reason s).
Definition set_adaptive_pause_reason (v : string) (s : t) : t :=
  mk (mode s) (config s) (prev_edge s) (prev_stance s) (cooldown_remaining s)
     (adaptive_state s) (adaptive_pause_remaining s)
     (adaptive_short_enter_count s) (adaptive_long_enter_count s)
     (adaptive_short_exit_count s) (adaptive_long_exit_count s)
     v.

Definition force_pause (self : t) (bars : Z) (why : string) : t :=
  let pause_bars := Z.max 0 bars in
  if (pause_bars <=? 0)%Z then self
  else
    match mode self with
    | mode_adaptive | mode_long =>
        set_prev_stance PAUSED
          (set_adaptive_pause_reason why
            (set_adaptive_long_exit_count 0
              (set_adaptive_short_exit_count 0
                (set_adaptive_long_enter_count 0
                  (set_adaptive_short_enter_count 0
                    (set_adaptive_pause_remaining
                       (Z.max (adaptive_pause_remaining self) pause_bars)
                       (set_adaptive_state PAUSED self)))))))
    | mode_short =>
        set_cooldown_remaining
          (Z.max (cooldown_remaining self) pause_bars) self
    end.

Definition _adaptive_short_enter_ok (c : SignalConfig) (m : Metrics) : bool :=
  (m_edge m >? adaptive_short_edge_enter c)
  && (m_trend_strength m <? adaptive_short_trend_enter c)
  && (m_rv_change m <? adaptive_vov_low c).

Definition _adaptive_short_exit_ok (c : SignalConfig) (m : Metrics) : bool :=
  (m_edge m <? adaptive_short_edge_exit c)
  || (m_trend_strength m >? adaptive_short_trend_exit c)
  || (m_rv_change m >? adaptive_vov_high c).

Definition _adaptive_long_enter_ok (c : SignalConfig) (m : Metrics) : bool :=
  let cheapness := - m_edge m in
  (cheapness >? adaptive_long_cheapness_enter c)
  && (m_rv_change m >? adaptive_vov_high c)
  && (m_trend_strength m <? adaptive_long_trend_max c).

Definition _adaptive_long_exit_ok (c : SignalConfig) (m : Metrics) : bool :=
  let cheapness := - m_edge m in
  (cheapness <? adaptive_long_cheapness_exit c)
  || (m_rv_change m <? adaptive_vov_exit c).

(** Returns the engine with [prev_edge] updated, and the metrics. *)
Definition _base_metrics (self : t) (implied_vol : Q)
    (realized_vol_series : list Q) (spot : Q)
    (price_series return_series : list Q) : Result (t * Metrics) :=
  let c := config self in
  rv_short <- _rolling_mean realized_vol_series (rv_short_window c) ;;
  rv_medium <- _rolling_mean realized_vol_series (rv_medium_window c) ;;
  let edge := implied_vol - rv_short in
  let edge_velocity :=
    match prev_edge self with
    | None => 0
    | Some pe => edge - pe
    end in
  let self := set_prev_edge (Some edge) self in
  trend_strength <-
    _safe_price_trend_strength spot price_series (trend_window c) ;;
  let jump_abs_return :=
    match return_series with
    | [] => 0
    | _ => Qabs (List.last return_series 0)
    end in
  let rv_change := Qabs (rv_short - rv_medium) in
  choppiness <-
    _rolling_mean (List.map Qabs return_series) (long_chop_window c) ;;
  avg_return <- _rolling_mean return_series (long_chop_window c) ;;
  let denom := Qabs avg_return in
  chop_score <- chop_score_of choppiness denom ;;
  Ok (self,
      mkMetrics rv_short rv_medium edge edge_velocity trend_strength
                jump_abs_return rv_change choppiness chop_score).


(** What a branch of [decide] leaves in the locals
    [stance], [reason] and [cooldown_active]. *)
Record Outcome : Type := mkOutcome {
  o_self : t;
  o_stance : Stance;
  o_reason : string;
  o_cooldown_active : bool
}.

(** The PAUSED branch (the same statements in adaptive and long mode). *)
Definition paused_branch (self : t) : Outcome :=
  let self :=
    if (adaptive_pause_remaining self >? 0)%Z
    then set_adaptive_pause_remaining (adaptive_pause_remaining self - 1) self
    else self in
  let self := set_cooldown_remaining (adaptive_pause_remaining self) self in
  let pause_reason :=
    if String.eqb (adaptive_pause_reason self) EmptyString
    then "cooldown"%string else adaptive_pause_reason self in
  if (adaptive_pause_remaining self <=? 0)%Z then
    mkOutcome (set_adaptive_pause_reason EmptyString (set_adaptive_state FLAT self))
              FLAT "FLAT: pause complete" true
  else
    mkOutcome self PAUSED ("PAUSED: " ++ pause_reason) true.

(** The statements run when an exit has persisted: enter PAUSED. *)
Definition arm_pause (self : t) (why : string) : t :=
  set_adaptive_pause_reason why
    (set_adaptive_pause_remaining (Z.max 0 (adaptive_pause_bars (config self)))
      (set_adaptive_state PAUSED self)).

(** The SHORT_VOL branch of adaptive mode. *)
Definition short_vol_branch (self : t) (short_exit_ok : bool)
    (exit_persist : Z) : Outcome :=
  let self :=
    if short_exit_ok
    then set_adaptive_short_exit_count (adaptive_short_exit_count self + 1) self
    else set_adaptive_short_exit_count 0 self in
  if (adaptive_short_exit_count self >=? exit_persist)%Z then
    let self := arm_pause self "short exit" in
    let self := set_adaptive_short_exit_count 0 self in
    let self := set_adaptive_short_enter_count 0 self in
    let self := set_adaptive_long_enter_count 0 self in
    let cooldown_active := (adaptive_pause_remaining self >? 0)%Z in
    let self := set_cooldown_remaining (adaptive_pause_remaining self) self in
    mkOutcome self (if cooldown_active then PAUSED else FLAT)
              "PAUSED: short exit" cooldown_active
  else
    mkOutcome self SHORT_VOL "SHORT: regime active" false.

(** The LONG_VOL branch; adaptive mode also clears the short-enter
    counter on exit, long mode does not. *)
Definition long_vol_branch (self : t) (long_exit_ok : bool)
    (exit_persist : Z) (clear_short_enter : bool) : Outcome :=
  let self :=
    if long_exit_ok
    then set_adaptive_long_exit_count (adaptive_long_exit_count self + 1) self
    else set_adaptive_long_exit_count 0 self in
  if (adaptive_long_exit_count self >=? exit_persist)%Z then
    let self := arm_pause self "long exit" in
    let self := set_adaptive_long_exit_count 0 self in
    let self :=
      if clear_short_enter then set_adaptive_short_enter_count 0 self
      else self in
    let self := set_adaptive_long_enter_count 0 self in
    let cooldown_active := (adaptive_pause_remaining self >? 0)%Z in
    let self := set_cooldown_remaining (adaptive_pause_remaining self) self in
    mkOutcome self (if cooldown_active then PAUSED else FLAT)
              "PAUSED: long exit" cooldown_active
  else
    mkOutcome self LONG_VOL "LONG: regime active" false.

Definition short_strength (c : SignalConfig) (m : Metrics) : Q :=
  (m_edge m - adaptive_short_edge_enter c)
  + (adaptive_short_trend_enter c - m_trend_strength m)
  + (adaptive_vov_low c - m_rv_change m).

Definition long_strength (c : SignalConfig) (m : Metrics) : Q :=
  ((- m_edge m) - adaptive_long_cheapness_enter c)
  + (m_rv_change m - adaptive_vov_high c)
  + (adaptive_long_trend_max c - m_trend_strength m).

(** [selected_stance] of the FLAT block of adaptive mode, from the
    counters already updated for this bar. *)
Definition selected_stance (self : t) (m : Metrics) (enter_persist : Z)
  : Stance :=
  let c := config self in
  if (adaptive_short_enter_count self >=? enter_persist)%Z
     && (adaptive_long_enter_count self >=? enter_persist)%Z then
    if Qabs (short_strength c m - long_strength c m)
         >=? adaptive_confidence_buffer c
    then (if short_strength c m >=? long_strength c m
          then SHORT_VOL else LONG_VOL)
    else FLAT
  else if (adaptive_short_enter_count self >=? enter_persist)%Z then SHORT_VOL
  else if (adaptive_long_enter_count self >=? enter_persist)%Z then LONG_VOL
  else FLAT.

(** The block under [if self.adaptive_state == "FLAT"] of adaptive mode. *)
Definition flat_block (self : t) (m : Metrics)
    (short_enter_ok long_enter_ok : bool) (enter_persist : Z)
    (cooldown_active : bool) : Outcome :=
  let self :=
    if short_enter_ok
    then set_adaptive_short_enter_count (adaptive_short_enter_count self + 1) self
    else set_adaptive_short_enter_count 0 self in
  let self :=
    if long_enter_ok
    then set_adaptive_long_enter_count (adaptive_long_enter_count self + 1) self
    else set_adaptive_long_enter_count 0 self in
  match selected_stance self m enter_persist with
  | SHORT_VOL =>
      mkOutcome (set_adaptive_long_exit_count 0
                  (set_adaptive_short_exit_count 0
                    (set_adaptive_state SHORT_VOL self)))
                SHORT_VOL "SHORT: adaptive enter persisted" cooldown_active
  | LONG_VOL =>
      mkOutcome (set_adaptive_long_exit_count 0
                  (set_adaptive_short_exit_count 0
                    (set_adaptive_state LONG_VOL self)))
                LONG_VOL "LONG: adaptive enter persisted" cooldown_active
  | _ =>
      mkOutcome self FLAT "FLAT: no adaptive regime" cooldown_active
  end.

(** The [else] block of long mode (sub-state neither PAUSED nor LONG_VOL). *)
Definition long_flat_block (self : t) (long_enter_ok : bool)
    (enter_persist : Z) : Outcome :=
  let self := set_adaptive_state FLAT self in
  let self :=
    if long_enter_ok
    then set_adaptive_long_enter_count (adaptive_long_enter_count self + 1) self
    else set_adaptive_long_enter_count 0 self in
  if (adaptive_long_enter_count self >=? enter_persist)%Z then
    mkOutcome (set_adaptive_long_exit_count 0
                (set_adaptive_state LONG_VOL self))
              LONG_VOL "LONG: adaptive enter persisted" false
  else
    mkOutcome self FLAT "FLAT: no long adaptive regime" false.

(** The four filter flags reported by a decision. *)
Record Flags : Type := mkFlags {
  pricing_ok : bool;
  path_ok : bool;
  instability_ok : bool;
  two_way_ok : bool
}.

Definition initial_flags : Flags := mkFlags false true true true.

Definition short_pricing_ok (c : SignalConfig) (m : Metrics) : bool :=
  (m_edge m >=? short_edge_threshold c)
  && (m_edge_velocity m >=? - short_edge_collapse_tolerance c).

Definition short_path_ok (c : SignalConfig) (m : Metrics) : bool :=
  (m_trend_strength m <=? short_trend_threshold c)
  && (m_jump_abs_return m <=? short_jump_threshold c)
  && (m_rv_change m <=? short_rv_change_threshold c).

(** [f"FLAT: short gate fail ({'+'.join(failed)})"]. *)
Definition short_gate_fail_reason (pricing path : bool) : string :=
  let failed :=
    (if pricing then [] else ["pricing"%string])
    ++ (if path then [] else ["path"%string]) in
  ("FLAT: short gate fail (" ++ String.concat "+" failed ++ ")")%string.

(** The branch chain of [decide] after the metrics are computed.  The
    final [else] of the source (the legacy long filter) needs a mode
    other than the three of [StrategyMode] and is not reachable. *)
Definition decide_branch (self : t) (m : Metrics) (price_series : list Q)
  : Outcome * Flags :=
  let c := config self in
  if (len price_series <? min_warmup_bars c)%Z then
    (mkOutcome self FLAT "FLAT: warmup" false, initial_flags)
  else
    match mode self with
    | mode_adaptive =>
        let enter_persist := Z.max 1 (adaptive_enter_persist_bars c) in
        let exit_persist := Z.max 1 (adaptive_exit_persist_bars c) in
        let short_enter_ok := _adaptive_short_enter_ok c m in
        let long_enter_ok := _adaptive_long_enter_ok c m in
        let short_exit_ok := _adaptive_short_exit_ok c m in
        let long_exit_ok := _adaptive_long_exit_ok c m in
        let flags :=
          mkFlags (short_enter_ok || long_enter_ok) short_enter_ok
                  long_enter_ok
                  (m_trend_strength m <? adaptive_long_trend_max c) in
        let o :=
          match adaptive_state self with
          | PAUSED => paused_branch self
          | SHORT_VOL => short_vol_branch self short_exit_ok exit_persist
          | LONG_VOL => long_vol_branch self long_exit_ok exit_persist true
          | FLAT => mkOutcome self FLAT "FLAT: warmup" false
          end in
        let o :=
          if Stance_eqb (adaptive_state (o_self o)) FLAT
          then flat_block (o_self o) m short_enter_ok long_enter_ok
                          enter_persist (o_cooldown_active o)
          else o in
        (mkOutcome
           (set_cooldown_remaining (adaptive_pause_remaining (o_self o))
                                   (o_self o))
           (o_stance o) (o_reason o) (o_cooldown_active o),
         flags)
    | mode_long =>
        let enter_persist := Z.max 1 (adaptive_enter_persist_bars c) in
        let exit_persist := Z.max 1 (adaptive_exit_persist_bars c) in
        let long_enter_ok := _adaptive_long_enter_ok c m in
        let long_exit_ok := _adaptive_long_exit_ok c m in
        let flags :=
          mkFlags long_enter_ok true long_enter_ok
                  (m_trend_strength m <? adaptive_long_trend_max c) in
        let o :=
          match adaptive_state self with
          | PAUSED => paused_branch self
          | LONG_VOL => long_vol_branch self long_exit_ok exit_persist false
          | _ => long_flat_block self long_enter_ok enter_persist
          end in
        (mkOutcome
           (set_cooldown_remaining (adaptive_pause_remaining (o_self o))
                                   (o_self o))
           (o_stance o) (o_reason o) (o_cooldown_active o),
         flags)
    | mode_short =>
        if (cooldown_remaining self >? 0)%Z then
          (mkOutcome
             (set_cooldown_remaining (cooldown_remaining self - 1) self)
             FLAT "FLAT: cooldown" true,
           initial_flags)
        else
          let pricing := short_pricing_ok c m in
          let path := short_path_ok c m in
          let flags := mkFlags pricing path true true in
          if pricing && path then
            (mkOutcome self SHORT_VOL "SHORT: edge+path OK" false, flags)
          else
            (mkOutcome self FLAT (short_gate_fail_reason pricing path) false,
             flags)
    end.

(** The statements after the branch chain: arm the short-mode cooldown
    and remember the stance. *)
Definition decide_finish (o : Outcome) : t :=
  let self := o_self o in
  let self :=
    match mode self with
    | mode_short =>
        if Stance_eqb (o_stance o) FLAT
           && negb (Stance_eqb (prev_stance self) FLAT)
           && (cooldown_bars (config self) >? 0)%Z
        then set_cooldown_remaining (cooldown_bars (config self)) self
        else self
    | _ => self
    end in
  set_prev_stance (o_stance o) self.

Definition decide (self : t) (implied_vol : Q)
    (realized_vol_series : list Q) (spot : Q)
    (price_series return_series : list Q) : Result (t * SignalDecision) :=
  sm <- _base_metrics self implied_vol realized_vol_series spot
                      price_series return_series ;;
  let '(self, m) := sm in
  let '(o, flags) := decide_branch self m price_series in
  let self := decide_finish o in
  Ok (self,
      mkSignalDecision
        (o_stance o) (_signal_for_stance (o_stance o)) (o_reason o)
        (pricing_ok flags) (path_ok flags)
        (instability_ok flags) (two_way_ok flags)
        (m_edge m) (m_edge_velocity m) (m_rv_short m) (m_rv_medium m)
        (m_trend_strength m) (m_jump_abs_return m) (m_rv_change m)
        (m_choppiness m) (m_chop_score m)
        (cooldown_remaining self) (o_cooldown_active o)).

End RegimeSignalEngine.

(* ===================================================================== *)
(** ** main.py: projected-trade evaluation and the risk clamp              *)
(* ===================================================================== *)

Definition INITIAL_CAPITAL : Q := 10000.

Definition gamma_risk_metric (gamma_exposure spot_price : Q) : Q :=
  Qabs gamma_exposure * Qmax spot_price 0 * 0.0001.

(** [int(round(-contracts * delta * 100.0))]. *)
Definition hedge_target (contracts : Z) (option_delta : Q) : Z :=
  py_round (float (- contracts) * option_delta * 100).

Definition evaluate_projected_trade (risk_limits : RiskLimits.t)
    (projected_option_contracts : Z)
    (spot_price option_price option_delta option_gamma option_vega
     projected_equity : Q) : bool * string * Exposures :=
  let projected_hedge_shares :=
    hedge_target projected_option_contracts option_delta in
  let projected_exposure :=
    compute_exposures projected_option_contracts projected_hedge_shares
                      spot_price option_price option_delta option_gamma
                      option_vega in
  let '(trade_allowed, block_reason) :=
    RiskLimits.trade_allowed risk_limits projected_option_contracts
      option_price (notional_exposure projected_exposure)
      (Qabs (gamma_exposure projected_exposure))
      (Qabs (vega_exposure projected_exposure)) projected_equity in
  (trade_allowed, block_reason, projected_exposure).

(** The first component of [evaluate_projected_trade]: whether the
    candidate position passes the limits. *)
Definition projected_trade_allowed (risk_limits : RiskLimits.t)
    (spot_price option_price option_delta option_gamma option_vega
     projected_equity : Q) (candidate : Z) : bool :=
  fst (fst (evaluate_projected_trade risk_limits candidate spot_price
              option_price option_delta option_gamma option_vega
              projected_equity)).

(** The [while low <= high] loop of [clamp_target_to_risk_limits], over
    the test [allowed] made on each candidate; returns the final
    [best_abs]. *)
Equations? clamp_search (allowed : Z -> bool) (sign low high best_abs : Z)
  : Z by wf (Z.to_nat (high - low + 1)) lt :=
  clamp_search allowed sign low high best_abs with Z_le_gt_dec low high => {
    | right _ := best_abs;
    | left _ with allowed (sign * ((low + high) / 2))%Z => {
        | true :=
            clamp_search allowed sign ((low + high) / 2 + 1)%Z high
                         ((low + high) / 2)%Z;
        | false :=
            clamp_search allowed sign low ((low + high) / 2 - 1)%Z best_abs } }.
Proof.
  all: assert (low <= (low + high) / 2 <= high)%Z
         by (split; [apply Z.div_le_lower_bound | apply Z.div_le_upper_bound];
             lia);
       lia.
Qed.

Definition clamp_target_to_risk_limits (desired_contracts : Z)
    (risk_limits : RiskLimits.t)
    (spot_price option_price option_delta option_gamma option_vega
     projected_equity : Q) : Z :=
  if (desired_contracts =? 0)%Z then 0%Z
  else
    let sign := if (desired_contracts >? 0)%Z then 1%Z else (-1)%Z in
    let best_abs :=
      clamp_search
        (projected_trade_allowed risk_limits spot_price option_price
           option_delta option_gamma option_vega projected_equity)
        sign 0 (Z.abs desired_contracts) 0 in
    (sign * best_abs)%Z.

(* ===================================================================== *)
(** ** main.py: the simulation loop of [run_single_mode]                   *)
(* ===================================================================== *)

(** The command-line values the loop reads. *)
Record Args : Type := mkArgs {
  gamma_green_threshold : Q;
  gamma_red_threshold : Q;
  gamma_yellow_size_factor : Q;
  gamma_red_size_factor : Q;
  gamma_kill_drawdown_threshold : Q;
  max_leverage : Q;
  max_abs_gamma : Q;
  max_abs_vega : Q;
  long_pause_drawdown_threshold : Q;
  long_catastrophic_kill_threshold : Q;
  long_vega_budget_ratio : Q;
  global_drawdown_throttle_threshold : Q;
  global_drawdown_kill_threshold : Q;
  global_drawdown_throttle_size_factor : Q;
  args_adaptive_pause_bars : Z;
  args_cooldown_bars : Z
}.

(** One row of [market_data]. *)
Record Bar : Type := mkBar {
  date : string;
  close : Q;
  realized_vol : Q;
  option_mid : Q;
  iv : Q;
  delta : Q;
  gamma : Q;
  vega : Q
}.

(** The dictionary kept in [first_long_trade_pending]. *)
Record LongEntry : Type := mkLongEntry {
  entry_time : string;
  entry_spot : Q;
  entry_iv : Q;
  entry_rv_short : Q;
  entry_rv_medium : Q;
  entry_trend_strength : Q;
  entry_contracts : Z;
  entry_delta_exposure : Q;
  entry_gamma_exposure : Q;
  entry_vega_exposure : Q
}.

(** The lines appended to [events]; the formatted text is kept as its
    tag and the values it prints. *)
Inductive Event : Type :=
| LONG_DIAGNOSTIC (d : string) (entry : LongEntry) (next_bar_return : Q)
| RISK (d : string) (tags : list string) (m : StrategyMode)
       (dd gamma_risk : Q) (zone : string) (size_factor : Q)
| RISK_ALLOW_DERISK (d : string) (m : StrategyMode) (target opening : Z)
                    (why : string)
| RISK_CLAMP (d : string) (m : StrategyMode) (requested clamped : Z)
             (why : string)
| RISK_BLOCK (d : string) (m : StrategyMode) (why : string)
| STANCE (d : string) (old new : Stance) (m : StrategyMode) (why : string)
| STRATEGY_GATE (d : string) (m : StrategyMode) (pricing path : bool).

(** [x in tags]. *)
Definition mem (x : string) (tags : list string) : bool :=
  existsb (String.eqb x) tags.

(** [if x not in tags: tags.append(x)]. *)
Definition append_if_absent (x : string) (tags : list string) : list string :=
  if mem x tags then tags else tags ++ [x].

(** The locals set by the mode-specific overlays on the kill switch. *)
Record Overlay : Type := mkOverlay {
  risk_reasons : list string;
  effective_size_factor : Q;
  flatten_for_risk : bool;
  adaptive_pause_side : string;
  adaptive_pause_requires_invalid : bool;
  adaptive_pause_reason : string
}.

Definition overlay_of_kill (k : KillSwitch.KillSwitchAction) : Overlay :=
  mkOverlay (KillSwitch.reasons k) (KillSwitch.size_factor k)
            (KillSwitch.flatten_positions k) EmptyString false EmptyString.

Definition or_default (s dflt : string) : string :=
  if String.eqb s EmptyString then dflt else s.

Definition overlay_short (args : Args) (k : KillSwitch.KillSwitchAction)
    (dd : Q) : Overlay :=
  let o := overlay_of_kill k in
  if dd >=? global_drawdown_kill_threshold args then
    mkOverlay (append_if_absent "GLOBAL_DRAWDOWN_KILL" (risk_reasons o))
              (effective_size_factor o) true EmptyString false EmptyString
  else if dd >=? global_drawdown_throttle_threshold args then
    mkOverlay (risk_reasons o ++ ["GLOBAL_DRAWDOWN_THROTTLE"%string])
              (effective_size_factor o
               * global_drawdown_throttle_size_factor args)
              (flatten_for_risk o) EmptyString false EmptyString
  else o.

(** The global kill / throttle pair, shared by long and adaptive mode;
    [side] is the pause side recorded on a kill. *)
Definition overlay_global (args : Args) (dd : Q) (has_exposure : bool)
    (side : string) (o : Overlay) : Overlay :=
  if (dd >=? global_drawdown_kill_threshold args) && has_exposure then
    mkOverlay (append_if_absent "GLOBAL_DRAWDOWN_KILL" (risk_reasons o))
              (effective_size_factor o) true side
              (adaptive_pause_requires_invalid o) "GLOBAL_DRAWDOWN_KILL"
  else if (dd >=? global_drawdown_throttle_threshold args) && has_exposure then
    mkOverlay (append_if_absent "GLOBAL_DRAWDOWN_THROTTLE" (risk_reasons o))
              (effective_size_factor o
               * global_drawdown_throttle_size_factor args)
              (flatten_for_risk o) (adaptive_pause_side o)
              (adaptive_pause_requires_invalid o) (adaptive_pause_reason o)
  else o.

(** The catastrophic kill / pause pair on long exposure. *)
Definition overlay_long_drawdown (args : Args) (dd : Q) (long_exposed : bool)
    (o : Overlay) : Overlay :=
  if (dd >=? long_catastrophic_kill_threshold args) && long_exposed then
    mkOverlay (append_if_absent "LONG_CATASTROPHIC_KILL" (risk_reasons o))
              (effective_size_factor o) true "long"
              (adaptive_pause_requires_invalid o) "LONG_CATASTROPHIC_KILL"
  else if (dd >=? long_pause_drawdown_threshold args) && long_exposed then
    mkOverlay (append_if_absent "LONG_PAUSE_DRAWDOWN" (risk_reasons o))
              (effective_size_factor o) (flatten_for_risk o) "long"
              true "LONG_PAUSE_DRAWDOWN"
  else o.

Definition overlay_long (args : Args) (k : KillSwitch.KillSwitchAction)
    (dd : Q) (opening_option_contracts : Z) : Overlay :=
  let long_has_exposure := (opening_option_contracts >? 0)%Z in
  let o := overlay_of_kill k in
  let o := overlay_global args dd long_has_exposure "long" o in
  let o := overlay_long_drawdown args dd long_has_exposure o in
  if KillSwitch.flatten_positions k && long_has_exposure then
    mkOverlay (risk_reasons o) (effective_size_factor o) true "long"
              (adaptive_pause_requires_invalid o)
              (or_default (adaptive_pause_reason o) "GAMMA_RED_DRAWDOWN_KILL")
  else o.

Definition overlay_adaptive (args : Args) (k : KillSwitch.KillSwitchAction)
    (dd : Q) (opening_option_contracts : Z) : Overlay :=
  let adaptive_has_exposure := negb (opening_option_contracts =? 0)%Z in
  let adaptive_side :=
    if (opening_option_contracts <? 0)%Z then "short"%string
    else "long"%string in
  let o := overlay_of_kill k in
  let o := overlay_global args dd adaptive_has_exposure adaptive_side o in
  let o :=
    overlay_long_drawdown args dd
      (String.eqb adaptive_side "long" && adaptive_has_exposure) o in
  if KillSwitch.flatten_positions k && adaptive_has_exposure then
    mkOverlay (risk_reasons o) (effective_size_factor o) true
              (or_default (adaptive_pause_side o) adaptive_side)
              (adaptive_pause_requires_invalid o)
              (or_default (adaptive_pause_reason o) "GAMMA_RED_DRAWDOWN_KILL")
  else o.

Definition risk_overlay (mode : StrategyMode) (args : Args)
    (k : KillSwitch.KillSwitchAction) (dd : Q)
    (opening_option_contracts : Z) : Overlay :=
  match mode with
  | mode_short => overlay_short args k dd
  | mode_long => overlay_long args k dd opening_option_contracts
  | mode_adaptive => overlay_adaptive args k dd opening_option_contracts
  end.

(** The target taken over from the previous bar, before the risk-limit
    check: [pending_target_contracts], or 0 on a forced flatten. *)
Definition adopted_target (pending_target_contracts : Z)
    (flatten_for_risk : bool) : Z :=
  if flatten_for_risk then 0%Z else pending_target_contracts.

(** What the risk-limit check leaves: the target to execute, the block
    reason and the events it logged. *)
Record RiskCheck : Type := mkRiskCheck {
  rc_target_contracts : Z;
  rc_block_reason : string;
  rc_events : list Event
}.

Definition risk_limit_check (mode : StrategyMode) (risk_limits : RiskLimits.t)
    (row : Bar) (forced_derisk : bool)
    (target_contracts opening_option_contracts : Z)
    (equity_before_trade : Q) : RiskCheck :=
  if forced_derisk then mkRiskCheck target_contracts EmptyString []
  else
    let '(trade_allowed, block_reason, _) :=
      evaluate_projected_trade risk_limits target_contracts (close row)
        (option_mid row) (delta row) (gamma row) (vega row)
        equity_before_trade in
    if trade_allowed then mkRiskCheck target_contracts block_reason []
    else
      let reducing_risk :=
        (Z.abs target_contracts <? Z.abs opening_option_contracts)%Z in
      if reducing_risk then
        mkRiskCheck target_contracts block_reason
          [RISK_ALLOW_DERISK (date row) mode target_contracts
                             opening_option_contracts block_reason]
      else
        let clamped_target :=
          clamp_target_to_risk_limits target_contracts risk_limits
            (close row) (option_mid row) (delta row) (gamma row) (vega row)
            equity_before_trade in
        if (Z.abs clamped_target >? Z.abs opening_option_contracts)%Z then
          mkRiskCheck clamped_target EmptyString
            [RISK_CLAMP (date row) mode target_contracts clamped_target
                        block_reason]
        else
          mkRiskCheck opening_option_contracts block_reason
            [RISK_BLOCK (date row) mode block_reason].

(** The loop variables that live across bars.  The report-only
    accumulators ([pnl], [prev_equity] for [daily_return], [leverage],
    [cash_usage]) do not feed any decision and are left out. *)
Record SimState : Type := mkSimState {
  signal_engine : RegimeSignalEngine.t;
  drawdown : DrawdownTracker.t;
  cash : Q;
  option_contracts : Z;
  hedge_shares : Z;
  prev_spot : option Q;
  prev_option_mid : option Q;
  prev_stance : Stance;
  spot_history : list Q;
  rv_history : list Q;
  return_history : list Q;
  events : list Event;
  pending_target_contracts : Z;
  first_long_trade_pending : option LongEntry;
  first_long_trade_logged : bool;
  long_bars_in_position : Z;
  adaptive_short_pause_remaining : Z;
  adaptive_long_pause_remaining : Z
}.

(** The per-bar record: the fields of [step_rows] that are not rounded
    for display, and the locals of the loop body the properties speak
    about. *)
Record StepRow : Type := mkStepRow {
  row_date : string;
  row_decision : SignalDecision;
  strategy_gate_reason : string;
  requested_option_contracts : Z;
  row_overlay : Overlay;                (* the overlay locals of the bar *)
  row_adopted_target : Z;               (* [target_contracts] before the check *)
  executed_target_contracts : Z;
  row_option_contracts : Z;
  row_sized_target : Z;                 (* [next_target_contracts] before the gates *)
  queued_option_contracts : Z;
  row_hedge_shares : Z;
  row_equity_before_trade : Q;
  row_drawdown_before_trade : Q;
  row_equity : Q;
  row_drawdown : Q;
  row_kill_action : KillSwitch.KillSwitchAction;
  row_gamma_risk : Q;
  risk_block_reason : string
}.

(** The local [flatten_for_risk] of the bar. *)
Definition row_flatten_for_risk (r : StepRow) : bool :=
  flatten_for_risk (row_overlay r).

(** The desired next-bar target, before the strategy gates. *)
Definition sized_target (mode : StrategyMode) (args : Args)
    (risk_limits : RiskLimits.t) (decision : SignalDecision) (row : Bar)
    (equity size_factor : Q) : Z :=
  match mode with
  | mode_short =>
      target_option_contracts (signal decision) (option_mid row)
        (Qmax equity 0) (RiskLimits.max_capital_at_risk risk_limits)
        size_factor
  | mode_long =>
      target_contracts_by_vega_budget (signal decision) (Qmax equity 0)
        (vega row) (long_vega_budget_ratio args) size_factor
  | mode_adaptive =>
      if (signal decision <? 0)%Z then
        target_option_contracts (-1) (option_mid row) (Qmax equity 0)
          (RiskLimits.max_capital_at_risk risk_limits) size_factor
      else if (signal decision >? 0)%Z then
        target_contracts_by_vega_budget 1 (Qmax equity 0) (vega row)
          (long_vega_budget_ratio args) size_factor
      else 0%Z
  end.

(** What the strategy gates leave. *)
Record Gate : Type := mkGate {
  g_next_target_contracts : Z;
  g_reason : string;
  g_short_pause_remaining : Z;
  g_long_pause_remaining : Z;
  g_events : list Event
}.

Definition gate_short (row : Bar) (decision : SignalDecision)
    (flatten : bool) (next_target_contracts option_contracts : Z)
    (short_pause long_pause : Z) : Gate :=
  let g := mkGate next_target_contracts EmptyString short_pause long_pause [] in
  let g :=
    if negb (pricing_filter_passed decision)
       || negb (path_filter_passed decision) then
      mkGate 0 "SHORT_GATE_FORCE_FLAT" short_pause long_pause
        (if negb (next_target_contracts =? 0)%Z
            || negb (option_contracts =? 0)%Z
         then [STRATEGY_GATE (date row) mode_short
                             (pricing_filter_passed decision)
                             (path_filter_passed decision)]
         else [])
    else g in
  if flatten then
    mkGate 0 "SHORT_RISK_FLATTEN" short_pause long_pause (g_events g)
  else g.

(** The two gates long and adaptive mode share: a PAUSED stance, else a
    forced flatten. *)
Definition gate_paused_or_flatten (decision : SignalDecision)
    (flatten : bool) (g : Gate) : Gate :=
  if Stance_eqb (stance decision) PAUSED then
    mkGate 0 "ADAPTIVE_PAUSED" (g_short_pause_remaining g)
           (g_long_pause_remaining g) (g_events g)
  else if flatten then
    mkGate 0 "ADAPTIVE_RISK_FLATTEN" (g_short_pause_remaining g)
           (g_long_pause_remaining g) (g_events g)
  else g.

Definition gate_long (args : Args) (decision : SignalDecision)
    (o : Overlay) (next_target_contracts : Z)
    (short_pause long_pause : Z) : Gate :=
  let next_target_contracts :=
    if (next_target_contracts <? 0)%Z then 0%Z else next_target_contracts in
  let g := mkGate next_target_contracts EmptyString short_pause long_pause [] in
  let pause_applied :=
    if String.eqb (adaptive_pause_side o) "long" then
      if adaptive_pause_requires_invalid o
      then negb (Stance_eqb (stance decision) LONG_VOL)
      else true
    else false in
  let g :=
    if pause_applied then
      let pause_len :=
        Z.max (args_adaptive_pause_bars args) (args_cooldown_bars args) in
      mkGate 0 "ADAPTIVE_LONG_PAUSED_RISK" (g_short_pause_remaining g)
             (Z.max (g_long_pause_remaining g) pause_len) (g_events g)
    else g in
  let g := gate_paused_or_flatten decision (flatten_for_risk o) g in
  if (g_next_target_contracts g >? 0)%Z
     && (g_long_pause_remaining g >? 0)%Z then
    mkGate 0 "ADAPTIVE_LONG_PAUSED" (g_short_pause_remaining g)
           (g_long_pause_remaining g) (g_events g)
  else g.

Definition gate_adaptive (args : Args) (decision : SignalDecision)
    (o : Overlay) (next_target_contracts option_contracts : Z)
    (short_pause long_pause : Z) : Gate :=
  let g := mkGate next_target_contracts EmptyString short_pause long_pause [] in
  let pause_applied :=
    if negb (String.eqb (adaptive_pause_side o) EmptyString) then
      if adaptive_pause_requires_invalid o then
        if String.eqb (adaptive_pause_side o) "short"
        then negb (Stance_eqb (stance decision) SHORT_VOL)
        else negb (Stance_eqb (stance decision) LONG_VOL)
      else true
    else false in
  let g :=
    if pause_applied then
      let pause_len :=
        Z.max (args_adaptive_pause_bars args) (args_cooldown_bars args) in
      if String.eqb (adaptive_pause_side o) "short" then
        mkGate 0 "ADAPTIVE_SHORT_PAUSED_RISK"
               (Z.max (g_short_pause_remaining g) pause_len)
               (g_long_pause_remaining g) (g_events g)
      else if String.eqb (adaptive_pause_side o) "long" then
        mkGate 0 "ADAPTIVE_LONG_PAUSED_RISK" (g_short_pause_remaining g)
               (Z.max (g_long_pause_remaining g) pause_len) (g_events g)
      else
        mkGate 0 (g_reason g) (g_short_pause_remaining g)
               (g_long_pause_remaining g) (g_events g)
    else g in
  let g := gate_paused_or_flatten decision (flatten_for_risk o) g in
  let g :=
    if (g_next_target_contracts g <? 0)%Z
       && (g_short_pause_remaining g >? 0)%Z then
      mkGate 0 "ADAPTIVE_SHORT_PAUSED" (g_short_pause_remaining g)
             (g_long_pause_remaining g) (g_events g)
    else if (g_next_target_contracts g >? 0)%Z
            && (g_long_pause_remaining g >? 0)%Z then
      mkGate 0 "ADAPTIVE_LONG_PAUSED" (g_short_pause_remaining g)
             (g_long_pause_remaining g) (g_events g)
    else g in
  if ((option_contracts <? 0)%Z && (0 <? g_next_target_contracts g)%Z)
     || ((option_contracts >? 0)%Z && (0 >? g_next_target_contracts g)%Z) then
    mkGate 0 "ADAPTIVE_SWITCH_THROUGH_FLAT" (g_short_pause_remaining g)
           (g_long_pause_remaining g) (g_events g)
  else g.

Definition strategy_gate (mode : StrategyMode) (args : Args) (row : Bar)
    (decision : SignalDecision) (o : Overlay)
    (next_target_contracts option_contracts : Z)
    (short_pause long_pause : Z) : Gate :=
  match mode with
  | mode_short =>
      gate_short row decision (flatten_for_risk o) next_target_contracts
                 option_contracts short_pause long_pause
  | mode_long =>
      gate_long args decision o next_target_contracts short_pause long_pause
  | mode_adaptive =>
      gate_adaptive args decision o next_target_contracts option_contracts
                    short_pause long_pause
  end.

Section Loop.

(** [math.log] on positive arguments. *)
Variable ln : Q -> Q.
Variable mode : StrategyMode.
Variable args : Args.

(** [math.log(x)]: a domain error on a non-positive argument. *)
Definition math_log (x : Q) : Result Q :=
  if x <=? 0 then Raise ValueError else Ok (ln x).

Definition risk_limits : RiskLimits.t :=
  RiskLimits.mk INITIAL_CAPITAL 0.20 (max_leverage args)
                (max_abs_gamma args) (max_abs_vega args).

Definition kill_switch : KillSwitch.t :=
  KillSwitch.mk (gamma_green_threshold args) (gamma_red_threshold args)
                (gamma_yellow_size_factor args) (gamma_red_size_factor args)
                (gamma_kill_drawdown_threshold args).

Definition initial_state (signal_config : SignalConfig) : SimState :=
  mkSimState (RegimeSignalEngine.init mode signal_config)
             (DrawdownTracker.mk INITIAL_CAPITAL 0)
             INITIAL_CAPITAL 0 0 None None FLAT [] [] [] [] 0
             None false 0 0 0.

(** The diagnostic printed on the bar after the first long entry. *)
Definition long_diagnostic (st : SimState) (row : Bar)
  : Result (list Event) :=
  match first_long_trade_pending st with
  | None => Ok []
  | Some entry =>
      next_bar_return <-
        (if entry_spot entry <=? 0 then Ok 0
         else
           ratio <- pydiv (close row) (entry_spot entry) ;;
           math_log ratio) ;;
      Ok [LONG_DIAGNOSTIC (date row) entry next_bar_return]
  end.

(** [return_history] after this bar's append. *)
Definition next_return_history (st : SimState) (row : Bar)
  : Result (list Q) :=
  match prev_spot st with
  | Some ps =>
      if ps >? 0 then
        ratio <- pydiv (close row) ps ;;
        r <- math_log ratio ;;
        Ok (return_history st ++ [r])
      else Ok (return_history st)
  | None => Ok (return_history st)
  end.

(** A pause counter after the decrement at the top of the bar. *)
Definition ticked (n : Z) : Z := if (n >? 0)%Z then (n - 1)%Z else n.

(** The locals computed from the opening position, before any trade:
    equity and drawdown "before trade", the gamma-risk metric, the kill
    switch action and the overlays on it. *)
Record PreTrade : Type := mkPreTrade {
  pt_equity_before_trade : Q;
  pt_drawdown_before_trade : Q;
  pt_gamma_risk : Q;
  pt_kill_action : KillSwitch.KillSwitchAction;
  pt_overlay : Overlay
}.

Definition pre_trade (st : SimState) (row : Bar) : PreTrade :=
  let spot := close row in
  let opening_option_contracts := option_contracts st in
  let opening_hedge_shares := hedge_shares st in
  let equity_before_trade :=
    cash st + float opening_option_contracts * 100 * option_mid row
    + float opening_hedge_shares * spot in
  let drawdown_before_trade :=
    DrawdownTracker.peek (drawdown st) equity_before_trade in
  let exposures_before :=
    compute_exposures opening_option_contracts opening_hedge_shares spot
      (option_mid row) (delta row) (gamma row) (vega row) in
  let gamma_risk :=
    gamma_risk_metric (gamma_exposure exposures_before) spot in
  let kill_action :=
    KillSwitch.evaluate kill_switch gamma_risk drawdown_before_trade in
  mkPreTrade equity_before_trade drawdown_before_trade gamma_risk
    kill_action
    (risk_overlay mode args kill_action drawdown_before_trade
                  opening_option_contracts).

(** The [RISK] line, logged when the overlays left a reason. *)
Definition risk_event (row : Bar) (pt : PreTrade) : list Event :=
  match risk_reasons (pt_overlay pt) with
  | [] => []
  | _ => [RISK (date row) (risk_reasons (pt_overlay pt)) mode
               (pt_drawdown_before_trade pt) (pt_gamma_risk pt)
               (KillSwitch.zone (pt_kill_action pt))
               (effective_size_factor (pt_overlay pt))]
  end.

(** The locals of the execution part: the target taken over from the
    previous bar, the risk-limit check, the two trades and the equity
    and drawdown "after trade". *)
Record Traded : Type := mkTraded {
  tr_target_contracts : Z;
  tr_check : RiskCheck;
  tr_option_contracts : Z;
  tr_hedge_shares : Z;
  tr_cash : Q;
  tr_equity : Q;
  tr_drawdown : DrawdownTracker.t;
  tr_drawdown_after_trade : Q
}.

Definition trade (st : SimState) (row : Bar) (pt : PreTrade) : Traded :=
  let spot := close row in
  let opening_option_contracts := option_contracts st in
  let opening_hedge_shares := hedge_shares st in
  (* Execute the target produced by the previous bar's signal. *)
  let target_contracts :=
    adopted_target (pending_target_contracts st)
                   (flatten_for_risk (pt_overlay pt)) in
  let rc :=
    risk_limit_check mode risk_limits row (flatten_for_risk (pt_overlay pt))
      target_contracts opening_option_contracts
      (pt_equity_before_trade pt) in
  let option_trade :=
    execute_option_trade opening_option_contracts (rc_target_contracts rc)
      (option_mid row) (cash st)
      default_fee_per_contract default_option_slippage_bps in
  let option_contracts := new_contracts option_trade in
  let cash := option_cash option_trade in
  let target_hedge_shares := hedge_target option_contracts (delta row) in
  let hedge_trade :=
    rebalance_delta_hedge opening_hedge_shares target_hedge_shares spot cash
      default_fee_per_share default_hedge_slippage_bps in
  let hedge_shares := new_shares hedge_trade in
  let cash := hedge_cash hedge_trade in
  let equity :=
    cash + float option_contracts * 100 * option_mid row
    + float hedge_shares * spot in
  let upd := DrawdownTracker.update (drawdown st) equity in
  mkTraded target_contracts rc option_contracts hedge_shares cash equity
           (fst upd) (snd upd).

(** [first_long_trade_pending] at the end of the bar. *)
Definition next_long_entry (st : SimState) (row : Bar) (tr : Traded)
    (decision : SignalDecision) (logged : bool) : option LongEntry :=
  match mode with
  | mode_long | mode_adaptive =>
      if negb logged
         && (option_contracts st <=? 0)%Z
         && (0 <? tr_option_contracts tr)%Z
      then
        let exposures_after :=
          compute_exposures (tr_option_contracts tr) (tr_hedge_shares tr)
            (close row) (option_mid row) (delta row) (gamma row)
            (vega row) in
        Some (mkLongEntry (date row) (close row) (iv row)
                (rv_short decision) (rv_medium decision)
                (trend_strength decision) (tr_option_contracts tr)
                (delta_exposure exposures_after)
                (gamma_exposure exposures_after)
                (vega_exposure exposures_after))
      else None
  | mode_short => None
  end.

(** One iteration of the [for idx, row in enumerate(market_data)] loop. *)
Definition bar_step (st : SimState) (row : Bar)
  : Result (SimState * StepRow) :=
  diagnostic <- long_diagnostic st row ;;
  let first_long_trade_logged :=
    match first_long_trade_pending st with
    | Some _ => true
    | None => first_long_trade_logged st
    end in
  return_history <- next_return_history st row ;;
  let spot_history := spot_history st ++ [close row] in
  let rv_history := rv_history st ++ [realized_vol row] in
  let pt := pre_trade st row in
  let tr := trade st row pt in
  let long_bars_in_position :=
    match mode with
    | mode_long =>
        if (tr_option_contracts tr >? 0)%Z
        then (long_bars_in_position st + 1)%Z else 0%Z
    | _ => long_bars_in_position st
    end in
  (* Compute this bar's signal and queue the trade for the next bar. *)
  ed <- RegimeSignalEngine.decide (signal_engine st) (iv row) rv_history
          (close row) spot_history return_history ;;
  let stance_event :=
    if Stance_eqb (stance (snd ed)) (prev_stance st) then []
    else [STANCE (date row) (prev_stance st) (stance (snd ed)) mode
                 (reason (snd ed))] in
  let next_target_contracts :=
    sized_target mode args risk_limits (snd ed) row (tr_equity tr)
                 (effective_size_factor (pt_overlay pt)) in
  let g :=
    strategy_gate mode args row (snd ed) (pt_overlay pt)
      next_target_contracts (tr_option_contracts tr)
      (ticked (adaptive_short_pause_remaining st))
      (ticked (adaptive_long_pause_remaining st)) in
  Ok (mkSimState (fst ed) (tr_drawdown tr) (tr_cash tr)
        (tr_option_contracts tr) (tr_hedge_shares tr)
        (Some (close row)) (Some (option_mid row)) (stance (snd ed))
        spot_history rv_history return_history
        (events st ++ diagnostic ++ risk_event row pt
         ++ rc_events (tr_check tr) ++ stance_event ++ g_events g)
        (g_next_target_contracts g)
        (next_long_entry st row tr (snd ed) first_long_trade_logged)
        first_long_trade_logged long_bars_in_position
        (g_short_pause_remaining g) (g_long_pause_remaining g),
      mkStepRow (date row) (snd ed) (g_reason g)
        (pending_target_contracts st) (pt_overlay pt)
        (tr_target_contracts tr)
        (rc_target_contracts (tr_check tr)) (tr_option_contracts tr)
        next_target_contracts (g_next_target_contracts g)
        (tr_hedge_shares tr)
        (pt_equity_before_trade pt) (pt_drawdown_before_trade pt)
        (tr_equity tr) (tr_drawdown_after_trade tr)
        (pt_kill_action pt) (pt_gamma_risk pt)
        (rc_block_reason (tr_check tr))).

(** The loop over [market_data]: the rows of the bars processed, the
    state reached, and the exception that ended the run, if any. *)
Fixpoint run_bars (st : SimState) (market_data : list Bar)
  : list StepRow * SimState * option PyExn :=
  match market_data with
  | [] => ([], st, None)
  | row :: rest =>
      match bar_step st row with
      | Raise e => ([], st, Some e)
      | Ok (st', r) =>
          let '(rows, final, exn) := run_bars st' rest in
          (r :: rows, final, exn)
      end
  end.

(** The step relation of the loop: [steps st rows st'] when some bars
    take [st] to [st'] and leave the rows [rows]. *)
Inductive steps : SimState -> list StepRow -> SimState -> Prop :=
| steps_done (st : SimState) : steps st [] st
| steps_bar (st st' final : SimState) (row : Bar) (r : StepRow)
            (rows : list StepRow) :
    bar_step st row = Ok (st', r) ->
    steps st' rows final ->
    steps st (r :: rows) final.

Definition run_single_mode (market_data : list Bar)
    (signal_config : SignalConfig)
  : list StepRow * SimState * option PyExn :=
  run_bars (initial_state signal_config) market_data.

End Loop.

(* ===================================================================== *)
(** ** Invariants of the short-mode engine across bars                     *)
(* ===================================================================== *)

(** What holds of a short-mode engine between bars: the counter is not
    negative, it is positive only after a FLAT stance, and it is positive
    or the last stance SHORT_VOL only once the warmup is over. *)
Definition short_engine_inv (signal_config : SignalConfig) (st : SimState)
  : Prop :=
  let e := signal_engine st in
  RegimeSignalEngine.mode e = mode_short
  /\ RegimeSignalEngine.config e = signal_config
  /\ (0 <= RegimeSignalEngine.cooldown_remaining e)%Z
  /\ (RegimeSignalEngine.prev_stance e = FLAT
      \/ (RegimeSignalEngine.prev_stance e = SHORT_VOL
          /\ RegimeSignalEngine.cooldown_remaining e = 0%Z))
  /\ (RegimeSignalEngine.prev_stance e = SHORT_VOL
      \/ (0 < RegimeSignalEngine.cooldown_remaining e)%Z ->
      (min_warmup_bars signal_config <= len (spot_history st))%Z).

(** The row reports the counter and the stance the engine is left with. *)
Definition short_engine_last (st : SimState) (r : StepRow) : Prop :=
  RegimeSignalEngine.cooldown_remaining (signal_engine st)
  = cooldown_remaining (row_decision r)
  /\ RegimeSignalEngine.prev_stance (signal_engine st)
     = stance (row_decision r).

(* ===================================================================== *)
(** ** Sample configurations                                               *)
(* ===================================================================== *)

(** A configuration under which the short-enter and the long-enter
    predicate can hold on one bar (adaptive_vov_low above
    adaptive_vov_high), with one bar of persistence and short windows.
    The adaptive thresholds are binary fractions, so that the sums of the
    sample bar are the same in binary floating point. *)
Definition overlapping_config : SignalConfig :=
  mkSignalConfig 1 2 1 30
                 0.02 0.005 0.004 0.006 0.06
                 0.015 0.03 0.005 0.003 0.00025 2 0.008
                 30 1 2 30
                 0.25 0.01 0.5 0.006 0.5 0.125 0.004
                 (-1) 0.0015 0.5 0.125.

(** The command-line defaults. *)
Definition DEFAULT_ARGS : Args :=
  mkArgs 5 10 0.5 0.25 0.12
         6 75 300
         0.10 0.40 0.015
         0.10 0.20 0.5
         30 30.

(** The default thresholds with one-bar windows and a two-bar cooldown,
    so that a short run leaves the warmup. *)
Definition quick_config : SignalConfig :=
  mkSignalConfig 1 1 1 30
                 0.02 0.005 0.004 0.006 0.06
                 0.015 0.03 0.005 0.003 0.00025 2 0.008
                 2 1 1 2
                 0.02 0.01 0.004 0.006 0.003 0.006 0.004
                 0.003 0.0015 0.008 0.001.

(** A three-bar market: spot, volatilities and greeks constant, the
    option mid moving from 3.95 to 3.90 and then up to 5.00. *)
Definition sample_bar (d : string) (mid : Q) : Bar :=
  mkBar d 100 0.1 mid 0.2 0.5 0.01 0.1.

Definition rising_premium_market : list Bar :=
  [sample_bar "d1" 3.95; sample_bar "d2" 3.9; sample_bar "d3" 5].

(** A four-bar market with constant prices whose implied volatility
    drops to the realized level on the second bar, so that the short-mode
    pricing filter passes on the first bar and fails on the second. *)
Definition quiet_bar (d : string) (implied : Q) : Bar :=
  mkBar d 100 0.1 4 implied 0.5 0.01 0.1.

Definition edge_collapse_market : list Bar :=
  [quiet_bar "d1" 0.2; quiet_bar "d2" 0.1; quiet_bar "d3" 0.2;
   quiet_bar "d4" 0.2].

(** [math.log] replaced by the constant 0, for the sample runs: the
    sample markets have a constant spot, whose log returns are 0. *)
Definition flat_log (x : Q) : Q := 0.


(** The quick thresholds with a two-bar medium window, so that the
    volatility-of-volatility [rv_change] is not always 0 and the long
    entry can fire. *)
Definition long_entry_config : SignalConfig :=
  mkSignalConfig 1 2 1 30
                 0.02 0.005 0.004 0.006 0.06
                 0.015 0.03 0.005 0.003 0.00025 2 0.008
                 2 1 1 2
                 0.02 0.01 0.004 0.006 0.003 0.006 0.004
                 0.003 0.0015 0.008 0.001.

(** A four-bar market with constant prices and an implied volatility of
    0.1 whose realized volatility rises from 0.1 to 0.3 and stays
    there: the option is cheap and the volatility is moving on the
    second and third bar, and steady on the fourth. *)
Definition cheap_bar (d : string) (realized : Q) : Bar :=
  mkBar d 100 realized 4 0.1 0.5 0.01 0.1.

Definition cheapening_market : list Bar :=
  [cheap_bar "d1" 0.1; cheap_bar "d2" 0.2; cheap_bar "d3" 0.3;
   cheap_bar "d4" 0.3].

(** A five-bar market for the risk pause: the premium of the
    rising-premium market jumps to 10.00 on the third bar and is back
    at 3.90 on the fourth and fifth. *)
Definition premium_spike_market : list Bar :=
  [sample_bar "d1" 3.95; sample_bar "d2" 3.9; sample_bar "d3" 10;
   sample_bar "d4" 3.9; sample_bar "d5" 3.9].

(* ===================================================================== *)
(** ** analytics/pnl.py and the ledger of [run_single_mode]                *)
(* ===================================================================== *)

Module PnLBreakdown.

Record t : Type := mk {
  option_mtm_pnl : Q;
  hedge_pnl : Q;
  fees : Q;
  slippage : Q
}.

(** [PnLBreakdown()]. *)
Definition init : t := mk 0 0 0 0.






End PnLBreakdown.


Section Ledger.

Variable ln : Q -> Q.
Variable mode : StrategyMode.
Variable args : Args.







End Ledger.



(* ===================================================================== *)
(** ** main.py: the checks of [run] and [resolve_signal_config]            *)
(* ===================================================================== *)

(** The checks of [run] on the arguments the loop reads: [true] when
    none of them raises. *)
Definition risk_args_valid (args : Args) : bool :=
  negb ((gamma_green_threshold args <? 0) || (gamma_red_threshold args <? 0))
  && negb (gamma_green_threshold args >=? gamma_red_threshold args)
  && ((0 <? gamma_yellow_size_factor args)
      && (gamma_yellow_size_factor args <=? 1))
  && ((0 <? gamma_red_size_factor args) && (gamma_red_size_factor args <=? 1))
  && negb (gamma_red_size_factor args >? gamma_yellow_size_factor args)
  && negb (gamma_kill_drawdown_threshold args <? 0)
  && negb (max_leverage args <=? 0)
  && negb (max_abs_gamma args <=? 0)
  && negb (max_abs_vega args <=? 0)
  && negb (long_pause_drawdown_threshold args <? 0)
  && negb (long_catastrophic_kill_threshold args <? 0)
  && negb (long_catastrophic_kill_threshold args
           <? long_pause_drawdown_threshold args)
  && negb (long_vega_budget_ratio args <=? 0)
  && negb (global_drawdown_throttle_threshold args <? 0)
  && negb (global_drawdown_kill_threshold args <? 0)
  && negb (global_drawdown_kill_threshold args
           <? global_drawdown_throttle_threshold args)
  && ((0 <? global_drawdown_throttle_size_factor args)
      && (global_drawdown_throttle_size_factor args <=? 1)).

(** The checks of [run] on the signal arguments.  The argparse
    attributes that [signal_config_from_args] copies are held in a
    [SignalConfig] record. *)
Definition signal_args_valid (a : SignalConfig) : bool :=
  negb (long_two_way_chop_score_threshold a <? 0)
  && negb (long_two_way_trend_threshold a <? 0)
  && negb ((rv_short_window a <=? 0)%Z || (rv_medium_window a <=? 0)%Z)
  && negb (rv_short_window a >? rv_medium_window a)%Z
  && negb ((trend_window a <=? 0)%Z || (long_chop_window a <=? 0)%Z)
  && negb ((short_edge_threshold a <? 0) || (long_edge_threshold a <? 0))
  && negb (long_max_iv_premium a <? 0)
  && negb (adaptive_enter_persist_bars a <=? 0)%Z
  && negb (adaptive_exit_persist_bars a <=? 0)%Z
  && negb (adaptive_pause_bars a <? 0)%Z
  && negb ((adaptive_short_edge_enter a <? 0)
           || (adaptive_short_edge_exit a <? 0))
  && negb (adaptive_short_edge_exit a >? adaptive_short_edge_enter a)
  && negb ((adaptive_short_trend_enter a <? 0)
           || (adaptive_short_trend_exit a <? 0))
  && negb (adaptive_short_trend_exit a <? adaptive_short_trend_enter a)
  && negb ((adaptive_vov_low a <? 0) || (adaptive_vov_high a <? 0)
           || (adaptive_vov_exit a <? 0))
  && negb (adaptive_vov_high a <=? adaptive_vov_low a)
  && ((adaptive_vov_low a <=? adaptive_vov_exit a)
      && (adaptive_vov_exit a <=? adaptive_vov_high a))
  && negb (adaptive_long_cheapness_exit a >? adaptive_long_cheapness_enter a)
  && negb (adaptive_long_trend_max a <? 0)
  && negb (adaptive_confidence_buffer a <? 0)
  && negb (cooldown_bars a <? 0)%Z.

Definition signal_config_from_args (a : SignalConfig) : SignalConfig :=
  mkSignalConfig
    (rv_short_window a) (rv_medium_window a) (trend_window a)
    (long_chop_window a)
    (short_edge_threshold a) (short_edge_collapse_tolerance a)
    (short_trend_threshold a) (short_jump_threshold a)
    (short_rv_change_threshold a)
    (long_edge_threshold a) (long_max_iv_premium a)
    (long_edge_collapse_tolerance a) (long_rv_rise_threshold a)
    (long_chop_threshold a) (long_two_way_chop_score_threshold a)
    (long_two_way_trend_threshold a)
    (cooldown_bars a) (adaptive_enter_persist_bars a)
    (adaptive_exit_persist_bars a) (adaptive_pause_bars a)
    (adaptive_short_edge_enter a) (adaptive_short_edge_exit a)
    (adaptive_short_trend_enter a) (adaptive_short_trend_exit a)
    (adaptive_vov_low a) (adaptive_vov_high a) (adaptive_vov_exit a)
    (adaptive_long_cheapness_enter a) (adaptive_long_cheapness_exit a)
    (adaptive_long_trend_max a) (adaptive_confidence_buffer a).

(** The space character, and [" " in s]. *)
Definition space_char : Ascii.ascii := Ascii.ascii_of_nat 32.

Fixpoint contains_space (s : string) : bool :=
  match s with
  | EmptyString => false
  | String c rest => Ascii.eqb c space_char || contains_space rest
  end.

Inductive Granularity : Type := intraday | daily.

Definition infer_data_granularity (market_data : list Bar) : Granularity :=
  match market_data with
  | [] => intraday
  | _ =>
      if existsb (fun row => contains_space (date row))
           (firstn (Nat.min 100 (List.length market_data)) market_data)
      then intraday else daily
  end.

(** [==] on the integer and on the float attributes. *)
Definition same_int (x y : Z) : bool := (x =? y)%Z.
Definition same_float (x y : Q) : bool := Qeq_bool x y.

Definition signal_args_match_defaults (a : SignalConfig) : bool :=
  let d := DEFAULT_SIGNAL_CONFIG in
  same_int (rv_short_window a) (rv_short_window d)
  && same_int (rv_medium_window a) (rv_medium_window d)
  && same_int (trend_window a) (trend_window d)
  && same_int (long_chop_window a) (long_chop_window d)
  && same_float (short_edge_threshold a) (short_edge_threshold d)
  && same_float (short_edge_collapse_tolerance a)
                (short_edge_collapse_tolerance d)
  && same_float (short_trend_threshold a) (short_trend_threshold d)
  && same_float (short_jump_threshold a) (short_jump_threshold d)
  && same_float (short_rv_change_threshold a) (short_rv_change_threshold d)
  && same_float (long_edge_threshold a) (long_edge_threshold d)
  && same_float (long_max_iv_premium a) (long_max_iv_premium d)
  && same_float (long_edge_collapse_tolerance a)
                (long_edge_collapse_tolerance d)
  && same_float (long_rv_rise_threshold a) (long_rv_rise_threshold d)
  && same_float (long_chop_threshold a) (long_chop_threshold d)
  && same_float (long_two_way_chop_score_threshold a)
                (long_two_way_chop_score_threshold d)
  && same_float (long_two_way_trend_threshold a)
                (long_two_way_trend_threshold d)
  && same_int (cooldown_bars a) (cooldown_bars d)
  && same_int (adaptive_enter_persist_bars a) (adaptive_enter_persist_bars d)
  && same_int (adaptive_exit_persist_bars a) (adaptive_exit_persist_bars d)
  && same_int (adaptive_pause_bars a) (adaptive_pause_bars d)
  && same_float (adaptive_short_edge_enter a) (adaptive_short_edge_enter d)
  && same_float (adaptive_short_edge_exit a) (adaptive_short_edge_exit d)
  && same_float (adaptive_short_trend_enter a) (adaptive_short_trend_enter d)
  && same_float (adaptive_short_trend_exit a) (adaptive_short_trend_exit d)
  && same_float (adaptive_vov_low a) (adaptive_vov_low d)
  && same_float (adaptive_vov_high a) (adaptive_vov_high d)
  && same_float (adaptive_vov_exit a) (adaptive_vov_exit d)
  && same_float (adaptive_long_cheapness_enter a)
                (adaptive_long_cheapness_enter d)
  && same_float (adaptive_long_cheapness_exit a)
                (adaptive_long_cheapness_exit d)
  && same_float (adaptive_long_trend_max a) (adaptive_long_trend_max d)
  && same_float (adaptive_confidence_buffer a) (adaptive_confidence_buffer d).

Definition daily_signal_preset : SignalConfig :=
  mkSignalConfig 5 20 20 10
                 0.005 0.02 0.03 0.03 0.20
                 0.003 0.02 0.02 0.003 0.004 2 0.03
                 3 2 2 2
                 0.02 0 0.015 0.03 0.01 0.02 0.015
                 (-0.04) (-0.04) 0.05 0.

(** [arg if arg != default else preset]. *)
Definition override_int (arg dflt preset : Z) : Z :=
  if negb (same_int arg dflt) then arg else preset.
Definition override_float (arg dflt preset : Q) : Q :=
  if negb (same_float arg dflt) then arg else preset.

Definition daily_signal_with_user_overrides (a : SignalConfig)
  : SignalConfig :=
  let preset := daily_signal_preset in
  let defaults := DEFAULT_SIGNAL_CONFIG in
  let int_field (f : SignalConfig -> Z) :=
    override_int (f a) (f defaults) (f preset) in
  let float_field (f : SignalConfig -> Q) :=
    override_float (f a) (f defaults) (f preset) in
  mkSignalConfig
    (int_field rv_short_window) (int_field rv_medium_window)
    (int_field trend_window) (int_field long_chop_window)
    (float_field short_edge_threshold)
    (float_field short_edge_collapse_tolerance)
    (float_field short_trend_threshold) (float_field short_jump_threshold)
    (float_field short_rv_change_threshold)
    (float_field long_edge_threshold) (float_field long_max_iv_premium)
    (float_field long_edge_collapse_tolerance)
    (float_field long_rv_rise_threshold) (float_field long_chop_threshold)
    (float_field long_two_way_chop_score_threshold)
    (float_field long_two_way_trend_threshold)
    (int_field cooldown_bars) (int_field adaptive_enter_persist_bars)
    (int_field adaptive_exit_persist_bars) (int_field adaptive_pause_bars)
    (float_field adaptive_short_edge_enter)
    (float_field adaptive_short_edge_exit)
    (float_field adaptive_short_trend_enter)
    (float_field adaptive_short_trend_exit)
    (float_field adaptive_vov_low) (float_field adaptive_vov_high)
    (float_field adaptive_vov_exit)
    (float_field adaptive_long_cheapness_enter)
    (float_field adaptive_long_cheapness_exit)
    (float_field adaptive_long_trend_max)
    (float_field adaptive_confidence_buffer).

Definition resolve_signal_config (a : SignalConfig) (market_data : list Bar)
  : SignalConfig :=
  let configured := signal_config_from_args a in
  match infer_data_granularity market_data with
  | intraday => configured
  | daily =>
      if signal_args_match_defaults a then daily_signal_preset
      else daily_signal_with_user_overrides a
  end.

(** The defaults with [adaptive_vov_high] raised from 0.006 to 0.009. *)
Definition raised_vov_high_args : SignalConfig :=
  mkSignalConfig 30 240 120 30
                 0.02 0.005 0.004 0.006 0.06
                 0.015 0.03 0.005 0.003 0.00025 2 0.008
                 30 3 2 30
                 0.02 0.01 0.004 0.006 0.003 0.009 0.004
                 0.003 0.0015 0.008 0.001.

(** Two daily bars: their dates carry no time of day. *)
Definition daily_market : list Bar :=
  [mkBar "2024-01-02" 100 0.1 4 0.2 0.5 0.01 0.1;
   mkBar "2024-01-03" 100 0.1 4 0.2 0.5 0.01 0.1].
(* ===================================================================== *)
(** * Properties                                                           *)
(* ===================================================================== *)

(** ** Comparisons *)

Lemma Qle_bool_true (x y : Q) : (x <=? y) = true <-> x <= y.
Proof. apply Qle_bool_iff. Qed.

Lemma Qle_bool_false (x y : Q) : (x <=? y) = false <-> y < x.
Proof.
  split; intros H.
  - apply Qnot_le_lt. intros Hle. apply Qle_bool_iff in Hle. congruence.
  - destruct (x <=? y) eqn:E; [|reflexivity].
    apply Qle_bool_iff in E. exfalso. exact (Qlt_not_le _ _ H E).
Qed.

Lemma Qlt_bool_true (x y : Q) : (x <? y) = true <-> x < y.
Proof.
  unfold Qlt_bool. rewrite negb_true_iff. apply Qle_bool_false.
Qed.

Lemma Qlt_bool_false (x y : Q) : (x <? y) = false <-> y <= x.
Proof.
  unfold Qlt_bool. rewrite negb_false_iff. apply Qle_bool_true.
Qed.

(** Turn the boolean tests of a hypothesis or of the goal into
    propositions. *)
Ltac qbool :=
  repeat match goal with
  | H : (_ <=? _) = true |- _ => apply Qle_bool_true in H
  | H : (_ <=? _) = false |- _ => apply Qle_bool_false in H
  | H : (_ <? _) = true |- _ => apply Qlt_bool_true in H
  | H : (_ <? _) = false |- _ => apply Qlt_bool_false in H
  end.

Ltac qcontra :=
  qbool;
  match goal with
  | H1 : ?x <= ?y, H2 : ?y < ?x |- _ => exfalso; exact (Qlt_not_le _ _ H2 H1)
  | H1 : ?x < ?y, H2 : ?y < ?x |- _ =>
      exfalso; exact (Qlt_not_le _ _ H2 (Qlt_le_weak _ _ H1))
  end.

(** ** Kill switch *)

(** C2.  With G1 < G2 the kill switch is a step function of gamma_risk:
    gamma_risk <= G1 is green (size 1, no reason, no flatten);
    G1 < gamma_risk <= G2 is yellow (yellow factor, the one reason
    GAMMA_YELLOW_THROTTLE, no flatten); gamma_risk > G2 is red (red factor,
    reason GAMMA_RED_THROTTLE, followed by GAMMA_RED_DRAWDOWN_KILL exactly
    when total_drawdown > D1).  flatten_positions holds iff the zone is red
    and total_drawdown > D1, and the zone does not depend on the drawdown. *)
Theorem kill_switch_zone_policy (ks : KillSwitch.t) (gamma_risk dd : Q) :
  KillSwitch.gamma_green_threshold ks < KillSwitch.gamma_red_threshold ks ->
  let a := KillSwitch.evaluate ks gamma_risk dd in
  (gamma_risk <= KillSwitch.gamma_green_threshold ks ->
     a = KillSwitch.mkAction false 1 "green" []) /\
  (KillSwitch.gamma_green_threshold ks < gamma_risk ->
   gamma_risk <= KillSwitch.gamma_red_threshold ks ->
     a = KillSwitch.mkAction false (KillSwitch.gamma_yellow_size_factor ks)
           "yellow" ["GAMMA_YELLOW_THROTTLE"%string]) /\
  (KillSwitch.gamma_red_threshold ks < gamma_risk ->
     (KillSwitch.kill_drawdown_threshold ks < dd ->
        a = KillSwitch.mkAction true (KillSwitch.gamma_red_size_factor ks)
              "red" ["GAMMA_RED_THROTTLE"%string;
                     "GAMMA_RED_DRAWDOWN_KILL"%string]) /\
     (dd <= KillSwitch.kill_drawdown_threshold ks ->
        a = KillSwitch.mkAction false (KillSwitch.gamma_red_size_factor ks)
              "red" ["GAMMA_RED_THROTTLE"%string])) /\
  (KillSwitch.flatten_positions a = true <->
     KillSwitch.zone a = "red"%string
     /\ KillSwitch.kill_drawdown_threshold ks < dd) /\
  (forall dd' : Q,
     KillSwitch.zone (KillSwitch.evaluate ks gamma_risk dd')
     = KillSwitch.zone a).
Proof.
  intros HG a. subst a. unfold KillSwitch.evaluate.
  cbn [KillSwitch.default_action KillSwitch.flatten_positions
       KillSwitch.reasons KillSwitch.size_factor KillSwitch.zone app].
  assert (Hz : forall dd' : Q,
             KillSwitch.zone
               (if dd' >? KillSwitch.kill_drawdown_threshold ks
                then KillSwitch.mkAction true (KillSwitch.gamma_red_size_factor ks)
                       "red" ["GAMMA_RED_THROTTLE"%string;
                              "GAMMA_RED_DRAWDOWN_KILL"%string]
                else KillSwitch.mkAction false (KillSwitch.gamma_red_size_factor ks)
                       "red" ["GAMMA_RED_THROTTLE"%string]) = "red"%string)
    by (intros dd'; destruct (dd' >? _); reflexivity).
  destruct (gamma_risk <=? KillSwitch.gamma_green_threshold ks) eqn:E1;
    [| destruct (gamma_risk <=? KillSwitch.gamma_red_threshold ks) eqn:E2;
       [| destruct (dd >? KillSwitch.kill_drawdown_threshold ks) eqn:E3 ] ];
    qbool; cbn [KillSwitch.flatten_positions KillSwitch.zone].
  - split; [reflexivity|]. split; [intros; qcontra|].
    split; [intros Hr; exfalso; apply (Qlt_irrefl gamma_risk);
            eapply Qle_lt_trans; [exact E1|];
            eapply Qlt_trans; [exact HG| exact Hr] |].
    split; [split; [discriminate | intros [Hg _]; discriminate Hg] |].
    reflexivity.
  - split; [intros; qcontra|]. split; [reflexivity|].
    split; [intros; qcontra|].
    split; [split; [discriminate | intros [Hg _]; discriminate Hg] |].
    reflexivity.
  - split; [intros; qcontra|]. split; [intros; qcontra|].
    split; [intros _; split; [reflexivity | intros; qcontra] |].
    split; [split; [intros _; split; [reflexivity | exact E3] | reflexivity] |].
    exact Hz.
  - split; [intros; qcontra|]. split; [intros; qcontra|].
    split; [intros _; split; [intros; qcontra | reflexivity] |].
    split; [split; [discriminate | intros [_ Hd]; qcontra] |].
    exact Hz.
Qed.

(** The scenario of the specification: gamma_risk = 12 with G1 = 5,
    G2 = 10 and a drawdown of 0.15 above D1 = 0.12. *)
Lemma kill_switch_zone_policy_witness :
  KillSwitch.evaluate KillSwitch.defaults 12 0.15
  = KillSwitch.mkAction true 0.25 "red"
      ["GAMMA_RED_THROTTLE"%string; "GAMMA_RED_DRAWDOWN_KILL"%string].
Proof.
  assert (HG : KillSwitch.gamma_green_threshold KillSwitch.defaults
               < KillSwitch.gamma_red_threshold KillSwitch.defaults)
    by reflexivity.
  destruct (kill_switch_zone_policy KillSwitch.defaults 12 0.15 HG)
    as (_ & _ & Hred & _).
  destruct Hred as [Hkill _]; [reflexivity|].
  apply Hkill. reflexivity.
Defined.

(** ** Arithmetic *)

Lemma Qdiv_nonneg (x y : Q) : 0 <= x -> 0 < y -> 0 <= x / y.
Proof.
  intros Hx Hy. unfold Qdiv.
  apply Qmult_le_0_compat; [exact Hx|].
  apply Qlt_le_weak, Qinv_lt_0_compat, Hy.
Qed.

(** ** The risk clamp *)

Lemma mid_between (low high : Z) :
  (low <= high -> low <= (low + high) / 2 <= high)%Z.
Proof.
  intros H.
  split; [apply Z.div_le_lower_bound | apply Z.div_le_upper_bound]; lia.
Qed.

Section ClampSearch.

Variable allowed : Z -> bool.
Variable sign : Z.

(** The search returns the initial [best_abs] or a magnitude inside the
    window. *)
Lemma clamp_search_range (low high best : Z) :
  clamp_search allowed sign low high best = best
  \/ (low <= clamp_search allowed sign low high best <= high)%Z.
Proof.
  funelim (clamp_search allowed sign low high best).
  - left. reflexivity.
  - pose proof (mid_between low high l). destruct H as [-> | H]; right; lia.
  - pose proof (mid_between low high l).
    destruct H as [-> | H]; [left; reflexivity | right; lia].
Qed.

(** A magnitude other than the initial [best_abs] was tested and
    passed. *)
Lemma clamp_search_passes (low high best : Z) :
  clamp_search allowed sign low high best = best
  \/ allowed (sign * clamp_search allowed sign low high best) = true.
Proof.
  funelim (clamp_search allowed sign low high best).
  - left. reflexivity.
  - destruct H as [-> | H]; right; assumption.
  - assumption.
Qed.

(** When no candidate passes the search keeps the initial [best_abs]. *)
Lemma clamp_search_none (low high best : Z) :
  (forall c, allowed c = false) ->
  clamp_search allowed sign low high best = best.
Proof.
  intros Hnone.
  funelim (clamp_search allowed sign low high best).
  - reflexivity.
  - rewrite Hnone in Heq. discriminate.
  - apply H. exact Hnone.
Qed.

(** Under monotonicity on [0, top] the search keeps every passing
    magnitude below its answer. *)
Variable top : Z.
Hypothesis allowed_mono :
  forall m m' : Z, (0 <= m <= m')%Z -> (m' <= top)%Z ->
    allowed (sign * m') = true -> allowed (sign * m) = true.

Lemma clamp_search_maximal (low high best : Z) :
  (0 <= low)%Z -> (high <= top)%Z ->
  (forall m, 0 <= m < low -> allowed (sign * m) = true -> m <= best)%Z ->
  (forall m, high < m <= top -> allowed (sign * m) = false)%Z ->
  forall m, (0 <= m <= top)%Z -> allowed (sign * m) = true ->
            (m <= clamp_search allowed sign low high best)%Z.
Proof.
  funelim (clamp_search allowed sign low high best);
    intros Hlow Hhigh Hbelow Habove m Hm Hpass.
  - destruct (Z_lt_le_dec m low) as [Hlt | Hge].
    + apply Hbelow; [lia | exact Hpass].
    + rewrite Habove in Hpass by lia. discriminate.
  - pose proof (mid_between low high l).
    apply H; try assumption; lia.
  - pose proof (mid_between low high l).
    apply H; try assumption; try lia.
    intros m0 Hm0.
    destruct (Z_le_gt_dec m0 high) as [Hle | Hgt].
    + destruct (allowed (sign * m0)) eqn:E; [|reflexivity].
      assert (allowed (sign * ((low + high) / 2)) = true)
        by (apply (allowed_mono _ m0); [lia | lia | exact E]).
      congruence.
    + apply Habove. lia.
Qed.

End ClampSearch.

(** [trade_allowed] as the conjunction of its five checks. *)
Lemma trade_allowed_fst (rl : RiskLimits.t) (contracts : Z)
    (price notional gamma_abs vega_abs equity : Q) :
  fst (RiskLimits.trade_allowed rl contracts price notional gamma_abs vega_abs
         equity)
  = negb (equity <=? 0)
    && negb (Qabs (float contracts * price * CONTRACT_MULTIPLIER) / equity
             >? RiskLimits.max_capital_at_risk rl)
    && negb (notional / equity >? RiskLimits.max_leverage rl)
    && negb (gamma_abs >? RiskLimits.max_abs_gamma rl)
    && negb (vega_abs >? RiskLimits.max_abs_vega rl).
Proof.
  unfold RiskLimits.trade_allowed.
  destruct (equity <=? 0); [reflexivity|].
  destruct (_ >? RiskLimits.max_capital_at_risk rl); [reflexivity|].
  destruct (_ >? RiskLimits.max_leverage rl); [reflexivity|].
  destruct (_ >? RiskLimits.max_abs_gamma rl); [reflexivity|].
  destruct (_ >? RiskLimits.max_abs_vega rl); reflexivity.
Qed.

Lemma projected_trade_allowed_checks (rl : RiskLimits.t)
    (spot price dlt gam veg equity : Q) (c : Z) :
  projected_trade_allowed rl spot price dlt gam veg equity c
  = negb (equity <=? 0)
    && negb (Qabs (float c * price * CONTRACT_MULTIPLIER) / equity
             >? RiskLimits.max_capital_at_risk rl)
    && negb ((Qabs (float c * price * CONTRACT_MULTIPLIER)
              + Qabs (float (hedge_target c dlt) * spot)) / equity
             >? RiskLimits.max_leverage rl)
    && negb (Qabs (float c * gam * CONTRACT_MULTIPLIER)
             >? RiskLimits.max_abs_gamma rl)
    && negb (Qabs (float c * veg * CONTRACT_MULTIPLIER)
             >? RiskLimits.max_abs_vega rl).
Proof.
  unfold projected_trade_allowed, evaluate_projected_trade.
  rewrite <- trade_allowed_fst.
  cbn [compute_exposures notional_exposure gamma_exposure vega_exposure].
  destruct (RiskLimits.trade_allowed _ _ _ _ _ _ _); reflexivity.
Qed.

Lemma py_round_zero (x : Q) : x == 0 -> py_round x = 0%Z.
Proof.
  intros Hx. unfold py_round.
  assert (Hf : Qfloor x = 0%Z) by (rewrite (Qfloor_comp _ _ Hx); reflexivity).
  rewrite Hf.
  assert (Hlt : (x - float 0 <? 0.5) = true).
  { apply Qlt_bool_true. rewrite Hx. reflexivity. }
  rewrite Hlt. reflexivity.
Qed.

Lemma hedge_target_zero (dlt : Q) : hedge_target 0 dlt = 0%Z.
Proof.
  unfold hedge_target. apply py_round_zero. cbn. ring.
Qed.

(** A limit that rejects the empty position rejects every position: each
    check compares a non-negative quantity, zero at zero contracts, with
    its limit. *)
Lemma projected_trade_allowed_zero_fails (rl : RiskLimits.t)
    (spot price dlt gam veg equity : Q) :
  projected_trade_allowed rl spot price dlt gam veg equity 0 = false ->
  forall c, projected_trade_allowed rl spot price dlt gam veg equity c = false.
Proof.
  intros H0 c. rewrite projected_trade_allowed_checks in *.
  destruct (equity <=? 0) eqn:E0; [reflexivity|]. qbool.
  cbn [negb andb] in *.
  rewrite hedge_target_zero in H0.
  assert (Hz : forall k : Q, Qabs (float 0 * k * CONTRACT_MULTIPLIER) == 0)
    by (intros k; transitivity (Qabs 0);
        [apply Qabs_wd; ring | reflexivity]).
  assert (Hdiv0 : forall n : Q, n == 0 -> n / equity == 0)
    by (intros n ->; unfold Qdiv; ring).
  assert (Hlift : forall (lim a b : Q), a == 0 -> 0 <= b ->
             negb (a >? lim) = false -> negb (b >? lim) = false).
  { intros lim a b Ha Hb Hf. rewrite negb_false_iff in *.
    apply Qlt_bool_true in Hf. apply Qlt_bool_true.
    rewrite Ha in Hf. eapply Qlt_le_trans; eassumption. }
  repeat match type of H0 with
  | (_ && _) = false => apply andb_false_iff in H0; destruct H0 as [H0 | H0]
  end.
  - erewrite Hlift; [reflexivity | | | exact H0].
    + apply Hdiv0, Hz.
    + apply Qdiv_nonneg; [apply Qabs_nonneg | exact E0].
  - rewrite andb_false_iff; left. rewrite andb_false_iff; left.
    rewrite andb_false_iff; right.
    eapply Hlift; [ | | exact H0].
    + apply Hdiv0. rewrite Hz.
      transitivity (0 + Qabs 0); [|reflexivity].
      apply Qplus_comp; [reflexivity | apply Qabs_wd; ring].
    + apply Qdiv_nonneg; [|exact E0].
      rewrite <- (Qplus_0_l 0).
      apply Qplus_le_compat; apply Qabs_nonneg.
  - rewrite andb_false_iff; left. rewrite andb_false_iff; right.
    eapply Hlift; [apply Hz | apply Qabs_nonneg | exact H0].
  - rewrite andb_false_iff; right.
    eapply Hlift; [apply Hz | apply Qabs_nonneg | exact H0].
Qed.

(** Sign, bound, soundness and maximality of the clamp. *)
Lemma clamp_target_props (rl : RiskLimits.t)
    (spot price dlt gam veg equity : Q) (desired : Z) :
  let ok := projected_trade_allowed rl spot price dlt gam veg equity in
  let r := clamp_target_to_risk_limits desired rl spot price dlt gam veg
             equity in
  (r = 0 \/ Z.sgn r = Z.sgn desired)%Z /\
  (Z.abs r <= Z.abs desired)%Z /\
  (ok 0%Z = true -> ok r = true) /\
  (ok 0%Z = false -> r = 0%Z) /\
  ((forall m m' : Z, (0 <= m <= m')%Z -> (m' <= Z.abs desired)%Z ->
      ok (Z.sgn desired * m')%Z = true -> ok (Z.sgn desired * m)%Z = true) ->
   forall m : Z, (0 <= m <= Z.abs desired)%Z ->
     ok (Z.sgn desired * m)%Z = true ->
     ok r = true /\ (m <= Z.abs r)%Z).
Proof.
  intros ok r. subst r. unfold clamp_target_to_risk_limits. fold ok.
  destruct (desired =? 0)%Z eqn:Ed.
  { apply Z.eqb_eq in Ed. subst desired. cbn [Z.sgn Z.abs Z.mul].
    split; [left; reflexivity|]. split; [lia|]. split; [auto|].
    split; [reflexivity|].
    intros _ m Hm Hok. assert (m = 0%Z) by lia. subst m.
    split; [exact Hok | lia]. }
  apply Z.eqb_neq in Ed.
  set (sign := if (desired >? 0)%Z then 1%Z else (-1)%Z).
  assert (Hsign : sign = Z.sgn desired).
  { subst sign. destruct (Z.gtb_spec desired 0); lia. }
  assert (Hs1 : (sign = 1 \/ sign = -1)%Z)
    by (subst sign; destruct (desired >? 0)%Z; auto).
  set (b := clamp_search ok sign 0 (Z.abs desired) 0).
  assert (Hb : (0 <= b <= Z.abs desired)%Z).
  { destruct (clamp_search_range ok sign 0 (Z.abs desired) 0) as [H | H];
      fold b in H; lia. }
  assert (Hpass : ok 0%Z = true -> ok (sign * b)%Z = true).
  { intros H0.
    destruct (clamp_search_passes ok sign 0 (Z.abs desired) 0) as [H | H];
      fold b in H; [rewrite H, Z.mul_0_r; exact H0 | exact H]. }
  split; [| split; [| split; [| split]]].
  - destruct (Z.eq_dec b 0) as [-> | Hnz]; [left; lia | right].
    rewrite Z.sgn_mul, <- Hsign. destruct Hs1 as [-> | ->]; lia.
  - rewrite Z.abs_mul. destruct Hs1 as [-> | ->]; lia.
  - exact Hpass.
  - intros H0.
    pose proof (projected_trade_allowed_zero_fails _ _ _ _ _ _ _ H0) as Hnone.
    fold ok in Hnone. subst b.
    rewrite (clamp_search_none ok sign 0 (Z.abs desired) 0 Hnone). lia.
  - intros Hmono m Hm Hok. rewrite <- Hsign in *.
    pose proof Hmono as Hmono'.
    split.
    + apply Hpass. rewrite <- (Z.mul_0_r sign).
      apply (Hmono' 0%Z m); [lia | lia | exact Hok].
    + rewrite Z.abs_mul.
      assert (m <= b)%Z.
      { apply (clamp_search_maximal ok sign (Z.abs desired) Hmono'
                 0 (Z.abs desired) 0); try lia; assumption. }
      destruct Hs1 as [-> | ->]; lia.
Qed.

(** C7.  clamp_target_to_risk_limits returns 0 or a value of the sign of
    desired, of magnitude at most |desired|; the result passes the limits
    whenever the empty position does; when the empty position fails the
    result is 0; and when passing is monotone in the magnitude (a larger
    passing magnitude makes every smaller one pass) the result passes and
    no passing magnitude in [0, |desired|] is larger than it. *)
Theorem clamp_target_to_risk_limits_spec (rl : RiskLimits.t)
    (spot price dlt gam veg equity : Q) (desired : Z) :
  let ok := projected_trade_allowed rl spot price dlt gam veg equity in
  let r := clamp_target_to_risk_limits desired rl spot price dlt gam veg
             equity in
  (r = 0 \/ Z.sgn r = Z.sgn desired)%Z /\
  (Z.abs r <= Z.abs desired)%Z /\
  (ok 0%Z = true -> ok r = true) /\
  (ok 0%Z = false -> r = 0%Z) /\
  ((forall m m' : Z, (0 <= m <= m')%Z -> (m' <= Z.abs desired)%Z ->
      ok (Z.sgn desired * m')%Z = true -> ok (Z.sgn desired * m)%Z = true) ->
   forall m : Z, (0 <= m <= Z.abs desired)%Z ->
     ok (Z.sgn desired * m)%Z = true ->
     ok r = true /\ (m <= Z.abs r)%Z).
Proof.
  apply clamp_target_props.
Qed.

(** Equity 1000 with a 20 % budget and an option at 1.50 carries one
    contract: a request for three is clamped to one. *)
Lemma clamp_target_to_risk_limits_spec_witness :
  let rl := RiskLimits.with_capital 10000 in
  projected_trade_allowed rl 100 1.5 0.5 0.01 0.1 1000
    (clamp_target_to_risk_limits 3 rl 100 1.5 0.5 0.01 0.1 1000) = true
  /\ (1 <= Z.abs (clamp_target_to_risk_limits 3 rl 100 1.5 0.5 0.01 0.1 1000))%Z.
Proof.
  intros rl.
  destruct (clamp_target_to_risk_limits_spec rl 100 1.5 0.5 0.01 0.1 1000 3)
    as (_ & _ & _ & _ & Hmax).
  apply (Hmax); [| lia | vm_compute; reflexivity].
  intros m m' H1 H2 H3. cbn [Z.abs Z.sgn] in *.
  assert (Hm : (m = 0 \/ m = 1 \/ 2 <= m)%Z) by lia.
  destruct Hm as [-> | [-> | Hm]]; [vm_compute; reflexivity ..|].
  assert (Hm' : (m' = 2 \/ m' = 3)%Z) by lia.
  destruct Hm' as [-> | ->]; vm_compute in H3; discriminate H3.
Defined.

(** ** Execution layer *)

(** Some whole number of units at a positive unit cost exceeds any amount. *)
Lemma units_exceed (unit_cost amount : Q) :
  0 < unit_cost ->
  exists n : Z, (1 <= n)%Z /\ amount < float n * unit_cost.
Proof.
  intros Hc.
  exists (Z.max 1 (Qfloor (amount / unit_cost) + 1)). split; [lia|].
  assert (Hq : amount / unit_cost
               < float (Z.max 1 (Qfloor (amount / unit_cost) + 1))).
  { eapply Qlt_le_trans; [apply Qlt_floor|].
    rewrite <- Zle_Qle. lia. }
  apply (Qmult_lt_compat_r _ _ unit_cost Hc) in Hq.
  setoid_replace (amount / unit_cost * unit_cost) with amount in Hq
    by (field; intros E; rewrite E in Hc; discriminate Hc).
  exact Hq.
Qed.

(** C10.  Both execution functions take the requested target as the new
    position and change cash by the signed trade notional less fees and
    slippage, whatever the cash at hand: for any bound, a purchase large
    enough is filled in full and leaves cash below the bound. *)
Theorem execution_fills_every_target :
  (forall (current target : Z) (price cash fee bps : Q),
     let r := execute_option_trade current target price cash fee bps in
     new_contracts r = target
     /\ traded_contracts r = (target - current)%Z
     /\ option_fees r == float (Z.abs (target - current)) * fee
     /\ option_slippage r
        == float (Z.abs (target - current)) * price * 100 * (bps / 10000)
     /\ option_cash r
        == cash - float (target - current) * price * 100
           - option_fees r - option_slippage r)
  /\ (forall (current target : Z) (spot cash fee bps : Q),
     let r := rebalance_delta_hedge current target spot cash fee bps in
     new_shares r = target
     /\ traded_shares r = (target - current)%Z
     /\ hedge_fees r == float (Z.abs (target - current)) * fee
     /\ hedge_slippage r
        == float (Z.abs (target - current)) * spot * (bps / 10000)
     /\ hedge_cash r
        == cash - float (target - current) * spot
           - hedge_fees r - hedge_slippage r)
  /\ (forall (bound cash price : Q), 0 < price ->
      exists target : Z,
        let r := execute_option_trade 0 target price cash
                   default_fee_per_contract default_option_slippage_bps in
        new_contracts r = target /\ option_cash r < bound)
  /\ (forall (bound cash spot : Q), 0 < spot ->
      exists target : Z,
        let r := rebalance_delta_hedge 0 target spot cash
                   default_fee_per_share default_hedge_slippage_bps in
        new_shares r = target /\ hedge_cash r < bound).
Proof.
  split; [| split; [| split]].
  - intros. subst r. unfold execute_option_trade, CONTRACT_MULTIPLIER.
    cbn [new_contracts traded_contracts option_fees option_slippage
         option_cash].
    repeat split; try reflexivity. ring.
  - intros. subst r. unfold rebalance_delta_hedge.
    cbn [new_shares traded_shares hedge_fees hedge_slippage hedge_cash].
    repeat split; try reflexivity. ring.
  - intros bound cash price Hp.
    destruct (units_exceed (price * 100) (cash - bound)) as (n & Hn & Hgt).
    { rewrite <- (Qmult_0_l 100). apply Qmult_lt_compat_r; [reflexivity | exact Hp]. }
    exists n. split; [reflexivity|].
    unfold execute_option_trade, CONTRACT_MULTIPLIER,
      default_fee_per_contract, default_option_slippage_bps.
    cbn [option_cash]. rewrite Z.sub_0_r, (Z.abs_eq n) by lia.
    assert (H1 : 1 <= float n) by (rewrite (Zle_Qle 1 n) in Hn; exact Hn).
    assert (Ht : cash - bound < float n * price * 100)
      by (rewrite <- Qmult_assoc; exact Hgt).
    assert (H0 : 0 <= float n * price * 100).
    { repeat apply Qmult_le_0_compat; lra. }
    assert (E : 5 / 10000 == 0.0005) by reflexivity. rewrite E.
    remember (float n * price * 100) as t. remember (float n) as k.
    lra.
  - intros bound cash spot Hp.
    destruct (units_exceed spot (cash - bound) Hp) as (n & Hn & Hgt).
    exists n. split; [reflexivity|].
    unfold rebalance_delta_hedge, default_fee_per_share,
      default_hedge_slippage_bps.
    cbn [hedge_cash]. rewrite Z.sub_0_r, (Z.abs_eq n) by lia.
    assert (H1 : 1 <= float n) by (rewrite (Zle_Qle 1 n) in Hn; exact Hn).
    assert (H0 : 0 <= float n * spot)
      by (apply Qmult_le_0_compat; lra).
    assert (E : 1 / 10000 == 0.0001) by reflexivity. rewrite E.
    remember (float n * spot) as t. remember (float n) as k.
    lra.
Qed.

(** From a cash balance of 10000, some purchase at 2.00 is filled in full
    and leaves cash below minus one million. *)
Lemma execution_fills_every_target_witness :
  exists target : Z,
    let r := execute_option_trade 0 target 2 10000
               default_fee_per_contract default_option_slippage_bps in
    new_contracts r = target /\ option_cash r < - (1000000).
Proof.
  destruct execution_fills_every_target as (_ & _ & Hopt & _).
  apply (Hopt (- (1000000)) 10000 2). reflexivity.
Defined.

(** ** Metrics *)

Lemma last_items_nonempty {A : Type} (w : Z) (values : list A) :
  values <> [] -> (1 <= w)%Z -> last_items w values <> [].
Proof.
  intros Hne Hw. unfold last_items.
  intros Hnil.
  assert (Hlen : List.length (skipn (List.length values - Z.to_nat w) values)
                 = 0%nat) by (rewrite Hnil; reflexivity).
  rewrite length_skipn in Hlen.
  destruct values as [|v vs]; [congruence|]. cbn [List.length] in Hlen. lia.
Qed.

(** The mean of a window never divides by zero. *)
Lemma _rolling_mean_ok (values : list Q) (window : Z) :
  exists mean, _rolling_mean values window = Ok mean.
Proof.
  unfold _rolling_mean. destruct values as [|v vs]; [eexists; reflexivity|].
  set (w := Z.max 1 (Z.min window (len (v :: vs)))).
  assert (Hne : last_items w (v :: vs) <> [])
    by (apply last_items_nonempty; [discriminate | subst w; lia]).
  unfold pydiv.
  destruct (Qeq_bool (float (len (last_items w (v :: vs)))) 0) eqn:E;
    [| eexists; reflexivity].
  exfalso. apply Qeq_bool_eq in E.
  destruct (last_items w (v :: vs)) as [|x xs]; [congruence|].
  unfold len in E. cbn [List.length] in E.
  unfold Qeq in E. cbn in E. lia.
Qed.

Lemma _safe_price_trend_strength_ok (spot : Q) (prices : list Q) (window : Z) :
  exists ts, _safe_price_trend_strength spot prices window = Ok ts.
Proof.
  unfold _safe_price_trend_strength.
  destruct (_rolling_mean_ok prices window) as [baseline ->]. cbn [bind].
  destruct (baseline <=? 0) eqn:E; [eexists; reflexivity|]. qbool.
  unfold pydiv. destruct (Qeq_bool baseline 0) eqn:E0.
  - apply Qeq_bool_eq in E0. rewrite E0 in E. discriminate E.
  - eexists; reflexivity.
Qed.

Lemma chop_score_of_ok (choppiness denom : Q) :
  0 <= denom ->
  (1e-12 < denom ->
     chop_score_of choppiness denom = Ok (Finite (choppiness / denom)))
  /\ (denom <= 1e-12 -> chop_score_of choppiness denom = Ok Infinity).
Proof.
  intros Hd. unfold chop_score_of.
  destruct (denom >? 1e-12) eqn:E; qbool.
  - split; [intros _ | intros; qcontra].
    unfold pydiv. destruct (Qeq_bool denom 0) eqn:E0; [|reflexivity].
    apply Qeq_bool_eq in E0. rewrite E0 in E. discriminate E.
  - split; [intros; qcontra | reflexivity].
Qed.

(** The metric computation returns, and its chop score is guarded by the
    1e-12 floor on the denominator. *)
Lemma _base_metrics_chop_score (self : RegimeSignalEngine.t) (implied_vol : Q)
    (realized_vol_series : list Q) (spot : Q)
    (price_series return_series : list Q) :
  exists self' m choppiness avg_return,
    RegimeSignalEngine._base_metrics self implied_vol realized_vol_series
      spot price_series return_series = Ok (self', m)
    /\ _rolling_mean (List.map Qabs return_series)
         (long_chop_window (RegimeSignalEngine.config self)) = Ok choppiness
    /\ _rolling_mean return_series
         (long_chop_window (RegimeSignalEngine.config self)) = Ok avg_return
    /\ m_choppiness m = choppiness
    /\ (1e-12 < Qabs avg_return ->
          m_chop_score m = Finite (choppiness / Qabs avg_return))
    /\ (Qabs avg_return <= 1e-12 -> m_chop_score m = Infinity).
Proof.
  unfold RegimeSignalEngine._base_metrics.
  destruct (_rolling_mean_ok realized_vol_series
              (rv_short_window (RegimeSignalEngine.config self)))
    as [rvs ->].
  destruct (_rolling_mean_ok realized_vol_series
              (rv_medium_window (RegimeSignalEngine.config self)))
    as [rvm ->].
  destruct (_safe_price_trend_strength_ok spot price_series
              (trend_window (RegimeSignalEngine.config self)))
    as [ts ->].
  destruct (_rolling_mean_ok (List.map Qabs return_series)
              (long_chop_window (RegimeSignalEngine.config self)))
    as [chop Hchop].
  destruct (_rolling_mean_ok return_series
              (long_chop_window (RegimeSignalEngine.config self)))
    as [avg Havg].
  rewrite Hchop, Havg. cbn [bind].
  destruct (chop_score_of_ok chop (Qabs avg) (Qabs_nonneg avg)) as [Hfin Hinf].
  destruct (Qlt_le_dec 1e-12 (Qabs avg)) as [Hgt | Hle].
  - rewrite (Hfin Hgt). cbn [bind].
    do 4 eexists. split; [reflexivity|].
    repeat split; try reflexivity. intros; qcontra.
  - rewrite (Hinf Hle). cbn [bind].
    do 4 eexists. split; [reflexivity|].
    repeat split; try reflexivity. intros; qcontra.
Qed.

(** C5 (as the code has it).  The metric computation never raises, and
    its chop score is the rolling mean of the absolute returns divided by
    the absolute rolling mean of the returns when that denominator is
    above 1e-12, and +infinity when the denominator is at most 1e-12:
    the quotient is taken only strictly above the floor. *)
Theorem chop_score_floor (self : RegimeSignalEngine.t) (implied_vol : Q)
    (realized_vol_series : list Q) (spot : Q)
    (price_series return_series : list Q) :
  exists self' m choppiness avg_return,
    RegimeSignalEngine._base_metrics self implied_vol realized_vol_series
      spot price_series return_series = Ok (self', m)
    /\ _rolling_mean (List.map Qabs return_series)
         (long_chop_window (RegimeSignalEngine.config self)) = Ok choppiness
    /\ _rolling_mean return_series
         (long_chop_window (RegimeSignalEngine.config self)) = Ok avg_return
    /\ m_choppiness m = choppiness
    /\ (1e-12 < Qabs avg_return ->
          m_chop_score m = Finite (choppiness / Qabs avg_return))
    /\ (Qabs avg_return <= 1e-12 -> m_chop_score m = Infinity).
Proof.
  apply _base_metrics_chop_score.
Qed.

(** A single return of exactly 1e-12: the denominator is 1e-12, not
    below it, and the chop score is +infinity all the same. *)
Lemma chop_score_floor_witness :
  exists self' m,
    RegimeSignalEngine._base_metrics
      (RegimeSignalEngine.init mode_long DEFAULT_SIGNAL_CONFIG)
      0.2 [0.1] 100 [100] [1e-12] = Ok (self', m)
    /\ m_chop_score m = Infinity.
Proof.
  destruct (chop_score_floor
              (RegimeSignalEngine.init mode_long DEFAULT_SIGNAL_CONFIG)
              0.2 [0.1] 100 [100] [1e-12])
    as (self' & m & chop & avg & Hm & _ & Havg & _ & _ & Hinf).
  exists self', m. split; [exact Hm|].
  apply Hinf.
  vm_compute in Havg. injection Havg as <-. vm_compute. discriminate.
Defined.

(** The same input refutes the reading "+infinity exactly when the
    denominator is below 1e-12": here the denominator is not below 1e-12
    and no quotient is returned. *)
Lemma chop_score_below_floor_counterexample :
  exists self' m avg_return,
    RegimeSignalEngine._base_metrics
      (RegimeSignalEngine.init mode_long DEFAULT_SIGNAL_CONFIG)
      0.2 [0.1] 100 [100] [1e-12] = Ok (self', m)
    /\ _rolling_mean [1e-12] (long_chop_window DEFAULT_SIGNAL_CONFIG)
       = Ok avg_return
    /\ ~ (Qabs avg_return < 1e-12)
    /\ 1e-12 <= Qabs avg_return
    /\ m_chop_score m = Infinity
    /\ (forall q, m_chop_score m <> Finite q).
Proof.
  do 3 eexists. split; [vm_compute; reflexivity|].
  split; [vm_compute; reflexivity|].
  split; [vm_compute; discriminate|].
  split; [vm_compute; discriminate|].
  split; [reflexivity | discriminate].
Qed.

(** ** Regime signal engine *)

Lemma _base_metrics_ok (self : RegimeSignalEngine.t) (implied_vol : Q)
    (realized_vol_series : list Q) (spot : Q)
    (price_series return_series : list Q) :
  exists m,
    RegimeSignalEngine._base_metrics self implied_vol realized_vol_series
      spot price_series return_series
    = Ok (RegimeSignalEngine.set_prev_edge (Some (m_edge m)) self, m).
Proof.
  destruct (_base_metrics_chop_score self implied_vol realized_vol_series spot
              price_series return_series)
    as (self' & m & _ & _ & Hm & _).
  exists m. rewrite Hm. f_equal. f_equal.
  unfold RegimeSignalEngine._base_metrics in Hm.
  repeat match type of Hm with
  | bind ?r _ = _ => destruct r; cbn [bind] in Hm; [|discriminate Hm]
  end.
  injection Hm as <- <-. reflexivity.
Qed.

(** [decide] never raises: it is the branch chain applied to the metrics
    of the bar. *)
Lemma decide_ok (self : RegimeSignalEngine.t) (implied_vol : Q)
    (realized_vol_series : list Q) (spot : Q)
    (price_series return_series : list Q) :
  exists m,
    RegimeSignalEngine._base_metrics self implied_vol realized_vol_series
      spot price_series return_series
    = Ok (RegimeSignalEngine.set_prev_edge (Some (m_edge m)) self, m)
    /\ forall o flags,
         RegimeSignalEngine.decide_branch
           (RegimeSignalEngine.set_prev_edge (Some (m_edge m)) self) m
           price_series = (o, flags) ->
         exists d,
           RegimeSignalEngine.decide self implied_vol realized_vol_series
             spot price_series return_series
           = Ok (RegimeSignalEngine.decide_finish o, d)
           /\ stance d = RegimeSignalEngine.o_stance o
           /\ signal d = _signal_for_stance (RegimeSignalEngine.o_stance o)
           /\ pricing_filter_passed d = RegimeSignalEngine.pricing_ok flags
           /\ path_filter_passed d = RegimeSignalEngine.path_ok flags
           /\ cooldown_remaining d
              = RegimeSignalEngine.cooldown_remaining
                  (RegimeSignalEngine.decide_finish o)
           /\ cooldown_active d = RegimeSignalEngine.o_cooldown_active o.
Proof.
  destruct (_base_metrics_ok self implied_vol realized_vol_series spot
              price_series return_series) as [m Hm].
  exists m. split; [exact Hm|]. intros o flags Hb.
  unfold RegimeSignalEngine.decide. rewrite Hm. cbn [bind]. rewrite Hb.
  eexists. split; [reflexivity|]. repeat split; reflexivity.
Qed.

(** Reduce field reads of updated engine records. *)
Ltac engine_simpl :=
  cbn [RegimeSignalEngine.mode RegimeSignalEngine.config
       RegimeSignalEngine.prev_edge RegimeSignalEngine.prev_stance
       RegimeSignalEngine.cooldown_remaining RegimeSignalEngine.adaptive_state
       RegimeSignalEngine.adaptive_pause_remaining
       RegimeSignalEngine.adaptive_short_enter_count
       RegimeSignalEngine.adaptive_long_enter_count
       RegimeSignalEngine.adaptive_short_exit_count
       RegimeSignalEngine.adaptive_long_exit_count
       RegimeSignalEngine.adaptive_pause_reason
       RegimeSignalEngine.set_prev_edge RegimeSignalEngine.set_prev_stance
       RegimeSignalEngine.set_cooldown_remaining
       RegimeSignalEngine.set_adaptive_state
       RegimeSignalEngine.set_adaptive_pause_remaining
       RegimeSignalEngine.set_adaptive_short_enter_count
       RegimeSignalEngine.set_adaptive_long_enter_count
       RegimeSignalEngine.set_adaptive_short_exit_count
       RegimeSignalEngine.set_adaptive_long_exit_count
       RegimeSignalEngine.set_adaptive_pause_reason
       RegimeSignalEngine.o_self RegimeSignalEngine.o_stance
       RegimeSignalEngine.o_reason RegimeSignalEngine.o_cooldown_active] in *.

(** A pause with at most one bar left completes: the sub-state is FLAT
    again and the enter counters are as they were. *)
Lemma paused_branch_completes (self : RegimeSignalEngine.t) :
  (RegimeSignalEngine.adaptive_pause_remaining self <= 1)%Z ->
  let o := RegimeSignalEngine.paused_branch self in
  RegimeSignalEngine.adaptive_state (RegimeSignalEngine.o_self o) = FLAT
  /\ RegimeSignalEngine.adaptive_short_enter_count (RegimeSignalEngine.o_self o)
     = RegimeSignalEngine.adaptive_short_enter_count self
  /\ RegimeSignalEngine.adaptive_long_enter_count (RegimeSignalEngine.o_self o)
     = RegimeSignalEngine.adaptive_long_enter_count self
  /\ RegimeSignalEngine.config (RegimeSignalEngine.o_self o)
     = RegimeSignalEngine.config self.
Proof.
  intros Hp o. subst o. unfold RegimeSignalEngine.paused_branch.
  destruct (Z.gtb_spec (RegimeSignalEngine.adaptive_pause_remaining self) 0);
    engine_simpl.
  - destruct (Z.leb_spec
                (RegimeSignalEngine.adaptive_pause_remaining self - 1) 0);
      [|lia].
    engine_simpl. repeat split; reflexivity.
  - destruct (Z.leb_spec (RegimeSignalEngine.adaptive_pause_remaining self) 0);
      [|lia].
    engine_simpl. repeat split; reflexivity.
Qed.

(** The stance the FLAT block reports is the selected stance. *)
Lemma flat_block_stance (self : RegimeSignalEngine.t) (m : Metrics)
    (short_ok long_ok : bool) (enter_persist : Z) (ca : bool) :
  RegimeSignalEngine.o_stance
    (RegimeSignalEngine.flat_block self m short_ok long_ok enter_persist ca)
  = match
      RegimeSignalEngine.selected_stance
        (RegimeSignalEngine.set_adaptive_long_enter_count
           (if long_ok
            then (RegimeSignalEngine.adaptive_long_enter_count self + 1)%Z
            else 0%Z)
           (RegimeSignalEngine.set_adaptive_short_enter_count
              (if short_ok
               then (RegimeSignalEngine.adaptive_short_enter_count self + 1)%Z
               else 0%Z) self))
        m enter_persist
    with
    | SHORT_VOL => SHORT_VOL
    | LONG_VOL => LONG_VOL
    | _ => FLAT
    end.
Proof.
  unfold RegimeSignalEngine.flat_block.
  destruct short_ok, long_ok;
    cbn [RegimeSignalEngine.set_adaptive_short_enter_count
         RegimeSignalEngine.set_adaptive_long_enter_count
         RegimeSignalEngine.adaptive_short_enter_count
         RegimeSignalEngine.adaptive_long_enter_count];
    match goal with
    | |- context [RegimeSignalEngine.selected_stance ?s m enter_persist] =>
        destruct (RegimeSignalEngine.selected_stance s m enter_persist)
    end; reflexivity.
Qed.

(** C4 (as the code has it).  In adaptive mode, past the warmup, with the
    sub-state FLAT when the FLAT block runs (FLAT on entry, or a pause that
    completes on this bar), when both enter counters as updated on this bar
    reach the persistence threshold the stance is decided by the two
    strength scores: the higher-scoring side (SHORT_VOL when the scores
    are equal) if the absolute gap is at least adaptive_confidence_buffer,
    FLAT if the gap is below the buffer. *)
Theorem adaptive_double_entry_uses_scores (self : RegimeSignalEngine.t)
    (implied_vol : Q) (realized_vol_series : list Q) (spot : Q)
    (price_series return_series : list Q)
    (self1 self' : RegimeSignalEngine.t) (m : Metrics) (d : SignalDecision) :
  let c := RegimeSignalEngine.config self in
  let enter_persist := Z.max 1 (adaptive_enter_persist_bars c) in
  let short_count :=
    if RegimeSignalEngine._adaptive_short_enter_ok c m
    then (RegimeSignalEngine.adaptive_short_enter_count self + 1)%Z
    else 0%Z in
  let long_count :=
    if RegimeSignalEngine._adaptive_long_enter_ok c m
    then (RegimeSignalEngine.adaptive_long_enter_count self + 1)%Z
    else 0%Z in
  let ss := RegimeSignalEngine.short_strength c m in
  let ls := RegimeSignalEngine.long_strength c m in
  RegimeSignalEngine.mode self = mode_adaptive ->
  (min_warmup_bars c <= len price_series)%Z ->
  (RegimeSignalEngine.adaptive_state self = FLAT
   \/ (RegimeSignalEngine.adaptive_state self = PAUSED
       /\ RegimeSignalEngine.adaptive_pause_remaining self <= 1)%Z) ->
  RegimeSignalEngine._base_metrics self implied_vol realized_vol_series spot
    price_series return_series = Ok (self1, m) ->
  RegimeSignalEngine.decide self implied_vol realized_vol_series spot
    price_series return_series = Ok (self', d) ->
  (enter_persist <= short_count)%Z ->
  (enter_persist <= long_count)%Z ->
  (adaptive_confidence_buffer c <= Qabs (ss - ls) ->
     stance d = (if ss >=? ls then SHORT_VOL else LONG_VOL)
     /\ signal d = (if ss >=? ls then (-1)%Z else 1%Z))
  /\ (Qabs (ss - ls) < adaptive_confidence_buffer c ->
     stance d = FLAT /\ signal d = 0%Z).
Proof.
  intros c enter_persist short_count long_count ss ls
         Hmode Hwarm Hstate Hm Hd Hs Hl.
  assert (Hstance :
    stance d
    = if (Qabs (ss - ls) >=? adaptive_confidence_buffer c)
      then (if ss >=? ls then SHORT_VOL else LONG_VOL) else FLAT).
  { unfold RegimeSignalEngine.decide in Hd. rewrite Hm in Hd.
    cbn [bind] in Hd.
    destruct (RegimeSignalEngine.decide_branch self1 m price_series)
      as [o flags] eqn:Hb.
    injection Hd as _ <-. cbn [stance].
    destruct (_base_metrics_ok self implied_vol realized_vol_series spot
                price_series return_series) as [m' Hm'].
    rewrite Hm in Hm'. injection Hm' as -> <-.
    unfold RegimeSignalEngine.decide_branch in Hb.
    cbn [RegimeSignalEngine.set_prev_edge RegimeSignalEngine.config
         RegimeSignalEngine.mode RegimeSignalEngine.adaptive_state] in Hb.
    fold c in Hb.
    destruct (Z.ltb_spec (len price_series) (min_warmup_bars c)) as [Hlt | _];
      [lia|].
    rewrite Hmode in Hb.
    injection Hb as <- _. cbn [RegimeSignalEngine.o_stance].
    match goal with
    | |- RegimeSignalEngine.o_stance
           (if Stance_eqb (RegimeSignalEngine.adaptive_state
                             (RegimeSignalEngine.o_self ?o1)) FLAT
            then _ else _) = _ =>
        assert (Ho1 :
          RegimeSignalEngine.adaptive_state (RegimeSignalEngine.o_self o1)
          = FLAT
          /\ RegimeSignalEngine.adaptive_short_enter_count
               (RegimeSignalEngine.o_self o1)
             = RegimeSignalEngine.adaptive_short_enter_count self
          /\ RegimeSignalEngine.adaptive_long_enter_count
               (RegimeSignalEngine.o_self o1)
             = RegimeSignalEngine.adaptive_long_enter_count self
          /\ RegimeSignalEngine.config (RegimeSignalEngine.o_self o1) = c)
    end.
    { destruct Hstate as [Hst | [Hst Hp]]; rewrite Hst.
      - repeat split; try reflexivity. exact Hst.
      - apply (paused_branch_completes
                 (RegimeSignalEngine.set_prev_edge (Some (m_edge m)) self)).
        exact Hp. }
    destruct Ho1 as (Hflat & Hsc & Hlc & Hcfg).
    rewrite Hflat. cbn [Stance_eqb].
    rewrite flat_block_stance.
    unfold RegimeSignalEngine.selected_stance.
    cbn [RegimeSignalEngine.set_adaptive_long_enter_count
         RegimeSignalEngine.set_adaptive_short_enter_count
         RegimeSignalEngine.adaptive_short_enter_count
         RegimeSignalEngine.adaptive_long_enter_count
         RegimeSignalEngine.config].
    rewrite Hsc, Hlc, Hcfg. fold short_count long_count ss ls.
    destruct (Z.geb_spec short_count (Z.max 1 (adaptive_enter_persist_bars c)));
      [| unfold enter_persist in Hs; lia].
    destruct (Z.geb_spec long_count (Z.max 1 (adaptive_enter_persist_bars c)));
      [| unfold enter_persist in Hl; lia].
    cbn [andb].
    destruct (Qabs (ss - ls) >=? adaptive_confidence_buffer c);
      [destruct (ss >=? ls)|]; reflexivity. }
  assert (Hsignal : signal d = _signal_for_stance (stance d)).
  { unfold RegimeSignalEngine.decide in Hd. rewrite Hm in Hd.
    cbn [bind] in Hd.
    destruct (RegimeSignalEngine.decide_branch self1 m price_series).
    injection Hd as _ <-. reflexivity. }
  rewrite Hsignal, Hstance.
  destruct (Qabs (ss - ls) >=? adaptive_confidence_buffer c) eqn:E; qbool.
  - split; [intros _ | intros; qcontra].
    destruct (ss >=? ls); split; reflexivity.
  - split; [intros; qcontra | intros _; split; reflexivity].
Qed.

(** Implied volatility 1.5 over realized volatilities 0.5 and 1.0 under
    [overlapping_config]: edge 0.5, rv_change 0.25, no trend.  Both
    counters reach the threshold, the scores are 1.0 and 1.125, and the
    gap equals the buffer of 0.125. *)
Lemma adaptive_double_entry_uses_scores_witness :
  exists self' d,
    RegimeSignalEngine.decide
      (RegimeSignalEngine.init mode_adaptive overlapping_config)
      1.5 [0.5; 1] 100 [100; 100] [0] = Ok (self', d)
    /\ stance d = LONG_VOL /\ signal d = 1%Z.
Proof.
  set (self := RegimeSignalEngine.init mode_adaptive overlapping_config).
  destruct (RegimeSignalEngine._base_metrics self 1.5 [0.5; 1] 100
              [100; 100] [0]) as [[self1 m]|] eqn:Hm;
    [| vm_compute in Hm; discriminate Hm].
  destruct (RegimeSignalEngine.decide self 1.5 [0.5; 1] 100
              [100; 100] [0]) as [[self' d]|] eqn:Hd;
    [| vm_compute in Hd; discriminate Hd].
  exists self', d. split; [reflexivity|].
  pose proof (adaptive_double_entry_uses_scores self 1.5 [0.5; 1] 100
                [100; 100] [0] self1 self' m d) as H.
  cbv zeta in H.
  vm_compute in Hm. injection Hm as <- <-.
  destruct H as [Hsel _].
  - reflexivity.
  - vm_compute. discriminate.
  - left. reflexivity.
  - vm_compute. reflexivity.
  - exact Hd.
  - vm_compute. discriminate.
  - vm_compute. discriminate.
  - apply Hsel. vm_compute. discriminate.
Defined.

(** The same bar refutes "selected only if the gap strictly exceeds the
    buffer": the gap does not exceed the buffer, and the stance is
    LONG_VOL, not FLAT. *)
Lemma adaptive_gap_equal_buffer_counterexample :
  let c := overlapping_config in
  exists self1 m self' d,
    RegimeSignalEngine._base_metrics
      (RegimeSignalEngine.init mode_adaptive c)
      1.5 [0.5; 1] 100 [100; 100] [0] = Ok (self1, m)
    /\ RegimeSignalEngine.decide
         (RegimeSignalEngine.init mode_adaptive c)
         1.5 [0.5; 1] 100 [100; 100] [0] = Ok (self', d)
    /\ RegimeSignalEngine._adaptive_short_enter_ok c m = true
    /\ RegimeSignalEngine._adaptive_long_enter_ok c m = true
    /\ (Z.max 1 (adaptive_enter_persist_bars c) <= 1)%Z
    /\ RegimeSignalEngine.short_strength c m == 1
    /\ RegimeSignalEngine.long_strength c m == 1.125
    /\ ~ (adaptive_confidence_buffer c
          < Qabs (RegimeSignalEngine.short_strength c m
                  - RegimeSignalEngine.long_strength c m))
    /\ stance d = LONG_VOL
    /\ stance d <> FLAT.
Proof.
  intros c. do 4 eexists.
  split; [vm_compute; reflexivity|].
  split; [vm_compute; reflexivity|].
  split; [vm_compute; reflexivity|].
  split; [vm_compute; reflexivity|].
  split; [vm_compute; discriminate|].
  split; [vm_compute; reflexivity|].
  split; [vm_compute; reflexivity|].
  split; [vm_compute; discriminate|].
  split; [reflexivity | discriminate].
Qed.

(** ** The simulation loop *)

Lemma Ok_pair_inj {A B : Type} (a c : A) (b d : B) :
  Ok (a, b) = Ok (c, d) -> a = c /\ b = d.
Proof. intros H. injection H as -> ->. split; reflexivity. Qed.

Section LoopProperties.

Variable ln : Q -> Q.
Variable mode : StrategyMode.
Variable args : Args.

Lemma trade_target (st : SimState) (row : Bar) (pt : PreTrade) :
  tr_target_contracts (trade mode args st row pt)
  = adopted_target (pending_target_contracts st)
                   (flatten_for_risk (pt_overlay pt)).
Proof. reflexivity. Qed.

Lemma trade_check (st : SimState) (row : Bar) (pt : PreTrade) :
  tr_check (trade mode args st row pt)
  = risk_limit_check mode (risk_limits args) row
      (flatten_for_risk (pt_overlay pt))
      (tr_target_contracts (trade mode args st row pt))
      (option_contracts st) (pt_equity_before_trade pt).
Proof. reflexivity. Qed.

Lemma trade_option_contracts (st : SimState) (row : Bar) (pt : PreTrade) :
  tr_option_contracts (trade mode args st row pt)
  = rc_target_contracts (tr_check (trade mode args st row pt)).
Proof. reflexivity. Qed.

(** What one iteration computes, read off the state before, the state
    after and the row. *)
Lemma bar_step_shape (st st' : SimState) (row : Bar) (r : StepRow) :
  bar_step ln mode args st row = Ok (st', r) ->
  let pt := pre_trade mode args st row in
  let tr := trade mode args st row pt in
  requested_option_contracts r = pending_target_contracts st
  /\ row_equity_before_trade r = pt_equity_before_trade pt
  /\ row_overlay r = pt_overlay pt
  /\ row_adopted_target r
     = adopted_target (pending_target_contracts st) (row_flatten_for_risk r)
  /\ executed_target_contracts r
     = rc_target_contracts
         (risk_limit_check mode (risk_limits args) row
            (row_flatten_for_risk r) (row_adopted_target r)
            (option_contracts st) (row_equity_before_trade r))
  /\ option_contracts st' = executed_target_contracts r
  /\ row_option_contracts r = executed_target_contracts r
  /\ pending_target_contracts st' = queued_option_contracts r
  /\ queued_option_contracts r
     = g_next_target_contracts
         (strategy_gate mode args row (row_decision r) (row_overlay r)
            (row_sized_target r) (option_contracts st')
            (ticked (adaptive_short_pause_remaining st))
            (ticked (adaptive_long_pause_remaining st)))
  /\ (exists return_history',
        RegimeSignalEngine.decide (signal_engine st) (iv row)
          (rv_history st ++ [realized_vol row]) (close row)
          (spot_history st ++ [close row]) return_history'
        = Ok (signal_engine st', row_decision r))
  /\ spot_history st' = spot_history st ++ [close row]
  /\ (exists before after,
        events st'
        = events st ++ before
          ++ rc_events
               (risk_limit_check mode (risk_limits args) row
                  (row_flatten_for_risk r) (row_adopted_target r)
                  (option_contracts st) (row_equity_before_trade r))
          ++ after)
  /\ risk_block_reason r
     = rc_block_reason
         (risk_limit_check mode (risk_limits args) row
            (row_flatten_for_risk r) (row_adopted_target r)
            (option_contracts st) (row_equity_before_trade r)).
Proof.
  intros H pt tr. unfold bar_step in H.
  destruct (long_diagnostic ln st row) as [diag|];
    cbv beta iota delta [bind] in H; [|discriminate H].
  destruct (next_return_history ln st row) as [rh|];
    cbv beta iota delta [bind] in H; [|discriminate H].
  cbv zeta in H. fold pt tr in H.
  destruct (RegimeSignalEngine.decide (signal_engine st) (iv row)
              (rv_history st ++ [realized_vol row]) (close row)
              (spot_history st ++ [close row]) rh) as [ed|] eqn:Hdec;
    [|discriminate H].
  apply Ok_pair_inj in H. destruct H as [<- <-].
  unfold row_flatten_for_risk.
  cbn [requested_option_contracts row_equity_before_trade row_overlay
       row_adopted_target executed_target_contracts option_contracts
       row_option_contracts pending_target_contracts
       queued_option_contracts row_decision row_sized_target
       signal_engine spot_history events risk_block_reason].
  split; [reflexivity|]. split; [reflexivity|]. split; [reflexivity|].
  split; [apply trade_target|].
  split; [f_equal; apply trade_check|].
  split; [apply trade_option_contracts|].
  split; [apply trade_option_contracts|].
  split; [reflexivity|]. split; [reflexivity|].
  split; [exists rh; destruct ed; exact Hdec|].
  split; [reflexivity|].
  subst tr. rewrite <- trade_check.
  split; [|reflexivity].
  exists (diag ++ risk_event mode row pt). eexists.
  rewrite <- (app_assoc diag). reflexivity.
Qed.

(** A run is a chain of steps. *)
Lemma run_bars_steps (market_data : list Bar) (st final : SimState)
    (rows : list StepRow) (exn : option PyExn) :
  run_bars ln mode args st market_data = (rows, final, exn) ->
  steps ln mode args st rows final.
Proof.
  revert st rows final exn.
  induction market_data as [|row rest IH]; intros st rows final exn H;
    cbn [run_bars] in H.
  - injection H as <- <- _. constructor.
  - destruct (bar_step ln mode args st row) as [[st' r]|e] eqn:Hstep.
    + destruct (run_bars ln mode args st' rest) as [[rows' final'] exn']
        eqn:Hrest.
      injection H as <- <- _.
      eapply steps_bar; [exact Hstep|]. eapply IH. exact Hrest.
    + injection H as <- <- _. constructor.
Qed.

Section Invariants.

(** [Inv] holds of the states between bars, [Last st r] ties a state
    to the row of the bar that produced it, [Rel prev r] is what is to
    be shown of consecutive rows and [Each r] of every row. *)
Variable Inv : SimState -> Prop.
Variable Last : SimState -> StepRow -> Prop.
Variable Rel : StepRow -> StepRow -> Prop.
Variable Each : StepRow -> Prop.

Hypothesis step_keeps :
  forall st row st' r,
    Inv st -> bar_step ln mode args st row = Ok (st', r) ->
    Inv st' /\ Last st' r /\ Each r.
Hypothesis step_relates :
  forall st prev row st' r,
    Inv st -> Last st prev ->
    bar_step ln mode args st row = Ok (st', r) -> Rel prev r.

Lemma steps_each (st final : SimState) (rows : list StepRow) :
  steps ln mode args st rows final -> Inv st ->
  forall r, In r rows -> Each r.
Proof.
  induction 1 as [|st st' final row r rows Hstep _ IH]; intros Hinv x Hin.
  - destruct Hin.
  - destruct (step_keeps _ _ _ _ Hinv Hstep) as (Hinv' & _ & He).
    destruct Hin as [<- | Hin]; [exact He | exact (IH Hinv' x Hin)].
Qed.

Lemma steps_consecutive (st final : SimState) (rows : list StepRow) :
  steps ln mode args st rows final -> Inv st ->
  forall t prev r,
    nth_error rows t = Some prev -> nth_error rows (S t) = Some r ->
    Rel prev r.
Proof.
  induction 1 as [|st st' final row r rows Hstep Hrest IH];
    intros Hinv t prev x Hprev Hx.
  - destruct t; discriminate Hprev.
  - destruct (step_keeps _ _ _ _ Hinv Hstep) as (Hinv' & Hlast & _).
    destruct t as [|t].
    + cbn in Hprev, Hx. injection Hprev as <-.
      inversion Hrest as [|? st'' ? row' r' rows' Hstep' _]; subst;
        [discriminate Hx|].
      cbn in Hx. injection Hx as <-.
      exact (step_relates _ _ _ _ _ Hinv' Hlast Hstep').
    + cbn in Hprev, Hx. exact (IH Hinv' t prev x Hprev Hx).
Qed.

End Invariants.

(** The position the bar ends with is the one the execution part
    leaves. *)
Lemma bar_step_position (st st' : SimState) (row : Bar) (r : StepRow) :
  bar_step ln mode args st row = Ok (st', r) ->
  let tr := trade mode args st row (pre_trade mode args st row) in
  executed_target_contracts r = rc_target_contracts (tr_check tr)
  /\ risk_block_reason r = rc_block_reason (tr_check tr)
  /\ option_contracts st' = tr_option_contracts tr
  /\ hedge_shares st' = tr_hedge_shares tr
  /\ cash st' = tr_cash tr
  /\ drawdown st' = tr_drawdown tr.
Proof.
  intros H tr. unfold bar_step in H.
  destruct (long_diagnostic ln st row) as [diag|];
    cbv beta iota delta [bind] in H; [|discriminate H].
  destruct (next_return_history ln st row) as [rh|];
    cbv beta iota delta [bind] in H; [|discriminate H].
  cbv zeta in H. fold tr in H.
  destruct (RegimeSignalEngine.decide (signal_engine st) (iv row)
              (rv_history st ++ [realized_vol row]) (close row)
              (spot_history st ++ [close row]) rh) as [ed|];
    [|discriminate H].
  apply Ok_pair_inj in H. destruct H as [<- <-].
  cbn [executed_target_contracts risk_block_reason option_contracts
       hedge_shares cash drawdown].
  repeat split; reflexivity.
Qed.

(** The execution part reads the position, the cash, the drawdown
    tracker, the queued target and the bar's prices and greeks, and
    nothing else. *)
Lemma trade_reads (st1 st2 : SimState) (row1 row2 : Bar) :
  cash st1 = cash st2 ->
  option_contracts st1 = option_contracts st2 ->
  hedge_shares st1 = hedge_shares st2 ->
  drawdown st1 = drawdown st2 ->
  pending_target_contracts st1 = pending_target_contracts st2 ->
  date row1 = date row2 -> close row1 = close row2 ->
  option_mid row1 = option_mid row2 -> delta row1 = delta row2 ->
  gamma row1 = gamma row2 -> vega row1 = vega row2 ->
  trade mode args st1 row1 (pre_trade mode args st1 row1)
  = trade mode args st2 row2 (pre_trade mode args st2 row2).
Proof.
  intros Hc Ho Hh Hd Hp Hdate Hclose Hmid Hdelta Hgamma Hvega.
  assert (Hpt : pre_trade mode args st1 row1 = pre_trade mode args st2 row2).
  { unfold pre_trade.
    rewrite Hc, Ho, Hh, Hd, Hclose, Hmid, Hdelta, Hgamma, Hvega.
    reflexivity. }
  rewrite Hpt. unfold trade, risk_limit_check.
  rewrite Hc, Ho, Hh, Hd, Hp, Hdate, Hclose, Hmid, Hdelta, Hgamma, Hvega.
  reflexivity.
Qed.

(** With nothing held and nothing requested the risk-limit check
    leaves the target at 0. *)
Lemma risk_limit_check_flat (rl : RiskLimits.t) (row : Bar)
    (forced : bool) (equity : Q) :
  rc_target_contracts (risk_limit_check mode rl row forced 0 0 equity)
  = 0%Z.
Proof.
  unfold risk_limit_check. destruct forced; [reflexivity|].
  destruct (evaluate_projected_trade rl 0 (close row) (option_mid row)
              (delta row) (gamma row) (vega row) equity)
    as [[allowed why] ex].
  destruct allowed; reflexivity.
Qed.

(** C1.  One-bar execution delay.  On the first bar nothing is requested
    and nothing is executed.  On every later bar the target requested is
    the gated target queued at the end of the bar before, and the target
    adopted before the risk-limit check is that target, or 0 when a
    flatten condition fired.  The executed target and the position,
    hedge and cash a bar ends with are determined by the position, cash,
    drawdown tracker and queued target the bar starts with and by the
    bar's prices and greeks: the signal engine, the histories and the
    bar's implied and realized volatility, which only the decision
    reads, do not enter. *)
Theorem one_bar_execution_delay (signal_config : SignalConfig)
    (market_data : list Bar) (rows : list StepRow) (final : SimState)
    (exn : option PyExn) :
  run_single_mode ln mode args market_data signal_config
  = (rows, final, exn) ->
  (forall r, nth_error rows 0 = Some r ->
     requested_option_contracts r = 0%Z
     /\ row_adopted_target r = 0%Z
     /\ executed_target_contracts r = 0%Z
     /\ row_option_contracts r = 0%Z)
  /\ (forall t prev r,
        nth_error rows t = Some prev -> nth_error rows (S t) = Some r ->
        requested_option_contracts r = queued_option_contracts prev
        /\ row_adopted_target r
           = if row_flatten_for_risk r then 0%Z
             else queued_option_contracts prev)
  /\ (forall st1 st2 row1 row2 st1' st2' r1 r2,
        cash st1 = cash st2 ->
        option_contracts st1 = option_contracts st2 ->
        hedge_shares st1 = hedge_shares st2 ->
        drawdown st1 = drawdown st2 ->
        pending_target_contracts st1 = pending_target_contracts st2 ->
        date row1 = date row2 -> close row1 = close row2 ->
        option_mid row1 = option_mid row2 -> delta row1 = delta row2 ->
        gamma row1 = gamma row2 -> vega row1 = vega row2 ->
        bar_step ln mode args st1 row1 = Ok (st1', r1) ->
        bar_step ln mode args st2 row2 = Ok (st2', r2) ->
        executed_target_contracts r1 = executed_target_contracts r2
        /\ option_contracts st1' = option_contracts st2'
        /\ hedge_shares st1' = hedge_shares st2'
        /\ cash st1' = cash st2').
Proof.
  intros Hrun. apply run_bars_steps in Hrun.
  split; [| split].
  - intros r Hr.
    inversion Hrun as [|? st' ? row r' rows' Hstep _]; subst;
      [discriminate Hr|].
    cbn in Hr. injection Hr as <-.
    destruct (bar_step_shape _ _ _ _ Hstep)
      as (Hreq & _ & _ & Had & Hex & _ & Hpos & _).
    cbn [initial_state pending_target_contracts option_contracts]
      in Hreq, Had, Hex.
    assert (Had' : row_adopted_target r' = 0%Z)
      by (rewrite Had; unfold adopted_target;
          destruct (row_flatten_for_risk r'); reflexivity).
    rewrite Had' in Hex. rewrite risk_limit_check_flat in Hex.
    repeat split; congruence.
  - apply (steps_consecutive
             (fun _ => True)
             (fun st prev =>
                pending_target_contracts st = queued_option_contracts prev)
             (fun prev r =>
                requested_option_contracts r = queued_option_contracts prev
                /\ row_adopted_target r
                   = if row_flatten_for_risk r then 0%Z
                     else queued_option_contracts prev)
             (fun _ => True))
      with (st := initial_state mode signal_config) (final := final);
      [| | exact Hrun | exact I].
    + intros st row st' r _ Hstep.
      destruct (bar_step_shape _ _ _ _ Hstep)
        as (_ & _ & _ & _ & _ & _ & _ & Hq & _).
      repeat split. exact Hq.
    + intros st prev row st' r _ Hlast Hstep.
      destruct (bar_step_shape _ _ _ _ Hstep) as (Hreq & _ & _ & Had & _).
      rewrite Hreq, Had, Hlast. split; reflexivity.
  - intros st1 st2 row1 row2 st1' st2' r1 r2
           Hc Ho Hh Hd Hp Hdate Hclose Hmid Hdelta Hgamma Hvega H1 H2.
    destruct (bar_step_position _ _ _ _ H1) as (He1 & _ & Ho1 & Hh1 & Hc1 & _).
    destruct (bar_step_position _ _ _ _ H2) as (He2 & _ & Ho2 & Hh2 & Hc2 & _).
    rewrite He1, He2, Ho1, Ho2, Hh1, Hh2, Hc1, Hc2.
    rewrite (trade_reads st1 st2 row1 row2) by assumption.
    repeat split; reflexivity.
Qed.

(** The three outcomes of the risk-limit check on a target that is not
    a forced flatten and fails the limits. *)
Lemma risk_limit_check_blocked (rl : RiskLimits.t) (row : Bar)
    (target opening : Z) (equity : Q) :
  projected_trade_allowed rl (close row) (option_mid row) (delta row)
    (gamma row) (vega row) equity target = false ->
  let why :=
    snd (fst (evaluate_projected_trade rl target (close row)
                (option_mid row) (delta row) (gamma row) (vega row)
                equity)) in
  let clamped :=
    clamp_target_to_risk_limits target rl (close row) (option_mid row)
      (delta row) (gamma row) (vega row) equity in
  risk_limit_check mode rl row false target opening equity
  = if (Z.abs target <? Z.abs opening)%Z then
      mkRiskCheck target why
        [RISK_ALLOW_DERISK (date row) mode target opening why]
    else if (Z.abs clamped >? Z.abs opening)%Z then
      mkRiskCheck clamped EmptyString
        [RISK_CLAMP (date row) mode target clamped why]
    else
      mkRiskCheck opening why [RISK_BLOCK (date row) mode why].
Proof.
  unfold projected_trade_allowed, risk_limit_check.
  destruct (evaluate_projected_trade rl target (close row) (option_mid row)
              (delta row) (gamma row) (vega row) equity)
    as [[allowed why] ex].
  cbn [fst snd]. intros ->. reflexivity.
Qed.

(** C3 (as the code has it).  On a bar that is not a forced flatten and
    whose adopted target fails the limits: a target strictly smaller in
    magnitude than the opening position is executed anyway and
    RISK_ALLOW_DERISK is logged; a target at least as large in magnitude
    goes through the clamp, and the clamped value is executed, with
    RISK_CLAMP logged, if it is strictly larger in magnitude than the
    opening position; otherwise the position stays at its opening
    size and RISK_BLOCK is logged. *)
Theorem risk_check_derisk_clamp_block (st st' : SimState) (row : Bar)
    (r : StepRow) :
  let target := row_adopted_target r in
  let opening := option_contracts st in
  let why :=
    snd (fst (evaluate_projected_trade (risk_limits args) target (close row)
                (option_mid row) (delta row) (gamma row) (vega row)
                (row_equity_before_trade r))) in
  let clamped :=
    clamp_target_to_risk_limits target (risk_limits args) (close row)
      (option_mid row) (delta row) (gamma row) (vega row)
      (row_equity_before_trade r) in
  bar_step ln mode args st row = Ok (st', r) ->
  row_flatten_for_risk r = false ->
  projected_trade_allowed (risk_limits args) (close row) (option_mid row)
    (delta row) (gamma row) (vega row) (row_equity_before_trade r) target
  = false ->
  ((Z.abs target < Z.abs opening)%Z ->
     executed_target_contracts r = target
     /\ option_contracts st' = target
     /\ In (RISK_ALLOW_DERISK (date row) mode target opening why)
           (events st'))
  /\ ((Z.abs opening <= Z.abs target)%Z ->
      (Z.abs opening < Z.abs clamped)%Z ->
      executed_target_contracts r = clamped
      /\ option_contracts st' = clamped
      /\ In (RISK_CLAMP (date row) mode target clamped why) (events st'))
  /\ ((Z.abs opening <= Z.abs target)%Z ->
      (Z.abs clamped <= Z.abs opening)%Z ->
      executed_target_contracts r = opening
      /\ option_contracts st' = opening
      /\ risk_block_reason r = why
      /\ In (RISK_BLOCK (date row) mode why) (events st')).
Proof.
  intros target opening why clamped Hstep Hflat Hfail.
  destruct (bar_step_shape _ _ _ _ Hstep)
    as (_ & _ & _ & _ & Hex & Hpos & _ & _ & _ & _ & _ & Hev & Hwhy).
  rewrite Hflat in Hex, Hev, Hwhy. fold target opening in Hex, Hev, Hwhy.
  rewrite (risk_limit_check_blocked _ _ _ opening _ Hfail) in Hex, Hev, Hwhy.
  fold target why clamped in Hex, Hev, Hwhy.
  destruct Hev as (before & after & Hev).
  assert (Hin : forall e x, In e x -> events st' = events st ++ before ++ x ++ after ->
                            In e (events st')).
  { intros e x Hx ->. apply in_or_app. right. apply in_or_app. right.
    apply in_or_app. left. exact Hx. }
  rewrite Hpos.
  destruct (Z.ltb_spec (Z.abs target) (Z.abs opening)) as [Hlt | Hge].
  - cbn [rc_target_contracts rc_events rc_block_reason] in *.
    split; [intros _ | split; intros; lia].
    repeat split; try assumption.
    eapply Hin; [|exact Hev]. left. reflexivity.
  - split; [intros; lia|].
    destruct (Z.gtb_spec (Z.abs clamped) (Z.abs opening)) as [Hgt | Hle];
      cbn [rc_target_contracts rc_events rc_block_reason] in *.
    + split; [intros _ _ | intros; lia].
      repeat split; try assumption.
      eapply Hin; [|exact Hev]. left. reflexivity.
    + split; [intros; lia | intros _ _].
      repeat split; try assumption.
      eapply Hin; [|exact Hev]. left. reflexivity.
Qed.

End LoopProperties.

Section AdaptiveLoop.

Variable ln : Q -> Q.
Variable args : Args.

(** The last adaptive gate leaves no target that opposes the position. *)
Lemma gate_adaptive_no_opposite (decision : SignalDecision) (o : Overlay)
    (next_target position short_pause long_pause : Z) :
  let queued :=
    g_next_target_contracts
      (gate_adaptive args decision o next_target position
                     short_pause long_pause) in
  ~ (position < 0 < queued)%Z /\ ~ (queued < 0 < position)%Z.
Proof.
  cbv zeta. unfold gate_adaptive.
  match goal with
  | |- context [if ?c then mkGate 0 "ADAPTIVE_SWITCH_THROUGH_FLAT" _ _ _
                else ?g] =>
      set (inner := g)
  end.
  match goal with
  | |- context [if ?c then _ else inner] => destruct c eqn:E
  end; cbn [g_next_target_contracts].
  - lia.
  - apply orb_false_iff in E. destruct E as [E1 E2].
    apply andb_false_iff in E1, E2.
    split; intros [Ha Hb].
    + destruct E1 as [E1 | E1];
        [apply Z.ltb_ge in E1 | apply Z.ltb_ge in E1]; lia.
    + destruct E2 as [E2 | E2]; rewrite Z.gtb_ltb in E2;
        apply Z.ltb_ge in E2; lia.
Qed.

(** The target the risk-limit check leaves is the adopted target, a
    clamp of it that keeps its sign, or the opening position. *)
Lemma risk_limit_check_target (m : StrategyMode) (rl : RiskLimits.t)
    (row : Bar) (forced : bool) (target opening : Z) (equity : Q) :
  let executed :=
    rc_target_contracts
      (risk_limit_check m rl row forced target opening equity) in
  executed = target \/ executed = opening
  \/ (executed = 0 \/ Z.sgn executed = Z.sgn target)%Z.
Proof.
  unfold risk_limit_check. destruct forced; [left; reflexivity|].
  destruct (evaluate_projected_trade rl target (close row) (option_mid row)
              (delta row) (gamma row) (vega row) equity)
    as [[allowed why] ex].
  destruct allowed; [left; reflexivity|].
  destruct (Z.abs target <? Z.abs opening)%Z; [left; reflexivity|].
  destruct (_ >? Z.abs opening)%Z; cbn [rc_target_contracts].
  - right. right.
    apply (clamp_target_props rl (close row) (option_mid row) (delta row)
             (gamma row) (vega row) equity target).
  - right. left. reflexivity.
Qed.

(** In adaptive mode the position and the queued target never have
    opposite signs, and a bar never takes the position across zero. *)
Lemma adaptive_step_no_flip (st st' : SimState) (row : Bar) (r : StepRow) :
  ~ (option_contracts st < 0 < pending_target_contracts st)%Z ->
  ~ (pending_target_contracts st < 0 < option_contracts st)%Z ->
  bar_step ln mode_adaptive args st row = Ok (st', r) ->
  ~ (option_contracts st < 0 < option_contracts st')%Z
  /\ ~ (option_contracts st' < 0 < option_contracts st)%Z
  /\ ~ (option_contracts st' < 0 < pending_target_contracts st')%Z
  /\ ~ (pending_target_contracts st' < 0 < option_contracts st')%Z
  /\ row_option_contracts r = option_contracts st'
  /\ queued_option_contracts r = pending_target_contracts st'.
Proof.
  intros Hinv1 Hinv2 Hstep.
  destruct (bar_step_shape _ _ _ _ _ _ _ Hstep)
    as (_ & _ & _ & Had & Hex & Hpos & Hrow & Hq & Hgate & _).
  pose proof (risk_limit_check_target mode_adaptive (risk_limits args) row
                (row_flatten_for_risk r) (row_adopted_target r)
                (option_contracts st) (row_equity_before_trade r)) as Ht.
  cbv zeta in Ht. rewrite <- Hex, <- Hpos in Ht.
  assert (Hadopt : row_adopted_target r = 0%Z
                   \/ row_adopted_target r = pending_target_contracts st)
    by (rewrite Had; unfold adopted_target;
        destruct (row_flatten_for_risk r); auto).
  pose proof (gate_adaptive_no_opposite (row_decision r) (row_overlay r)
                (row_sized_target r) (option_contracts st')
                (ticked (adaptive_short_pause_remaining st))
                (ticked (adaptive_long_pause_remaining st))) as Hg.
  cbv zeta in Hg. cbn [strategy_gate] in Hgate.
  rewrite <- Hgate, <- Hq in Hg.
  rewrite Hrow, <- Hpos.
  split; [| split; [| split; [| split; [| split]]]];
    try tauto; try congruence; lia.
Qed.

End AdaptiveLoop.

Section AdaptiveRun.

Variable ln : Q -> Q.
Variable args : Args.

(** C9.  In adaptive mode the position never goes from positive to
    negative or from negative to positive between consecutive bars, and
    on every bar the target queued for the next bar does not oppose the
    position the bar ends with: a change of sign takes a bar at 0. *)
Theorem adaptive_sign_change_through_flat (signal_config : SignalConfig)
    (market_data : list Bar) (rows : list StepRow) (final : SimState)
    (exn : option PyExn) :
  run_single_mode ln mode_adaptive args market_data signal_config
  = (rows, final, exn) ->
  (forall t prev r,
     nth_error rows t = Some prev -> nth_error rows (S t) = Some r ->
     ~ (0 < row_option_contracts prev /\ row_option_contracts r < 0)%Z
     /\ ~ (row_option_contracts prev < 0 /\ 0 < row_option_contracts r)%Z)
  /\ (forall r, In r rows ->
        ~ (row_option_contracts r < 0 < queued_option_contracts r)%Z
        /\ ~ (queued_option_contracts r < 0 < row_option_contracts r)%Z).
Proof.
  intros Hrun. apply run_bars_steps in Hrun.
  set (Inv := fun st : SimState =>
    ~ (option_contracts st < 0 < pending_target_contracts st)%Z
    /\ ~ (pending_target_contracts st < 0 < option_contracts st)%Z).
  set (Last := fun (st : SimState) (r : StepRow) =>
    row_option_contracts r = option_contracts st).
  set (Each := fun r : StepRow =>
    ~ (row_option_contracts r < 0 < queued_option_contracts r)%Z
    /\ ~ (queued_option_contracts r < 0 < row_option_contracts r)%Z).
  assert (Hkeeps : forall st row st' r,
            Inv st -> bar_step ln mode_adaptive args st row = Ok (st', r) ->
            Inv st' /\ Last st' r /\ Each r).
  { intros st row st' r [H1 H2] Hstep.
    destruct (adaptive_step_no_flip ln args st st' row r H1 H2 Hstep)
      as (_ & _ & H3 & H4 & H5 & H6).
    unfold Inv, Last, Each. rewrite H5, H6. tauto. }
  assert (Hinit : Inv (initial_state mode_adaptive signal_config))
    by (unfold Inv; cbn; lia).
  split.
  - apply (steps_consecutive ln mode_adaptive args Inv Last
             (fun prev r =>
                ~ (0 < row_option_contracts prev
                   /\ row_option_contracts r < 0)%Z
                /\ ~ (row_option_contracts prev < 0
                      /\ 0 < row_option_contracts r)%Z)
             Each Hkeeps)
      with (st := initial_state mode_adaptive signal_config)
           (final := final); [| exact Hrun | exact Hinit].
    intros st prev row st' r [H1 H2] Hlast Hstep.
    destruct (adaptive_step_no_flip ln args st st' row r H1 H2 Hstep)
      as (H3 & H4 & _ & _ & H5 & _).
    unfold Last in Hlast. rewrite Hlast, H5. lia.
  - apply (steps_each ln mode_adaptive args Inv Last Each Hkeeps)
      with (st := initial_state mode_adaptive signal_config)
           (final := final); [exact Hrun | exact Hinit].
Qed.

End AdaptiveRun.

(** ** Short-mode cooldown *)

(** One [decide] of a short-mode engine, branch by branch. *)
Lemma decide_short (e e' : RegimeSignalEngine.t) (implied_vol : Q)
    (realized_vol_series : list Q) (spot : Q)
    (price_series return_series : list Q) (d : SignalDecision) :
  RegimeSignalEngine.mode e = mode_short ->
  RegimeSignalEngine.decide e implied_vol realized_vol_series spot
    price_series return_series = Ok (e', d) ->
  let c := RegimeSignalEngine.config e in
  let before := RegimeSignalEngine.cooldown_remaining e in
  let after := RegimeSignalEngine.cooldown_remaining e' in
  let arms :=
    negb (Stance_eqb (RegimeSignalEngine.prev_stance e) FLAT)
    && (cooldown_bars c >? 0)%Z in
  RegimeSignalEngine.mode e' = mode_short
  /\ RegimeSignalEngine.config e' = c
  /\ RegimeSignalEngine.prev_stance e' = stance d
  /\ after = cooldown_remaining d
  /\ ((len price_series < min_warmup_bars c)%Z ->
      stance d = FLAT
      /\ after = if arms then cooldown_bars c else before)
  /\ ((min_warmup_bars c <= len price_series)%Z -> (0 < before)%Z ->
      stance d = FLAT /\ cooldown_active d = true
      /\ after = if arms then cooldown_bars c else (before - 1)%Z)
  /\ ((min_warmup_bars c <= len price_series)%Z -> (before <= 0)%Z ->
      (stance d = SHORT_VOL /\ after = before)
      \/ (stance d = FLAT
          /\ after = if arms then cooldown_bars c else before)).
Proof.
  intros Hmode Hd c before after arms.
  destruct (decide_ok e implied_vol realized_vol_series spot price_series
              return_series) as (m & _ & Hbranch).
  destruct (RegimeSignalEngine.decide_branch
              (RegimeSignalEngine.set_prev_edge (Some (m_edge m)) e) m
              price_series) as [o flags] eqn:Hb.
  destruct (Hbranch o flags eq_refl) as (d' & Hd' & Hst & _ & _ & _ & Hcd & Hca).
  rewrite Hd' in Hd. apply Ok_pair_inj in Hd. destruct Hd as [He ->].
  subst after. rewrite <- He. rewrite Hst, Hcd, Hca.
  clear Hd' Hst Hcd Hca He Hbranch.
  unfold RegimeSignalEngine.decide_branch in Hb. engine_simpl.
  rewrite Hmode in Hb. fold c before in Hb.
  assert (Hfin : forall (s : Stance) (why : string) (ca : bool) (k : Z),
            let o' := RegimeSignalEngine.mkOutcome
                        (RegimeSignalEngine.set_cooldown_remaining k
                           (RegimeSignalEngine.set_prev_edge
                              (Some (m_edge m)) e)) s why ca in
            RegimeSignalEngine.mode (RegimeSignalEngine.decide_finish o')
            = mode_short
            /\ RegimeSignalEngine.config (RegimeSignalEngine.decide_finish o')
               = c
            /\ RegimeSignalEngine.prev_stance
                 (RegimeSignalEngine.decide_finish o') = s
            /\ RegimeSignalEngine.cooldown_remaining
                 (RegimeSignalEngine.decide_finish o')
               = if Stance_eqb s FLAT && arms then cooldown_bars c else k).
  { intros s why ca k o'. subst o'.
    unfold RegimeSignalEngine.decide_finish. engine_simpl.
    rewrite Hmode. fold c. fold arms.
    rewrite <- andb_assoc. fold arms.
    destruct (Stance_eqb s FLAT && arms); engine_simpl;
      repeat split; try reflexivity; exact Hmode. }
  assert (Hid : RegimeSignalEngine.set_prev_edge (Some (m_edge m)) e
                = RegimeSignalEngine.set_cooldown_remaining before
                    (RegimeSignalEngine.set_prev_edge (Some (m_edge m)) e))
    by reflexivity.
  destruct (Z.ltb_spec (len price_series) (min_warmup_bars c)) as [Hw | Hw].
  - apply pair_equal_spec in Hb. destruct Hb as [<- _]. rewrite Hid.
    destruct (Hfin FLAT "FLAT: warmup"%string false before)
      as (H1 & H2 & H3 & H4).
    cbn [Stance_eqb andb] in H4. engine_simpl.
    rewrite H1, H2, H3, H4.
    repeat split; try reflexivity; intros; lia.
  - destruct (Z.gtb_spec before 0) as [Hc | Hc].
    + apply pair_equal_spec in Hb. destruct Hb as [<- _].
      destruct (Hfin FLAT "FLAT: cooldown"%string true (before - 1)%Z)
        as (H1 & H2 & H3 & H4).
      cbn [Stance_eqb andb] in H4. engine_simpl.
      rewrite H1, H2, H3, H4.
      repeat split; try reflexivity; intros; lia.
    + destruct (RegimeSignalEngine.short_pricing_ok c m
                && RegimeSignalEngine.short_path_ok c m);
        apply pair_equal_spec in Hb; destruct Hb as [<- _]; rewrite Hid.
      * destruct (Hfin SHORT_VOL "SHORT: edge+path OK"%string false before)
          as (H1 & H2 & H3 & H4).
        cbn [Stance_eqb andb] in H4. engine_simpl.
        rewrite H1, H2, H3, H4.
        split; [reflexivity|]. split; [reflexivity|]. split; [reflexivity|].
        split; [reflexivity|]. split; [intros; lia|]. split; [intros; lia|].
        intros _ _. left. split; reflexivity.
      * match goal with
        | |- context [RegimeSignalEngine.mkOutcome _ FLAT ?why false] =>
            destruct (Hfin FLAT why false before) as (H1 & H2 & H3 & H4)
        end.
        cbn [Stance_eqb andb] in H4. engine_simpl.
        rewrite H1, H2, H3, H4.
        split; [reflexivity|]. split; [reflexivity|]. split; [reflexivity|].
        split; [reflexivity|]. split; [intros; lia|]. split; [intros; lia|].
        intros _ _. right. split; reflexivity.
Qed.

Lemma len_snoc {A : Type} (l : list A) (x : A) :
  len (l ++ [x]) = (len l + 1)%Z.
Proof. unfold len. rewrite length_app. cbn [List.length]. lia. Qed.

Section ShortRun.

Variable ln : Q -> Q.
Variable args : Args.
Variable signal_config : SignalConfig.

Lemma short_step (st st' : SimState) (row : Bar) (r : StepRow) :
  short_engine_inv signal_config st ->
  bar_step ln mode_short args st row = Ok (st', r) ->
  let e := signal_engine st in
  let d := row_decision r in
  short_engine_inv signal_config st' /\ short_engine_last st' r
  /\ (0 <= cooldown_remaining d)%Z
  /\ (RegimeSignalEngine.prev_stance e <> FLAT -> stance d = FLAT ->
      (0 < cooldown_bars signal_config)%Z ->
      cooldown_remaining d = cooldown_bars signal_config)
  /\ ((0 < RegimeSignalEngine.cooldown_remaining e)%Z ->
      stance d = FLAT /\ cooldown_active d = true
      /\ cooldown_remaining d
         = (RegimeSignalEngine.cooldown_remaining e - 1)%Z).
Proof.
  intros (Hmode & Hcfg & Hnn & Hprev & Hwarm) Hstep e d.
  destruct (bar_step_shape _ _ _ _ _ _ _ Hstep)
    as (_ & _ & _ & _ & _ & _ & _ & _ & _ & (rh & Hdec) & Hhist & _).
  destruct (decide_short _ _ _ _ _ _ _ _ Hmode Hdec)
    as (Hmode' & Hcfg' & Hprev' & Hcd & Hw & Hc & Hf).
  rewrite Hcfg in Hcfg', Hw, Hc, Hf. rewrite len_snoc in Hw, Hc, Hf.
  fold e d in Hprev', Hcd, Hw, Hc, Hf.
  fold e in Hnn, Hprev, Hwarm.
  unfold short_engine_inv, short_engine_last. cbv zeta.
  rewrite Hhist, len_snoc, Hmode', Hcfg', Hprev', <- Hcd.
  set (after := RegimeSignalEngine.cooldown_remaining (signal_engine st'))
    in *.
  set (before := RegimeSignalEngine.cooldown_remaining e) in *.
  assert (Hcase :
    (stance d = FLAT /\ after = 0%Z /\ before = 0%Z
     /\ RegimeSignalEngine.prev_stance e = FLAT)
    \/ (stance d = FLAT /\ cooldown_active d = true
        /\ after = (before - 1)%Z /\ (0 < before)%Z
        /\ RegimeSignalEngine.prev_stance e = FLAT
        /\ (min_warmup_bars signal_config <= len (spot_history st) + 1)%Z)
    \/ (stance d = SHORT_VOL /\ after = 0%Z /\ before = 0%Z
        /\ (min_warmup_bars signal_config <= len (spot_history st) + 1)%Z)
    \/ (stance d = FLAT /\ before = 0%Z
        /\ RegimeSignalEngine.prev_stance e = SHORT_VOL
        /\ (min_warmup_bars signal_config <= len (spot_history st) + 1)%Z
        /\ ((0 < cooldown_bars signal_config)%Z
             /\ after = cooldown_bars signal_config
            \/ (cooldown_bars signal_config <= 0)%Z /\ after = 0%Z))).
  { destruct (Z.lt_ge_cases (len (spot_history st) + 1)
                (min_warmup_bars signal_config)) as [Hlt | Hge].
    - (* warmup *)
      destruct (Hw Hlt) as [Hs Ha].
      assert (Hp : RegimeSignalEngine.prev_stance e = FLAT).
      { destruct Hprev as [Hp | [Hp _]]; [exact Hp|].
        assert (min_warmup_bars signal_config <= len (spot_history st))%Z
          by (apply Hwarm; left; exact Hp). lia. }
      assert (H0 : before = 0%Z).
      { destruct (Z.eq_dec before 0) as [H0 | H0]; [exact H0|].
        assert (min_warmup_bars signal_config <= len (spot_history st))%Z
          by (apply Hwarm; right; lia). lia. }
      rewrite Hp in Ha. cbn [Stance_eqb negb andb] in Ha.
      left. repeat split; try assumption. lia.
    - destruct (Z.lt_ge_cases 0 before) as [Hpos | Hzero].
      + (* cooldown running *)
        destruct (Hc Hge Hpos) as (Hs & Hact & Ha).
        assert (Hp : RegimeSignalEngine.prev_stance e = FLAT)
          by (destruct Hprev as [Hp | [_ Hp]]; [exact Hp | lia]).
        rewrite Hp in Ha. cbn [Stance_eqb negb andb] in Ha.
        right. left. repeat split; assumption.
      + (* filters *)
        assert (H0 : before = 0%Z) by lia.
        destruct (Hf Hge Hzero) as [[Hs Ha] | [Hs Ha]].
        * right. right. left. repeat split; try assumption. lia.
        * destruct Hprev as [Hp | [Hp _]]; rewrite Hp in Ha;
            cbn [Stance_eqb negb andb] in Ha.
          -- left. repeat split; try assumption. lia.
          -- right. right. right.
             repeat split; try assumption.
             destruct (Z.gtb_spec (cooldown_bars signal_config) 0);
               [left | right]; split; try assumption; lia. }
  clear Hw Hc Hf.
  destruct Hcase as [(Hs & Ha & Hb & Hp)
                    | [(Hs & Hact & Ha & Hb & Hp & Hge)
                      | [(Hs & Ha & Hb & Hge)
                        | (Hs & Hb & Hp & Hge & Harm)]]].
  - repeat match goal with |- _ /\ _ => split end; intros;
      repeat match goal with |- _ /\ _ => split end;
      try solve [reflexivity | assumption | lia | congruence
                | left; congruence | exfalso; lia
                | match goal with
                  | H : _ \/ _ |- _ => destruct H; [congruence | lia]
                  end].
  - repeat match goal with |- _ /\ _ => split end; intros;
      repeat match goal with |- _ /\ _ => split end;
      try solve [reflexivity | assumption | lia | congruence
                | left; congruence | exfalso; lia].
  - repeat match goal with |- _ /\ _ => split end; intros;
      repeat match goal with |- _ /\ _ => split end;
      try solve [reflexivity | assumption | lia | congruence
                | right; split; [congruence | lia] | exfalso; lia].
  - destruct Harm as [[Hpos Ha] | [Hnp Ha]];
      repeat match goal with |- _ /\ _ => split end; intros;
      repeat match goal with |- _ /\ _ => split end;
      try solve [reflexivity | assumption | lia | congruence
                | left; congruence | exfalso; lia].
Qed.

(** C8.  In short-only mode, on the bars of a run: when the stance
    reported on the bar before was not FLAT and the stance of this bar is
    FLAT, the counter is armed at cooldown_bars (for cooldown_bars > 0);
    when the counter left by the bar before is positive the stance of
    this bar is FLAT with the cooldown flag set, whatever the bar's
    metrics, and the counter is one less; and the counter is never
    negative. *)
Theorem short_cooldown_counts_down (market_data : list Bar)
    (rows : list StepRow) (final : SimState) (exn : option PyExn) :
  run_single_mode ln mode_short args market_data signal_config
  = (rows, final, exn) ->
  (forall t prev r,
     nth_error rows t = Some prev -> nth_error rows (S t) = Some r ->
     (stance (row_decision prev) <> FLAT -> stance (row_decision r) = FLAT ->
      (0 < cooldown_bars signal_config)%Z ->
      cooldown_remaining (row_decision r) = cooldown_bars signal_config)
     /\ ((0 < cooldown_remaining (row_decision prev))%Z ->
         stance (row_decision r) = FLAT
         /\ cooldown_active (row_decision r) = true
         /\ cooldown_remaining (row_decision r)
            = (cooldown_remaining (row_decision prev) - 1)%Z))
  /\ (forall r, In r rows -> (0 <= cooldown_remaining (row_decision r))%Z).
Proof.
  intros Hrun. apply run_bars_steps in Hrun.
  assert (Hkeeps : forall st row st' r,
            short_engine_inv signal_config st ->
            bar_step ln mode_short args st row = Ok (st', r) ->
            short_engine_inv signal_config st' /\ short_engine_last st' r
            /\ (0 <= cooldown_remaining (row_decision r))%Z).
  { intros st row st' r Hinv Hstep.
    destruct (short_step st st' row r Hinv Hstep) as (H1 & H2 & H3 & _).
    auto. }
  assert (Hinit : short_engine_inv signal_config (initial_state mode_short signal_config)).
  { unfold short_engine_inv. cbn. repeat split; auto; try lia.
    intros [Hx | Hx]; [discriminate Hx | lia]. }
  split.
  - apply (steps_consecutive ln mode_short args
             (short_engine_inv signal_config)
             short_engine_last
             (fun prev r =>
                (stance (row_decision prev) <> FLAT ->
                 stance (row_decision r) = FLAT ->
                 (0 < cooldown_bars signal_config)%Z ->
                 cooldown_remaining (row_decision r)
                 = cooldown_bars signal_config)
                /\ ((0 < cooldown_remaining (row_decision prev))%Z ->
                    stance (row_decision r) = FLAT
                    /\ cooldown_active (row_decision r) = true
                    /\ cooldown_remaining (row_decision r)
                       = (cooldown_remaining (row_decision prev) - 1)%Z))
             (fun r => (0 <= cooldown_remaining (row_decision r))%Z)
             Hkeeps)
      with (st := initial_state mode_short signal_config) (final := final);
      [| exact Hrun | exact Hinit].
    intros st prev row st' r Hinv [Hl1 Hl2] Hstep.
    destruct (short_step st st' row r Hinv Hstep) as (_ & _ & _ & Ha & Hb).
    rewrite Hl1, Hl2 in *. split; assumption.
  - apply (steps_each ln mode_short args (short_engine_inv signal_config)
             short_engine_last
             (fun r => (0 <= cooldown_remaining (row_decision r))%Z) Hkeeps)
      with (st := initial_state mode_short signal_config) (final := final);
      [exact Hrun | exact Hinit].
Qed.

End ShortRun.

(** ** Sample runs *)

Lemma run_result_eta {A B C : Type} (x : A * B * C) :
  x = (fst (fst x), snd (fst x), snd x).
Proof. destruct x as [[a b] c]. reflexivity. Qed.

(** Short mode on the rising-premium market: the five contracts queued
    on the first bar are what the second bar requests and adopts. *)
Lemma one_bar_execution_delay_witness :
  let rows :=
    fst (fst (run_single_mode flat_log mode_short DEFAULT_ARGS
                rising_premium_market quick_config)) in
  exists prev r,
    nth_error rows 0 = Some prev /\ nth_error rows 1 = Some r
    /\ queued_option_contracts prev = (-5)%Z
    /\ requested_option_contracts r = (-5)%Z
    /\ row_adopted_target r = (-5)%Z.
Proof.
  intros rows.
  destruct (one_bar_execution_delay flat_log mode_short DEFAULT_ARGS
              quick_config rising_premium_market _ _ _
              (run_result_eta _))
    as (_ & Hnext & _).
  fold rows in Hnext.
  assert (Hrows : exists p q rest, rows = p :: q :: rest
                  /\ queued_option_contracts p = (-5)%Z
                  /\ row_flatten_for_risk q = false)
    by (vm_compute; do 3 eexists; repeat split; reflexivity).
  destruct Hrows as (p & q & rest & Hrows & Hq & Hf).
  rewrite Hrows in *.
  specialize (Hnext 0%nat p q eq_refl eq_refl).
  destruct Hnext as [Hreq Had].
  exists p, q.
  split; [reflexivity|]. split; [reflexivity|]. split; [exact Hq|].
  split; [rewrite Hreq; exact Hq|].
  rewrite Had, Hf. exact Hq.
Defined.

(** The third bar of that run: five contracts are held short, the same
    five are requested, the option mid has risen to 5.00 and the
    capital-at-risk ratio is breached; the clamp gives three contracts,
    not more than the five held, so the position stays and RISK_BLOCK is
    logged. *)
Lemma risk_check_derisk_clamp_block_witness :
  let st :=
    snd (fst (run_single_mode flat_log mode_short DEFAULT_ARGS
                (firstn 2 rising_premium_market) quick_config)) in
  exists st' r,
    bar_step flat_log mode_short DEFAULT_ARGS st (sample_bar "d3" 5)
    = Ok (st', r)
    /\ executed_target_contracts r = (-5)%Z
    /\ option_contracts st' = (-5)%Z
    /\ In (RISK_BLOCK "d3" mode_short
             "Blocked: capital-at-risk limit breached") (events st').
Proof.
  intros st.
  destruct (bar_step flat_log mode_short DEFAULT_ARGS st (sample_bar "d3" 5))
    as [[st' r]|] eqn:Hstep; [| vm_compute in Hstep; discriminate Hstep].
  exists st', r. split; [reflexivity|].
  pose proof (risk_check_derisk_clamp_block flat_log mode_short DEFAULT_ARGS
                st st' (sample_bar "d3" 5) r Hstep) as H.
  cbv zeta in H.
  pose proof Hstep as Hval. vm_compute in Hval. apply Ok_pair_inj in Hval.
  destruct Hval as [Hst' Hr].
  destruct H as (_ & _ & Hblock);
    [rewrite <- Hr; vm_compute; reflexivity
    | rewrite <- Hr; vm_compute; reflexivity |].
  destruct Hblock as (Hex & Hpos & _ & Hin);
    [rewrite <- Hr; vm_compute; discriminate
    | rewrite <- Hr; vm_compute; discriminate |].
  split; [rewrite Hex; vm_compute; reflexivity|].
  split; [rewrite Hpos; vm_compute; reflexivity|].
  revert Hin. rewrite <- Hr. vm_compute. intros Hin. exact Hin.
Defined.


(** The same bar refutes "a target whose magnitude is at most the opening
    magnitude is allowed anyway with RISK_ALLOW_DERISK logged": the target
    of five short contracts equals the five held, it fails the limits on a
    bar that is not a forced flatten, and the run logs RISK_BLOCK and no
    RISK_ALLOW_DERISK. *)
Lemma derisk_equal_magnitude_counterexample :
  let run :=
    run_single_mode flat_log mode_short DEFAULT_ARGS rising_premium_market
      quick_config in
  exists prev r,
    nth_error (fst (fst run)) 1 = Some prev
    /\ nth_error (fst (fst run)) 2 = Some r
    /\ snd run = None
    /\ row_flatten_for_risk r = false
    /\ projected_trade_allowed (risk_limits DEFAULT_ARGS) 100 5 0.5 0.01 0.1
         (row_equity_before_trade r) (row_adopted_target r) = false
    /\ row_adopted_target r = (-5)%Z
    /\ row_option_contracts prev = (-5)%Z
    /\ (Z.abs (row_adopted_target r) <= Z.abs (row_option_contracts prev))%Z
    /\ events (snd (fst run))
       = [STANCE "d1" FLAT SHORT_VOL mode_short "SHORT: edge+path OK";
          RISK_BLOCK "d3" mode_short
            "Blocked: capital-at-risk limit breached"]
    /\ (forall d m target opening why,
          ~ In (RISK_ALLOW_DERISK d m target opening why)
               (events (snd (fst run)))).
Proof.
  intros run.
  assert (Hev : events (snd (fst run))
                = [STANCE "d1" FLAT SHORT_VOL mode_short "SHORT: edge+path OK";
                   RISK_BLOCK "d3" mode_short
                     "Blocked: capital-at-risk limit breached"])
    by (vm_compute; reflexivity).
  do 2 eexists.
  split; [vm_compute; reflexivity|].
  split; [vm_compute; reflexivity|].
  split; [vm_compute; reflexivity|].
  split; [vm_compute; reflexivity|].
  split; [vm_compute; reflexivity|].
  split; [vm_compute; reflexivity|].
  split; [vm_compute; reflexivity|].
  split; [vm_compute; discriminate|].
  split; [exact Hev|].
  intros d m target opening why Hin. rewrite Hev in Hin.
  destruct Hin as [Hin | [Hin | []]]; discriminate Hin.
Qed.

(** Adaptive mode on the rising-premium market: the position goes from
    flat to five contracts short between the first two bars, never across
    zero. *)
Lemma adaptive_sign_change_through_flat_witness :
  let rows :=
    fst (fst (run_single_mode flat_log mode_adaptive DEFAULT_ARGS
                rising_premium_market quick_config)) in
  exists prev r,
    nth_error rows 1 = Some prev /\ nth_error rows 2 = Some r
    /\ row_option_contracts prev = (-5)%Z
    /\ ~ (row_option_contracts prev < 0 /\ 0 < row_option_contracts r)%Z
    /\ ~ (row_option_contracts r < 0 < queued_option_contracts r)%Z.
Proof.
  intros rows.
  destruct (adaptive_sign_change_through_flat flat_log DEFAULT_ARGS
              quick_config rising_premium_market _ _ _ (run_result_eta _))
    as (Hnext & Heach).
  fold rows in Hnext, Heach.
  assert (Hrows : exists o p q, rows = o :: p :: q :: nil
                  /\ row_option_contracts p = (-5)%Z)
    by (vm_compute; do 3 eexists; split; reflexivity).
  destruct Hrows as (o & p & q & Hrows & Hp).
  rewrite Hrows in *.
  exists p, q.
  split; [reflexivity|]. split; [reflexivity|]. split; [exact Hp|].
  split.
  - apply (Hnext 1%nat p q eq_refl eq_refl).
  - apply (Heach q). right. right. left. reflexivity.
Defined.

(** Short mode on the edge-collapse market with a two-bar cooldown: the
    stance leaves SHORT_VOL on the second bar and arms the counter at 2;
    the third bar is FLAT with the counter at 1, although its edge of
    0.1 is above the entry threshold. *)
Lemma short_cooldown_counts_down_witness :
  let rows :=
    fst (fst (run_single_mode flat_log mode_short DEFAULT_ARGS
                edge_collapse_market quick_config)) in
  exists first second third,
    nth_error rows 0 = Some first /\ nth_error rows 1 = Some second
    /\ nth_error rows 2 = Some third
    /\ stance (row_decision first) = SHORT_VOL
    /\ stance (row_decision second) = FLAT
    /\ cooldown_remaining (row_decision second) = 2%Z
    /\ stance (row_decision third) = FLAT
    /\ cooldown_remaining (row_decision third) = 1%Z
    /\ short_edge_threshold quick_config <= edge (row_decision third).
Proof.
  intros rows.
  destruct (short_cooldown_counts_down flat_log DEFAULT_ARGS quick_config
              edge_collapse_market _ _ _ (run_result_eta _))
    as (Hnext & _).
  fold rows in Hnext.
  assert (Hrows : exists a b c rest, rows = a :: b :: c :: rest
                  /\ stance (row_decision a) = SHORT_VOL
                  /\ stance (row_decision b) = FLAT
                  /\ short_edge_threshold quick_config
                     <= edge (row_decision c))
    by (vm_compute; do 4 eexists; repeat split;
        try reflexivity; discriminate).
  destruct Hrows as (a & b & c & rest & Hrows & Ha & Hb & Hc).
  rewrite Hrows in *.
  destruct (Hnext 0%nat a b eq_refl eq_refl) as [Harm _].
  assert (Hb2 : cooldown_remaining (row_decision b) = 2%Z).
  { rewrite Harm; [reflexivity | rewrite Ha; discriminate | exact Hb
                   | reflexivity]. }
  destruct (Hnext 1%nat b c eq_refl eq_refl) as [_ Hdown].
  destruct Hdown as (Hs & _ & Hcd); [rewrite Hb2; reflexivity|].
  exists a, b, c.
  repeat split; try reflexivity; try assumption.
  rewrite Hcd, Hb2. reflexivity.
Defined.

(** ** Exhausted equity *)

(** With no equity left every candidate fails, and the clamp gives 0. *)
Lemma clamp_target_equity_exhausted (rl : RiskLimits.t)
    (spot price dlt gam veg equity : Q) (desired : Z) :
  equity <= 0 ->
  projected_trade_allowed rl spot price dlt gam veg equity desired = false
  /\ clamp_target_to_risk_limits desired rl spot price dlt gam veg equity
     = 0%Z.
Proof.
  intros He.
  assert (Hfail : forall c,
            projected_trade_allowed rl spot price dlt gam veg equity c = false).
  { intros c. rewrite projected_trade_allowed_checks.
    apply Qle_bool_true in He. rewrite He. reflexivity. }
  split; [apply Hfail|].
  apply (clamp_target_props rl spot price dlt gam veg equity desired).
  apply Hfail.
Qed.

(** The risk-limit check of the loop with no equity left: a target that
    does not reduce the position leaves it unchanged and logs the block. *)
Lemma risk_limit_check_equity_exhausted (m : StrategyMode)
    (rl : RiskLimits.t) (row : Bar) (target opening : Z) (equity : Q) :
  equity <= 0 -> (Z.abs opening <= Z.abs target)%Z ->
  risk_limit_check m rl row false target opening equity
  = mkRiskCheck opening "Equity exhausted"
      [RISK_BLOCK (date row) m "Equity exhausted"].
Proof.
  intros He Habs.
  destruct (clamp_target_equity_exhausted rl (close row) (option_mid row)
              (delta row) (gamma row) (vega row) equity target He)
    as [Hfail Hclamp].
  rewrite (risk_limit_check_blocked m rl row target opening equity Hfail).
  rewrite Hclamp.
  destruct (Z.ltb_spec (Z.abs target) (Z.abs opening)); [lia|].
  destruct (Z.gtb_spec (Z.abs 0) (Z.abs opening)); [lia|].
  unfold evaluate_projected_trade, RiskLimits.trade_allowed.
  apply Qle_bool_true in He. rewrite He. reflexivity.
Qed.

(** The answer of [trade_allowed], check by check. *)
Lemma trade_allowed_cases (rl : RiskLimits.t) (contracts : Z)
    (price notional gamma_abs vega_abs equity : Q) :
  let r := RiskLimits.trade_allowed rl contracts price notional gamma_abs
             vega_abs equity in
  let ratio := Qabs (float contracts * price * CONTRACT_MULTIPLIER) / equity in
  let leverage := notional / equity in
  (equity <= 0 -> r = (false, "Equity exhausted"%string)) /\
  (0 < equity -> RiskLimits.max_capital_at_risk rl < ratio ->
     r = (false, "Blocked: capital-at-risk limit breached"%string)) /\
  (0 < equity -> ratio <= RiskLimits.max_capital_at_risk rl ->
   RiskLimits.max_leverage rl < leverage ->
     r = (false, "Blocked: leverage limit breached"%string)) /\
  (0 < equity -> ratio <= RiskLimits.max_capital_at_risk rl ->
   leverage <= RiskLimits.max_leverage rl ->
   RiskLimits.max_abs_gamma rl < gamma_abs ->
     r = (false, "Blocked: gamma limit breached"%string)) /\
  (0 < equity -> ratio <= RiskLimits.max_capital_at_risk rl ->
   leverage <= RiskLimits.max_leverage rl ->
   gamma_abs <= RiskLimits.max_abs_gamma rl ->
   RiskLimits.max_abs_vega rl < vega_abs ->
     r = (false, "Blocked: vega limit breached"%string)) /\
  (0 < equity -> ratio <= RiskLimits.max_capital_at_risk rl ->
   leverage <= RiskLimits.max_leverage rl ->
   gamma_abs <= RiskLimits.max_abs_gamma rl ->
   vega_abs <= RiskLimits.max_abs_vega rl ->
     r = (true, EmptyString)).
Proof.
  intros r ratio leverage. subst r ratio leverage.
  unfold RiskLimits.trade_allowed.
  destruct (equity <=? 0) eqn:E0.
  { qbool. repeat split; intros; try reflexivity; qcontra. }
  destruct (_ >? RiskLimits.max_capital_at_risk rl) eqn:E1.
  { qbool. repeat split; intros; try reflexivity; qcontra. }
  destruct (_ >? RiskLimits.max_leverage rl) eqn:E2.
  { qbool. repeat split; intros; try reflexivity; qcontra. }
  destruct (_ >? RiskLimits.max_abs_gamma rl) eqn:E3.
  { qbool. repeat split; intros; try reflexivity; qcontra. }
  destruct (_ >? RiskLimits.max_abs_vega rl) eqn:E4.
  { qbool. repeat split; intros; try reflexivity; qcontra. }
  qbool. repeat split; intros; try reflexivity; qcontra.
Qed.

(** C6.  trade_allowed runs its checks in a fixed order and answers with
    the first one that fails: equity <= 0, then the capital-at-risk ratio,
    then leverage, then gamma, then vega; it allows the trade, with an
    empty reason, only when all five pass.  With equity <= 0 the answer is
    "Equity exhausted" for every contract count, and the risk-limit check
    of the loop then leaves every position that the target would not
    reduce at its opening size, logging RISK_BLOCK with that reason. *)
Theorem trade_allowed_first_failing_check (rl : RiskLimits.t) (contracts : Z)
    (price notional gamma_abs vega_abs equity : Q) :
  let r := RiskLimits.trade_allowed rl contracts price notional gamma_abs
             vega_abs equity in
  let ratio := Qabs (float contracts * price * CONTRACT_MULTIPLIER) / equity in
  let leverage := notional / equity in
  (equity <= 0 -> r = (false, "Equity exhausted"%string)) /\
  (0 < equity -> RiskLimits.max_capital_at_risk rl < ratio ->
     r = (false, "Blocked: capital-at-risk limit breached"%string)) /\
  (0 < equity -> ratio <= RiskLimits.max_capital_at_risk rl ->
   RiskLimits.max_leverage rl < leverage ->
     r = (false, "Blocked: leverage limit breached"%string)) /\
  (0 < equity -> ratio <= RiskLimits.max_capital_at_risk rl ->
   leverage <= RiskLimits.max_leverage rl ->
   RiskLimits.max_abs_gamma rl < gamma_abs ->
     r = (false, "Blocked: gamma limit breached"%string)) /\
  (0 < equity -> ratio <= RiskLimits.max_capital_at_risk rl ->
   leverage <= RiskLimits.max_leverage rl ->
   gamma_abs <= RiskLimits.max_abs_gamma rl ->
   RiskLimits.max_abs_vega rl < vega_abs ->
     r = (false, "Blocked: vega limit breached"%string)) /\
  (0 < equity -> ratio <= RiskLimits.max_capital_at_risk rl ->
   leverage <= RiskLimits.max_leverage rl ->
   gamma_abs <= RiskLimits.max_abs_gamma rl ->
   vega_abs <= RiskLimits.max_abs_vega rl ->
     r = (true, EmptyString)) /\
  (equity <= 0 ->
   forall (m : StrategyMode) (row : Bar) (target opening : Z),
     (Z.abs opening <= Z.abs target)%Z ->
     risk_limit_check m rl row false target opening equity
     = mkRiskCheck opening "Equity exhausted"
         [RISK_BLOCK (date row) m "Equity exhausted"]).
Proof.
  intros r ratio leverage.
  destruct (trade_allowed_cases rl contracts price notional gamma_abs
              vega_abs equity) as (H1 & H2 & H3 & H4 & H5 & H6).
  repeat (split; [assumption|]).
  intros He m row target opening Habs.
  apply risk_limit_check_equity_exhausted; assumption.
Qed.

(** Three contracts at 2.00 against an equity of 1000 and a 20 % budget:
    the ratio 0.6 breaches the capital-at-risk limit before leverage,
    gamma or vega (all far over their limits here) are looked at. *)
Lemma trade_allowed_first_failing_check_witness :
  RiskLimits.trade_allowed (RiskLimits.with_capital 10000) 3 2 1000000 500 500
    1000
  = (false, "Blocked: capital-at-risk limit breached"%string).
Proof.
  destruct (trade_allowed_first_failing_check
              (RiskLimits.with_capital 10000) 3 2 1000000 500 500 1000)
    as (_ & Hcar & _).
  apply Hcar; reflexivity.
Defined.

(* ===================================================================== *)
(** * Further properties of the code                                       *)
(* ===================================================================== *)

(** ** Rounding *)

Lemma Qfloor_fraction (x : Q) :
  0 <= x - float (Qfloor x) /\ x - float (Qfloor x) < 1.
Proof.
  pose proof (Qfloor_le x) as Hlo. pose proof (Qlt_floor x) as Hhi.
  rewrite inject_Z_plus in Hhi. change (float 1) with 1 in Hhi.
  split; lra.
Qed.

(** [round] moves its argument by at most one half. *)
Lemma py_round_near (x : Q) : Qabs (x - float (py_round x)) <= 0.5.
Proof.
  unfold py_round. destruct (Qfloor_fraction x) as [Hlo Hhi].
  set (f := Qfloor x) in *.
  destruct (x - float f <? 0.5) eqn:E1; qbool.
  - apply Qabs_Qle_condition. split; lra.
  - assert (Hup : Qabs (x - float (f + 1)) <= 0.5).
    { rewrite inject_Z_plus. change (float 1) with 1.
      apply Qabs_Qle_condition. split; lra. }
    destruct (x - float f >? 0.5) eqn:E2; qbool; [exact Hup|].
    destruct (Z.even f); [| exact Hup].
    apply Qabs_Qle_condition. split; lra.
Qed.

(** The rounded value stays within one unit above the floor. *)
Lemma py_round_floor (x : Q) :
  (Qfloor x <= py_round x <= Qfloor x + 1)%Z.
Proof.
  unfold py_round.
  destruct (_ <? 0.5); [lia|]. destruct (_ >? 0.5); [lia|].
  destruct (Z.even _); lia.
Qed.

(** [round] is monotone. *)
Lemma py_round_mono (x y : Q) : x <= y -> (py_round x <= py_round y)%Z.
Proof.
  intros Hxy. pose proof (Qfloor_resp_le _ _ Hxy) as Hf.
  destruct (Z.eq_dec (Qfloor x) (Qfloor y)) as [Heq | Hne].
  - unfold py_round. rewrite Heq. set (f := Qfloor y).
    assert (Hr : x - float f <= y - float f) by lra.
    destruct (x - float f <? 0.5) eqn:Ex; qbool.
    + destruct (y - float f <? 0.5); [lia|].
      destruct (y - float f >? 0.5); [lia|]. destruct (Z.even f); lia.
    + assert (Ey : (y - float f <? 0.5) = false)
        by (apply Qlt_bool_false; lra).
      rewrite Ey.
      destruct (x - float f >? 0.5) eqn:Ex2; qbool.
      * assert (Ey2 : (y - float f >? 0.5) = true)
          by (apply Qlt_bool_true; lra).
        rewrite Ey2. lia.
      * destruct (y - float f >? 0.5); destruct (Z.even f); lia.
  - pose proof (py_round_floor x). pose proof (py_round_floor y). lia.
Qed.

Lemma py_round_abs_mono (x y : Q) :
  (0 <= x /\ x <= y) \/ (y <= x /\ x <= 0) ->
  (Z.abs (py_round x) <= Z.abs (py_round y))%Z.
Proof.
  assert (H0 : py_round 0 = 0%Z) by reflexivity.
  intros [[H1 H2] | [H1 H2]].
  - pose proof (py_round_mono _ _ H1). pose proof (py_round_mono _ _ H2). lia.
  - pose proof (py_round_mono _ _ H1). pose proof (py_round_mono _ _ H2). lia.
Qed.

(** ** The risk limits grow with the position *)

Lemma Qabs_float (c : Z) : Qabs (float c) = float (Z.abs c).
Proof. reflexivity. Qed.

Lemma float_le (a b : Z) : (a <= b)%Z -> float a <= float b.
Proof. intros H. rewrite <- Zle_Qle. exact H. Qed.

(** A quantity proportional to the position does not shrink when the
    position grows in magnitude. *)
Lemma Qabs_scale_mono (c c' : Z) (k : Q) :
  (Z.abs c <= Z.abs c')%Z ->
  Qabs (float c * k * CONTRACT_MULTIPLIER)
  <= Qabs (float c' * k * CONTRACT_MULTIPLIER).
Proof.
  intros H.
  rewrite <- !Qmult_assoc. set (kk := k * CONTRACT_MULTIPLIER).
  rewrite !Qabs_Qmult, !Qabs_float.
  apply Qmult_le_compat_r; [apply float_le, H | apply Qabs_nonneg].
Qed.

Lemma Qabs_scale_r_mono (h h' : Z) (k : Q) :
  (Z.abs h <= Z.abs h')%Z ->
  Qabs (float h * k) <= Qabs (float h' * k).
Proof.
  intros H. rewrite !Qabs_Qmult, !Qabs_float.
  apply Qmult_le_compat_r; [apply float_le, H | apply Qabs_nonneg].
Qed.

(** The hedge of a larger position of the same sign is no smaller. *)
Lemma hedge_target_abs_mono (s m m' : Z) (dlt : Q) :
  (0 <= m <= m')%Z ->
  (Z.abs (hedge_target (s * m) dlt) <= Z.abs (hedge_target (s * m') dlt))%Z.
Proof.
  intros Hm. unfold hedge_target. apply py_round_abs_mono.
  set (k := float (- s) * dlt * 100).
  assert (Ex : forall n : Z, float (- (s * n)) * dlt * 100 == float n * k).
  { intros n. subst k. rewrite <- Z.mul_opp_l, inject_Z_mult. ring. }
  rewrite !Ex.
  assert (H0 : 0 <= float m) by (apply (float_le 0), Hm).
  assert (H1 : float m <= float m') by (apply float_le, Hm).
  destruct (Qlt_le_dec k 0) as [Hk | Hk].
  - right. split.
    + setoid_replace (float m' * k) with (- (float m' * (- k))) by ring.
      setoid_replace (float m * k) with (- (float m * (- k))) by ring.
      apply Qopp_le_compat. apply Qmult_le_compat_r; lra.
    + setoid_replace (float m * k) with (- (float m * (- k))) by ring.
      assert (0 <= float m * - k) by (apply Qmult_le_0_compat; lra). lra.
  - left. split.
    + apply Qmult_le_0_compat; assumption.
    + apply Qmult_le_compat_r; assumption.
Qed.

(** Whether a candidate passes the limits is monotone in its magnitude:
    a passing position leaves every smaller position of its sign
    passing. *)
Lemma projected_trade_allowed_mono (rl : RiskLimits.t)
    (spot price dlt gam veg equity : Q) (s m m' : Z) :
  (0 <= m <= m')%Z ->
  projected_trade_allowed rl spot price dlt gam veg equity (s * m') = true ->
  projected_trade_allowed rl spot price dlt gam veg equity (s * m) = true.
Proof.
  intros Hm. rewrite !projected_trade_allowed_checks.
  destruct (equity <=? 0) eqn:E0; [intros H; exact H|]. qbool.
  cbn [negb andb].
  assert (Habs : (Z.abs (s * m) <= Z.abs (s * m'))%Z).
  { rewrite !Z.abs_mul. apply Z.mul_le_mono_nonneg_l; lia. }
  assert (Hdiv : forall a b : Q, a <= b -> a / equity <= b / equity).
  { intros a b Hab. unfold Qdiv. apply Qmult_le_compat_r; [exact Hab|].
    apply Qlt_le_weak, Qinv_lt_0_compat, E0. }
  assert (Hlift : forall lim a b : Q, a <= b ->
             negb (b >? lim) = true -> negb (a >? lim) = true).
  { intros lim a b Hab Hb. rewrite negb_true_iff in *. qbool.
    apply Qlt_bool_false. lra. }
  intros H.
  repeat match type of H with
  | (_ && _) = true => apply andb_true_iff in H; destruct H as [H ?]
  end.
  repeat (apply andb_true_iff; split).
  - eapply Hlift; [|exact H]. apply Hdiv, Qabs_scale_mono, Habs.
  - eapply Hlift; [|eassumption]. apply Hdiv.
    apply Qplus_le_compat; [apply Qabs_scale_mono, Habs|].
    apply Qabs_scale_r_mono, hedge_target_abs_mono, Hm.
  - eapply Hlift; [|eassumption]. apply Qabs_scale_mono, Habs.
  - eapply Hlift; [|eassumption]. apply Qabs_scale_mono, Habs.
Qed.

(** X1.  The clamp returns the largest passing position: with the limits
    of [RiskLimits.trade_allowed], whenever some magnitude in
    [0, |desired|] of the sign of desired passes, the result passes and
    no passing magnitude exceeds it; every smaller magnitude passes
    too; and a desired position that passes is returned unchanged. *)
Theorem clamp_returns_largest_passing (rl : RiskLimits.t)
    (spot price dlt gam veg equity : Q) (desired : Z) :
  let ok := projected_trade_allowed rl spot price dlt gam veg equity in
  let r := clamp_target_to_risk_limits desired rl spot price dlt gam veg
             equity in
  (forall m : Z, (0 <= m <= Z.abs desired)%Z ->
     ok (Z.sgn desired * m)%Z = true -> ok r = true /\ (m <= Z.abs r)%Z)
  /\ (forall m : Z, (0 <= m <= Z.abs r)%Z -> ok r = true ->
        ok (Z.sgn desired * m)%Z = true)
  /\ (ok desired = true -> r = desired).
Proof.
  intros ok r.
  destruct (clamp_target_props rl spot price dlt gam veg equity desired)
    as (Hsgn & Hle & _ & _ & Hmax).
  fold ok r in Hsgn, Hle, Hmax.
  assert (Hmono : forall m m' : Z, (0 <= m <= m')%Z ->
            (m' <= Z.abs desired)%Z ->
            ok (Z.sgn desired * m')%Z = true ->
            ok (Z.sgn desired * m)%Z = true).
  { intros m m' H1 _. apply projected_trade_allowed_mono, H1. }
  specialize (Hmax Hmono).
  split; [exact Hmax|]. split.
  - intros m Hm Hr.
    apply (projected_trade_allowed_mono rl spot price dlt gam veg equity
             (Z.sgn desired) m (Z.abs r)); [lia|].
    replace (Z.sgn desired * Z.abs r)%Z with r; [exact Hr|].
    destruct Hsgn as [-> | <-]; [lia|].
    rewrite Z.mul_comm. symmetry. apply Z.abs_sgn.
  - intros Hd.
    destruct (Hmax (Z.abs desired)) as [_ Hge]; [lia | |].
    + rewrite Z.mul_comm, Z.abs_sgn. exact Hd.
    + destruct Hsgn as [H0 | Hs]; [rewrite H0 in *; lia|].
      rewrite <- (Z.abs_sgn r), <- (Z.abs_sgn desired), Hs.
      f_equal. lia.
Qed.

(** ** Delta hedge *)

(** The hedge target leaves a net delta of at most half a share,
    whatever the position and the option delta. *)
Lemma hedge_target_neutralises_delta (contracts : Z)
    (spot price dlt gam veg : Q) :
  Qabs (delta_exposure
          (compute_exposures contracts (hedge_target contracts dlt)
             spot price dlt gam veg)) <= 0.5.
Proof.
  cbn [compute_exposures delta_exposure]. unfold hedge_target.
  set (x := float (- contracts) * dlt * 100).
  assert (E : float contracts * dlt * CONTRACT_MULTIPLIER + float (py_round x)
              == - (x - float (py_round x))).
  { subst x. rewrite inject_Z_opp. unfold CONTRACT_MULTIPLIER. ring. }
  rewrite E, Qabs_opp. apply py_round_near.
Qed.

(** ** The loop: what a completed bar leaves *)

Section LoopFields.

Variable ln : Q -> Q.
Variable mode : StrategyMode.
Variable args : Args.

(** The fields of the state and of the row after one iteration, in
    terms of the locals of the pre-trade and execution parts. *)
Lemma bar_step_fields (st st' : SimState) (row : Bar) (r : StepRow) :
  bar_step ln mode args st row = Ok (st', r) ->
  let pt := pre_trade mode args st row in
  let tr := trade mode args st row pt in
  (option_contracts st' = tr_option_contracts tr
   /\ hedge_shares st' = tr_hedge_shares tr
   /\ cash st' = tr_cash tr
   /\ drawdown st' = tr_drawdown tr
   /\ prev_spot st' = Some (close row)
   /\ prev_option_mid st' = Some (option_mid row)
   /\ pending_target_contracts st' = queued_option_contracts r
   /\ prev_stance st' = stance (row_decision r)
   /\ spot_history st' = spot_history st ++ [close row]
   /\ rv_history st' = rv_history st ++ [realized_vol row])
  /\ (row_option_contracts r = tr_option_contracts tr
      /\ row_hedge_shares r = tr_hedge_shares tr
      /\ row_equity r = tr_equity tr
      /\ row_drawdown r = tr_drawdown_after_trade tr
      /\ row_equity_before_trade r = pt_equity_before_trade pt
      /\ row_drawdown_before_trade r = pt_drawdown_before_trade pt
      /\ row_gamma_risk r = pt_gamma_risk pt
      /\ row_kill_action r = pt_kill_action pt
      /\ row_overlay r = pt_overlay pt
      /\ row_adopted_target r = tr_target_contracts tr
      /\ executed_target_contracts r = rc_target_contracts (tr_check tr))
  /\ (next_return_history ln st row = Ok (return_history st')
      /\ RegimeSignalEngine.decide (signal_engine st) (iv row)
           (rv_history st') (close row) (spot_history st')
           (return_history st')
         = Ok (signal_engine st', row_decision r)
      /\ row_sized_target r
         = sized_target mode args (risk_limits args) (row_decision r) row
             (row_equity r) (effective_size_factor (row_overlay r))
      /\ queued_option_contracts r
         = g_next_target_contracts
             (strategy_gate mode args row (row_decision r) (row_overlay r)
                (row_sized_target r) (row_option_contracts r)
                (ticked (adaptive_short_pause_remaining st))
                (ticked (adaptive_long_pause_remaining st)))).
Proof.
  intros H pt tr. unfold bar_step in H.
  destruct (long_diagnostic ln st row) as [diag|];
    cbv beta iota delta [bind] in H; [|discriminate H].
  destruct (next_return_history ln st row) as [rh|];
    cbv beta iota delta [bind] in H; [|discriminate H].
  cbv zeta in H. fold pt in H. fold tr in H.
  destruct (RegimeSignalEngine.decide (signal_engine st) (iv row)
              (rv_history st ++ [realized_vol row]) (close row)
              (spot_history st ++ [close row]) rh) as [ed|] eqn:Hdec;
    [|discriminate H].
  apply Ok_pair_inj in H. destruct H as [<- <-].
  cbn [option_contracts hedge_shares cash drawdown prev_spot prev_option_mid
       pending_target_contracts prev_stance spot_history rv_history
       return_history signal_engine
       row_option_contracts row_hedge_shares row_equity row_drawdown
       row_equity_before_trade row_drawdown_before_trade row_gamma_risk
       row_kill_action row_overlay row_adopted_target
       executed_target_contracts row_decision row_sized_target
       queued_option_contracts].
  split; [repeat split; reflexivity|].
  split; [repeat split; reflexivity|].
  split; [reflexivity|]. split; [destruct ed; exact Hdec|].
  split; reflexivity.
Qed.

(** The cash and equity the execution part leaves, written out. *)
Lemma trade_cash_equity (st : SimState) (row : Bar) (pt : PreTrade) :
  let tr := trade mode args st row pt in
  let dc := (tr_option_contracts tr - option_contracts st)%Z in
  let dh := (tr_hedge_shares tr - hedge_shares st)%Z in
  tr_hedge_shares tr = hedge_target (tr_option_contracts tr) (delta row)
  /\ tr_cash tr
     == cash st - float dc * option_mid row * 100 - float dh * close row
        - float (Z.abs dc) * (0.65 + option_mid row * 100 * (5 / 10000))
        - float (Z.abs dh) * (0.005 + close row * (1 / 10000))
  /\ tr_equity tr
     == tr_cash tr + float (tr_option_contracts tr) * 100 * option_mid row
        + float (tr_hedge_shares tr) * close row.
Proof.
  intros tr dc dh. split; [reflexivity|]. split; [|reflexivity].
  subst dc dh tr. unfold trade.
  cbn [tr_cash tr_option_contracts tr_hedge_shares].
  set (rc := risk_limit_check _ _ _ _ _ _ _).
  unfold rebalance_delta_hedge, execute_option_trade.
  cbn [hedge_cash new_shares option_cash new_contracts].
  set (h := hedge_target _ _).
  unfold default_fee_per_contract, default_option_slippage_bps,
    default_fee_per_share, default_hedge_slippage_bps, CONTRACT_MULTIPLIER.
  ring.
Qed.

End LoopFields.

(** ** Drawdown tracking *)

Lemma peek_nonneg (self : DrawdownTracker.t) (equity : Q) :
  0 <= DrawdownTracker.peek self equity.
Proof.
  unfold DrawdownTracker.peek.
  destruct (_ <=? 0); [apply Qle_refl | apply Q.le_max_l].
Qed.

(** At or above the running peak the drawdown is zero. *)
Lemma peek_at_peak (self : DrawdownTracker.t) (equity : Q) :
  DrawdownTracker.peak_equity self <= equity ->
  DrawdownTracker.peek self equity == 0.
Proof.
  intros H. unfold DrawdownTracker.peek.
  set (peak := Qmax (DrawdownTracker.peak_equity self) equity).
  assert (Hp : peak == equity)
    by (subst peak; apply Q.max_r; exact H).
  destruct (peak <=? 0) eqn:E; [reflexivity|]. qbool.
  assert (Hz : (peak - equity) / peak == 0).
  { unfold Qdiv. rewrite Hp. ring. }
  destruct (Q.max_spec 0 ((peak - equity) / peak)) as [[_ ->] | [_ ->]];
    [exact Hz | reflexivity].
Qed.

(** Below a positive peak the drawdown is the fraction lost from it. *)
Lemma peek_below_peak (self : DrawdownTracker.t) (equity : Q) :
  0 < DrawdownTracker.peak_equity self ->
  equity <= DrawdownTracker.peak_equity self ->
  DrawdownTracker.peek self equity
  == (DrawdownTracker.peak_equity self - equity)
     / DrawdownTracker.peak_equity self.
Proof.
  intros Hpos H. unfold DrawdownTracker.peek.
  set (pk := DrawdownTracker.peak_equity self) in *.
  set (peak := Qmax pk equity).
  assert (Hp : peak == pk) by (subst peak; apply Q.max_l; exact H).
  destruct (peak <=? 0) eqn:E; qbool; [exfalso; lra|].
  assert (Hq : (peak - equity) / peak == (pk - equity) / pk)
    by (rewrite Hp; reflexivity).
  assert (Hnn : 0 <= (pk - equity) / pk)
    by (apply Qdiv_nonneg; lra).
  destruct (Q.max_spec 0 ((peak - equity) / peak)) as [[_ ->] | [Hle ->]];
    [exact Hq|].
  rewrite Hq in Hle. lra.
Qed.

Lemma peek_le_one (self : DrawdownTracker.t) (equity : Q) :
  0 <= equity -> DrawdownTracker.peek self equity <= 1.
Proof.
  intros He. unfold DrawdownTracker.peek.
  set (peak := Qmax _ _).
  destruct (peak <=? 0) eqn:E; qbool; [lra|].
  apply Q.max_lub; [lra|].
  apply Qle_shift_div_r; [exact E | lra].
Qed.

(** What [update] returns and leaves. *)
Lemma update_props (self : DrawdownTracker.t) (equity : Q) :
  let self' := fst (DrawdownTracker.update self equity) in
  let dd := snd (DrawdownTracker.update self equity) in
  dd == DrawdownTracker.peek self equity
  /\ DrawdownTracker.peak_equity self'
     == Qmax (DrawdownTracker.peak_equity self) equity
  /\ DrawdownTracker.max_drawdown self'
     == Qmax (DrawdownTracker.max_drawdown self) dd.
Proof.
  unfold DrawdownTracker.update.
  destruct (equity >? DrawdownTracker.peak_equity self) eqn:E; qbool.
  - set (s1 := DrawdownTracker.mk equity (DrawdownTracker.max_drawdown self)).
    assert (H1 : DrawdownTracker.peek s1 equity == 0)
      by (apply peek_at_peak; apply Qle_refl).
    assert (H2 : DrawdownTracker.peek self equity == 0)
      by (apply peek_at_peak; lra).
    destruct (DrawdownTracker.peek s1 equity
              >? DrawdownTracker.max_drawdown s1) eqn:E2; qbool;
      cbn [fst snd DrawdownTracker.peak_equity DrawdownTracker.max_drawdown
           s1] in *.
    + split; [lra|]. split; [symmetry; apply Q.max_r; lra|].
      symmetry; apply Q.max_r; lra.
    + split; [lra|]. split; [symmetry; apply Q.max_r; lra|].
      symmetry; apply Q.max_l; lra.
  - destruct (DrawdownTracker.peek self equity
              >? DrawdownTracker.max_drawdown self) eqn:E2; qbool;
      cbn [fst snd DrawdownTracker.peak_equity DrawdownTracker.max_drawdown].
    + split; [reflexivity|]. split; [symmetry; apply Q.max_l; lra|].
      symmetry; apply Q.max_r; lra.
    + split; [reflexivity|]. split; [symmetry; apply Q.max_l; lra|].
      symmetry; apply Q.max_l; lra.
Qed.

(** X2.  DrawdownTracker.update returns the drawdown that peek reports
    for the same equity, leaves the peak at the larger of the old peak
    and the equity and the maximum drawdown at the larger of the old
    maximum and the returned drawdown; the drawdown is never negative,
    is zero at or above the old peak, is the fraction lost from a
    positive peak below it, and is at most 1 for a non-negative
    equity. *)
Theorem drawdown_update_tracks_peak_and_maximum
    (self : DrawdownTracker.t) (equity : Q) :
  let self' := fst (DrawdownTracker.update self equity) in
  let dd := snd (DrawdownTracker.update self equity) in
  dd == DrawdownTracker.peek self equity
  /\ DrawdownTracker.peak_equity self'
     == Qmax (DrawdownTracker.peak_equity self) equity
  /\ DrawdownTracker.max_drawdown self'
     == Qmax (DrawdownTracker.max_drawdown self) dd
  /\ 0 <= dd
  /\ (DrawdownTracker.peak_equity self <= equity -> dd == 0)
  /\ (0 < DrawdownTracker.peak_equity self ->
      equity <= DrawdownTracker.peak_equity self ->
      dd == (DrawdownTracker.peak_equity self - equity)
            / DrawdownTracker.peak_equity self)
  /\ (0 <= equity -> dd <= 1).
Proof.
  intros self' dd.
  destruct (update_props self equity) as (Hdd & Hpk & Hmx).
  fold self' dd in Hdd, Hpk, Hmx.
  split; [exact Hdd|]. split; [exact Hpk|]. split; [exact Hmx|].
  split; [rewrite Hdd; apply peek_nonneg|].
  split; [intros H; rewrite Hdd; apply peek_at_peak, H|].
  split; [intros H1 H2; rewrite Hdd; apply peek_below_peak; assumption|].
  intros H; rewrite Hdd; apply peek_le_one, H.
Qed.

(** A tracker at peak 10000 shown an equity of 9000: a drawdown of
    10 %, which becomes the maximum. *)
Lemma drawdown_update_tracks_peak_and_maximum_witness :
  snd (DrawdownTracker.update (DrawdownTracker.mk 10000 0.05) 9000) == 0.1
  /\ snd (DrawdownTracker.update (DrawdownTracker.mk 10000 0.05) 9000) <= 1.
Proof.
  destruct (drawdown_update_tracks_peak_and_maximum
              (DrawdownTracker.mk 10000 0.05) 9000)
    as (_ & _ & _ & _ & _ & Hfrac & Hone).
  split.
  - rewrite Hfrac; [reflexivity | reflexivity | discriminate].
  - apply Hone. discriminate.
Defined.

Lemma gamma_risk_metric_nonneg (gamma_exposure spot_price : Q) :
  0 <= gamma_risk_metric gamma_exposure spot_price.
Proof.
  unfold gamma_risk_metric.
  apply Qmult_le_0_compat; [|discriminate].
  apply Qmult_le_0_compat; [apply Qabs_nonneg | apply Q.le_max_r].
Qed.

(** ** The loop: the book after a bar *)

Section LoopBook.

Variable ln : Q -> Q.
Variable mode : StrategyMode.
Variable args : Args.


Lemma pre_trade_drawdown (st : SimState) (row : Bar) :
  pt_drawdown_before_trade (pre_trade mode args st row)
  = DrawdownTracker.peek (drawdown st)
      (pt_equity_before_trade (pre_trade mode args st row)).
Proof. reflexivity. Qed.

Lemma pre_trade_gamma_risk (st : SimState) (row : Bar) :
  pt_gamma_risk (pre_trade mode args st row)
  = gamma_risk_metric
      (float (option_contracts st) * gamma row * CONTRACT_MULTIPLIER)
      (close row).
Proof. reflexivity. Qed.

Lemma trade_drawdown (st : SimState) (row : Bar) (pt : PreTrade) :
  let tr := trade mode args st row pt in
  tr_drawdown tr = fst (DrawdownTracker.update (drawdown st) (tr_equity tr))
  /\ tr_drawdown_after_trade tr
     = snd (DrawdownTracker.update (drawdown st) (tr_equity tr)).
Proof. split; reflexivity. Qed.

(** X3.  After every bar the book is delta-hedged: the hedge is the
    rounded offset of the option delta of the position the bar ends
    with, and the net delta of the book is at most half a share. *)
Theorem book_is_delta_hedged_after_every_bar (st st' : SimState) (row : Bar)
    (r : StepRow) :
  bar_step ln mode args st row = Ok (st', r) ->
  option_contracts st' = row_option_contracts r
  /\ hedge_shares st' = row_hedge_shares r
  /\ row_hedge_shares r = hedge_target (row_option_contracts r) (delta row)
  /\ Qabs (delta_exposure
             (compute_exposures (option_contracts st') (hedge_shares st')
                (close row) (option_mid row) (delta row) (gamma row)
                (vega row))) <= 0.5.
Proof.
  intros Hstep.
  destruct (bar_step_fields _ _ _ _ _ _ _ Hstep)
    as ((Hoc & Hhs & _) & (Hroc & Hrhs & _) & _).
  destruct (trade_cash_equity mode args st row (pre_trade mode args st row))
    as (Hh & _).
  split; [congruence|]. split; [congruence|].
  split; [rewrite Hrhs, Hroc; exact Hh|].
  rewrite Hhs, Hoc, Hh. apply hedge_target_neutralises_delta.
Qed.


(** The strategy gates queue nothing on a bar flattened for risk. *)
Lemma strategy_gate_flatten (row : Bar) (decision : SignalDecision)
    (o : Overlay) (next_target position short_pause long_pause : Z) :
  flatten_for_risk o = true ->
  g_next_target_contracts
    (strategy_gate mode args row decision o next_target position
       short_pause long_pause) = 0%Z.
Proof.
  intros Hf. unfold strategy_gate.
  assert (Hpf : forall g,
            g_next_target_contracts
              (gate_paused_or_flatten decision (flatten_for_risk o) g) = 0%Z).
  { intros g. unfold gate_paused_or_flatten. rewrite Hf.
    destruct (Stance_eqb _ _); reflexivity. }
  destruct mode.
  - unfold gate_short. rewrite Hf. reflexivity.
  - unfold gate_long.
    match goal with
    | |- context [gate_paused_or_flatten decision (flatten_for_risk o) ?g] =>
        pose proof (Hpf g) as Hz;
        set (g1 := gate_paused_or_flatten decision (flatten_for_risk o) g) in *
    end.
    destruct (_ && _); [reflexivity | exact Hz].
  - unfold gate_adaptive.
    match goal with
    | |- context [gate_paused_or_flatten decision (flatten_for_risk o) ?g] =>
        pose proof (Hpf g) as Hz;
        set (g1 := gate_paused_or_flatten decision (flatten_for_risk o) g) in *
    end.
    repeat match goal with
    | |- context [if ?c then _ else _] => destruct c
    end; try reflexivity; exact Hz.
Qed.

(** The kill switch's flatten survives every mode's overlays. *)
Lemma risk_overlay_keeps_flatten (k : KillSwitch.KillSwitchAction) (dd : Q)
    (opening : Z) :
  KillSwitch.flatten_positions k = true ->
  flatten_for_risk (risk_overlay mode args k dd opening) = true.
Proof.
  intros Hk.
  assert (Hg : forall has side o, flatten_for_risk o = true ->
            flatten_for_risk (overlay_global args dd has side o) = true).
  { intros has side o Ho. unfold overlay_global.
    destruct (_ && has); [reflexivity|].
    destruct (_ && has); [exact Ho | exact Ho]. }
  assert (Hl : forall ex o, flatten_for_risk o = true ->
            flatten_for_risk (overlay_long_drawdown args dd ex o) = true).
  { intros ex o Ho. unfold overlay_long_drawdown.
    destruct (_ && ex); [reflexivity|].
    destruct (_ && ex); [exact Ho | exact Ho]. }
  assert (H0 : flatten_for_risk (overlay_of_kill k) = true) by exact Hk.
  unfold risk_overlay. destruct mode.
  - unfold overlay_short. destruct (_ >=? _); [reflexivity|].
    destruct (_ >=? _); exact H0.
  - unfold overlay_long. cbv zeta.
    destruct (_ && _); [reflexivity|]. apply Hl, Hg, H0.
  - unfold overlay_adaptive. cbv zeta.
    destruct (KillSwitch.flatten_positions k && _); [reflexivity|].
    apply Hl, Hg, H0.
Qed.

(** X5.  A bar flattened for risk ends flat and queues nothing: when
    the kill switch asks to flatten, or an overlay does, the executed
    target, the position and the hedge are 0 whatever was queued and
    whatever the limits say, and the target queued for the next bar
    is 0 whatever the signal. *)
Theorem risk_flatten_closes_the_book (st st' : SimState) (row : Bar)
    (r : StepRow) :
  bar_step ln mode args st row = Ok (st', r) ->
  KillSwitch.flatten_positions (row_kill_action r) = true
  \/ row_flatten_for_risk r = true ->
  row_flatten_for_risk r = true
  /\ executed_target_contracts r = 0%Z
  /\ option_contracts st' = 0%Z
  /\ hedge_shares st' = 0%Z
  /\ queued_option_contracts r = 0%Z
  /\ pending_target_contracts st' = 0%Z.
Proof.
  intros Hstep Hkill.
  destruct (bar_step_fields _ _ _ _ _ _ _ Hstep)
    as ((Hoc & Hhs & _ & _ & _ & _ & Hpend & _)
        & (Hroc & Hrhs & _ & _ & _ & _ & _ & Hka & Hov & Had & Hex)
        & (_ & _ & _ & Hq)).
  set (pt := pre_trade mode args st row) in *.
  set (tr := trade mode args st row pt) in *.
  assert (Hf : row_flatten_for_risk r = true).
  { destruct Hkill as [Hk | Hf]; [|exact Hf].
    unfold row_flatten_for_risk. rewrite Hov. rewrite Hka in Hk.
    apply risk_overlay_keeps_flatten. exact Hk. }
  unfold row_flatten_for_risk in Hf.
  assert (Hexec : executed_target_contracts r = 0%Z).
  { rewrite Hex. subst tr. rewrite trade_check, trade_target.
    rewrite <- Hov, Hf. reflexivity. }
  assert (Hpos : tr_option_contracts tr = 0%Z).
  { subst tr. rewrite trade_option_contracts. rewrite <- Hex. exact Hexec. }
  assert (Hhedge : tr_hedge_shares tr = 0%Z).
  { destruct (trade_cash_equity mode args st row pt) as (Hh & _).
    fold tr in Hh. rewrite Hh, Hpos. apply hedge_target_zero. }
  assert (Hqueue : queued_option_contracts r = 0%Z).
  { rewrite Hq. apply strategy_gate_flatten. exact Hf. }
  split; [exact Hf|]. split; [exact Hexec|].
  split; [congruence|]. split; [congruence|].
  split; [exact Hqueue | congruence].
Qed.

End LoopBook.

(** Short mode on the rising-premium market, second bar: the five
    contracts sold are hedged with 250 shares. *)
Lemma book_is_delta_hedged_after_every_bar_witness :
  let st :=
    snd (fst (run_single_mode flat_log mode_short DEFAULT_ARGS
                (firstn 1 rising_premium_market) quick_config)) in
  exists st' r,
    bar_step flat_log mode_short DEFAULT_ARGS st (sample_bar "d2" 3.9)
    = Ok (st', r)
    /\ row_option_contracts r = (-5)%Z
    /\ row_hedge_shares r = 250%Z
    /\ hedge_shares st' = 250%Z.
Proof.
  intros st.
  destruct (bar_step flat_log mode_short DEFAULT_ARGS st (sample_bar "d2" 3.9))
    as [[st' r]|] eqn:Hstep; [| vm_compute in Hstep; discriminate Hstep].
  exists st', r. split; [reflexivity|].
  destruct (book_is_delta_hedged_after_every_bar flat_log mode_short
              DEFAULT_ARGS st st' (sample_bar "d2" 3.9) r Hstep)
    as (_ & Hhs & Hh & _).
  pose proof Hstep as Hval. vm_compute in Hval. apply Ok_pair_inj in Hval.
  destruct Hval as [_ Hr].
  assert (Hc : row_option_contracts r = (-5)%Z)
    by (rewrite <- Hr; reflexivity).
  split; [exact Hc|].
  assert (H250 : row_hedge_shares r = 250%Z)
    by (rewrite Hh, Hc; vm_compute; reflexivity).
  split; [exact H250 | rewrite Hhs; exact H250].
Defined.


(** The third bar with the option mid at 10: the five contracts held
    short have lost 30 % of the peak, the global drawdown kill fires,
    and the bar ends with no position, no hedge and nothing queued. *)
Lemma risk_flatten_closes_the_book_witness :
  let st :=
    snd (fst (run_single_mode flat_log mode_short DEFAULT_ARGS
                (firstn 2 rising_premium_market) quick_config)) in
  option_contracts st = (-5)%Z
  /\ exists st' r,
       bar_step flat_log mode_short DEFAULT_ARGS st (sample_bar "d3" 10)
       = Ok (st', r)
       /\ option_contracts st' = 0%Z
       /\ hedge_shares st' = 0%Z
       /\ pending_target_contracts st' = 0%Z.
Proof.
  intros st. split; [vm_compute; reflexivity|].
  destruct (bar_step flat_log mode_short DEFAULT_ARGS st (sample_bar "d3" 10))
    as [[st' r]|] eqn:Hstep; [| vm_compute in Hstep; discriminate Hstep].
  exists st', r. split; [reflexivity|].
  pose proof Hstep as Hval. vm_compute in Hval. apply Ok_pair_inj in Hval.
  destruct Hval as [_ Hr].
  destruct (risk_flatten_closes_the_book flat_log mode_short DEFAULT_ARGS
              st st' (sample_bar "d3" 10) r Hstep)
    as (_ & _ & Hoc & Hhs & _ & Hp).
  - right. rewrite <- Hr. reflexivity.
  - split; [exact Hoc|]. split; [exact Hhs | exact Hp].
Defined.

(** Equity 1000 with a 20 % budget and an option at 1.50 carries one
    contract: a request for three is clamped to a passing position of
    at least one contract, and a request for one is returned as it
    is. *)
Lemma clamp_returns_largest_passing_witness :
  let rl := RiskLimits.with_capital 10000 in
  (projected_trade_allowed rl 100 1.5 0.5 0.01 0.1 1000
     (clamp_target_to_risk_limits 3 rl 100 1.5 0.5 0.01 0.1 1000) = true
   /\ (1 <= Z.abs (clamp_target_to_risk_limits 3 rl 100 1.5 0.5 0.01 0.1
                     1000))%Z)
  /\ clamp_target_to_risk_limits 1 rl 100 1.5 0.5 0.01 0.1 1000 = 1%Z.
Proof.
  intros rl. split.
  - destruct (clamp_returns_largest_passing rl 100 1.5 0.5 0.01 0.1 1000 3)
      as (Hmax & _).
    apply Hmax; [lia | vm_compute; reflexivity].
  - destruct (clamp_returns_largest_passing rl 100 1.5 0.5 0.01 0.1 1000 1)
      as (_ & _ & Hsame).
    apply Hsame. vm_compute. reflexivity.
Defined.

(** ** The loop: drawdown over a run *)

Section RunDrawdown.

Variable ln : Q -> Q.
Variable mode : StrategyMode.
Variable args : Args.

Lemma bar_step_drawdown (st st' : SimState) (row : Bar) (r : StepRow) :
  bar_step ln mode args st row = Ok (st', r) ->
  let before := drawdown st in
  let after := drawdown st' in
  (0 <= row_gamma_risk r /\ 0 <= row_drawdown_before_trade r
   /\ 0 <= row_drawdown r)
  /\ row_drawdown r <= DrawdownTracker.max_drawdown after
  /\ row_equity r <= DrawdownTracker.peak_equity after
  /\ DrawdownTracker.max_drawdown before <= DrawdownTracker.max_drawdown after
  /\ DrawdownTracker.peak_equity before <= DrawdownTracker.peak_equity after
  /\ (DrawdownTracker.max_drawdown after
      == DrawdownTracker.max_drawdown before
      \/ DrawdownTracker.max_drawdown after == row_drawdown r).
Proof.
  intros Hstep before after.
  destruct (bar_step_fields _ _ _ _ _ _ _ Hstep)
    as ((_ & _ & _ & Hdd & _) & (_ & _ & Heq & Hrdd & _ & Hbdd & Hgr & _) & _).
  destruct (trade_drawdown mode args st row (pre_trade mode args st row))
    as (Ht & Hd).
  cbv zeta in Ht, Hd. rewrite <- Heq in Ht, Hd.
  rewrite <- Hdd in Ht. rewrite <- Hrdd in Hd.
  destruct (update_props (drawdown st) (row_equity r)) as (Hpeek & Hpk & Hmx).
  cbv zeta in Hpeek, Hpk, Hmx. rewrite <- Ht in Hpk, Hmx.
  rewrite <- Hd in Hpeek, Hmx. fold before after in Hpk, Hmx, Hpeek.
  split.
  { split; [rewrite Hgr, pre_trade_gamma_risk; apply gamma_risk_metric_nonneg|].
    split; [rewrite Hbdd, pre_trade_drawdown; apply peek_nonneg|].
    rewrite Hpeek. apply peek_nonneg. }
  split; [rewrite Hmx; apply Q.le_max_r|].
  split; [rewrite Hpk; apply Q.le_max_r|].
  split; [rewrite Hmx; apply Q.le_max_l|].
  split; [rewrite Hpk; apply Q.le_max_l|].
  rewrite Hmx.
  destruct (Q.max_spec (DrawdownTracker.max_drawdown before) (row_drawdown r))
    as [[_ ->] | [_ ->]]; [right | left]; reflexivity.
Qed.

Lemma steps_drawdown (st final : SimState) (rows : list StepRow) :
  steps ln mode args st rows final ->
  DrawdownTracker.max_drawdown (drawdown st)
  <= DrawdownTracker.max_drawdown (drawdown final)
  /\ DrawdownTracker.peak_equity (drawdown st)
     <= DrawdownTracker.peak_equity (drawdown final)
  /\ (forall r, In r rows ->
        0 <= row_gamma_risk r /\ 0 <= row_drawdown_before_trade r
        /\ 0 <= row_drawdown r
        /\ row_drawdown r <= DrawdownTracker.max_drawdown (drawdown final)
        /\ row_equity r <= DrawdownTracker.peak_equity (drawdown final))
  /\ (DrawdownTracker.max_drawdown (drawdown final)
      == DrawdownTracker.max_drawdown (drawdown st)
      \/ exists r, In r rows
           /\ DrawdownTracker.max_drawdown (drawdown final) == row_drawdown r).
Proof.
  induction 1 as [st | st st' final row r rows Hstep _ IH].
  - split; [apply Qle_refl|]. split; [apply Qle_refl|].
    split; [intros r []|]. left. reflexivity.
  - destruct (bar_step_drawdown _ _ _ _ Hstep)
      as ((Hg & Hb & Hd) & Hle & Heq & Hmx & Hpk & Hcase).
    cbv zeta in Hle, Heq, Hmx, Hpk, Hcase.
    destruct IH as (IHmx & IHpk & IHrows & IHcase).
    split; [eapply Qle_trans; eassumption|].
    split; [eapply Qle_trans; eassumption|].
    split.
    + intros x [<- | Hin].
      * split; [exact Hg|]. split; [exact Hb|]. split; [exact Hd|].
        split; eapply Qle_trans; eassumption.
      * apply IHrows, Hin.
    + destruct IHcase as [IHeq | (x & Hin & Hx)].
      * destruct Hcase as [Hsame | Hrow].
        -- left. rewrite IHeq. exact Hsame.
        -- right. exists r. split; [left; reflexivity|].
           rewrite IHeq. exact Hrow.
      * right. exists x. split; [right; exact Hin | exact Hx].
Qed.

(** X6.  The maximum drawdown a run reports is the largest after-trade
    drawdown of its bars: the tracker the run ends with bounds the
    drawdown of every row, and its maximum is 0 or the drawdown of
    some row; its peak is at least the initial capital and the equity
    of every row.  The drawdowns and the gamma-risk metric of every
    row are non-negative. *)
Theorem reported_max_drawdown_is_largest_bar_drawdown
    (signal_config : SignalConfig) (market_data : list Bar)
    (rows : list StepRow) (final : SimState) (exn : option PyExn) :
  run_single_mode ln mode args market_data signal_config
  = (rows, final, exn) ->
  let tracker := drawdown final in
  (forall r, In r rows ->
     0 <= row_gamma_risk r /\ 0 <= row_drawdown_before_trade r
     /\ 0 <= row_drawdown r
     /\ row_drawdown r <= DrawdownTracker.max_drawdown tracker
     /\ row_equity r <= DrawdownTracker.peak_equity tracker)
  /\ INITIAL_CAPITAL <= DrawdownTracker.peak_equity tracker
  /\ (DrawdownTracker.max_drawdown tracker == 0
      \/ exists r, In r rows
           /\ DrawdownTracker.max_drawdown tracker == row_drawdown r).
Proof.
  intros Hrun tracker. unfold run_single_mode in Hrun.
  apply run_bars_steps in Hrun.
  destruct (steps_drawdown _ _ _ Hrun) as (_ & Hpk & Hrows & Hcase).
  split; [exact Hrows|]. split; [exact Hpk | exact Hcase].
Qed.

End RunDrawdown.

(** Short mode on the rising-premium market: the run ends with a
    maximum drawdown that is the drawdown of one of its three bars. *)
Lemma reported_max_drawdown_is_largest_bar_drawdown_witness :
  let run :=
    run_single_mode flat_log mode_short DEFAULT_ARGS rising_premium_market
      quick_config in
  INITIAL_CAPITAL <= DrawdownTracker.peak_equity (drawdown (snd (fst run)))
  /\ exists r, In r (fst (fst run))
       /\ DrawdownTracker.max_drawdown (drawdown (snd (fst run)))
          == row_drawdown r.
Proof.
  intros run.
  destruct (reported_max_drawdown_is_largest_bar_drawdown flat_log mode_short
              DEFAULT_ARGS quick_config rising_premium_market _ _ _
              (run_result_eta _))
    as (_ & Hpk & Hcase).
  split; [exact Hpk|].
  destruct Hcase as [H0 | Hr]; [|exact Hr].
  exfalso. revert H0. vm_compute. discriminate.
Defined.

(** ** The signal engine: the branches of [decide] *)

(** [decide] as its three stages: the metrics, the branch chain and the
    closing statements. *)
Lemma decide_outcome (e e' : RegimeSignalEngine.t) (implied_vol : Q)
    (realized_vol_series : list Q) (spot : Q)
    (price_series return_series : list Q) (d : SignalDecision) :
  RegimeSignalEngine.decide e implied_vol realized_vol_series spot
    price_series return_series = Ok (e', d) ->
  exists m o flags,
    RegimeSignalEngine._base_metrics e implied_vol realized_vol_series spot
      price_series return_series
    = Ok (RegimeSignalEngine.set_prev_edge (Some (m_edge m)) e, m)
    /\ RegimeSignalEngine.decide_branch
         (RegimeSignalEngine.set_prev_edge (Some (m_edge m)) e) m price_series
       = (o, flags)
    /\ e' = RegimeSignalEngine.decide_finish o
    /\ d = mkSignalDecision
             (RegimeSignalEngine.o_stance o)
             (_signal_for_stance (RegimeSignalEngine.o_stance o))
             (RegimeSignalEngine.o_reason o)
             (RegimeSignalEngine.pricing_ok flags)
             (RegimeSignalEngine.path_ok flags)
             (RegimeSignalEngine.instability_ok flags)
             (RegimeSignalEngine.two_way_ok flags)
             (m_edge m) (m_edge_velocity m) (m_rv_short m) (m_rv_medium m)
             (m_trend_strength m) (m_jump_abs_return m) (m_rv_change m)
             (m_choppiness m) (m_chop_score m)
             (RegimeSignalEngine.cooldown_remaining
                (RegimeSignalEngine.decide_finish o))
             (RegimeSignalEngine.o_cooldown_active o).
Proof.
  intros H.
  destruct (_base_metrics_ok e implied_vol realized_vol_series spot
              price_series return_series) as [m Hm].
  unfold RegimeSignalEngine.decide in H. rewrite Hm in H. cbn [bind] in H.
  destruct (RegimeSignalEngine.decide_branch
              (RegimeSignalEngine.set_prev_edge (Some (m_edge m)) e) m
              price_series) as [o flags] eqn:Hb.
  apply Ok_pair_inj in H. destruct H as [<- <-].
  exists m, o, flags. repeat split; try reflexivity; assumption.
Qed.

(** The closing statements keep the mode, the configuration and the
    adaptive sub-state, and remember the stance. *)
Lemma decide_finish_frame (o : RegimeSignalEngine.Outcome) :
  let self := RegimeSignalEngine.o_self o in
  let self' := RegimeSignalEngine.decide_finish o in
  RegimeSignalEngine.mode self' = RegimeSignalEngine.mode self
  /\ RegimeSignalEngine.config self' = RegimeSignalEngine.config self
  /\ RegimeSignalEngine.prev_stance self' = RegimeSignalEngine.o_stance o
  /\ RegimeSignalEngine.prev_edge self' = RegimeSignalEngine.prev_edge self
  /\ RegimeSignalEngine.adaptive_state self'
     = RegimeSignalEngine.adaptive_state self
  /\ RegimeSignalEngine.adaptive_pause_remaining self'
     = RegimeSignalEngine.adaptive_pause_remaining self
  /\ RegimeSignalEngine.adaptive_short_enter_count self'
     = RegimeSignalEngine.adaptive_short_enter_count self
  /\ RegimeSignalEngine.adaptive_long_enter_count self'
     = RegimeSignalEngine.adaptive_long_enter_count self
  /\ (RegimeSignalEngine.mode self <> mode_short ->
      RegimeSignalEngine.cooldown_remaining self'
      = RegimeSignalEngine.cooldown_remaining self).
Proof.
  intros self self'. subst self self'. unfold RegimeSignalEngine.decide_finish.
  destruct (RegimeSignalEngine.mode (RegimeSignalEngine.o_self o)) eqn:Hm;
    try (engine_simpl; repeat split; solve [reflexivity | assumption]).
  destruct (_ && _); engine_simpl;
    repeat split; try reflexivity; try assumption; intros Hc; congruence.
Qed.

(** What the PAUSED branch leaves. *)
Lemma paused_branch_props (self : RegimeSignalEngine.t) :
  let o := RegimeSignalEngine.paused_branch self in
  let self' := RegimeSignalEngine.o_self o in
  let left_bars :=
    if (RegimeSignalEngine.adaptive_pause_remaining self >? 0)%Z
    then (RegimeSignalEngine.adaptive_pause_remaining self - 1)%Z
    else RegimeSignalEngine.adaptive_pause_remaining self in
  RegimeSignalEngine.mode self' = RegimeSignalEngine.mode self
  /\ RegimeSignalEngine.config self' = RegimeSignalEngine.config self
  /\ RegimeSignalEngine.prev_edge self' = RegimeSignalEngine.prev_edge self
  /\ RegimeSignalEngine.adaptive_pause_remaining self' = left_bars
  /\ RegimeSignalEngine.o_cooldown_active o = true
  /\ RegimeSignalEngine.adaptive_short_enter_count self'
     = RegimeSignalEngine.adaptive_short_enter_count self
  /\ RegimeSignalEngine.adaptive_long_enter_count self'
     = RegimeSignalEngine.adaptive_long_enter_count self
  /\ ((0 < left_bars)%Z ->
      RegimeSignalEngine.o_stance o = PAUSED
      /\ RegimeSignalEngine.adaptive_state self'
         = RegimeSignalEngine.adaptive_state self)
  /\ ((left_bars <= 0)%Z ->
      RegimeSignalEngine.o_stance o = FLAT
      /\ RegimeSignalEngine.adaptive_state self' = FLAT).
Proof.
  intros o self' left_bars. subst o self' left_bars.
  unfold RegimeSignalEngine.paused_branch.
  destruct (Z.gtb_spec (RegimeSignalEngine.adaptive_pause_remaining self) 0);
    engine_simpl;
    match goal with
    | |- context [(?x <=? 0)%Z] => destruct (Z.leb_spec x 0)
    end; engine_simpl;
    repeat split; try reflexivity; intros; lia.
Qed.

(** What an exit branch leaves: the regime continues, or the exit has
    persisted and the pause is armed with [adaptive_pause_bars]. *)
Lemma short_vol_branch_props (self : RegimeSignalEngine.t)
    (short_exit_ok : bool) (exit_persist : Z) :
  let o := RegimeSignalEngine.short_vol_branch self short_exit_ok
             exit_persist in
  let self' := RegimeSignalEngine.o_self o in
  let count :=
    if short_exit_ok
    then (RegimeSignalEngine.adaptive_short_exit_count self + 1)%Z
    else 0%Z in
  let pause := Z.max 0 (adaptive_pause_bars (RegimeSignalEngine.config self)) in
  RegimeSignalEngine.mode self' = RegimeSignalEngine.mode self
  /\ RegimeSignalEngine.config self' = RegimeSignalEngine.config self
  /\ RegimeSignalEngine.prev_edge self' = RegimeSignalEngine.prev_edge self
  /\ ((count < exit_persist)%Z ->
      RegimeSignalEngine.o_stance o = SHORT_VOL
      /\ RegimeSignalEngine.o_cooldown_active o = false
      /\ RegimeSignalEngine.adaptive_state self'
         = RegimeSignalEngine.adaptive_state self
      /\ RegimeSignalEngine.adaptive_short_exit_count self' = count
      /\ RegimeSignalEngine.adaptive_pause_remaining self'
         = RegimeSignalEngine.adaptive_pause_remaining self)
  /\ ((exit_persist <= count)%Z ->
      RegimeSignalEngine.o_stance o
      = (if (pause >? 0)%Z then PAUSED else FLAT)
      /\ RegimeSignalEngine.o_cooldown_active o = (pause >? 0)%Z
      /\ RegimeSignalEngine.adaptive_state self' = PAUSED
      /\ RegimeSignalEngine.adaptive_pause_remaining self' = pause
      /\ RegimeSignalEngine.adaptive_short_exit_count self' = 0%Z
      /\ RegimeSignalEngine.adaptive_short_enter_count self' = 0%Z
      /\ RegimeSignalEngine.adaptive_long_enter_count self' = 0%Z).
Proof.
  intros o self' count pause. subst o self' count pause.
  unfold RegimeSignalEngine.short_vol_branch, RegimeSignalEngine.arm_pause.
  destruct short_exit_ok; engine_simpl;
    match goal with
    | |- context [(?x >=? exit_persist)%Z] =>
        destruct (Z.geb_spec x exit_persist)
    end; engine_simpl;
    repeat split; try reflexivity; intros; lia.
Qed.

Lemma long_vol_branch_props (self : RegimeSignalEngine.t)
    (long_exit_ok : bool) (exit_persist : Z) (clear_short_enter : bool) :
  let o := RegimeSignalEngine.long_vol_branch self long_exit_ok
             exit_persist clear_short_enter in
  let self' := RegimeSignalEngine.o_self o in
  let count :=
    if long_exit_ok
    then (RegimeSignalEngine.adaptive_long_exit_count self + 1)%Z
    else 0%Z in
  let pause := Z.max 0 (adaptive_pause_bars (RegimeSignalEngine.config self)) in
  RegimeSignalEngine.mode self' = RegimeSignalEngine.mode self
  /\ RegimeSignalEngine.config self' = RegimeSignalEngine.config self
  /\ RegimeSignalEngine.prev_edge self' = RegimeSignalEngine.prev_edge self
  /\ ((count < exit_persist)%Z ->
      RegimeSignalEngine.o_stance o = LONG_VOL
      /\ RegimeSignalEngine.o_cooldown_active o = false
      /\ RegimeSignalEngine.adaptive_state self'
         = RegimeSignalEngine.adaptive_state self
      /\ RegimeSignalEngine.adaptive_long_exit_count self' = count
      /\ RegimeSignalEngine.adaptive_pause_remaining self'
         = RegimeSignalEngine.adaptive_pause_remaining self)
  /\ ((exit_persist <= count)%Z ->
      RegimeSignalEngine.o_stance o
      = (if (pause >? 0)%Z then PAUSED else FLAT)
      /\ RegimeSignalEngine.o_cooldown_active o = (pause >? 0)%Z
      /\ RegimeSignalEngine.adaptive_state self' = PAUSED
      /\ RegimeSignalEngine.adaptive_pause_remaining self' = pause
      /\ RegimeSignalEngine.adaptive_long_exit_count self' = 0%Z
      /\ RegimeSignalEngine.adaptive_long_enter_count self' = 0%Z
      /\ RegimeSignalEngine.adaptive_short_enter_count self'
         = (if clear_short_enter then 0%Z
            else RegimeSignalEngine.adaptive_short_enter_count self)).
Proof.
  intros o self' count pause. subst o self' count pause.
  unfold RegimeSignalEngine.long_vol_branch, RegimeSignalEngine.arm_pause.
  destruct long_exit_ok, clear_short_enter; engine_simpl;
    match goal with
    | |- context [(?x >=? exit_persist)%Z] =>
        destruct (Z.geb_spec x exit_persist)
    end; engine_simpl;
    repeat split; try reflexivity; intros; lia.
Qed.

(** What the FLAT block of adaptive mode leaves: the two enter counters
    updated for this bar, and the sub-state of the stance it selects. *)
Lemma flat_block_props (self : RegimeSignalEngine.t) (m : Metrics)
    (short_ok long_ok : bool) (enter_persist : Z) (ca : bool) :
  let o := RegimeSignalEngine.flat_block self m short_ok long_ok
             enter_persist ca in
  let self' := RegimeSignalEngine.o_self o in
  let short_count :=
    if short_ok
    then (RegimeSignalEngine.adaptive_short_enter_count self + 1)%Z
    else 0%Z in
  let long_count :=
    if long_ok
    then (RegimeSignalEngine.adaptive_long_enter_count self + 1)%Z
    else 0%Z in
  RegimeSignalEngine.mode self' = RegimeSignalEngine.mode self
  /\ RegimeSignalEngine.config self' = RegimeSignalEngine.config self
  /\ RegimeSignalEngine.prev_edge self' = RegimeSignalEngine.prev_edge self
  /\ RegimeSignalEngine.adaptive_pause_remaining self'
     = RegimeSignalEngine.adaptive_pause_remaining self
  /\ RegimeSignalEngine.o_cooldown_active o = ca
  /\ RegimeSignalEngine.adaptive_short_enter_count self' = short_count
  /\ RegimeSignalEngine.adaptive_long_enter_count self' = long_count
  /\ RegimeSignalEngine.o_stance o <> PAUSED
  /\ (RegimeSignalEngine.o_stance o = SHORT_VOL ->
      RegimeSignalEngine.adaptive_state self' = SHORT_VOL
      /\ (enter_persist <= short_count)%Z)
  /\ (RegimeSignalEngine.o_stance o = LONG_VOL ->
      RegimeSignalEngine.adaptive_state self' = LONG_VOL
      /\ (enter_persist <= long_count)%Z)
  /\ (RegimeSignalEngine.o_stance o = FLAT ->
      RegimeSignalEngine.adaptive_state self'
      = RegimeSignalEngine.adaptive_state self)
  /\ ((short_count < enter_persist)%Z -> (long_count < enter_persist)%Z ->
      RegimeSignalEngine.o_stance o = FLAT)
  /\ ((enter_persist <= short_count)%Z -> (long_count < enter_persist)%Z ->
      RegimeSignalEngine.o_stance o = SHORT_VOL)
  /\ ((short_count < enter_persist)%Z -> (enter_persist <= long_count)%Z ->
      RegimeSignalEngine.o_stance o = LONG_VOL).
Proof.
  intros o self' short_count long_count. subst o self'.
  unfold RegimeSignalEngine.flat_block, RegimeSignalEngine.selected_stance.
  set (counted :=
         if long_ok
         then RegimeSignalEngine.set_adaptive_long_enter_count _ _
         else RegimeSignalEngine.set_adaptive_long_enter_count 0 _).
  assert (Es : RegimeSignalEngine.adaptive_short_enter_count counted
               = short_count)
    by (subst counted short_count; destruct short_ok, long_ok; reflexivity).
  assert (El : RegimeSignalEngine.adaptive_long_enter_count counted
               = long_count)
    by (subst counted long_count; destruct short_ok, long_ok; reflexivity).
  assert (Ef : RegimeSignalEngine.mode counted = RegimeSignalEngine.mode self
               /\ RegimeSignalEngine.config counted
                  = RegimeSignalEngine.config self
               /\ RegimeSignalEngine.prev_edge counted
                  = RegimeSignalEngine.prev_edge self
               /\ RegimeSignalEngine.adaptive_pause_remaining counted
                  = RegimeSignalEngine.adaptive_pause_remaining self
               /\ RegimeSignalEngine.adaptive_state counted
                  = RegimeSignalEngine.adaptive_state self)
    by (subst counted; destruct short_ok, long_ok; repeat split; reflexivity).
  destruct Ef as (F1 & F2 & F3 & F4 & F5).
  cbv zeta. rewrite Es, El. clearbody counted.
  destruct (Z.geb_spec short_count enter_persist) as [Hs | Hs];
    destruct (Z.geb_spec long_count enter_persist) as [Hl | Hl];
    cbn [andb];
    repeat match goal with
    | |- context [if ?c then _ else _] => destruct c
    end;
    engine_simpl;
    repeat split; try reflexivity; try discriminate; try assumption;
    intros; try lia; try discriminate; try assumption.
Qed.

Lemma long_flat_block_props (self : RegimeSignalEngine.t)
    (long_ok : bool) (enter_persist : Z) :
  let o := RegimeSignalEngine.long_flat_block self long_ok enter_persist in
  let self' := RegimeSignalEngine.o_self o in
  let long_count :=
    if long_ok
    then (RegimeSignalEngine.adaptive_long_enter_count self + 1)%Z
    else 0%Z in
  RegimeSignalEngine.mode self' = RegimeSignalEngine.mode self
  /\ RegimeSignalEngine.config self' = RegimeSignalEngine.config self
  /\ RegimeSignalEngine.prev_edge self' = RegimeSignalEngine.prev_edge self
  /\ RegimeSignalEngine.adaptive_pause_remaining self'
     = RegimeSignalEngine.adaptive_pause_remaining self
  /\ RegimeSignalEngine.o_cooldown_active o = false
  /\ RegimeSignalEngine.adaptive_long_enter_count self' = long_count
  /\ ((enter_persist <= long_count)%Z ->
      RegimeSignalEngine.o_stance o = LONG_VOL
      /\ RegimeSignalEngine.adaptive_state self' = LONG_VOL)
  /\ ((long_count < enter_persist)%Z ->
      RegimeSignalEngine.o_stance o = FLAT
      /\ RegimeSignalEngine.adaptive_state self' = FLAT).
Proof.
  intros o self' long_count. subst o self' long_count.
  unfold RegimeSignalEngine.long_flat_block.
  destruct long_ok; engine_simpl;
    match goal with
    | |- context [(?x >=? enter_persist)%Z] =>
        destruct (Z.geb_spec x enter_persist)
    end; engine_simpl;
    repeat split; try reflexivity; intros; lia.
Qed.

(** During the warmup the branch chain leaves the engine as it is. *)
Lemma decide_branch_warmup (self : RegimeSignalEngine.t) (m : Metrics)
    (price_series : list Q) :
  (len price_series < min_warmup_bars (RegimeSignalEngine.config self))%Z ->
  RegimeSignalEngine.decide_branch self m price_series
  = (RegimeSignalEngine.mkOutcome self FLAT "FLAT: warmup" false,
     RegimeSignalEngine.initial_flags).
Proof.
  intros H. unfold RegimeSignalEngine.decide_branch.
  apply Z.ltb_lt in H. rewrite H. reflexivity.
Qed.

(** The branch chain of adaptive mode past the warmup, by the
    sub-state it starts from. *)
Lemma decide_branch_adaptive (self : RegimeSignalEngine.t) (m : Metrics)
    (price_series : list Q) :
  RegimeSignalEngine.mode self = mode_adaptive ->
  (min_warmup_bars (RegimeSignalEngine.config self) <= len price_series)%Z ->
  let c := RegimeSignalEngine.config self in
  let enter_persist := Z.max 1 (adaptive_enter_persist_bars c) in
  let exit_persist := Z.max 1 (adaptive_exit_persist_bars c) in
  let short_enter_ok := RegimeSignalEngine._adaptive_short_enter_ok c m in
  let long_enter_ok := RegimeSignalEngine._adaptive_long_enter_ok c m in
  let first :=
    match RegimeSignalEngine.adaptive_state self with
    | PAUSED => RegimeSignalEngine.paused_branch self
    | SHORT_VOL =>
        RegimeSignalEngine.short_vol_branch self
          (RegimeSignalEngine._adaptive_short_exit_ok c m) exit_persist
    | LONG_VOL =>
        RegimeSignalEngine.long_vol_branch self
          (RegimeSignalEngine._adaptive_long_exit_ok c m) exit_persist true
    | FLAT => RegimeSignalEngine.mkOutcome self FLAT "FLAT: warmup" false
    end in
  let o :=
    if Stance_eqb
         (RegimeSignalEngine.adaptive_state (RegimeSignalEngine.o_self first))
         FLAT
    then RegimeSignalEngine.flat_block (RegimeSignalEngine.o_self first) m
           short_enter_ok long_enter_ok enter_persist
           (RegimeSignalEngine.o_cooldown_active first)
    else first in
  RegimeSignalEngine.decide_branch self m price_series
  = (RegimeSignalEngine.mkOutcome
       (RegimeSignalEngine.set_cooldown_remaining
          (RegimeSignalEngine.adaptive_pause_remaining
             (RegimeSignalEngine.o_self o))
          (RegimeSignalEngine.o_self o))
       (RegimeSignalEngine.o_stance o) (RegimeSignalEngine.o_reason o)
       (RegimeSignalEngine.o_cooldown_active o),
     RegimeSignalEngine.mkFlags (short_enter_ok || long_enter_ok)
       short_enter_ok long_enter_ok
       (m_trend_strength m <? adaptive_long_trend_max c)).
Proof.
  intros Hmode Hw. cbv zeta. unfold RegimeSignalEngine.decide_branch.
  apply Z.ltb_ge in Hw. rewrite Hw, Hmode. reflexivity.
Qed.

Lemma decide_branch_long (self : RegimeSignalEngine.t) (m : Metrics)
    (price_series : list Q) :
  RegimeSignalEngine.mode self = mode_long ->
  (min_warmup_bars (RegimeSignalEngine.config self) <= len price_series)%Z ->
  let c := RegimeSignalEngine.config self in
  let enter_persist := Z.max 1 (adaptive_enter_persist_bars c) in
  let exit_persist := Z.max 1 (adaptive_exit_persist_bars c) in
  let long_enter_ok := RegimeSignalEngine._adaptive_long_enter_ok c m in
  let o :=
    match RegimeSignalEngine.adaptive_state self with
    | PAUSED => RegimeSignalEngine.paused_branch self
    | LONG_VOL =>
        RegimeSignalEngine.long_vol_branch self
          (RegimeSignalEngine._adaptive_long_exit_ok c m) exit_persist false
    | _ => RegimeSignalEngine.long_flat_block self long_enter_ok enter_persist
    end in
  RegimeSignalEngine.decide_branch self m price_series
  = (RegimeSignalEngine.mkOutcome
       (RegimeSignalEngine.set_cooldown_remaining
          (RegimeSignalEngine.adaptive_pause_remaining
             (RegimeSignalEngine.o_self o))
          (RegimeSignalEngine.o_self o))
       (RegimeSignalEngine.o_stance o) (RegimeSignalEngine.o_reason o)
       (RegimeSignalEngine.o_cooldown_active o),
     RegimeSignalEngine.mkFlags long_enter_ok true long_enter_ok
       (m_trend_strength m <? adaptive_long_trend_max c)).
Proof.
  intros Hmode Hw. cbv zeta. unfold RegimeSignalEngine.decide_branch.
  apply Z.ltb_ge in Hw. rewrite Hw, Hmode. reflexivity.
Qed.

(** The branch chain keeps the mode and the configuration, reports
    PAUSED only with a pause counter still running, and a stance of
    the mode: short mode SHORT_VOL or FLAT, long mode never
    SHORT_VOL. *)
Lemma decide_branch_frame (self : RegimeSignalEngine.t) (m : Metrics)
    (price_series : list Q) (o : RegimeSignalEngine.Outcome)
    (flags : RegimeSignalEngine.Flags) :
  RegimeSignalEngine.decide_branch self m price_series = (o, flags) ->
  let self' := RegimeSignalEngine.o_self o in
  RegimeSignalEngine.mode self' = RegimeSignalEngine.mode self
  /\ RegimeSignalEngine.config self' = RegimeSignalEngine.config self
  /\ RegimeSignalEngine.prev_edge self' = RegimeSignalEngine.prev_edge self
  /\ (RegimeSignalEngine.o_stance o = PAUSED ->
      RegimeSignalEngine.mode self <> mode_short
      /\ RegimeSignalEngine.o_cooldown_active o = true
      /\ (0 < RegimeSignalEngine.cooldown_remaining self')%Z
      /\ RegimeSignalEngine.adaptive_state self' = PAUSED
      /\ RegimeSignalEngine.adaptive_pause_remaining self'
         = RegimeSignalEngine.cooldown_remaining self')
  /\ (RegimeSignalEngine.mode self = mode_short ->
      RegimeSignalEngine.o_stance o = FLAT
      \/ RegimeSignalEngine.o_stance o = SHORT_VOL)
  /\ (RegimeSignalEngine.mode self = mode_long ->
      RegimeSignalEngine.o_stance o <> SHORT_VOL)
  /\ (RegimeSignalEngine.mode self = mode_adaptive ->
      (RegimeSignalEngine.o_stance o = SHORT_VOL ->
       RegimeSignalEngine.adaptive_state self' = SHORT_VOL)
      /\ (RegimeSignalEngine.o_stance o = LONG_VOL ->
          RegimeSignalEngine.adaptive_state self' = LONG_VOL)
      /\ (RegimeSignalEngine.adaptive_state self = SHORT_VOL ->
          RegimeSignalEngine.o_stance o <> LONG_VOL)
      /\ (RegimeSignalEngine.adaptive_state self = LONG_VOL ->
          RegimeSignalEngine.o_stance o <> SHORT_VOL)).
Proof.
  intros Hb self'. subst self'.
  destruct (Z.lt_ge_cases (len price_series)
              (min_warmup_bars (RegimeSignalEngine.config self))) as [Hw | Hw].
  { rewrite (decide_branch_warmup _ _ _ Hw) in Hb.
    apply pair_equal_spec in Hb. destruct Hb as [<- _]. engine_simpl.
    repeat split; try reflexivity; try discriminate; intros; try discriminate.
    left. reflexivity. }
  destruct (RegimeSignalEngine.mode self) eqn:Hmode.
  - (* short *)
    unfold RegimeSignalEngine.decide_branch in Hb.
    apply Z.ltb_ge in Hw. rewrite Hw, Hmode in Hb.
    destruct (_ >? 0)%Z;
      [| destruct (_ && _)];
      apply pair_equal_spec in Hb; destruct Hb as [<- _]; engine_simpl;
      repeat split; try reflexivity; try assumption; try discriminate;
      intros; try discriminate; auto.
  - (* long *)
    rewrite (decide_branch_long _ _ _ Hmode Hw) in Hb.
    apply pair_equal_spec in Hb. destruct Hb as [<- _]. engine_simpl.
    set (c := RegimeSignalEngine.config self).
    set (ep := Z.max 1 (adaptive_enter_persist_bars c)).
    set (xp := Z.max 1 (adaptive_exit_persist_bars c)).
    pose proof (paused_branch_props self) as Hp.
    pose proof (long_vol_branch_props self
                  (RegimeSignalEngine._adaptive_long_exit_ok c m) xp false)
      as Hl.
    pose proof (long_flat_block_props self
                  (RegimeSignalEngine._adaptive_long_enter_ok c m) ep) as Hf.
    cbv zeta in Hp, Hl, Hf.
    destruct Hp as (P1 & P2 & P3 & P4 & P5 & _ & _ & P6 & P7).
    destruct Hl as (L1 & L2 & L3 & L4 & L5).
    destruct Hf as (F1 & F2 & F3 & F4 & F5 & _ & F6 & F7).
    assert (Hflat :
      let o := RegimeSignalEngine.long_flat_block self
                 (RegimeSignalEngine._adaptive_long_enter_ok c m) ep in
      RegimeSignalEngine.o_stance o <> PAUSED
      /\ RegimeSignalEngine.o_stance o <> SHORT_VOL).
    { cbv zeta.
      match type of F6 with
      | (ep <= ?k)%Z -> _ => destruct (Z.le_gt_cases ep k) as [Hk | Hk]
      end.
      - destruct (F6 Hk) as [-> _]. split; discriminate.
      - destruct (F7 Hk) as [-> _]. split; discriminate. }
    cbv zeta in Hflat. destruct Hflat as [Hf1 Hf2].
    destruct (RegimeSignalEngine.adaptive_state self) eqn:Hstate;
      try (split; [rewrite F1; exact Hmode|]; split; [exact F2|];
           split; [exact F3|]; split; [intros; contradiction|];
           split; [discriminate|]; split; [intros _; exact Hf2|];
           discriminate).
    + (* LONG_VOL *)
      split; [rewrite L1; exact Hmode|]. split; [exact L2|].
      split; [exact L3|].
      match type of L4 with
      | (?k < xp)%Z -> _ => destruct (Z.lt_ge_cases k xp) as [Hk | Hk]
      end.
      * destruct (L4 Hk) as (Hs & _). rewrite Hs.
        split; [discriminate|]. split; [discriminate|].
        split; [discriminate|]. discriminate.
      * destruct (L5 Hk) as (Hs & Hca & Hst & Hrem & _).
        rewrite Hs, Hca, Hrem.
        split.
        { match goal with
          | |- context [(?p >? 0)%Z] =>
              destruct (Z.gtb_spec p 0) as [Hpz | Hpz]
          end; [| intros H; discriminate H].
          intros _. split; [discriminate|]. split; [reflexivity|].
          split; [exact Hpz|]. split; [exact Hst|].
          reflexivity. }
        split; [discriminate|].
        split; [intros _;
                match goal with
                | |- context [(?p >? 0)%Z] => destruct (p >? 0)%Z
                end; discriminate|].
        intros H; discriminate H.
    + (* PAUSED *)
      split; [rewrite P1; exact Hmode|]. split; [exact P2|].
      split; [exact P3|].
      match type of P6 with
      | (0 < ?k)%Z -> _ => destruct (Z.lt_ge_cases 0 k) as [Hk | Hk]
      end.
      * destruct (P6 Hk) as (Hs & Hst). rewrite Hs.
        split.
        { intros _. split; [discriminate|]. split; [exact P5|].
          split; [rewrite P4; exact Hk|].
          split; [rewrite Hst; reflexivity | reflexivity]. }
        split; [discriminate|]. split; [discriminate|]. discriminate.
      * destruct (P7 Hk) as (Hs & Hst). rewrite Hs.
        split; [discriminate|]. split; [discriminate|].
        split; [discriminate|]. discriminate.
  - (* adaptive *)
    rewrite (decide_branch_adaptive _ _ _ Hmode Hw) in Hb.
    apply pair_equal_spec in Hb. destruct Hb as [<- _]. engine_simpl.
    set (c := RegimeSignalEngine.config self).
    set (ep := Z.max 1 (adaptive_enter_persist_bars c)).
    set (xp := Z.max 1 (adaptive_exit_persist_bars c)).
    set (sx := RegimeSignalEngine._adaptive_short_exit_ok c m).
    set (lx := RegimeSignalEngine._adaptive_long_exit_ok c m).
    set (se := RegimeSignalEngine._adaptive_short_enter_ok c m).
    set (le := RegimeSignalEngine._adaptive_long_enter_ok c m).
    set (first := match RegimeSignalEngine.adaptive_state self with
                  | SHORT_VOL => RegimeSignalEngine.short_vol_branch self sx xp
                  | LONG_VOL =>
                      RegimeSignalEngine.long_vol_branch self lx xp true
                  | FLAT =>
                      RegimeSignalEngine.mkOutcome self FLAT "FLAT: warmup"
                        false
                  | PAUSED => RegimeSignalEngine.paused_branch self
                  end).
    (* what the first stage leaves *)
    assert (Hfirst :
      RegimeSignalEngine.mode (RegimeSignalEngine.o_self first) = mode_adaptive
      /\ RegimeSignalEngine.config (RegimeSignalEngine.o_self first) = c
      /\ RegimeSignalEngine.prev_edge (RegimeSignalEngine.o_self first)
         = RegimeSignalEngine.prev_edge self
      /\ (RegimeSignalEngine.adaptive_state (RegimeSignalEngine.o_self first)
          = FLAT ->
          RegimeSignalEngine.adaptive_state self = FLAT
          \/ RegimeSignalEngine.adaptive_state self = PAUSED)
      /\ (RegimeSignalEngine.adaptive_state (RegimeSignalEngine.o_self first)
          <> FLAT ->
          (RegimeSignalEngine.o_stance first = PAUSED ->
           RegimeSignalEngine.o_cooldown_active first = true
           /\ (0 < RegimeSignalEngine.adaptive_pause_remaining
                     (RegimeSignalEngine.o_self first))%Z
           /\ RegimeSignalEngine.adaptive_state
                (RegimeSignalEngine.o_self first) = PAUSED)
          /\ (RegimeSignalEngine.o_stance first = SHORT_VOL ->
              RegimeSignalEngine.adaptive_state
                (RegimeSignalEngine.o_self first) = SHORT_VOL
              /\ RegimeSignalEngine.adaptive_state self = SHORT_VOL)
          /\ (RegimeSignalEngine.o_stance first = LONG_VOL ->
              RegimeSignalEngine.adaptive_state
                (RegimeSignalEngine.o_self first) = LONG_VOL
              /\ RegimeSignalEngine.adaptive_state self = LONG_VOL))).
    { subst first.
      destruct (RegimeSignalEngine.adaptive_state self) eqn:Hstate.
      - destruct (short_vol_branch_props self sx xp)
          as (S1 & S2 & S3 & S4 & S5).
        split; [rewrite S1; exact Hmode|]. split; [exact S2|].
        split; [exact S3|].
        match type of S4 with
        | (?k < xp)%Z -> _ => destruct (Z.lt_ge_cases k xp) as [Hk | Hk]
        end.
        + destruct (S4 Hk) as (Hs & _ & Hst & _). rewrite Hs, Hst, Hstate.
          split; [discriminate|]. intros _.
          split; [discriminate|]. split; [auto | discriminate].
        + destruct (S5 Hk) as (Hs & Hca & Hst & Hrem & _).
          rewrite Hs, Hst, Hca, Hrem.
          split; [discriminate|]. intros _.
          destruct (Z.gtb_spec (Z.max 0 (adaptive_pause_bars
                                           (RegimeSignalEngine.config self))) 0);
            repeat split; try discriminate; assumption.
      - destruct (long_vol_branch_props self lx xp true)
          as (S1 & S2 & S3 & S4 & S5).
        split; [rewrite S1; exact Hmode|]. split; [exact S2|].
        split; [exact S3|].
        match type of S4 with
        | (?k < xp)%Z -> _ => destruct (Z.lt_ge_cases k xp) as [Hk | Hk]
        end.
        + destruct (S4 Hk) as (Hs & _ & Hst & _). rewrite Hs, Hst, Hstate.
          split; [discriminate|]. intros _.
          split; [discriminate|]. split; [discriminate | auto].
        + destruct (S5 Hk) as (Hs & Hca & Hst & Hrem & _).
          rewrite Hs, Hst, Hca, Hrem.
          split; [discriminate|]. intros _.
          destruct (Z.gtb_spec (Z.max 0 (adaptive_pause_bars
                                           (RegimeSignalEngine.config self))) 0);
            repeat split; try discriminate; assumption.
      - engine_simpl. rewrite Hstate.
        repeat split; try assumption; try reflexivity; auto;
          intros; congruence.
      - destruct (paused_branch_props self)
          as (P1 & P2 & P3 & P4 & P5 & _ & _ & P6 & P7).
        split; [rewrite P1; exact Hmode|]. split; [exact P2|].
        split; [exact P3|].
        match type of P6 with
        | (0 < ?k)%Z -> _ => destruct (Z.lt_ge_cases 0 k) as [Hk | Hk]
        end.
        + destruct (P6 Hk) as (Hs & Hst). rewrite Hs, Hst, P4, P5.
          split; [auto|]. intros _.
          repeat split; try discriminate; assumption.
        + destruct (P7 Hk) as (Hs & Hst). rewrite Hs, Hst.
          split; [auto|]. intros Hne. congruence. }
    destruct Hfirst as (F1 & F2 & F3 & F4 & F5).
    destruct (Stance_eqb
                (RegimeSignalEngine.adaptive_state
                   (RegimeSignalEngine.o_self first)) FLAT) eqn:Hflat.
    + assert (Hst : RegimeSignalEngine.adaptive_state
                      (RegimeSignalEngine.o_self first) = FLAT)
        by (destruct (RegimeSignalEngine.adaptive_state
                        (RegimeSignalEngine.o_self first));
            try discriminate Hflat; reflexivity).
      destruct (flat_block_props (RegimeSignalEngine.o_self first) m se le ep
                  (RegimeSignalEngine.o_cooldown_active first))
        as (B1 & B2 & B3 & _ & _ & _ & _ & B4 & B5 & B6 & _).
      specialize (F4 Hst).
      split; [rewrite B1; exact F1|]. split; [rewrite B2; exact F2|].
      split; [rewrite B3; exact F3|].
      split; [intros H; contradiction|].
      split; [discriminate|]. split; [discriminate|]. intros _.
      split; [intros H; apply B5, H|]. split; [intros H; apply B6, H|].
      split; intros H; destruct F4 as [F4 | F4]; congruence.
    + assert (Hne : RegimeSignalEngine.adaptive_state
                      (RegimeSignalEngine.o_self first) <> FLAT)
        by (intros Heq; rewrite Heq in Hflat; discriminate Hflat).
      destruct (F5 Hne) as (G1 & G2 & G3).
      split; [exact F1|]. split; [exact F2|]. split; [exact F3|].
      split.
      { intros H. destruct (G1 H) as (Ha & Hb & Hc).
        split; [discriminate|]. split; [exact Ha|]. split; [exact Hb|].
        split; [exact Hc | reflexivity]. }
      split; [discriminate|]. split; [discriminate|]. intros _.
      split; [intros H; apply G2, H|]. split; [intros H; apply G3, H|].
      split; intros Hs Ho.
      * destruct (G3 Ho) as [_ Hx]. congruence.
      * destruct (G2 Ho) as [_ Hx]. congruence.
Qed.

(** What every call of [decide] keeps and reports. *)
Lemma decide_frame (e e' : RegimeSignalEngine.t) (implied_vol : Q)
    (realized_vol_series : list Q) (spot : Q)
    (price_series return_series : list Q) (d : SignalDecision) :
  RegimeSignalEngine.decide e implied_vol realized_vol_series spot
    price_series return_series = Ok (e', d) ->
  (RegimeSignalEngine.mode e' = RegimeSignalEngine.mode e
   /\ RegimeSignalEngine.config e' = RegimeSignalEngine.config e
   /\ RegimeSignalEngine.prev_stance e' = stance d
   /\ RegimeSignalEngine.prev_edge e' = Some (edge d)
   /\ signal d = _signal_for_stance (stance d)
   /\ cooldown_remaining d = RegimeSignalEngine.cooldown_remaining e')
  /\ (stance d = PAUSED ->
      RegimeSignalEngine.mode e <> mode_short
      /\ cooldown_active d = true
      /\ (0 < cooldown_remaining d)%Z
      /\ RegimeSignalEngine.adaptive_state e' = PAUSED
      /\ RegimeSignalEngine.adaptive_pause_remaining e' = cooldown_remaining d)
  /\ (RegimeSignalEngine.mode e = mode_short ->
      stance d = FLAT \/ stance d = SHORT_VOL)
  /\ (RegimeSignalEngine.mode e = mode_long -> stance d <> SHORT_VOL)
  /\ (RegimeSignalEngine.mode e = mode_adaptive ->
      (stance d = SHORT_VOL ->
       RegimeSignalEngine.adaptive_state e' = SHORT_VOL)
      /\ (stance d = LONG_VOL ->
          RegimeSignalEngine.adaptive_state e' = LONG_VOL)
      /\ (RegimeSignalEngine.adaptive_state e = SHORT_VOL ->
          stance d <> LONG_VOL)
      /\ (RegimeSignalEngine.adaptive_state e = LONG_VOL ->
          stance d <> SHORT_VOL)).
Proof.
  intros H.
  destruct (decide_outcome _ _ _ _ _ _ _ _ H)
    as (m & o & flags & _ & Hb & -> & ->).
  cbn [stance signal edge cooldown_remaining cooldown_active].
  destruct (decide_branch_frame _ _ _ _ _ Hb)
    as (B1 & B2 & B3 & B4 & B5 & B6 & B7).
  engine_simpl.
  destruct (decide_finish_frame o)
    as (F1 & F2 & F3 & F4 & F5 & F6 & _ & _ & F7).
  cbv zeta in F1, F2, F3, F4, F5, F6, F7.
  split.
  { split; [congruence|]. split; [congruence|]. split; [exact F3|].
    split; [congruence|]. split; reflexivity. }
  split.
  { intros Hp. destruct (B4 Hp) as (G1 & G2 & G3 & G4 & G5).
    assert (Hns : RegimeSignalEngine.mode (RegimeSignalEngine.o_self o)
                  <> mode_short) by congruence.
    rewrite (F7 Hns), F5, F6.
    repeat split; assumption. }
  split; [exact B5|]. split; [exact B6|].
  intros Hm. destruct (B7 Hm) as (A1 & A2 & A3 & A4).
  rewrite F5. repeat split; assumption.
Qed.

(** X7.  A PAUSED stance always comes with a running pause: whenever
    [decide] reports PAUSED the mode is long or adaptive, the signal is
    0, the cooldown flag is set, the remaining count it reports is
    positive and is the engine's pause counter, and the engine is in
    its PAUSED sub-state. *)
Theorem paused_stance_has_running_pause (e e' : RegimeSignalEngine.t)
    (implied_vol : Q) (realized_vol_series : list Q) (spot : Q)
    (price_series return_series : list Q) (d : SignalDecision) :
  RegimeSignalEngine.decide e implied_vol realized_vol_series spot
    price_series return_series = Ok (e', d) ->
  stance d = PAUSED ->
  RegimeSignalEngine.mode e <> mode_short
  /\ signal d = 0%Z
  /\ cooldown_active d = true
  /\ (0 < cooldown_remaining d)%Z
  /\ RegimeSignalEngine.adaptive_state e' = PAUSED
  /\ RegimeSignalEngine.adaptive_pause_remaining e' = cooldown_remaining d.
Proof.
  intros H Hp.
  destruct (decide_frame _ _ _ _ _ _ _ _ H)
    as ((_ & _ & _ & _ & Hsig & _) & Hpaused & _).
  destruct (Hpaused Hp) as (G1 & G2 & G3 & G4 & G5).
  split; [exact G1|]. split; [rewrite Hsig, Hp; reflexivity|].
  repeat split; assumption.
Qed.


(** X9.  Adaptive mode enters a regime only after its enter predicate
    has held on [adaptive_enter_persist_bars] consecutive bars: from
    the FLAT sub-state past the warmup, each enter counter is one more
    than before when its predicate holds on this bar and 0 when it
    fails; SHORT_VOL is reported only with the short predicate true and
    the short counter at the threshold, LONG_VOL only with the long
    predicate true and the long counter at the threshold; the stance is
    FLAT while both counters are below it, and never PAUSED. *)
Theorem adaptive_entry_needs_persistence (e e' : RegimeSignalEngine.t)
    (implied_vol : Q) (realized_vol_series : list Q) (spot : Q)
    (price_series return_series : list Q) (d : SignalDecision) :
  RegimeSignalEngine.mode e = mode_adaptive ->
  RegimeSignalEngine.adaptive_state e = FLAT ->
  (min_warmup_bars (RegimeSignalEngine.config e) <= len price_series)%Z ->
  RegimeSignalEngine.decide e implied_vol realized_vol_series spot
    price_series return_series = Ok (e', d) ->
  let c := RegimeSignalEngine.config e in
  let persist := Z.max 1 (adaptive_enter_persist_bars c) in
  let short_ok :=
    (edge d >? adaptive_short_edge_enter c)
    && (trend_strength d <? adaptive_short_trend_enter c)
    && (rv_change d <? adaptive_vov_low c) in
  let long_ok :=
    (- edge d >? adaptive_long_cheapness_enter c)
    && (rv_change d >? adaptive_vov_high c)
    && (trend_strength d <? adaptive_long_trend_max c) in
  let short_count :=
    if short_ok
    then (RegimeSignalEngine.adaptive_short_enter_count e + 1)%Z else 0%Z in
  let long_count :=
    if long_ok
    then (RegimeSignalEngine.adaptive_long_enter_count e + 1)%Z else 0%Z in
  RegimeSignalEngine.adaptive_short_enter_count e' = short_count
  /\ RegimeSignalEngine.adaptive_long_enter_count e' = long_count
  /\ path_filter_passed d = short_ok
  /\ instability_filter_passed d = long_ok
  /\ stance d <> PAUSED
  /\ (stance d = SHORT_VOL -> short_ok = true /\ (persist <= short_count)%Z)
  /\ (stance d = LONG_VOL -> long_ok = true /\ (persist <= long_count)%Z)
  /\ ((short_count < persist)%Z -> (long_count < persist)%Z ->
      stance d = FLAT)
  /\ ((persist <= short_count)%Z -> (long_count < persist)%Z ->
      stance d = SHORT_VOL)
  /\ ((short_count < persist)%Z -> (persist <= long_count)%Z ->
      stance d = LONG_VOL).
Proof.
  intros Hmode Hstate Hw H c persist short_ok long_ok short_count long_count.
  destruct (decide_outcome _ _ _ _ _ _ _ _ H)
    as (m & o & flags & _ & Hb & -> & ->).
  rewrite decide_branch_adaptive in Hb by assumption.
  engine_simpl. rewrite Hstate in Hb. engine_simpl. rewrite Hstate in Hb.
  cbn [Stance_eqb] in Hb. fold c in Hb. fold persist in Hb.
  apply pair_equal_spec in Hb. destruct Hb as [<- <-].
  cbn [stance edge trend_strength rv_change path_filter_passed
       instability_filter_passed RegimeSignalEngine.path_ok
       RegimeSignalEngine.instability_ok] in *.
  change (RegimeSignalEngine._adaptive_short_enter_ok c m) with short_ok.
  change (RegimeSignalEngine._adaptive_long_enter_ok c m) with long_ok.
  set (self := RegimeSignalEngine.set_prev_edge (Some (m_edge m)) e).
  destruct (flat_block_props self m short_ok long_ok persist false)
    as (_ & _ & _ & _ & _ & B1 & B2 & B3 & B4 & B5 & _ & B6 & B7 & B8).
  set (o := RegimeSignalEngine.flat_block self m short_ok long_ok persist
              false) in *.
  match goal with
  | |- context [RegimeSignalEngine.decide_finish ?x] =>
      destruct (decide_finish_frame x) as (_ & _ & _ & _ & _ & _ & F1 & F2 & _)
  end.
  cbv zeta in F1, F2. engine_simpl.
  change (RegimeSignalEngine.adaptive_short_enter_count self)
    with (RegimeSignalEngine.adaptive_short_enter_count e) in B1.
  change (RegimeSignalEngine.adaptive_long_enter_count self)
    with (RegimeSignalEngine.adaptive_long_enter_count e) in B2.
  fold short_count in B1. fold long_count in B2.
  assert (Hp : (1 <= persist)%Z) by (subst persist; lia).
  split; [rewrite F1; exact B1|]. split; [rewrite F2; exact B2|].
  split; [reflexivity|]. split; [reflexivity|]. split; [exact B3|].
  cbv zeta in B4, B5, B6, B7, B8.
  change (RegimeSignalEngine.adaptive_short_enter_count self)
    with (RegimeSignalEngine.adaptive_short_enter_count e) in *.
  change (RegimeSignalEngine.adaptive_long_enter_count self)
    with (RegimeSignalEngine.adaptive_long_enter_count e) in *.
  fold short_count long_count in B4, B5, B6, B7, B8.
  split.
  { intros Hs. destruct (B4 Hs) as [_ Hc]. split; [|exact Hc].
    subst short_count. destruct short_ok; [reflexivity | lia]. }
  split.
  { intros Hs. destruct (B5 Hs) as [_ Hc]. split; [|exact Hc].
    subst long_count. destruct long_ok; [reflexivity | lia]. }
  split; [exact B6|]. split; [exact B7 | exact B8].
Qed.

(** The branch chain of adaptive mode from a sub-state in a regime. *)
Lemma decide_in_regime (e e' : RegimeSignalEngine.t)
    (implied_vol : Q) (realized_vol_series : list Q) (spot : Q)
    (price_series return_series : list Q) (d : SignalDecision)
    (first : Metrics -> RegimeSignalEngine.Outcome) :
  RegimeSignalEngine.decide e implied_vol realized_vol_series spot
    price_series return_series = Ok (e', d) ->
  (forall m,
     exists flags,
       RegimeSignalEngine.decide_branch
         (RegimeSignalEngine.set_prev_edge (Some (m_edge m)) e) m price_series
       = (RegimeSignalEngine.mkOutcome
            (RegimeSignalEngine.set_cooldown_remaining
               (RegimeSignalEngine.adaptive_pause_remaining
                  (RegimeSignalEngine.o_self (first m)))
               (RegimeSignalEngine.o_self (first m)))
            (RegimeSignalEngine.o_stance (first m))
            (RegimeSignalEngine.o_reason (first m))
            (RegimeSignalEngine.o_cooldown_active (first m)), flags)) ->
  RegimeSignalEngine.mode e <> mode_short ->
  (forall m, RegimeSignalEngine.mode (RegimeSignalEngine.o_self (first m))
             = RegimeSignalEngine.mode e) ->
  exists m,
    m_edge m = edge d /\ m_trend_strength m = trend_strength d
    /\ m_rv_change m = rv_change d
    /\ stance d = RegimeSignalEngine.o_stance (first m)
    /\ signal d = _signal_for_stance (RegimeSignalEngine.o_stance (first m))
    /\ cooldown_active d = RegimeSignalEngine.o_cooldown_active (first m)
    /\ cooldown_remaining d
       = RegimeSignalEngine.adaptive_pause_remaining
           (RegimeSignalEngine.o_self (first m))
    /\ RegimeSignalEngine.adaptive_state e'
       = RegimeSignalEngine.adaptive_state
           (RegimeSignalEngine.o_self (first m))
    /\ RegimeSignalEngine.adaptive_short_enter_count e'
       = RegimeSignalEngine.adaptive_short_enter_count
           (RegimeSignalEngine.o_self (first m))
    /\ RegimeSignalEngine.adaptive_long_enter_count e'
       = RegimeSignalEngine.adaptive_long_enter_count
           (RegimeSignalEngine.o_self (first m))
    /\ RegimeSignalEngine.adaptive_short_exit_count e'
       = RegimeSignalEngine.adaptive_short_exit_count
           (RegimeSignalEngine.o_self (first m))
    /\ RegimeSignalEngine.adaptive_long_exit_count e'
       = RegimeSignalEngine.adaptive_long_exit_count
           (RegimeSignalEngine.o_self (first m)).
Proof.
  intros H Hbranch Hns Hmode.
  destruct (decide_outcome _ _ _ _ _ _ _ _ H)
    as (m & o & flags & _ & Hb & -> & ->).
  destruct (Hbranch m) as [flags' Hb']. rewrite Hb' in Hb.
  apply pair_equal_spec in Hb. destruct Hb as [<- _].
  exists m.
  cbn [stance signal edge trend_strength rv_change cooldown_active
       cooldown_remaining].
  unfold RegimeSignalEngine.decide_finish. engine_simpl.
  rewrite (Hmode m).
  destruct (RegimeSignalEngine.mode e); [congruence | |];
    engine_simpl; repeat split; reflexivity.
Qed.

(** X10.  Adaptive mode leaves SHORT_VOL only after the short exit
    predicate has held on [adaptive_exit_persist_bars] consecutive
    bars, and then through a pause: from the SHORT_VOL sub-state past
    the warmup the exit counter is one more than before when the
    predicate holds and 0 when it fails; below the threshold the stance
    stays SHORT_VOL with signal -1; at the threshold the engine enters
    its PAUSED sub-state with [adaptive_pause_bars] bars to run, the
    signal is 0, the counters are cleared, and the stance is PAUSED
    (FLAT when the pause length is not positive).  LONG_VOL is never
    reported. *)
Theorem adaptive_short_exit_needs_persistence (e e' : RegimeSignalEngine.t)
    (implied_vol : Q) (realized_vol_series : list Q) (spot : Q)
    (price_series return_series : list Q) (d : SignalDecision) :
  RegimeSignalEngine.mode e = mode_adaptive ->
  RegimeSignalEngine.adaptive_state e = SHORT_VOL ->
  (min_warmup_bars (RegimeSignalEngine.config e) <= len price_series)%Z ->
  RegimeSignalEngine.decide e implied_vol realized_vol_series spot
    price_series return_series = Ok (e', d) ->
  let c := RegimeSignalEngine.config e in
  let persist := Z.max 1 (adaptive_exit_persist_bars c) in
  let pause := Z.max 0 (adaptive_pause_bars c) in
  let exit_ok :=
    (edge d <? adaptive_short_edge_exit c)
    || (trend_strength d >? adaptive_short_trend_exit c)
    || (rv_change d >? adaptive_vov_high c) in
  let count :=
    if exit_ok
    then (RegimeSignalEngine.adaptive_short_exit_count e + 1)%Z else 0%Z in
  stance d <> LONG_VOL
  /\ ((count < persist)%Z ->
      stance d = SHORT_VOL /\ signal d = (-1)%Z
      /\ cooldown_active d = false
      /\ RegimeSignalEngine.adaptive_state e' = SHORT_VOL
      /\ RegimeSignalEngine.adaptive_short_exit_count e' = count)
  /\ ((persist <= count)%Z ->
      stance d = (if (pause >? 0)%Z then PAUSED else FLAT)
      /\ signal d = 0%Z
      /\ cooldown_remaining d = pause
      /\ RegimeSignalEngine.adaptive_state e' = PAUSED
      /\ RegimeSignalEngine.adaptive_short_exit_count e' = 0%Z
      /\ RegimeSignalEngine.adaptive_short_enter_count e' = 0%Z
      /\ RegimeSignalEngine.adaptive_long_enter_count e' = 0%Z).
Proof.
  intros Hmode Hstate Hw H c persist pause exit_ok count.
  destruct (decide_in_regime e e' implied_vol realized_vol_series spot
              price_series return_series d
              (fun m =>
                 RegimeSignalEngine.short_vol_branch
                   (RegimeSignalEngine.set_prev_edge (Some (m_edge m)) e)
                   (RegimeSignalEngine._adaptive_short_exit_ok c m) persist)
              H)
    as (m & E1 & E2 & E3 & Hst & Hsig & Hca & Hcd & Hstate' & Hse & Hle
        & Hsx & _).
  - intros m. eexists.
    rewrite decide_branch_adaptive by assumption.
    engine_simpl. rewrite Hstate. fold c. fold persist.
    set (self := RegimeSignalEngine.set_prev_edge (Some (m_edge m)) e).
    set (sx := RegimeSignalEngine._adaptive_short_exit_ok c m).
    destruct (short_vol_branch_props self sx persist)
      as (_ & _ & _ & S4 & S5).
    assert (Hnf : Stance_eqb
                    (RegimeSignalEngine.adaptive_state
                       (RegimeSignalEngine.o_self
                          (RegimeSignalEngine.short_vol_branch self sx
                             persist))) FLAT = false).
    { match type of S4 with
      | (?k < persist)%Z -> _ => destruct (Z.lt_ge_cases k persist) as [Hk|Hk]
      end.
      - destruct (S4 Hk) as (_ & _ & -> & _).
        change (RegimeSignalEngine.adaptive_state self)
          with (RegimeSignalEngine.adaptive_state e).
        rewrite Hstate. reflexivity.
      - destruct (S5 Hk) as (_ & _ & -> & _). reflexivity. }
    rewrite Hnf. reflexivity.
  - rewrite Hmode. discriminate.
  - intros m.
    destruct (short_vol_branch_props
                (RegimeSignalEngine.set_prev_edge (Some (m_edge m)) e)
                (RegimeSignalEngine._adaptive_short_exit_ok c m) persist)
      as (S1 & _). exact S1.
  - set (self := RegimeSignalEngine.set_prev_edge (Some (m_edge m)) e) in *.
    assert (Hx : RegimeSignalEngine._adaptive_short_exit_ok c m = exit_ok).
    { subst exit_ok. unfold RegimeSignalEngine._adaptive_short_exit_ok.
      rewrite E1, E2, E3. reflexivity. }
    rewrite Hx in *.
    destruct (short_vol_branch_props self exit_ok persist)
      as (_ & _ & _ & S4 & S5).
    cbv zeta in S4, S5.
    change (RegimeSignalEngine.adaptive_short_exit_count self)
      with (RegimeSignalEngine.adaptive_short_exit_count e) in S4, S5.
    change (RegimeSignalEngine.adaptive_state self)
      with (RegimeSignalEngine.adaptive_state e) in S4.
    change (RegimeSignalEngine.config self) with c in S5.
    fold count in S4, S5. fold pause in S5.
    split.
    { destruct (Z.lt_ge_cases count persist) as [Hk | Hk].
      - destruct (S4 Hk) as (Hs & _). rewrite Hst, Hs. discriminate.
      - destruct (S5 Hk) as (Hs & _). rewrite Hst, Hs.
        destruct (pause >? 0)%Z; discriminate. }
    split.
    + intros Hk. destruct (S4 Hk) as (Hs & Hc & Ha & Hcount & _).
      rewrite Hst, Hsig, Hca, Hstate', Hsx, Hs, Hc, Ha, Hcount, Hstate.
      repeat split; reflexivity.
    + intros Hk.
      destruct (S5 Hk) as (Hs & _ & Ha & Hp & Hxc & Hec & Hlc).
      rewrite Hst, Hsig, Hcd, Hstate', Hsx, Hse, Hle, Hs, Ha, Hp, Hxc, Hec,
        Hlc.
      repeat split; try reflexivity.
      destruct (pause >? 0)%Z; reflexivity.
Qed.

(** X11.  Long and adaptive mode leave LONG_VOL only after the long
    exit predicate has held on [adaptive_exit_persist_bars] consecutive
    bars, and then through a pause: below the threshold the stance
    stays LONG_VOL with signal 1; at the threshold the engine enters
    its PAUSED sub-state with [adaptive_pause_bars] bars to run and the
    signal is 0.  SHORT_VOL is never reported.  The exit clears the
    long counters in both modes and the short-enter counter in adaptive
    mode only. *)
Theorem long_exit_needs_persistence (e e' : RegimeSignalEngine.t)
    (implied_vol : Q) (realized_vol_series : list Q) (spot : Q)
    (price_series return_series : list Q) (d : SignalDecision) :
  RegimeSignalEngine.mode e <> mode_short ->
  RegimeSignalEngine.adaptive_state e = LONG_VOL ->
  (min_warmup_bars (RegimeSignalEngine.config e) <= len price_series)%Z ->
  RegimeSignalEngine.decide e implied_vol realized_vol_series spot
    price_series return_series = Ok (e', d) ->
  let c := RegimeSignalEngine.config e in
  let persist := Z.max 1 (adaptive_exit_persist_bars c) in
  let pause := Z.max 0 (adaptive_pause_bars c) in
  let exit_ok :=
    (- edge d <? adaptive_long_cheapness_exit c)
    || (rv_change d <? adaptive_vov_exit c) in
  let count :=
    if exit_ok
    then (RegimeSignalEngine.adaptive_long_exit_count e + 1)%Z else 0%Z in
  stance d <> SHORT_VOL
  /\ ((count < persist)%Z ->
      stance d = LONG_VOL /\ signal d = 1%Z
      /\ cooldown_active d = false
      /\ RegimeSignalEngine.adaptive_state e' = LONG_VOL
      /\ RegimeSignalEngine.adaptive_long_exit_count e' = count)
  /\ ((persist <= count)%Z ->
      stance d = (if (pause >? 0)%Z then PAUSED else FLAT)
      /\ signal d = 0%Z
      /\ cooldown_remaining d = pause
      /\ RegimeSignalEngine.adaptive_state e' = PAUSED
      /\ RegimeSignalEngine.adaptive_long_exit_count e' = 0%Z
      /\ RegimeSignalEngine.adaptive_long_enter_count e' = 0%Z
      /\ RegimeSignalEngine.adaptive_short_enter_count e'
         = match RegimeSignalEngine.mode e with
           | mode_adaptive => 0%Z
           | _ => RegimeSignalEngine.adaptive_short_enter_count e
           end).
Proof.
  intros Hmode Hstate Hw H c persist pause exit_ok count.
  set (clear := match RegimeSignalEngine.mode e with
                | mode_adaptive => true
                | _ => false
                end).
  destruct (decide_in_regime e e' implied_vol realized_vol_series spot
              price_series return_series d
              (fun m =>
                 RegimeSignalEngine.long_vol_branch
                   (RegimeSignalEngine.set_prev_edge (Some (m_edge m)) e)
                   (RegimeSignalEngine._adaptive_long_exit_ok c m) persist
                   clear)
              H)
    as (m & E1 & E2 & E3 & Hst & Hsig & Hca & Hcd & Hstate' & Hse & Hle
        & _ & Hlx).
  - intros m.
    set (self := RegimeSignalEngine.set_prev_edge (Some (m_edge m)) e).
    set (lx := RegimeSignalEngine._adaptive_long_exit_ok c m).
    destruct (long_vol_branch_props self lx persist clear)
      as (_ & _ & _ & S4 & S5).
    assert (Hnf : Stance_eqb
                    (RegimeSignalEngine.adaptive_state
                       (RegimeSignalEngine.o_self
                          (RegimeSignalEngine.long_vol_branch self lx
                             persist clear))) FLAT = false).
    { match type of S4 with
      | (?k < persist)%Z -> _ => destruct (Z.lt_ge_cases k persist) as [Hk|Hk]
      end.
      - destruct (S4 Hk) as (_ & _ & -> & _).
        change (RegimeSignalEngine.adaptive_state self)
          with (RegimeSignalEngine.adaptive_state e).
        rewrite Hstate. reflexivity.
      - destruct (S5 Hk) as (_ & _ & -> & _). reflexivity. }
    subst clear.
    destruct (RegimeSignalEngine.mode e) eqn:Hm; [congruence | |]; eexists.
    + rewrite decide_branch_long by assumption.
      change (RegimeSignalEngine.adaptive_state self)
        with (RegimeSignalEngine.adaptive_state e).
      rewrite Hstate. reflexivity.
    + rewrite decide_branch_adaptive by assumption.
      change (RegimeSignalEngine.adaptive_state self)
        with (RegimeSignalEngine.adaptive_state e).
      rewrite Hstate.
      change (RegimeSignalEngine.config self) with c.
      fold persist. fold lx. rewrite Hnf. reflexivity.
  - exact Hmode.
  - intros m.
    destruct (long_vol_branch_props
                (RegimeSignalEngine.set_prev_edge (Some (m_edge m)) e)
                (RegimeSignalEngine._adaptive_long_exit_ok c m) persist clear)
      as (S1 & _). exact S1.
  - set (self := RegimeSignalEngine.set_prev_edge (Some (m_edge m)) e) in *.
    assert (Hx : RegimeSignalEngine._adaptive_long_exit_ok c m = exit_ok).
    { subst exit_ok. unfold RegimeSignalEngine._adaptive_long_exit_ok.
      cbv zeta. rewrite E1, E3. reflexivity. }
    rewrite Hx in *.
    destruct (long_vol_branch_props self exit_ok persist clear)
      as (_ & _ & _ & S4 & S5).
    cbv zeta in S4, S5.
    change (RegimeSignalEngine.adaptive_long_exit_count self)
      with (RegimeSignalEngine.adaptive_long_exit_count e) in S4, S5.
    change (RegimeSignalEngine.adaptive_short_enter_count self)
      with (RegimeSignalEngine.adaptive_short_enter_count e) in S5.
    change (RegimeSignalEngine.adaptive_state self)
      with (RegimeSignalEngine.adaptive_state e) in S4.
    change (RegimeSignalEngine.config self) with c in S5.
    fold count in S4, S5. fold pause in S5.
    split.
    { destruct (Z.lt_ge_cases count persist) as [Hk | Hk].
      - destruct (S4 Hk) as (Hs & _). rewrite Hst, Hs. discriminate.
      - destruct (S5 Hk) as (Hs & _). rewrite Hst, Hs.
        destruct (pause >? 0)%Z; discriminate. }
    split.
    + intros Hk. destruct (S4 Hk) as (Hs & Hc & Ha & Hcount & _).
      rewrite Hst, Hsig, Hca, Hstate', Hlx, Hs, Hc, Ha, Hcount, Hstate.
      repeat split; reflexivity.
    + intros Hk.
      destruct (S5 Hk) as (Hs & _ & Ha & Hp & Hxc & Hlc & Hec).
      rewrite Hst, Hsig, Hcd, Hstate', Hlx, Hse, Hle, Hs, Ha, Hp, Hxc, Hec,
        Hlc.
      split; [reflexivity|].
      split; [destruct (pause >? 0)%Z; reflexivity|].
      split; [reflexivity|]. split; [reflexivity|]. split; [reflexivity|].
      split; [reflexivity|].
      subst clear. destruct (RegimeSignalEngine.mode e); reflexivity.
Qed.

(** An adaptive engine paused for three bars: the next decision is
    PAUSED with two bars left. *)
Lemma paused_stance_has_running_pause_witness :
  let e :=
    RegimeSignalEngine.force_pause
      (RegimeSignalEngine.init mode_adaptive quick_config) 3 "risk" in
  exists e' d,
    RegimeSignalEngine.decide e 0.2 [0.1] 100 [100] [] = Ok (e', d)
    /\ stance d = PAUSED
    /\ signal d = 0%Z
    /\ (0 < cooldown_remaining d)%Z
    /\ RegimeSignalEngine.adaptive_pause_remaining e' = 2%Z.
Proof.
  intros e.
  destruct (RegimeSignalEngine.decide e 0.2 [0.1] 100 [100] [])
    as [[e' d]|] eqn:H; [| vm_compute in H; discriminate H].
  exists e', d. split; [reflexivity|].
  pose proof H as Hv. vm_compute in Hv. apply Ok_pair_inj in Hv.
  destruct Hv as [_ Hd].
  assert (Hp : stance d = PAUSED) by (rewrite <- Hd; reflexivity).
  destruct (paused_stance_has_running_pause e e' 0.2 [0.1] 100 [100] [] d
              H Hp) as (_ & Hsig & _ & Hpos & _ & Hrem).
  split; [exact Hp|]. split; [exact Hsig|]. split; [exact Hpos|].
  rewrite Hrem, <- Hd. reflexivity.
Defined.


(** One bar of persistence: an edge of 0.1 on a quiet bar enters
    SHORT_VOL at once. *)
Lemma adaptive_entry_needs_persistence_witness :
  let e := RegimeSignalEngine.init mode_adaptive quick_config in
  exists e' d,
    RegimeSignalEngine.decide e 0.2 [0.1] 100 [100] [] = Ok (e', d)
    /\ stance d = SHORT_VOL
    /\ RegimeSignalEngine.adaptive_short_enter_count e' = 1%Z.
Proof.
  intros e.
  destruct (RegimeSignalEngine.decide e 0.2 [0.1] 100 [100] [])
    as [[e' d]|] eqn:H; [| vm_compute in H; discriminate H].
  exists e', d. split; [reflexivity|].
  pose proof H as Hv. vm_compute in Hv. apply Ok_pair_inj in Hv.
  destruct Hv as [_ Hd].
  destruct (adaptive_entry_needs_persistence e e' 0.2 [0.1] 100 [100] [] d)
    as (Hc & _ & _ & _ & _ & _ & _ & _ & Hshort & _);
    [reflexivity | reflexivity | vm_compute; discriminate | exact H |].
  split.
  - apply Hshort; rewrite <- Hd; vm_compute; [discriminate | reflexivity].
  - rewrite Hc, <- Hd. vm_compute. reflexivity.
Defined.

(** An engine in SHORT_VOL shown an edge of 0: with one bar of exit
    persistence it pauses for the two bars of the configuration. *)
Lemma adaptive_short_exit_needs_persistence_witness :
  let e :=
    RegimeSignalEngine.set_adaptive_state SHORT_VOL
      (RegimeSignalEngine.init mode_adaptive quick_config) in
  exists e' d,
    RegimeSignalEngine.decide e 0.1 [0.1] 100 [100] [] = Ok (e', d)
    /\ stance d = PAUSED /\ signal d = 0%Z
    /\ cooldown_remaining d = 2%Z.
Proof.
  intros e.
  destruct (RegimeSignalEngine.decide e 0.1 [0.1] 100 [100] [])
    as [[e' d]|] eqn:H; [| vm_compute in H; discriminate H].
  exists e', d. split; [reflexivity|].
  pose proof H as Hv. vm_compute in Hv. apply Ok_pair_inj in Hv.
  destruct Hv as [_ Hd].
  destruct (adaptive_short_exit_needs_persistence e e' 0.1 [0.1] 100 [100]
              [] d)
    as (_ & _ & Hexit);
    [reflexivity | reflexivity | vm_compute; discriminate | exact H |].
  destruct Hexit as (Hs & Hsig & Hcd & _);
    [rewrite <- Hd; vm_compute; discriminate|].
  split; [exact Hs|]. split; [exact Hsig | exact Hcd].
Defined.

(** A long-mode engine in LONG_VOL shown an implied volatility above
    the realized one: the option is no longer cheap, and with one bar
    of exit persistence the engine pauses. *)
Lemma long_exit_needs_persistence_witness :
  let e :=
    RegimeSignalEngine.set_adaptive_state LONG_VOL
      (RegimeSignalEngine.init mode_long quick_config) in
  exists e' d,
    RegimeSignalEngine.decide e 0.2 [0.1] 100 [100] [] = Ok (e', d)
    /\ stance d = PAUSED /\ signal d = 0%Z
    /\ cooldown_remaining d = 2%Z.
Proof.
  intros e.
  destruct (RegimeSignalEngine.decide e 0.2 [0.1] 100 [100] [])
    as [[e' d]|] eqn:H; [| vm_compute in H; discriminate H].
  exists e', d. split; [reflexivity|].
  pose proof H as Hv. vm_compute in Hv. apply Ok_pair_inj in Hv.
  destruct Hv as [_ Hd].
  destruct (long_exit_needs_persistence e e' 0.2 [0.1] 100 [100] [] d)
    as (_ & _ & Hexit);
    [discriminate | reflexivity | vm_compute; discriminate | exact H |].
  destruct Hexit as (Hs & Hsig & Hcd & _);
    [rewrite <- Hd; vm_compute; discriminate|].
  split; [exact Hs|]. split; [exact Hsig | exact Hcd].
Defined.

(** ** Position sizing *)

(** Floor division by a positive divisor: the largest whole multiple
    below the dividend. *)
Lemma py_floordiv_bounds (a b : Q) :
  0 < b ->
  float (py_floordiv a b) * b <= a /\ a < (float (py_floordiv a b) + 1) * b.
Proof.
  intros Hb. unfold py_floordiv.
  pose proof (Qfloor_le (a / b)) as Hlo. pose proof (Qlt_floor (a / b)) as Hhi.
  rewrite inject_Z_plus in Hhi. change (float 1) with 1 in Hhi.
  set (f := float (Qfloor (a / b))) in *.
  assert (Ha : a / b * b == a) by (field; lra).
  split.
  - apply Qle_trans with (a / b * b);
      [apply Qmult_le_compat_r; lra | rewrite Ha; apply Qle_refl].
  - apply Qle_lt_trans with (a / b * b);
      [rewrite Ha; apply Qle_refl | apply Qmult_lt_compat_r; lra].
Qed.

Lemma signed_floor_sizing (signal : Z) (budget unit : Q) :
  0 < unit ->
  let contracts := py_floordiv budget unit in
  let n := if (contracts <=? 0)%Z then 0%Z
           else if (signal >? 0)%Z then contracts else (- contracts)%Z in
  (n = 0 \/ (signal <> 0 -> Z.sgn n = Z.sgn signal))%Z
  /\ (0 <= budget -> float (Z.abs n) * unit <= budget)
  /\ (n <> 0%Z -> float (Z.abs n) * unit <= budget)
  /\ budget < (float (Z.abs n) + 1) * unit
  /\ (signal > 0 -> 0 <= n)%Z /\ (signal <= 0 -> n <= 0)%Z.
Proof.
  intros Hu contracts n.
  destruct (py_floordiv_bounds budget unit Hu) as [Hlo Hhi].
  fold contracts in Hlo, Hhi. subst n.
  destruct (Z.leb_spec contracts 0) as [Hc | Hc].
  - cbn [Z.abs]. change (float 0) with 0.
    split; [left; reflexivity|]. split; [intros; lra|].
    split; [intros H; congruence|].
    split; [| split; intros; lia].
    assert (float contracts <= 0) by (apply (float_le contracts 0), Hc).
    assert ((float contracts + 1) * unit <= (0 + 1) * unit)
      by (apply Qmult_le_compat_r; lra).
    lra.
  - assert (Habs : forall s, (s = contracts \/ s = - contracts)%Z ->
              Z.abs s = contracts) by (intros s [-> | ->]; lia).
    destruct (Z.gtb_spec signal 0) as [Hs | Hs].
    + rewrite (Habs contracts) by auto.
      split; [right; intros _; lia|].
      split; [intros _; exact Hlo|]. split; [intros _; exact Hlo|].
      split; [exact Hhi|]. split; intros; lia.
    + rewrite (Habs (- contracts)%Z) by auto.
      split; [right; intros Hne; lia|].
      split; [intros _; exact Hlo|]. split; [intros _; exact Hlo|].
      split; [exact Hhi|]. split; intros; lia.
Qed.

Lemma target_option_contracts_props (signal : Z)
    (option_price capital_base max_capital_at_risk size_factor : Q) :
  let n := target_option_contracts signal option_price capital_base
             max_capital_at_risk size_factor in
  let budget :=
    capital_base * max_capital_at_risk * Qmax 0 (Qmin size_factor 1) in
  let unit := option_price * CONTRACT_MULTIPLIER in
  (signal = 0%Z \/ option_price <= 0 \/ capital_base <= 0 -> n = 0%Z)
  /\ (n = 0 \/ Z.sgn n = Z.sgn signal)%Z
  /\ (n <> 0%Z -> float (Z.abs n) * unit <= budget)
  /\ (signal <> 0%Z -> 0 < option_price -> 0 < capital_base ->
      budget < (float (Z.abs n) + 1) * unit).
Proof.
  intros n budget unit. subst n. unfold target_option_contracts.
  destruct (Z.eqb_spec signal 0) as [Hs | Hs]; cbn [orb].
  { split; [reflexivity|]. split; [left; reflexivity|].
    split; [congruence|]. intros; congruence. }
  destruct (option_price <=? 0) eqn:Hp; qbool; cbn [orb].
  { split; [reflexivity|]. split; [left; reflexivity|].
    split; [congruence|]. intros; lra. }
  destruct (capital_base <=? 0) eqn:Hc; qbool.
  { split; [reflexivity|]. split; [left; reflexivity|].
    split; [congruence|]. intros; lra. }
  assert (Hu : 0 < unit)
    by (subst unit; unfold CONTRACT_MULTIPLIER;
        apply Qmult_lt_0_compat; [exact Hp | reflexivity]).
  destruct (signed_floor_sizing signal budget unit Hu)
    as (Hsgn & _ & Hfit & Hmax & _).
  cbv zeta in Hsgn, Hfit, Hmax. fold budget unit.
  split; [intros [H | [H | H]]; [congruence | lra | lra]|].
  split; [destruct Hsgn as [H | H]; [left; exact H | right; exact (H Hs)]|].
  split; [exact Hfit|]. intros _ _ _. exact Hmax.
Qed.

Lemma target_contracts_by_vega_budget_props (signal : Z)
    (capital_base option_vega max_abs_vega_ratio size_factor : Q) :
  let n := target_contracts_by_vega_budget signal capital_base option_vega
             max_abs_vega_ratio size_factor in
  let budget :=
    capital_base * Qmax 0 max_abs_vega_ratio * Qmax 0 (Qmin size_factor 1) in
  let unit := option_vega * CONTRACT_MULTIPLIER in
  (signal = 0%Z \/ capital_base <= 0 \/ option_vega <= 0 -> n = 0%Z)
  /\ (n = 0 \/ Z.sgn n = Z.sgn signal)%Z
  /\ (n <> 0%Z -> float (Z.abs n) * unit <= budget)
  /\ (signal <> 0%Z -> 0 < capital_base -> 0 < option_vega ->
      budget < (float (Z.abs n) + 1) * unit).
Proof.
  intros n budget unit. subst n. unfold target_contracts_by_vega_budget.
  destruct (Z.eqb_spec signal 0) as [Hs | Hs]; cbn [orb].
  { split; [reflexivity|]. split; [left; reflexivity|].
    split; [congruence|]. intros; congruence. }
  destruct (capital_base <=? 0) eqn:Hc; qbool; cbn [orb].
  { split; [reflexivity|]. split; [left; reflexivity|].
    split; [congruence|]. intros; lra. }
  destruct (option_vega <=? 0) eqn:Hp; qbool.
  { split; [reflexivity|]. split; [left; reflexivity|].
    split; [congruence|]. intros; lra. }
  assert (Hu : 0 < unit)
    by (subst unit; unfold CONTRACT_MULTIPLIER;
        apply Qmult_lt_0_compat; [exact Hp | reflexivity]).
  destruct (signed_floor_sizing signal budget unit Hu)
    as (Hsgn & _ & Hfit & Hmax & _).
  cbv zeta in Hsgn, Hfit, Hmax. fold budget unit.
  split; [intros [H | [H | H]]; [congruence | lra | lra]|].
  split; [destruct Hsgn as [H | H]; [left; exact H | right; exact (H Hs)]|].
  split; [exact Hfit|]. intros _ _ _. exact Hmax.
Qed.

(** X12.  target_option_contracts sizes to the capital-at-risk budget:
    it returns 0 for a zero signal, a non-positive option price or a
    non-positive capital base; otherwise the result is 0 or has the sign
    of the signal, its notional (contracts x price x 100) fits the
    budget capital x max_capital_at_risk x size factor clipped to
    [0, 1], and one contract more would exceed the budget. *)
Theorem target_option_contracts_fits_budget (signal : Z)
    (option_price capital_base max_capital_at_risk size_factor : Q) :
  let n := target_option_contracts signal option_price capital_base
             max_capital_at_risk size_factor in
  let budget :=
    capital_base * max_capital_at_risk * Qmax 0 (Qmin size_factor 1) in
  let unit := option_price * CONTRACT_MULTIPLIER in
  (signal = 0%Z \/ option_price <= 0 \/ capital_base <= 0 -> n = 0%Z)
  /\ (n = 0 \/ Z.sgn n = Z.sgn signal)%Z
  /\ (n <> 0%Z -> float (Z.abs n) * unit <= budget)
  /\ (signal <> 0%Z -> 0 < option_price -> 0 < capital_base ->
      budget < (float (Z.abs n) + 1) * unit).
Proof.
  apply target_option_contracts_props.
Qed.

(** Capital 10000 at 20 % and an option at 3.90: five contracts short,
    a notional of 1950 within the budget of 2000. *)
Lemma target_option_contracts_fits_budget_witness :
  target_option_contracts (-1) 3.9 10000 0.2 1 = (-5)%Z
  /\ float (Z.abs (target_option_contracts (-1) 3.9 10000 0.2 1))
     * (3.9 * CONTRACT_MULTIPLIER)
     <= 10000 * 0.2 * Qmax 0 (Qmin 1 1)
  /\ target_option_contracts 0 3.9 10000 0.2 1 = 0%Z.
Proof.
  destruct (target_option_contracts_fits_budget (-1) 3.9 10000 0.2 1)
    as (_ & _ & Hfit & _).
  destruct (target_option_contracts_fits_budget 0 3.9 10000 0.2 1)
    as (Hzero & _).
  split; [vm_compute; reflexivity|].
  split; [apply Hfit; vm_compute; discriminate|].
  apply Hzero. left. reflexivity.
Defined.

(** X13.  target_contracts_by_vega_budget sizes to the vega budget: it
    returns 0 for a zero signal, a non-positive capital base or a
    non-positive option vega; otherwise the result is 0 or has the sign
    of the signal, its vega (contracts x vega x 100) fits the budget
    capital x max(0, ratio) x size factor clipped to [0, 1], and one
    contract more would exceed the budget. *)
Theorem target_contracts_by_vega_budget_fits_budget (signal : Z)
    (capital_base option_vega max_abs_vega_ratio size_factor : Q) :
  let n := target_contracts_by_vega_budget signal capital_base option_vega
             max_abs_vega_ratio size_factor in
  let budget :=
    capital_base * Qmax 0 max_abs_vega_ratio * Qmax 0 (Qmin size_factor 1) in
  let unit := option_vega * CONTRACT_MULTIPLIER in
  (signal = 0%Z \/ capital_base <= 0 \/ option_vega <= 0 -> n = 0%Z)
  /\ (n = 0 \/ Z.sgn n = Z.sgn signal)%Z
  /\ (n <> 0%Z -> float (Z.abs n) * unit <= budget)
  /\ (signal <> 0%Z -> 0 < capital_base -> 0 < option_vega ->
      budget < (float (Z.abs n) + 1) * unit).
Proof.
  apply target_contracts_by_vega_budget_props.
Qed.

(** Capital 10000 at a vega ratio of 1.5 % and a vega of 0.1 per
    contract unit: fifteen contracts long, a vega of 150 within the
    budget of 150. *)
Lemma target_contracts_by_vega_budget_fits_budget_witness :
  target_contracts_by_vega_budget 1 10000 0.1 0.015 1 = 15%Z
  /\ float (Z.abs (target_contracts_by_vega_budget 1 10000 0.1 0.015 1))
     * (0.1 * CONTRACT_MULTIPLIER)
     <= 10000 * Qmax 0 0.015 * Qmax 0 (Qmin 1 1)
  /\ target_contracts_by_vega_budget 1 10000 0 0.015 1 = 0%Z.
Proof.
  destruct (target_contracts_by_vega_budget_fits_budget 1 10000 0.1 0.015 1)
    as (_ & _ & Hfit & _).
  destruct (target_contracts_by_vega_budget_fits_budget 1 10000 0 0.015 1)
    as (Hzero & _).
  split; [vm_compute; reflexivity|].
  split; [apply Hfit; vm_compute; discriminate|].
  apply Hzero. right. right. discriminate.
Defined.

(** The sign of the sized target: never above 0 for a signal that is
    not positive, never below 0 for a positive one. *)
Lemma target_option_contracts_sign (signal : Z)
    (option_price capital_base max_capital_at_risk size_factor : Q) :
  let n := target_option_contracts signal option_price capital_base
             max_capital_at_risk size_factor in
  ((signal <= 0 -> n <= 0) /\ (0 <= signal -> 0 <= n))%Z.
Proof.
  destruct (target_option_contracts_props signal option_price
              capital_base max_capital_at_risk size_factor)
    as (_ & Hsgn & _).
  cbv zeta in *. destruct Hsgn as [-> | Hs]; [lia|].
  split; intros H; lia.
Qed.

Lemma target_contracts_by_vega_budget_sign (signal : Z)
    (capital_base option_vega max_abs_vega_ratio size_factor : Q) :
  let n := target_contracts_by_vega_budget signal capital_base option_vega
             max_abs_vega_ratio size_factor in
  ((signal <= 0 -> n <= 0) /\ (0 <= signal -> 0 <= n))%Z.
Proof.
  destruct (target_contracts_by_vega_budget_props signal capital_base
              option_vega max_abs_vega_ratio size_factor)
    as (_ & Hsgn & _).
  cbv zeta in *. destruct Hsgn as [-> | Hs]; [lia|].
  split; intros H; lia.
Qed.

(** ** The loop: growing a position *)

(** A target executed above the opening magnitude passed the limits or
    came out of the clamp, and is never larger than the adopted one. *)
Lemma risk_limit_check_grows_within_limits (m : StrategyMode)
    (rl : RiskLimits.t) (row : Bar) (target opening : Z) (equity : Q) :
  let executed :=
    rc_target_contracts
      (risk_limit_check m rl row false target opening equity) in
  (Z.abs opening < Z.abs executed)%Z ->
  projected_trade_allowed rl (close row) (option_mid row) (delta row)
    (gamma row) (vega row) equity executed = true
  /\ (Z.abs executed <= Z.abs target)%Z
  /\ (Z.sgn executed = Z.sgn target)%Z.
Proof.
  cbv zeta.
  destruct (projected_trade_allowed rl (close row) (option_mid row)
              (delta row) (gamma row) (vega row) equity target) eqn:Hok.
  - unfold risk_limit_check. unfold projected_trade_allowed in Hok.
    destruct (evaluate_projected_trade rl target (close row) (option_mid row)
                (delta row) (gamma row) (vega row) equity)
      as [[allowed why] ex] eqn:Hev.
    cbn [fst] in Hok. subst allowed. cbn [rc_target_contracts].
    intros _. unfold projected_trade_allowed. rewrite Hev.
    split; [reflexivity|]. split; [lia | reflexivity].
  - rewrite (risk_limit_check_blocked m rl row target opening equity Hok).
    destruct (Z.abs target <? Z.abs opening)%Z eqn:Hred;
      cbn [rc_target_contracts].
    { apply Z.ltb_lt in Hred. intros; lia. }
    destruct (clamp_target_props rl (close row) (option_mid row) (delta row)
                (gamma row) (vega row) equity target)
      as (Hsgn & Hle & Hpass & Hzero & _).
    cbv zeta in Hsgn, Hle, Hpass, Hzero.
    set (clamped := clamp_target_to_risk_limits target rl (close row)
                      (option_mid row) (delta row) (gamma row) (vega row)
                      equity) in *.
    destruct (Z.abs clamped >? Z.abs opening)%Z eqn:Hc;
      cbn [rc_target_contracts]; [|intros; lia].
    intros Hgrow.
    destruct (projected_trade_allowed rl (close row) (option_mid row)
                (delta row) (gamma row) (vega row) equity 0) eqn:H0.
    + split; [apply Hpass; reflexivity|]. split; [exact Hle|].
      destruct Hsgn as [Hz | Hs]; [rewrite Hz in Hgrow; lia | exact Hs].
    + rewrite (Hzero eq_refl) in Hgrow. lia.
Qed.

(** A passing position, as the five inequalities it satisfies. *)
Lemma projected_trade_allowed_limits (rl : RiskLimits.t)
    (spot price dlt gam veg equity : Q) (c : Z) :
  projected_trade_allowed rl spot price dlt gam veg equity c = true ->
  0 < equity
  /\ Qabs (float c * price * CONTRACT_MULTIPLIER)
     <= RiskLimits.max_capital_at_risk rl * equity
  /\ Qabs (float c * price * CONTRACT_MULTIPLIER)
     + Qabs (float (hedge_target c dlt) * spot)
     <= RiskLimits.max_leverage rl * equity
  /\ Qabs (float c * gam * CONTRACT_MULTIPLIER) <= RiskLimits.max_abs_gamma rl
  /\ Qabs (float c * veg * CONTRACT_MULTIPLIER) <= RiskLimits.max_abs_vega rl.
Proof.
  rewrite projected_trade_allowed_checks. intros H.
  repeat match type of H with
  | (_ && _) = true => apply andb_true_iff in H; destruct H as [H ?]
  end.
  repeat match goal with
  | Hn : negb _ = true |- _ => apply negb_true_iff in Hn
  end.
  qbool.
  assert (Hmul : forall x lim : Q, x / equity <= lim -> x <= lim * equity).
  { intros x lim Hx.
    setoid_replace x with (x / equity * equity) by (field; lra).
    apply Qmult_le_compat_r; lra. }
  split; [assumption|].
  split; [apply Hmul; assumption|]. split; [apply Hmul; assumption|].
  split; assumption.
Qed.

Section LoopLimits.

Variable ln : Q -> Q.
Variable mode : StrategyMode.
Variable args : Args.

(** X14.  The loop grows a position only within the risk limits: on a
    bar that ends with more contracts in magnitude than it started with
    no flatten fired, the position has the sign of the requested target
    and is not larger than it, the equity before the trade is positive,
    and at the bar's prices the position keeps the option notional
    within 20 % of that equity, the option and hedge notional within
    max_leverage times it, and the absolute gamma and vega exposure
    within max_abs_gamma and max_abs_vega. *)
Theorem position_grows_only_within_limits (st st' : SimState) (row : Bar)
    (r : StepRow) :
  bar_step ln mode args st row = Ok (st', r) ->
  (Z.abs (option_contracts st) < Z.abs (option_contracts st'))%Z ->
  let c := option_contracts st' in
  let equity := row_equity_before_trade r in
  row_flatten_for_risk r = false
  /\ (Z.abs c <= Z.abs (requested_option_contracts r))%Z
  /\ Z.sgn c = Z.sgn (requested_option_contracts r)
  /\ 0 < equity
  /\ Qabs (float c * option_mid row * 100) <= 0.20 * equity
  /\ Qabs (float c * option_mid row * 100)
     + Qabs (float (hedge_shares st') * close row)
     <= max_leverage args * equity
  /\ Qabs (float c * gamma row * 100) <= max_abs_gamma args
  /\ Qabs (float c * vega row * 100) <= max_abs_vega args.
Proof.
  intros Hstep Hgrow c equity.
  destruct (bar_step_shape _ _ _ _ _ _ _ Hstep)
    as (Hreq & _ & _ & Had & Hex & Hpos & _).
  destruct (bar_step_fields _ _ _ _ _ _ _ Hstep)
    as ((Hoc & Hhs & _) & _).
  destruct (trade_cash_equity mode args st row (pre_trade mode args st row))
    as (Hh & _).
  rewrite <- Hoc, <- Hhs in Hh. fold c in Hh.
  destruct (row_flatten_for_risk r) eqn:Hf.
  { exfalso. rewrite Had in Hex. unfold adopted_target in Hex.
    unfold risk_limit_check in Hex. cbn [rc_target_contracts] in Hex.
    rewrite Hex in Hpos. rewrite Hpos in Hgrow. cbn in Hgrow. lia. }
  assert (Hadopt : row_adopted_target r = requested_option_contracts r)
    by (rewrite Had, Hreq; reflexivity).
  rewrite Hadopt in Hex.
  pose proof (risk_limit_check_grows_within_limits mode (risk_limits args)
                row (requested_option_contracts r) (option_contracts st)
                equity) as Hlim.
  cbv zeta in Hlim. subst equity. rewrite <- Hex, <- Hpos in Hlim.
  destruct (Hlim Hgrow) as (Hok & Hle & Hsg).
  apply projected_trade_allowed_limits in Hok.
  destruct Hok as (H1 & H2 & H3 & H4 & H5).
  fold c in H2, H3, H4, H5, Hle, Hsg. rewrite <- Hh in H3.
  split; [reflexivity|]. split; [exact Hle|]. split; [exact Hsg|].
  split; [exact H1|]. split; [exact H2|]. split; [exact H3|].
  split; [exact H4 | exact H5].
Qed.

End LoopLimits.

(** Short mode on the rising-premium market, second bar: the position
    goes from flat to five contracts short, within the limits. *)
Lemma position_grows_only_within_limits_witness :
  let st :=
    snd (fst (run_single_mode flat_log mode_short DEFAULT_ARGS
                (firstn 1 rising_premium_market) quick_config)) in
  exists st' r,
    bar_step flat_log mode_short DEFAULT_ARGS st (sample_bar "d2" 3.9)
    = Ok (st', r)
    /\ option_contracts st' = (-5)%Z
    /\ Qabs (float (option_contracts st') * 3.9 * 100)
       <= 0.20 * row_equity_before_trade r.
Proof.
  intros st.
  destruct (bar_step flat_log mode_short DEFAULT_ARGS st (sample_bar "d2" 3.9))
    as [[st' r]|] eqn:Hstep; [| vm_compute in Hstep; discriminate Hstep].
  exists st', r. split; [reflexivity|].
  pose proof Hstep as Hval. vm_compute in Hval. apply Ok_pair_inj in Hval.
  destruct Hval as [Hst _].
  assert (Hc : option_contracts st' = (-5)%Z) by (rewrite <- Hst; reflexivity).
  split; [exact Hc|].
  destruct (position_grows_only_within_limits flat_log mode_short
              DEFAULT_ARGS st st' (sample_bar "d2" 3.9) r Hstep)
    as (_ & _ & _ & _ & Hcar & _).
  - rewrite Hc. vm_compute. reflexivity.
  - exact Hcar.
Defined.

(** ** The loop: the side of the book in short and long mode *)

Lemma adopted_target_cases (pending : Z) (flatten : bool) :
  adopted_target pending flatten = 0%Z
  \/ adopted_target pending flatten = pending.
Proof. unfold adopted_target. destruct flatten; auto. Qed.

(** The short-mode gates queue the sized target or nothing. *)
Lemma gate_short_target (row : Bar) (decision : SignalDecision)
    (flatten : bool) (next_target position short_pause long_pause : Z) :
  let queued :=
    g_next_target_contracts
      (gate_short row decision flatten next_target position short_pause
         long_pause) in
  queued = 0%Z \/ queued = next_target.
Proof.
  cbv zeta. unfold gate_short.
  destruct flatten; [left; reflexivity|].
  destruct (_ || _); [left | right]; reflexivity.
Qed.

(** The long-mode gates never queue a short target. *)
Lemma gate_long_nonneg (args : Args) (decision : SignalDecision)
    (o : Overlay) (next_target short_pause long_pause : Z) :
  (0 <= g_next_target_contracts
          (gate_long args decision o next_target short_pause long_pause))%Z.
Proof.
  unfold gate_long.
  set (clipped := if (next_target <? 0)%Z then 0%Z else next_target).
  assert (Hc : (0 <= clipped)%Z)
    by (subst clipped; destruct (Z.ltb_spec next_target 0); lia).
  cbv zeta. unfold gate_paused_or_flatten.
  repeat match goal with
  | |- context [if ?c then _ else _] => destruct c
  end; cbn [g_next_target_contracts]; lia.
Qed.

Section SidedRuns.

Variable ln : Q -> Q.
Variable args : Args.

(** X15.  Short mode never holds or queues long options: over a whole
    run every stance is SHORT_VOL or FLAT, every signal is -1 or 0, and
    the requested target, the position and the queued target of every
    bar are at most 0. *)
Theorem short_mode_never_long (signal_config : SignalConfig)
    (market_data : list Bar) (rows : list StepRow) (final : SimState)
    (exn : option PyExn) :
  run_single_mode ln mode_short args market_data signal_config
  = (rows, final, exn) ->
  forall r, In r rows ->
    (stance (row_decision r) = SHORT_VOL \/ stance (row_decision r) = FLAT)
    /\ (signal (row_decision r) = -1 \/ signal (row_decision r) = 0)%Z
    /\ (requested_option_contracts r <= 0)%Z
    /\ (row_option_contracts r <= 0)%Z
    /\ (queued_option_contracts r <= 0)%Z.
Proof.
  intros Hrun. apply run_bars_steps in Hrun.
  set (Inv := fun st : SimState =>
    RegimeSignalEngine.mode (signal_engine st) = mode_short
    /\ (option_contracts st <= 0)%Z /\ (pending_target_contracts st <= 0)%Z).
  set (Each := fun r : StepRow =>
    (stance (row_decision r) = SHORT_VOL \/ stance (row_decision r) = FLAT)
    /\ (signal (row_decision r) = -1 \/ signal (row_decision r) = 0)%Z
    /\ (requested_option_contracts r <= 0)%Z
    /\ (row_option_contracts r <= 0)%Z
    /\ (queued_option_contracts r <= 0)%Z).
  apply (steps_each ln mode_short args Inv (fun _ _ => True) Each)
    with (st := initial_state mode_short signal_config) (final := final);
    [| exact Hrun | unfold Inv; cbn; repeat split; lia].
  intros st row st' r (Hmode & Hoc & Hpend) Hstep.
  destruct (bar_step_shape _ _ _ _ _ _ _ Hstep)
    as (Hreq & _ & _ & Had & Hex & Hpos & Hrow & Hq & _).
  destruct (bar_step_fields _ _ _ _ _ _ _ Hstep)
    as (_ & _ & (_ & Hdec & Hsized & Hgate)).
  destruct (decide_frame _ _ _ _ _ _ _ _ Hdec)
    as ((Hm' & _ & _ & _ & Hsig & _) & _ & Hshort & _).
  specialize (Hshort Hmode).
  assert (Hsignal : (signal (row_decision r) = -1
                     \/ signal (row_decision r) = 0)%Z)
    by (rewrite Hsig; destruct Hshort as [-> | ->]; cbn; auto).
  (* executed *)
  pose proof (risk_limit_check_target mode_short (risk_limits args) row
                (row_flatten_for_risk r) (row_adopted_target r)
                (option_contracts st) (row_equity_before_trade r)) as Ht.
  cbv zeta in Ht. rewrite <- Hex in Ht.
  pose proof (adopted_target_cases (pending_target_contracts st)
                (row_flatten_for_risk r)) as Ha.
  rewrite <- Had in Ha.
  assert (Hexec : (executed_target_contracts r <= 0)%Z) by lia.
  (* queued *)
  assert (Hsz : (row_sized_target r <= 0)%Z).
  { rewrite Hsized. cbn [sized_target].
    apply target_option_contracts_sign. lia. }
  cbn [strategy_gate] in Hgate.
  pose proof (gate_short_target row (row_decision r)
                (flatten_for_risk (row_overlay r)) (row_sized_target r)
                (row_option_contracts r)
                (ticked (adaptive_short_pause_remaining st))
                (ticked (adaptive_long_pause_remaining st))) as Hg.
  cbv zeta in Hg. rewrite <- Hgate in Hg.
  assert (Hqueued : (queued_option_contracts r <= 0)%Z) by lia.
  unfold Inv, Each.
  split; [split; [congruence | split; [rewrite Hpos; exact Hexec
                                      | rewrite Hq; exact Hqueued]]|].
  split; [exact I|].
  split; [tauto|]. split; [exact Hsignal|].
  split; [rewrite Hreq; exact Hpend|].
  split; [rewrite Hrow; exact Hexec | exact Hqueued].
Qed.

(** X16.  Long mode never holds or queues short options: over a whole
    run no stance is SHORT_VOL, every signal is 1 or 0, and the
    requested target, the position and the queued target of every bar
    are at least 0. *)
Theorem long_mode_never_short (signal_config : SignalConfig)
    (market_data : list Bar) (rows : list StepRow) (final : SimState)
    (exn : option PyExn) :
  run_single_mode ln mode_long args market_data signal_config
  = (rows, final, exn) ->
  forall r, In r rows ->
    stance (row_decision r) <> SHORT_VOL
    /\ (signal (row_decision r) = 1 \/ signal (row_decision r) = 0)%Z
    /\ (0 <= requested_option_contracts r)%Z
    /\ (0 <= row_option_contracts r)%Z
    /\ (0 <= queued_option_contracts r)%Z.
Proof.
  intros Hrun. apply run_bars_steps in Hrun.
  set (Inv := fun st : SimState =>
    RegimeSignalEngine.mode (signal_engine st) = mode_long
    /\ (0 <= option_contracts st)%Z /\ (0 <= pending_target_contracts st)%Z).
  set (Each := fun r : StepRow =>
    stance (row_decision r) <> SHORT_VOL
    /\ (signal (row_decision r) = 1 \/ signal (row_decision r) = 0)%Z
    /\ (0 <= requested_option_contracts r)%Z
    /\ (0 <= row_option_contracts r)%Z
    /\ (0 <= queued_option_contracts r)%Z).
  apply (steps_each ln mode_long args Inv (fun _ _ => True) Each)
    with (st := initial_state mode_long signal_config) (final := final);
    [| exact Hrun | unfold Inv; cbn; repeat split; lia].
  intros st row st' r (Hmode & Hoc & Hpend) Hstep.
  destruct (bar_step_shape _ _ _ _ _ _ _ Hstep)
    as (Hreq & _ & _ & Had & Hex & Hpos & Hrow & Hq & _).
  destruct (bar_step_fields _ _ _ _ _ _ _ Hstep)
    as (_ & _ & (_ & Hdec & _ & Hgate)).
  destruct (decide_frame _ _ _ _ _ _ _ _ Hdec)
    as ((Hm' & _ & _ & _ & Hsig & _) & _ & _ & Hlong & _).
  specialize (Hlong Hmode).
  assert (Hsignal : (signal (row_decision r) = 1
                     \/ signal (row_decision r) = 0)%Z).
  { rewrite Hsig. destruct (stance (row_decision r)); cbn; auto.
    congruence. }
  pose proof (risk_limit_check_target mode_long (risk_limits args) row
                (row_flatten_for_risk r) (row_adopted_target r)
                (option_contracts st) (row_equity_before_trade r)) as Ht.
  cbv zeta in Ht. rewrite <- Hex in Ht.
  pose proof (adopted_target_cases (pending_target_contracts st)
                (row_flatten_for_risk r)) as Ha.
  rewrite <- Had in Ha.
  assert (Hexec : (0 <= executed_target_contracts r)%Z) by lia.
  cbn [strategy_gate] in Hgate.
  pose proof (gate_long_nonneg args (row_decision r) (row_overlay r)
                (row_sized_target r)
                (ticked (adaptive_short_pause_remaining st))
                (ticked (adaptive_long_pause_remaining st))) as Hg.
  rewrite <- Hgate in Hg.
  unfold Inv, Each.
  split; [split; [congruence | split; [rewrite Hpos; exact Hexec
                                      | rewrite Hq; exact Hg]]|].
  split; [exact I|].
  split; [exact Hlong|]. split; [exact Hsignal|].
  split; [rewrite Hreq; exact Hpend|].
  split; [rewrite Hrow; exact Hexec | exact Hg].
Qed.

(** X17.  In adaptive mode the stance never goes from SHORT_VOL
    straight to LONG_VOL or back: over a whole run, the bar after a
    SHORT_VOL bar is SHORT_VOL, PAUSED or FLAT, and the bar after a
    LONG_VOL bar is LONG_VOL, PAUSED or FLAT. *)
Theorem adaptive_stance_never_flips_directly (signal_config : SignalConfig)
    (market_data : list Bar) (rows : list StepRow) (final : SimState)
    (exn : option PyExn) :
  run_single_mode ln mode_adaptive args market_data signal_config
  = (rows, final, exn) ->
  forall t prev r,
    nth_error rows t = Some prev -> nth_error rows (S t) = Some r ->
    (stance (row_decision prev) = SHORT_VOL ->
     stance (row_decision r) <> LONG_VOL)
    /\ (stance (row_decision prev) = LONG_VOL ->
        stance (row_decision r) <> SHORT_VOL).
Proof.
  intros Hrun. apply run_bars_steps in Hrun.
  set (Inv := fun st : SimState =>
    RegimeSignalEngine.mode (signal_engine st) = mode_adaptive
    /\ (prev_stance st = SHORT_VOL ->
        RegimeSignalEngine.adaptive_state (signal_engine st) = SHORT_VOL)
    /\ (prev_stance st = LONG_VOL ->
        RegimeSignalEngine.adaptive_state (signal_engine st) = LONG_VOL)).
  set (Last := fun (st : SimState) (r : StepRow) =>
    prev_stance st = stance (row_decision r)).
  assert (Hkeeps : forall st row st' r,
            Inv st -> bar_step ln mode_adaptive args st row = Ok (st', r) ->
            Inv st' /\ Last st' r /\ True).
  { intros st row st' r (Hmode & _) Hstep.
    destruct (bar_step_fields _ _ _ _ _ _ _ Hstep)
      as ((_ & _ & _ & _ & _ & _ & _ & Hps & _) & _ & (_ & Hdec & _)).
    destruct (decide_frame _ _ _ _ _ _ _ _ Hdec)
      as ((Hm' & _) & _ & _ & _ & Had).
    destruct (Had Hmode) as (A1 & A2 & _).
    unfold Inv, Last. rewrite Hps.
    split; [split; [congruence | split; assumption]|].
    split; [reflexivity | exact I]. }
  apply (steps_consecutive ln mode_adaptive args Inv Last
           (fun prev r =>
              (stance (row_decision prev) = SHORT_VOL ->
               stance (row_decision r) <> LONG_VOL)
              /\ (stance (row_decision prev) = LONG_VOL ->
                  stance (row_decision r) <> SHORT_VOL))
           (fun _ => True) Hkeeps)
    with (st := initial_state mode_adaptive signal_config) (final := final);
    [| exact Hrun | unfold Inv; cbn; repeat split; discriminate].
  intros st prev row st' r (Hmode & Hs & Hl) Hlast Hstep.
  destruct (bar_step_fields _ _ _ _ _ _ _ Hstep)
    as (_ & _ & (_ & Hdec & _)).
  destruct (decide_frame _ _ _ _ _ _ _ _ Hdec) as (_ & _ & _ & _ & Had).
  destruct (Had Hmode) as (_ & _ & A3 & A4).
  unfold Last in Hlast. rewrite <- Hlast.
  split; intros Hp; [apply A3, Hs, Hp | apply A4, Hl, Hp].
Qed.

End SidedRuns.

(** Short mode on the rising-premium market: the second bar holds five
    contracts short and queues five short. *)
Lemma short_mode_never_long_witness :
  let rows :=
    fst (fst (run_single_mode flat_log mode_short DEFAULT_ARGS
                rising_premium_market quick_config)) in
  exists r,
    nth_error rows 1 = Some r
    /\ row_option_contracts r = (-5)%Z
    /\ (queued_option_contracts r <= 0)%Z
    /\ (signal (row_decision r) = -1 \/ signal (row_decision r) = 0)%Z.
Proof.
  intros rows.
  pose proof (short_mode_never_long flat_log DEFAULT_ARGS quick_config
                rising_premium_market _ _ _ (run_result_eta _)) as Hall.
  fold rows in Hall.
  assert (Hrows : exists p q rest, rows = p :: q :: rest
                  /\ row_option_contracts q = (-5)%Z)
    by (vm_compute; do 3 eexists; split; reflexivity).
  destruct Hrows as (p & q & rest & Hrows & Hq).
  rewrite Hrows in *.
  exists q. split; [reflexivity|]. split; [exact Hq|].
  destruct (Hall q) as (_ & Hsig & _ & _ & Hqueued);
    [right; left; reflexivity|].
  split; [exact Hqueued | exact Hsig].
Defined.

(** Long mode on the cheapening market: the third bar holds five
    contracts long, after the clamp, and its stance is LONG_VOL. *)
Lemma long_mode_never_short_witness :
  let rows :=
    fst (fst (run_single_mode flat_log mode_long DEFAULT_ARGS
                cheapening_market long_entry_config)) in
  exists r,
    nth_error rows 2 = Some r
    /\ row_option_contracts r = 5%Z
    /\ (0 <= queued_option_contracts r)%Z
    /\ stance (row_decision r) <> SHORT_VOL.
Proof.
  intros rows.
  pose proof (long_mode_never_short flat_log DEFAULT_ARGS long_entry_config
                cheapening_market _ _ _ (run_result_eta _)) as Hall.
  fold rows in Hall.
  assert (Hrows : exists o p q rest, rows = o :: p :: q :: rest
                  /\ row_option_contracts q = 5%Z)
    by (vm_compute; do 4 eexists; split; reflexivity).
  destruct Hrows as (o & p & q & rest & Hrows & Hq).
  rewrite Hrows in *.
  exists q. split; [reflexivity|]. split; [exact Hq|].
  destruct (Hall q) as (Hst & _ & _ & _ & Hqueued);
    [right; right; left; reflexivity|].
  split; [exact Hqueued | exact Hst].
Defined.

(** Adaptive mode on the rising-premium market: the first bar is
    SHORT_VOL, so the second is not LONG_VOL. *)
Lemma adaptive_stance_never_flips_directly_witness :
  let rows :=
    fst (fst (run_single_mode flat_log mode_adaptive DEFAULT_ARGS
                rising_premium_market quick_config)) in
  exists prev r,
    nth_error rows 0 = Some prev /\ nth_error rows 1 = Some r
    /\ stance (row_decision prev) = SHORT_VOL
    /\ stance (row_decision r) <> LONG_VOL.
Proof.
  intros rows.
  pose proof (adaptive_stance_never_flips_directly flat_log DEFAULT_ARGS
                quick_config rising_premium_market _ _ _ (run_result_eta _))
    as Hnext.
  fold rows in Hnext.
  assert (Hrows : exists p q rest, rows = p :: q :: rest
                  /\ stance (row_decision p) = SHORT_VOL)
    by (vm_compute; do 3 eexists; split; reflexivity).
  destruct Hrows as (p & q & rest & Hrows & Hp).
  rewrite Hrows in *.
  exists p, q. split; [reflexivity|]. split; [reflexivity|].
  split; [exact Hp|].
  destruct (Hnext 0%nat p q eq_refl eq_refl) as [Hs _]. exact (Hs Hp).
Defined.

(** ** The loop: when a bar raises *)

Section RunCompletion.

Variable ln : Q -> Q.
Variable mode : StrategyMode.
Variable args : Args.







End RunCompletion.


(** ** The loop: the warmup *)

(** A zero signal sizes to nothing, and the gates queue nothing when
    nothing is sized. *)
Lemma sized_target_zero_signal (mode : StrategyMode) (args : Args)
    (rl : RiskLimits.t) (decision : SignalDecision) (row : Bar)
    (equity size_factor : Q) :
  signal decision = 0%Z ->
  sized_target mode args rl decision row equity size_factor = 0%Z.
Proof.
  intros H. unfold sized_target. rewrite H. destruct mode; reflexivity.
Qed.

Lemma strategy_gate_zero (mode : StrategyMode) (args : Args) (row : Bar)
    (decision : SignalDecision) (o : Overlay)
    (position short_pause long_pause : Z) :
  g_next_target_contracts
    (strategy_gate mode args row decision o 0 position short_pause
       long_pause) = 0%Z.
Proof.
  unfold strategy_gate, gate_short, gate_long, gate_adaptive,
    gate_paused_or_flatten.
  destruct mode; cbv zeta; cbn [Z.ltb Z.compare];
    repeat match goal with
    | |- context [if ?c then _ else _] => destruct c
    end; reflexivity.
Qed.

Section Warmup.

Variable ln : Q -> Q.
Variable mode : StrategyMode.
Variable args : Args.
Variable signal_config : SignalConfig.

(** One bar taken with nothing held and nothing queued. *)
Lemma bar_step_idle (st st' : SimState) (row : Bar) (r : StepRow) :
  bar_step ln mode args st row = Ok (st', r) ->
  option_contracts st = 0%Z -> hedge_shares st = 0%Z ->
  pending_target_contracts st = 0%Z ->
  requested_option_contracts r = 0%Z
  /\ row_option_contracts r = 0%Z /\ row_hedge_shares r = 0%Z
  /\ option_contracts st' = 0%Z /\ hedge_shares st' = 0%Z
  /\ cash st' == cash st /\ row_equity r == cash st
  /\ row_drawdown r == DrawdownTracker.peek (drawdown st) (row_equity r)
  /\ DrawdownTracker.peak_equity (drawdown st')
     == Qmax (DrawdownTracker.peak_equity (drawdown st)) (row_equity r).
Proof.
  intros Hstep Hoc Hhs Hpend.
  destruct (bar_step_shape _ _ _ _ _ _ _ Hstep)
    as (Hreq & _ & _ & Had & Hex & Hpos & Hrow & _).
  destruct (bar_step_fields _ _ _ _ _ _ _ Hstep)
    as ((Hoc' & Hhs' & Hcash & Hdd & _)
        & (Hroc & Hrhs & Heq & Hrdd & _) & _).
  set (tr := trade mode args st row (pre_trade mode args st row)) in *.
  assert (Hexec : executed_target_contracts r = 0%Z).
  { rewrite Hex, Had, Hpend, Hoc.
    replace (adopted_target 0 (row_flatten_for_risk r)) with 0%Z
      by (unfold adopted_target; destruct (row_flatten_for_risk r);
          reflexivity).
    apply risk_limit_check_flat. }
  assert (Hc0 : tr_option_contracts tr = 0%Z) by congruence.
  destruct (trade_cash_equity mode args st row (pre_trade mode args st row))
    as (Hh & Hcsh & Hequ).
  cbv zeta in Hh, Hcsh, Hequ. fold tr in Hh, Hcsh, Hequ.
  assert (Hh0 : tr_hedge_shares tr = 0%Z)
    by (rewrite Hh, Hc0; apply hedge_target_zero).
  rewrite Hc0, Hh0 in Hequ. rewrite Hc0, Hh0, Hoc, Hhs in Hcsh.
  rewrite !Z.sub_diag in Hcsh. cbn [Z.abs] in Hcsh.
  change (float 0) with 0 in Hcsh, Hequ.
  assert (Hcash' : tr_cash tr == cash st) by (rewrite Hcsh; ring).
  assert (Hequity : tr_equity tr == cash st)
    by (rewrite Hequ, Hcash'; ring).
  destruct (trade_drawdown mode args st row (pre_trade mode args st row))
    as (Ht & Hd).
  cbv zeta in Ht, Hd. fold tr in Ht, Hd.
  destruct (update_props (drawdown st) (tr_equity tr)) as (Hpeek & Hpk & _).
  cbv zeta in Hpeek, Hpk. rewrite <- Ht in Hpk. rewrite <- Hd in Hpeek.
  split; [congruence|]. split; [congruence|]. split; [congruence|].
  split; [congruence|]. split; [congruence|].
  split; [rewrite Hcash; exact Hcash'|].
  split; [rewrite Heq; exact Hequity|].
  split; [rewrite Hrdd, Heq; exact Hpeek|].
  rewrite Hdd, Heq. exact Hpk.
Qed.

Lemma steps_warmup (st final : SimState) (rows : list StepRow) :
  steps ln mode args st rows final ->
  RegimeSignalEngine.config (signal_engine st) = signal_config ->
  ((len (spot_history st) < min_warmup_bars signal_config)%Z ->
   option_contracts st = 0%Z /\ hedge_shares st = 0%Z
   /\ pending_target_contracts st = 0%Z
   /\ cash st == INITIAL_CAPITAL
   /\ DrawdownTracker.peak_equity (drawdown st) == INITIAL_CAPITAL) ->
  forall t r, nth_error rows t = Some r ->
    ((len (spot_history st) + Z.of_nat t + 1
      < min_warmup_bars signal_config)%Z ->
     stance (row_decision r) = FLAT /\ signal (row_decision r) = 0%Z
     /\ queued_option_contracts r = 0%Z)
    /\ ((len (spot_history st) + Z.of_nat t
         < min_warmup_bars signal_config)%Z ->
        requested_option_contracts r = 0%Z
        /\ row_option_contracts r = 0%Z /\ row_hedge_shares r = 0%Z
        /\ row_equity r == INITIAL_CAPITAL /\ row_drawdown r == 0).
Proof.
  induction 1 as [st | st st' final row r rows Hstep _ IH];
    intros Hcfg Hidle t x Hx.
  - destruct t; discriminate Hx.
  - destruct (bar_step_fields _ _ _ _ _ _ _ Hstep)
      as ((_ & _ & _ & _ & _ & _ & Hpend' & _ & Hsh & _)
          & _ & (_ & Hdec & Hsized & Hgate)).
    destruct (decide_frame _ _ _ _ _ _ _ _ Hdec)
      as ((_ & Hcfg' & _ & _ & Hsig & _) & _).
    assert (Hlen : len (spot_history st') = (len (spot_history st) + 1)%Z)
      by (rewrite Hsh; apply len_snoc).
    (* this bar *)
    assert (Hflat : (len (spot_history st) + 1
                     < min_warmup_bars signal_config)%Z ->
              stance (row_decision r) = FLAT /\ signal (row_decision r) = 0%Z
              /\ queued_option_contracts r = 0%Z).
    { intros Hw.
      destruct (decide_outcome _ _ _ _ _ _ _ _ Hdec)
        as (m & o & flags & _ & Hb & _ & Hd).
      rewrite decide_branch_warmup in Hb
        by (engine_simpl; rewrite Hcfg, Hlen; exact Hw).
      apply pair_equal_spec in Hb. destruct Hb as [<- _].
      assert (Hs : stance (row_decision r) = FLAT) by (rewrite Hd; reflexivity).
      assert (Hz : signal (row_decision r) = 0%Z)
        by (rewrite Hsig, Hs; reflexivity).
      split; [exact Hs|]. split; [exact Hz|].
      rewrite Hgate, Hsized.
      rewrite sized_target_zero_signal by exact Hz.
      apply strategy_gate_zero. }
    assert (Hheld : (len (spot_history st) < min_warmup_bars signal_config)%Z ->
              requested_option_contracts r = 0%Z
              /\ row_option_contracts r = 0%Z /\ row_hedge_shares r = 0%Z
              /\ row_equity r == INITIAL_CAPITAL /\ row_drawdown r == 0
              /\ option_contracts st' = 0%Z /\ hedge_shares st' = 0%Z
              /\ cash st' == INITIAL_CAPITAL
              /\ DrawdownTracker.peak_equity (drawdown st')
                 == INITIAL_CAPITAL).
    { intros Hw. destruct (Hidle Hw) as (Hoc & Hhs & Hpend & Hcash & Hpeak).
      destruct (bar_step_idle _ _ _ _ Hstep Hoc Hhs Hpend)
        as (I1 & I2 & I3 & I4 & I5 & I6 & I7 & I8 & I9).
      assert (Heq : row_equity r == INITIAL_CAPITAL)
        by (rewrite I7; exact Hcash).
      split; [exact I1|]. split; [exact I2|]. split; [exact I3|].
      split; [exact Heq|].
      split; [rewrite I8; apply peek_at_peak; rewrite Hpeak, Heq;
              apply Qle_refl|].
      split; [exact I4|]. split; [exact I5|].
      split; [rewrite I6; exact Hcash|].
      rewrite I9, Hpeak, Heq. apply Q.max_l. apply Qle_refl. }
    destruct t as [|t].
    + cbn in Hx. injection Hx as <-.
      rewrite Z.add_0_r. cbn [Z.of_nat].
      split; [exact Hflat|]. intros Hw.
      destruct (Hheld Hw) as (H1 & H2 & H3 & H4 & H5 & _).
      repeat split; assumption.
    + cbn in Hx.
      assert (Hidle' :
        (len (spot_history st') < min_warmup_bars signal_config)%Z ->
        option_contracts st' = 0%Z /\ hedge_shares st' = 0%Z
        /\ pending_target_contracts st' = 0%Z
        /\ cash st' == INITIAL_CAPITAL
        /\ DrawdownTracker.peak_equity (drawdown st') == INITIAL_CAPITAL).
      { intros Hw. rewrite Hlen in Hw.
        destruct Hheld as (_ & _ & _ & _ & _ & H6 & H7 & H8 & H9); [lia|].
        destruct (Hflat Hw) as (_ & _ & Hq).
        split; [exact H6|]. split; [exact H7|].
        split; [rewrite Hpend'; exact Hq|]. split; [exact H8 | exact H9]. }
      assert (Hcfg2 : RegimeSignalEngine.config (signal_engine st')
                      = signal_config) by congruence.
      specialize (IH Hcfg2 Hidle' t x Hx).
      rewrite Hlen in IH.
      replace (len (spot_history st) + Z.of_nat (S t))%Z
        with (len (spot_history st) + 1 + Z.of_nat t)%Z by lia.
      exact IH.
Qed.

(** X19.  No position is taken during the warmup, in any mode: while
    fewer than [min_warmup_bars] closes have been seen (the largest of
    the three windows) every bar is FLAT with signal 0 and queues
    nothing, and up to and including the bar that completes the warmup
    nothing is requested, no option and no hedge is held, the equity
    stays at the initial capital and the drawdown at 0. *)
Theorem no_position_during_warmup (market_data : list Bar)
    (rows : list StepRow) (final : SimState) (exn : option PyExn) :
  run_single_mode ln mode args market_data signal_config
  = (rows, final, exn) ->
  forall t r, nth_error rows t = Some r ->
    ((Z.of_nat t + 1 < min_warmup_bars signal_config)%Z ->
     stance (row_decision r) = FLAT /\ signal (row_decision r) = 0%Z
     /\ queued_option_contracts r = 0%Z)
    /\ ((Z.of_nat t < min_warmup_bars signal_config)%Z ->
        requested_option_contracts r = 0%Z
        /\ row_option_contracts r = 0%Z /\ row_hedge_shares r = 0%Z
        /\ row_equity r == INITIAL_CAPITAL /\ row_drawdown r == 0).
Proof.
  intros Hrun t r Hr. unfold run_single_mode in Hrun.
  apply run_bars_steps in Hrun.
  apply (steps_warmup _ _ _ Hrun) with (t := t) (r := r).
  - reflexivity.
  - intros _. cbn. repeat split; reflexivity.
  - exact Hr.
Qed.

End Warmup.

(** Short mode under the default configuration, whose warmup is 240
    bars, on the three-bar rising-premium market: the second bar is
    FLAT and holds nothing. *)
Lemma no_position_during_warmup_witness :
  let rows :=
    fst (fst (run_single_mode flat_log mode_short DEFAULT_ARGS
                rising_premium_market DEFAULT_SIGNAL_CONFIG)) in
  exists r,
    nth_error rows 1 = Some r
    /\ stance (row_decision r) = FLAT
    /\ row_option_contracts r = 0%Z
    /\ row_equity r == INITIAL_CAPITAL.
Proof.
  intros rows.
  pose proof (no_position_during_warmup flat_log mode_short DEFAULT_ARGS
                DEFAULT_SIGNAL_CONFIG rising_premium_market _ _ _
                (run_result_eta _)) as Hall.
  fold rows in Hall.
  assert (Hrows : exists p q rest, rows = p :: q :: rest)
    by (vm_compute; do 3 eexists; reflexivity).
  destruct Hrows as (p & q & rest & Hrows).
  rewrite Hrows in *.
  destruct (Hall 1%nat q eq_refl) as [Hflat Hheld].
  destruct Hflat as (Hs & _); [vm_compute; reflexivity|].
  destruct Hheld as (_ & Hc & _ & He & _); [vm_compute; reflexivity|].
  exists q. split; [reflexivity|]. split; [exact Hs|].
  split; [exact Hc | exact He].
Defined.

(** ** The ledger *)

Section LedgerProperties.

Variable ln : Q -> Q.
Variable mode : StrategyMode.
Variable args : Args.







End LedgerProperties.


(** ** Execution: trades in sequence *)





(** ** The signal engine: a forced pause *)

(** The engine after [force_pause] with a positive length. *)
Lemma force_pause_fields (e : RegimeSignalEngine.t) (bars : Z)
    (why : string) :
  (0 < bars)%Z ->
  let p := RegimeSignalEngine.force_pause e bars why in
  RegimeSignalEngine.mode p = RegimeSignalEngine.mode e
  /\ RegimeSignalEngine.config p = RegimeSignalEngine.config e
  /\ (RegimeSignalEngine.mode e = mode_short ->
      RegimeSignalEngine.cooldown_remaining p
      = Z.max (RegimeSignalEngine.cooldown_remaining e) bars
      /\ RegimeSignalEngine.prev_stance p = RegimeSignalEngine.prev_stance e)
  /\ (RegimeSignalEngine.mode e <> mode_short ->
      RegimeSignalEngine.adaptive_state p = PAUSED
      /\ RegimeSignalEngine.adaptive_pause_remaining p
         = Z.max (RegimeSignalEngine.adaptive_pause_remaining e) bars).
Proof.
  intros Hb p. subst p. unfold RegimeSignalEngine.force_pause.
  destruct (Z.leb_spec (Z.max 0 bars) 0) as [H | _]; [lia|].
  replace (Z.max 0 bars) with bars by lia.
  destruct (RegimeSignalEngine.mode e) eqn:Hm; engine_simpl;
    repeat split; try reflexivity; try assumption; intros; congruence.
Qed.

(** X22.  What a forced pause does to the next decision.  A length of
    0 or less changes nothing.  In long and adaptive mode the pause
    counter becomes the larger of its value and the length, and the
    next decision past the warmup counts it down by one: it is PAUSED
    with signal 0 while bars are left, so a pause of one bar with no
    pause running yields no PAUSED bar at all.  In short mode the
    cooldown becomes the larger of its value and the length and the
    next decision is FLAT with the cooldown flag set; its counter is one
    less, unless the last stance was not FLAT and cooldown_bars is
    positive, in which case it is reset to cooldown_bars whatever the
    forced length was. *)
Theorem force_pause_then_decide (e e' : RegimeSignalEngine.t) (bars : Z)
    (why : string) (implied_vol : Q) (realized_vol_series : list Q)
    (spot : Q) (price_series return_series : list Q) (d : SignalDecision) :
  ((bars <= 0)%Z -> RegimeSignalEngine.force_pause e bars why = e)
  /\ ((0 < bars)%Z ->
      (min_warmup_bars (RegimeSignalEngine.config e) <= len price_series)%Z ->
      RegimeSignalEngine.decide (RegimeSignalEngine.force_pause e bars why)
        implied_vol realized_vol_series spot price_series return_series
      = Ok (e', d) ->
      let c := RegimeSignalEngine.config e in
      (RegimeSignalEngine.mode e <> mode_short ->
       let left :=
         (Z.max (RegimeSignalEngine.adaptive_pause_remaining e) bars - 1)%Z in
       cooldown_remaining d = left
       /\ RegimeSignalEngine.adaptive_pause_remaining e' = left
       /\ ((0 < left)%Z ->
           stance d = PAUSED /\ signal d = 0%Z /\ cooldown_active d = true)
       /\ ((left <= 0)%Z -> stance d <> PAUSED))
      /\ (RegimeSignalEngine.mode e = mode_short ->
          stance d = FLAT /\ signal d = 0%Z /\ cooldown_active d = true
          /\ cooldown_remaining d
             = if negb (Stance_eqb (RegimeSignalEngine.prev_stance e) FLAT)
                  && (cooldown_bars c >? 0)%Z
               then cooldown_bars c
               else (Z.max (RegimeSignalEngine.cooldown_remaining e) bars
                     - 1)%Z)).
Proof.
  split.
  { intros Hb. unfold RegimeSignalEngine.force_pause.
    destruct (Z.leb_spec (Z.max 0 bars) 0) as [_ | H]; [reflexivity | lia]. }
  intros Hb Hw Hdec c.
  destruct (force_pause_fields e bars why Hb) as (Pm & Pc & Pshort & Plong).
  cbv zeta in Pm, Pc, Pshort, Plong.
  set (p := RegimeSignalEngine.force_pause e bars why) in *.
  split.
  - intros Hns. destruct (Plong Hns) as (Pstate & Prem).
    intros left.
    destruct (decide_outcome _ _ _ _ _ _ _ _ Hdec)
      as (m & o & flags & _ & Hbr & -> & ->).
    cbn [stance signal cooldown_active cooldown_remaining].
    set (self := RegimeSignalEngine.set_prev_edge (Some (m_edge m)) p) in *.
    assert (Hsm : RegimeSignalEngine.mode self = RegimeSignalEngine.mode e)
      by exact Pm.
    assert (Hsc : RegimeSignalEngine.config self = c) by exact Pc.
    assert (Hss : RegimeSignalEngine.adaptive_state self = PAUSED)
      by exact Pstate.
    assert (Hsr : RegimeSignalEngine.adaptive_pause_remaining self
                  = Z.max (RegimeSignalEngine.adaptive_pause_remaining e) bars)
      by exact Prem.
    destruct (paused_branch_props self)
      as (Q1 & Q2 & _ & Q4 & Q5 & _ & _ & Q6 & Q7).
    cbv zeta in Q4, Q6, Q7. rewrite Hsr in Q4, Q6, Q7.
    assert (Hgt : (Z.max (RegimeSignalEngine.adaptive_pause_remaining e) bars
                   >? 0)%Z = true) by (apply Z.gtb_lt; lia).
    rewrite Hgt in Q4, Q6, Q7. fold left in Q4, Q6, Q7.
    assert (Hwarm : (min_warmup_bars (RegimeSignalEngine.config self)
                     <= len price_series)%Z) by (rewrite Hsc; exact Hw).
    destruct (RegimeSignalEngine.mode e) eqn:Hmode; [congruence | |].
    + (* long *)
      rewrite (decide_branch_long self m price_series Hsm Hwarm) in Hbr.
      rewrite Hss in Hbr.
      apply pair_equal_spec in Hbr. destruct Hbr as [<- _].
      unfold RegimeSignalEngine.decide_finish. engine_simpl.
      rewrite Q1, Hsm. engine_simpl. rewrite Q4.
      split; [reflexivity|]. split; [reflexivity|].
      split.
      * intros Hl. destruct (Q6 Hl) as [-> _].
        split; [reflexivity|]. split; [reflexivity | exact Q5].
      * intros Hl. destruct (Q7 Hl) as [-> _]. discriminate.
    + (* adaptive *)
      rewrite (decide_branch_adaptive self m price_series Hsm Hwarm) in Hbr.
      rewrite Hss in Hbr. cbv zeta in Hbr.
      destruct (Z.lt_ge_cases 0 left) as [Hl | Hl].
      * destruct (Q6 Hl) as [Hst Hstate]. rewrite Hstate, Hss in Hbr.
        cbn [Stance_eqb] in Hbr.
        apply pair_equal_spec in Hbr. destruct Hbr as [<- _].
        unfold RegimeSignalEngine.decide_finish. engine_simpl.
        rewrite Q1, Hsm. engine_simpl. rewrite Q4, Hst.
        split; [reflexivity|]. split; [reflexivity|].
        split; [intros _; split; [reflexivity|];
                split; [reflexivity | exact Q5]|].
        intros; lia.
      * destruct (Q7 Hl) as [Hst Hstate]. rewrite Hstate in Hbr.
        cbn [Stance_eqb] in Hbr.
        match type of Hbr with
        | context [RegimeSignalEngine.flat_block ?s ?mm ?a ?b ?ep ?ca] =>
            destruct (flat_block_props s mm a b ep ca)
              as (B1 & _ & _ & B4 & _ & _ & _ & B8 & _);
            set (fb := RegimeSignalEngine.flat_block s mm a b ep ca) in *
        end.
        apply pair_equal_spec in Hbr. destruct Hbr as [<- _].
        unfold RegimeSignalEngine.decide_finish. engine_simpl.
        rewrite B1, Q1, Hsm. engine_simpl. rewrite B4, Q4.
        split; [reflexivity|]. split; [reflexivity|].
        split; [intros; lia|]. intros _. exact B8.
  - intros Hmode. destruct (Pshort Hmode) as (Prem & Pprev).
    assert (Hpm : RegimeSignalEngine.mode p = mode_short) by congruence.
    destruct (decide_short _ _ _ _ _ _ _ _ Hpm Hdec)
      as (_ & _ & _ & Hafter & _ & Hcool & _).
    cbv zeta in Hafter, Hcool. rewrite Pc, Prem, Pprev in Hcool.
    destruct Hcool as (Hst & Hca & Hrem); [exact Hw | lia |].
    destruct (decide_frame _ _ _ _ _ _ _ _ Hdec)
      as ((_ & _ & _ & _ & Hsig & _) & _).
    split; [exact Hst|]. split; [rewrite Hsig, Hst; reflexivity|].
    split; [exact Hca|]. rewrite <- Hafter. exact Hrem.
Qed.

(** A short-mode engine whose last stance was SHORT_VOL, paused for
    ten bars under a two-bar cooldown: the next decision is FLAT and
    reports two bars left, not nine. *)
Lemma force_pause_then_decide_witness :
  let e :=
    RegimeSignalEngine.set_prev_stance SHORT_VOL
      (RegimeSignalEngine.init mode_short quick_config) in
  exists e' d,
    RegimeSignalEngine.decide (RegimeSignalEngine.force_pause e 10 "risk")
      0.2 [0.1] 100 [100] [] = Ok (e', d)
    /\ stance d = FLAT
    /\ cooldown_remaining d = 2%Z.
Proof.
  intros e.
  destruct (RegimeSignalEngine.decide
              (RegimeSignalEngine.force_pause e 10 "risk")
              0.2 [0.1] 100 [100] []) as [[e' d]|] eqn:H;
    [| vm_compute in H; discriminate H].
  exists e', d. split; [reflexivity|].
  destruct (force_pause_then_decide e e' 10 "risk" 0.2 [0.1] 100 [100] [] d)
    as (_ & Hnext).
  destruct Hnext as (_ & Hshort);
    [reflexivity | vm_compute; discriminate | exact H |].
  destruct (Hshort eq_refl) as (Hs & _ & _ & Hrem).
  split; [exact Hs | exact Hrem].
Defined.

(** ** Validated thresholds *)

(** The threshold orderings that [run] checks. *)
Lemma signal_args_valid_orderings (a : SignalConfig) :
  signal_args_valid a = true ->
  adaptive_short_edge_exit a <= adaptive_short_edge_enter a
  /\ adaptive_short_trend_enter a <= adaptive_short_trend_exit a
  /\ adaptive_vov_low a < adaptive_vov_high a
  /\ adaptive_vov_low a <= adaptive_vov_exit a
  /\ adaptive_vov_exit a <= adaptive_vov_high a
  /\ adaptive_long_cheapness_exit a <= adaptive_long_cheapness_enter a
  /\ (1 <= adaptive_enter_persist_bars a)%Z
  /\ (1 <= adaptive_exit_persist_bars a)%Z
  /\ (0 <= adaptive_pause_bars a)%Z
  /\ (0 <= cooldown_bars a)%Z
  /\ (1 <= rv_short_window a <= rv_medium_window a)%Z
  /\ (1 <= trend_window a)%Z.
Proof.
  unfold signal_args_valid. intros H.
  repeat match type of H with
  | (_ && _) = true => apply andb_true_iff in H; destruct H as [H ?]
  end.
  repeat match goal with
  | Hn : negb _ = true |- _ => apply negb_true_iff in Hn
  | Hn : (_ || _) = false |- _ => apply orb_false_iff in Hn; destruct Hn
  | Hn : (_ && _) = true |- _ => apply andb_true_iff in Hn; destruct Hn
  end.
  repeat match goal with
  | Hn : (_ <=? _)%Z = false |- _ => apply Z.leb_gt in Hn
  | Hn : (_ <? _)%Z = false |- _ => apply Z.ltb_ge in Hn
  | Hn : (_ >? _)%Z = false |- _ => rewrite Z.gtb_ltb in Hn; apply Z.ltb_ge in Hn
  end.
  qbool.
  repeat split; try assumption; try lia.
Qed.

(** X23.  Under the threshold orderings that run() checks the adaptive
    predicates are separated: no bar satisfies the short and the long
    enter predicate together, a bar that satisfies an enter predicate
    does not satisfy the exit predicate of the same side, and so a
    regime is never entered and left on the same metrics.  The built-in
    defaults and the daily preset pass the checks. *)
Theorem validated_thresholds_separate_regimes (c : SignalConfig)
    (m : Metrics) :
  signal_args_valid DEFAULT_SIGNAL_CONFIG = true
  /\ signal_args_valid daily_signal_preset = true
  /\ (signal_args_valid c = true ->
      (RegimeSignalEngine._adaptive_short_enter_ok c m = true ->
       RegimeSignalEngine._adaptive_long_enter_ok c m = false)
      /\ (RegimeSignalEngine._adaptive_short_enter_ok c m = true ->
          RegimeSignalEngine._adaptive_short_exit_ok c m = false)
      /\ (RegimeSignalEngine._adaptive_long_enter_ok c m = true ->
          RegimeSignalEngine._adaptive_long_exit_ok c m = false)).
Proof.
  split; [vm_compute; reflexivity|]. split; [vm_compute; reflexivity|].
  intros Hv.
  destruct (signal_args_valid_orderings c Hv)
    as (H1 & H2 & H3 & H4 & H5 & H6 & _).
  unfold RegimeSignalEngine._adaptive_short_enter_ok,
    RegimeSignalEngine._adaptive_long_enter_ok,
    RegimeSignalEngine._adaptive_short_exit_ok,
    RegimeSignalEngine._adaptive_long_exit_ok.
  cbv zeta.
  split; [| split]; intros He;
    repeat match type of He with
    | (_ && _) = true => apply andb_true_iff in He; destruct He as [He ?]
    end; qbool.
  - apply andb_false_iff. left. apply andb_false_iff. right.
    apply Qlt_bool_false. lra.
  - apply orb_false_iff. split; [apply orb_false_iff; split|];
      apply Qlt_bool_false; lra.
  - apply orb_false_iff. split; apply Qlt_bool_false; lra.
Qed.

(** Under the defaults an edge of 0.1 on a quiet bar satisfies the short
    enter predicate, and so neither the long enter nor the short exit
    predicate. *)
Lemma validated_thresholds_separate_regimes_witness :
  let m := mkMetrics 0.1 0.1 0.1 0 0 0 0 0 Infinity in
  RegimeSignalEngine._adaptive_long_enter_ok DEFAULT_SIGNAL_CONFIG m = false
  /\ RegimeSignalEngine._adaptive_short_exit_ok DEFAULT_SIGNAL_CONFIG m
     = false.
Proof.
  intros m.
  destruct (validated_thresholds_separate_regimes DEFAULT_SIGNAL_CONFIG m)
    as (Hd & _ & Hsep).
  destruct (Hsep Hd) as (Hlong & Hexit & _).
  split; [apply Hlong | apply Hexit]; vm_compute; reflexivity.
Defined.

Lemma signal_config_from_args_id (a : SignalConfig) :
  signal_config_from_args a = a.
Proof. destruct a. reflexivity. Qed.

(** X24.  What resolve_signal_config returns, and when it is still
    valid.  On intraday data (some date among the first hundred carries
    a space, or there is no data) it is the validated arguments
    themselves.  On daily data with every signal argument at its
    default it is the daily preset, which passes the checks.  On daily
    data with some argument changed the preset is mixed with the
    changed arguments, and the result need not pass the checks that the
    arguments passed: when adaptive_vov_low is left at its default and
    adaptive_vov_high is set to any other value below 0.01, the
    configuration handed to the loop has adaptive_vov_high below
    adaptive_vov_low. *)
Theorem resolve_signal_config_validity (a : SignalConfig)
    (market_data : list Bar) :
  (infer_data_granularity market_data = intraday ->
   resolve_signal_config a market_data = a)
  /\ (infer_data_granularity market_data = daily ->
      signal_args_match_defaults a = true ->
      resolve_signal_config a market_data = daily_signal_preset
      /\ signal_args_valid (resolve_signal_config a market_data) = true)
  /\ (infer_data_granularity market_data = daily ->
      adaptive_vov_low a == adaptive_vov_low DEFAULT_SIGNAL_CONFIG ->
      ~ adaptive_vov_high a == adaptive_vov_high DEFAULT_SIGNAL_CONFIG ->
      adaptive_vov_high a < adaptive_vov_low daily_signal_preset ->
      let c := resolve_signal_config a market_data in
      adaptive_vov_high c < adaptive_vov_low c
      /\ signal_args_valid c = false).
Proof.
  unfold resolve_signal_config.
  split; [intros ->; apply signal_config_from_args_id|].
  split.
  - intros -> ->. split; [reflexivity | vm_compute; reflexivity].
  - intros -> Hlow Hhigh Hlt. cbv zeta.
    assert (Hne : same_float (adaptive_vov_high a)
                    (adaptive_vov_high DEFAULT_SIGNAL_CONFIG) = false).
    { unfold same_float. destruct (Qeq_bool _ _) eqn:E; [|reflexivity].
      apply Qeq_bool_eq in E. contradiction. }
    assert (Hmatch : signal_args_match_defaults a = false).
    { unfold signal_args_match_defaults. cbv zeta. rewrite Hne.
      rewrite !andb_false_r. reflexivity. }
    rewrite Hmatch.
    assert (Hc_high :
      adaptive_vov_high (daily_signal_with_user_overrides a)
      = adaptive_vov_high a).
    { unfold daily_signal_with_user_overrides. cbv zeta.
      cbn [adaptive_vov_high]. unfold override_float.
      rewrite Hne. reflexivity. }
    assert (Hc_low :
      adaptive_vov_low (daily_signal_with_user_overrides a)
      = adaptive_vov_low daily_signal_preset).
    { unfold daily_signal_with_user_overrides. cbv zeta.
      cbn [adaptive_vov_low]. unfold override_float, same_float.
      apply Qeq_eq_bool in Hlow. rewrite Hlow. reflexivity. }
    assert (Hord : adaptive_vov_high (daily_signal_with_user_overrides a)
                   < adaptive_vov_low (daily_signal_with_user_overrides a))
      by (rewrite Hc_high, Hc_low; exact Hlt).
    split; [exact Hord|].
    destruct (signal_args_valid (daily_signal_with_user_overrides a)) eqn:Hv;
      [|reflexivity].
    destruct (signal_args_valid_orderings _ Hv) as (_ & _ & H3 & _).
    exfalso. lra.
Qed.

(** The defaults with adaptive_vov_high raised to 0.009 pass the checks
    of run(); on daily data the loop is handed adaptive_vov_low = 0.01
    above adaptive_vov_high = 0.009, a configuration that fails them. *)
Lemma resolve_signal_config_validity_witness :
  let c := resolve_signal_config raised_vov_high_args daily_market in
  signal_args_valid raised_vov_high_args = true
  /\ adaptive_vov_high c < adaptive_vov_low c
  /\ signal_args_valid c = false.
Proof.
  intros c. split; [vm_compute; reflexivity|].
  destruct (resolve_signal_config_validity raised_vov_high_args daily_market)
    as (_ & _ & Hmixed).
  apply Hmixed; [reflexivity | reflexivity | discriminate | reflexivity].
Defined.

(** ** Risk overlays *)

Lemma append_if_absent_prefix (x : string) (tags : list string) :
  exists extra, append_if_absent x tags = tags ++ extra.
Proof.
  unfold append_if_absent. destruct (mem x tags).
  - exists []. rewrite app_nil_r. reflexivity.
  - exists [x]. reflexivity.
Qed.

(** What each overlay stage does to the three fields the loop reads. *)
Lemma overlay_global_fields (args : Args) (dd : Q) (has : bool)
    (side : string) (o : Overlay) :
  let o' := overlay_global args dd has side o in
  let kill := (dd >=? global_drawdown_kill_threshold args) && has in
  let throttle :=
    negb kill && ((dd >=? global_drawdown_throttle_threshold args) && has) in
  flatten_for_risk o' = flatten_for_risk o || kill
  /\ effective_size_factor o'
     = (if throttle
        then effective_size_factor o
             * global_drawdown_throttle_size_factor args
        else effective_size_factor o)
  /\ exists extra, risk_reasons o' = risk_reasons o ++ extra.
Proof.
  cbv zeta. unfold overlay_global.
  destruct ((dd >=? global_drawdown_kill_threshold args) && has);
    cbn [negb andb flatten_for_risk effective_size_factor risk_reasons].
  - rewrite orb_true_r. split; [reflexivity|]. split; [reflexivity|].
    apply append_if_absent_prefix.
  - rewrite orb_false_r.
    destruct ((dd >=? global_drawdown_throttle_threshold args) && has);
      cbn [flatten_for_risk effective_size_factor risk_reasons].
    + split; [reflexivity|]. split; [reflexivity|].
      apply append_if_absent_prefix.
    + split; [reflexivity|]. split; [reflexivity|].
      exists []. rewrite app_nil_r. reflexivity.
Qed.

Lemma overlay_long_drawdown_fields (args : Args) (dd : Q) (exposed : bool)
    (o : Overlay) :
  let o' := overlay_long_drawdown args dd exposed o in
  flatten_for_risk o'
  = flatten_for_risk o
    || ((dd >=? long_catastrophic_kill_threshold args) && exposed)
  /\ effective_size_factor o' = effective_size_factor o
  /\ exists extra, risk_reasons o' = risk_reasons o ++ extra.
Proof.
  cbv zeta. unfold overlay_long_drawdown.
  destruct ((dd >=? long_catastrophic_kill_threshold args) && exposed);
    cbn [flatten_for_risk effective_size_factor risk_reasons].
  - rewrite orb_true_r. split; [reflexivity|]. split; [reflexivity|].
    apply append_if_absent_prefix.
  - rewrite orb_false_r.
    destruct ((dd >=? long_pause_drawdown_threshold args) && exposed);
      cbn [flatten_for_risk effective_size_factor risk_reasons].
    + split; [reflexivity|]. split; [reflexivity|].
      apply append_if_absent_prefix.
    + split; [reflexivity|]. split; [reflexivity|].
      exists []. rewrite app_nil_r. reflexivity.
Qed.

(** The overlays of a mode, as conditions on the drawdown and the
    opening position. *)
Lemma risk_overlay_fields (mode : StrategyMode) (args : Args)
    (k : KillSwitch.KillSwitchAction) (dd : Q) (opening : Z) :
  let o := risk_overlay mode args k dd opening in
  let exposure :=
    match mode with
    | mode_short => true
    | mode_long => (opening >? 0)%Z
    | mode_adaptive => negb (opening =? 0)%Z
    end in
  let kill := (dd >=? global_drawdown_kill_threshold args) && exposure in
  let catastrophic :=
    match mode with
    | mode_short => false
    | _ => (dd >=? long_catastrophic_kill_threshold args) && (opening >? 0)%Z
    end in
  let throttle :=
    negb kill
    && ((dd >=? global_drawdown_throttle_threshold args) && exposure) in
  flatten_for_risk o = KillSwitch.flatten_positions k || kill || catastrophic
  /\ effective_size_factor o
     = (if throttle
        then KillSwitch.size_factor k
             * global_drawdown_throttle_size_factor args
        else KillSwitch.size_factor k)
  /\ exists extra, risk_reasons o = KillSwitch.reasons k ++ extra.
Proof.
  cbv zeta. unfold risk_overlay. destruct mode.
  - (* short *)
    unfold overlay_short. cbv zeta. rewrite !andb_true_r, orb_false_r.
    destruct (dd >=? global_drawdown_kill_threshold args);
      cbn [negb andb flatten_for_risk effective_size_factor risk_reasons
           overlay_of_kill].
    + rewrite orb_true_r. split; [reflexivity|]. split; [reflexivity|].
      apply append_if_absent_prefix.
    + rewrite orb_false_r.
      destruct (dd >=? global_drawdown_throttle_threshold args);
        cbn [flatten_for_risk effective_size_factor risk_reasons
             overlay_of_kill].
      * split; [reflexivity|]. split; [reflexivity|].
        eexists. reflexivity.
      * split; [reflexivity|]. split; [reflexivity|].
        exists []. rewrite app_nil_r. reflexivity.
  - (* long *)
    unfold overlay_long. cbv zeta.
    set (has := (opening >? 0)%Z).
    set (o0 := overlay_of_kill k).
    destruct (overlay_global_fields args dd has "long" o0)
      as (G1 & G2 & (e1 & G3)).
    cbv zeta in G1, G2.
    set (o1 := overlay_global args dd has "long" o0) in *.
    destruct (overlay_long_drawdown_fields args dd has o1)
      as (L1 & L2 & (e2 & L3)).
    cbv zeta in L1.
    set (o2 := overlay_long_drawdown args dd has o1) in *.
    assert (Hf : flatten_for_risk o2
                 = KillSwitch.flatten_positions k
                   || (dd >=? global_drawdown_kill_threshold args) && has
                   || (dd >=? long_catastrophic_kill_threshold args) && has)
      by (rewrite L1, G1; reflexivity).
    assert (Hs : effective_size_factor o2
                 = (if negb ((dd >=? global_drawdown_kill_threshold args)
                             && has)
                       && ((dd >=? global_drawdown_throttle_threshold args)
                           && has)
                    then KillSwitch.size_factor k
                         * global_drawdown_throttle_size_factor args
                    else KillSwitch.size_factor k))
      by (rewrite L2, G2; reflexivity).
    assert (Hr : exists extra,
               risk_reasons o2 = KillSwitch.reasons k ++ extra)
      by (exists (e1 ++ e2); rewrite L3, G3, app_assoc; reflexivity).
    destruct (KillSwitch.flatten_positions k && has) eqn:Hk;
      cbn [flatten_for_risk effective_size_factor risk_reasons].
    + split; [|split; [exact Hs | exact Hr]].
      apply andb_true_iff in Hk. destruct Hk as [-> _]. reflexivity.
    + split; [exact Hf|]. split; [exact Hs | exact Hr].
  - (* adaptive *)
    unfold overlay_adaptive. cbv zeta.
    set (has := negb (opening =? 0)%Z).
    set (side := if (opening <? 0)%Z then "short"%string else "long"%string).
    assert (Hexp : (String.eqb side "long" && has) = (opening >? 0)%Z).
    { subst side has.
      destruct (Z.ltb_spec opening 0), (Z.eqb_spec opening 0),
        (Z.gtb_spec opening 0); try reflexivity; lia. }
    rewrite Hexp.
    set (o0 := overlay_of_kill k).
    destruct (overlay_global_fields args dd has side o0)
      as (G1 & G2 & (e1 & G3)).
    cbv zeta in G1, G2.
    set (o1 := overlay_global args dd has side o0) in *.
    destruct (overlay_long_drawdown_fields args dd (opening >? 0)%Z o1)
      as (L1 & L2 & (e2 & L3)).
    cbv zeta in L1.
    set (o2 := overlay_long_drawdown args dd (opening >? 0)%Z o1) in *.
    assert (Hf : flatten_for_risk o2
                 = KillSwitch.flatten_positions k
                   || (dd >=? global_drawdown_kill_threshold args) && has
                   || (dd >=? long_catastrophic_kill_threshold args)
                      && (opening >? 0)%Z)
      by (rewrite L1, G1; reflexivity).
    assert (Hs : effective_size_factor o2
                 = (if negb ((dd >=? global_drawdown_kill_threshold args)
                             && has)
                       && ((dd >=? global_drawdown_throttle_threshold args)
                           && has)
                    then KillSwitch.size_factor k
                         * global_drawdown_throttle_size_factor args
                    else KillSwitch.size_factor k))
      by (rewrite L2, G2; reflexivity).
    assert (Hr : exists extra,
               risk_reasons o2 = KillSwitch.reasons k ++ extra)
      by (exists (e1 ++ e2); rewrite L3, G3, app_assoc; reflexivity).
    destruct (KillSwitch.flatten_positions k && has) eqn:Hk;
      cbn [flatten_for_risk effective_size_factor risk_reasons].
    + split; [|split; [exact Hs | exact Hr]].
      apply andb_true_iff in Hk. destruct Hk as [-> _]. reflexivity.
    + split; [exact Hf|]. split; [exact Hs | exact Hr].
Qed.

(** X25.  When the overlays flatten and throttle.  The bar is flattened
    exactly when the kill switch asks for it, or the drawdown has
    reached global_drawdown_kill_threshold, or (long and adaptive mode)
    it has reached long_catastrophic_kill_threshold with a long
    position open.  Short mode applies the global thresholds with or
    without a position; long mode only with a long position, adaptive
    mode only with a position of either side.  The size factor is the
    kill switch's, times global_drawdown_throttle_size_factor exactly
    when the drawdown has reached the throttle threshold and not the
    kill threshold (with exposure, outside short mode).  The reasons
    logged start with the kill switch's. *)
Theorem risk_overlay_flatten_and_throttle_conditions (mode : StrategyMode)
    (args : Args) (k : KillSwitch.KillSwitchAction) (dd : Q) (opening : Z) :
  let o := risk_overlay mode args k dd opening in
  let exposure :=
    match mode with
    | mode_short => true
    | mode_long => (opening >? 0)%Z
    | mode_adaptive => negb (opening =? 0)%Z
    end in
  let kill := (dd >=? global_drawdown_kill_threshold args) && exposure in
  let catastrophic :=
    match mode with
    | mode_short => false
    | _ => (dd >=? long_catastrophic_kill_threshold args) && (opening >? 0)%Z
    end in
  let throttle :=
    negb kill
    && ((dd >=? global_drawdown_throttle_threshold args) && exposure) in
  flatten_for_risk o = KillSwitch.flatten_positions k || kill || catastrophic
  /\ effective_size_factor o
     = (if throttle
        then KillSwitch.size_factor k
             * global_drawdown_throttle_size_factor args
        else KillSwitch.size_factor k)
  /\ exists extra, risk_reasons o = KillSwitch.reasons k ++ extra.
Proof.
  apply risk_overlay_fields.
Qed.

(** ** Validated risk arguments *)

Lemma risk_args_valid_orderings (args : Args) :
  risk_args_valid args = true ->
  0 <= gamma_green_threshold args
  /\ gamma_green_threshold args < gamma_red_threshold args
  /\ 0 < gamma_red_size_factor args
  /\ gamma_red_size_factor args <= gamma_yellow_size_factor args
  /\ gamma_yellow_size_factor args <= 1
  /\ 0 <= gamma_kill_drawdown_threshold args
  /\ 0 <= global_drawdown_throttle_threshold args
  /\ global_drawdown_throttle_threshold args
     <= global_drawdown_kill_threshold args
  /\ long_pause_drawdown_threshold args
     <= long_catastrophic_kill_threshold args
  /\ 0 < global_drawdown_throttle_size_factor args
  /\ global_drawdown_throttle_size_factor args <= 1
  /\ 0 < max_leverage args /\ 0 < max_abs_gamma args
  /\ 0 < max_abs_vega args /\ 0 < long_vega_budget_ratio args.
Proof.
  unfold risk_args_valid. intros H.
  repeat match type of H with
  | (_ && _) = true => apply andb_true_iff in H; destruct H as [H ?]
  end.
  repeat match goal with
  | Hn : negb _ = true |- _ => apply negb_true_iff in Hn
  | Hn : (_ || _) = false |- _ => apply orb_false_iff in Hn; destruct Hn
  | Hn : (_ && _) = true |- _ => apply andb_true_iff in Hn; destruct Hn
  end.
  qbool.
  repeat split; try assumption; lra.
Qed.

Lemma kill_switch_monotone (ks : KillSwitch.t) (g g' dd dd' : Q) :
  KillSwitch.gamma_red_size_factor ks <= KillSwitch.gamma_yellow_size_factor ks ->
  KillSwitch.gamma_yellow_size_factor ks <= 1 ->
  g <= g' -> dd <= dd' ->
  let k := KillSwitch.evaluate ks g dd in
  let k' := KillSwitch.evaluate ks g' dd' in
  KillSwitch.size_factor k' <= KillSwitch.size_factor k
  /\ KillSwitch.gamma_red_size_factor ks <= KillSwitch.size_factor k
  /\ KillSwitch.size_factor k <= 1
  /\ (KillSwitch.flatten_positions k = true ->
      KillSwitch.flatten_positions k' = true).
Proof.
  intros Hry Hy1 Hg Hdd. cbv zeta. unfold KillSwitch.evaluate.
  cbn [KillSwitch.default_action KillSwitch.flatten_positions
       KillSwitch.reasons KillSwitch.size_factor KillSwitch.zone].
  destruct (g <=? KillSwitch.gamma_green_threshold ks) eqn:E1;
    destruct (g <=? KillSwitch.gamma_red_threshold ks) eqn:E2;
    destruct (g' <=? KillSwitch.gamma_green_threshold ks) eqn:E3;
    destruct (g' <=? KillSwitch.gamma_red_threshold ks) eqn:E4;
    destruct (dd >? KillSwitch.kill_drawdown_threshold ks) eqn:E5;
    destruct (dd' >? KillSwitch.kill_drawdown_threshold ks) eqn:E6;
    qbool;
    cbn [KillSwitch.flatten_positions KillSwitch.size_factor];
    try (exfalso; lra);
    (split; [lra|]; split; [lra|]; split; [lra|];
     intros Hf; solve [reflexivity | discriminate Hf]).
Qed.

Section ValidatedRisk.

Variable args : Args.
Hypothesis args_valid : risk_args_valid args = true.

(** X26.  Under the arguments run() accepts the risk controls only
    tighten with risk: for a gamma-risk metric and a drawdown that are
    both at least as large, the kill switch's size factor is no larger
    and a flatten stays a flatten, for the kill switch and, with the
    same opening position, for the overlays of every mode; and the size
    factor handed to the sizer always lies in (0, 1]. *)
Theorem risk_controls_tighten_with_risk (mode : StrategyMode)
    (g g' dd dd' : Q) (opening : Z) :
  g <= g' -> dd <= dd' ->
  let k := KillSwitch.evaluate (kill_switch args) g dd in
  let k' := KillSwitch.evaluate (kill_switch args) g' dd' in
  let o := risk_overlay mode args k dd opening in
  let o' := risk_overlay mode args k' dd' opening in
  KillSwitch.size_factor k' <= KillSwitch.size_factor k
  /\ (KillSwitch.flatten_positions k = true ->
      KillSwitch.flatten_positions k' = true)
  /\ (flatten_for_risk o = true -> flatten_for_risk o' = true)
  /\ 0 < effective_size_factor o /\ effective_size_factor o <= 1.
Proof.
  intros Hg Hdd k k' o o'.
  destruct (risk_args_valid_orderings args args_valid)
    as (_ & _ & R1 & R2 & R3 & _ & _ & _ & _ & T1 & T2 & _).
  destruct (kill_switch_monotone (kill_switch args) g g' dd dd' R2 R3 Hg Hdd)
    as (K1 & K2 & K3 & K4).
  cbv zeta in K1, K2, K3, K4. fold k k' in K1, K2, K3, K4.
  cbn [kill_switch KillSwitch.gamma_red_size_factor] in K2.
  destruct (risk_overlay_fields mode args k dd opening) as (F1 & S1 & _).
  destruct (risk_overlay_fields mode args k' dd' opening) as (F2 & _).
  cbv zeta in F1, F2, S1. fold o in F1, S1. fold o' in F2.
  split; [exact K1|]. split; [exact K4|].
  assert (Hmono : forall lim : Q, (dd >=? lim) = true -> (dd' >=? lim) = true).
  { intros lim H. qbool. apply Qle_bool_true. lra. }
  split.
  - rewrite F1, F2. intros H.
    apply orb_true_iff in H. destruct H as [H | H].
    + apply orb_true_iff in H. destruct H as [H | H].
      * rewrite (K4 H). reflexivity.
      * apply andb_true_iff in H. destruct H as [H1 H2].
        rewrite (Hmono _ H1), H2. rewrite orb_true_r. reflexivity.
    + destruct mode; [discriminate H | |];
        apply andb_true_iff in H; destruct H as [H1 H2];
        rewrite (Hmono _ H1), H2; apply orb_true_r.
  - rewrite S1.
    destruct (negb _ && _).
    + split.
      * apply Qmult_lt_0_compat; lra.
      * assert (KillSwitch.size_factor k
                * global_drawdown_throttle_size_factor args
                <= 1 * 1).
        { apply Qmult_le_compat_nonneg; split; lra. }
        lra.
    + split; lra.
Qed.

End ValidatedRisk.

(** Under the default arguments: a gamma risk of 12 at a drawdown of
    15 % flattens, and so does a gamma risk of 20 at 30 %. *)
Lemma risk_controls_tighten_with_risk_witness :
  let k' := KillSwitch.evaluate (kill_switch DEFAULT_ARGS) 20 0.3 in
  flatten_for_risk (risk_overlay mode_adaptive DEFAULT_ARGS k' 0.3 5) = true
  /\ KillSwitch.size_factor k' <= 0.25.
Proof.
  intros k'.
  destruct (risk_controls_tighten_with_risk DEFAULT_ARGS eq_refl
              mode_adaptive 12 20 0.15 0.3 5)
    as (Hsize & _ & Hflat & _); [discriminate | discriminate |].
  split; [apply Hflat; vm_compute; reflexivity | exact Hsize].
Defined.

(** ** Rolling means and the metrics *)














(** ** The loop: risk pauses *)

(** The pause counters and the target the long-mode gates leave. *)
Lemma gate_long_pause (args : Args) (decision : SignalDecision)
    (o : Overlay) (next_target short_pause long_pause : Z) :
  let g := gate_long args decision o next_target short_pause long_pause in
  let pause_len :=
    Z.max (args_adaptive_pause_bars args) (args_cooldown_bars args) in
  g_short_pause_remaining g = short_pause
  /\ (g_long_pause_remaining g = long_pause
      \/ g_long_pause_remaining g = Z.max long_pause pause_len)
  /\ ((0 < g_long_pause_remaining g)%Z -> g_next_target_contracts g = 0%Z)
  /\ (adaptive_pause_side o = "long"%string ->
      adaptive_pause_requires_invalid o = false ->
      g_long_pause_remaining g = Z.max long_pause pause_len
      /\ g_next_target_contracts g = 0%Z).
Proof.
  cbv zeta.
  pose proof (gate_long_nonneg args decision o next_target short_pause
                long_pause) as Hnn.
  unfold gate_long in *. cbv zeta in *.
  unfold gate_paused_or_flatten in *.
  destruct (String.eqb (adaptive_pause_side o) "long") eqn:Eside;
    destruct (adaptive_pause_requires_invalid o) eqn:Einv;
    destruct (Stance_eqb (stance decision) LONG_VOL) eqn:Elong;
    destruct (Stance_eqb (stance decision) PAUSED) eqn:Epaused;
    destruct (flatten_for_risk o) eqn:Eflat;
    cbn [negb g_next_target_contracts g_short_pause_remaining
         g_long_pause_remaining g_events g_reason Z.gtb Z.compare andb] in *;
    repeat match goal with
    | |- context [if ?c then _ else _] => destruct c eqn:?
    end;
    cbn [g_next_target_contracts g_short_pause_remaining
         g_long_pause_remaining] in *;
    (split; [reflexivity|]); (split; [auto|]);
    (split;
     [intros Hp; try reflexivity;
      repeat match goal with
      | H : (_ && _) = false |- _ =>
          apply andb_false_iff in H; destruct H as [H | H]
      | H : (_ >? _)%Z = false |- _ =>
          rewrite Z.gtb_ltb in H; apply Z.ltb_ge in H
      | H : (_ <? _)%Z = true |- _ => apply Z.ltb_lt in H
      | H : (_ <? _)%Z = false |- _ => apply Z.ltb_ge in H
      end; try lia|]);
    intros Hs Hi;
    try (apply String.eqb_neq in Eside; contradiction);
    try discriminate Hi;
    (split; [reflexivity|]); reflexivity.
Qed.

Lemma gate_adaptive_pause (args : Args) (decision : SignalDecision)
    (o : Overlay) (next_target position short_pause long_pause : Z) :
  let g := gate_adaptive args decision o next_target position short_pause
             long_pause in
  let pause_len :=
    Z.max (args_adaptive_pause_bars args) (args_cooldown_bars args) in
  (g_short_pause_remaining g = short_pause
   \/ g_short_pause_remaining g = Z.max short_pause pause_len)
  /\ (g_long_pause_remaining g = long_pause
      \/ g_long_pause_remaining g = Z.max long_pause pause_len)
  /\ ((0 < g_short_pause_remaining g)%Z ->
      (0 <= g_next_target_contracts g)%Z)
  /\ ((0 < g_long_pause_remaining g)%Z ->
      (g_next_target_contracts g <= 0)%Z).
Proof.
  cbv zeta. unfold gate_adaptive. cbv zeta.
  set (pause_len :=
         Z.max (args_adaptive_pause_bars args) (args_cooldown_bars args)).
  (* the gate after the pause stage *)
  match goal with
  | |- context [gate_paused_or_flatten decision (flatten_for_risk o) ?g] =>
      set (g1 := g)
  end.
  assert (H1 : (g_short_pause_remaining g1 = short_pause
                \/ g_short_pause_remaining g1 = Z.max short_pause pause_len)
               /\ (g_long_pause_remaining g1 = long_pause
                   \/ g_long_pause_remaining g1
                      = Z.max long_pause pause_len)).
  { subst g1.
    match goal with
    | |- context [if ?c then _ else mkGate next_target _ _ _ _] =>
        destruct c
    end; [| cbn; auto].
    destruct (String.eqb (adaptive_pause_side o) "short"); [cbn; auto|].
    destruct (String.eqb (adaptive_pause_side o) "long"); cbn; auto. }
  (* after the PAUSED and flatten gates *)
  set (g2 := gate_paused_or_flatten decision (flatten_for_risk o) g1).
  assert (H2 : g_short_pause_remaining g2 = g_short_pause_remaining g1
               /\ g_long_pause_remaining g2 = g_long_pause_remaining g1).
  { subst g2. unfold gate_paused_or_flatten.
    destruct (Stance_eqb (stance decision) PAUSED); [split; reflexivity|].
    destruct (flatten_for_risk o); split; reflexivity. }
  destruct H2 as [H2s H2l]. rewrite <- H2s, <- H2l in H1.
  clearbody g2. clear g1 H2s H2l.
  (* after the two pause gates *)
  match goal with
  | |- context [if ?c then mkGate 0 "ADAPTIVE_SWITCH_THROUGH_FLAT" _ _ _
                else ?g] => set (g3 := g)
  end.
  assert (H3 : g_short_pause_remaining g3 = g_short_pause_remaining g2
               /\ g_long_pause_remaining g3 = g_long_pause_remaining g2
               /\ ((0 < g_short_pause_remaining g3)%Z ->
                   (0 <= g_next_target_contracts g3)%Z)
               /\ ((0 < g_long_pause_remaining g3)%Z ->
                   (g_next_target_contracts g3 <= 0)%Z)).
  { subst g3.
    destruct ((g_next_target_contracts g2 <? 0)%Z
              && (g_short_pause_remaining g2 >? 0)%Z) eqn:Ea;
      [cbn; repeat split; intros; lia|].
    destruct ((g_next_target_contracts g2 >? 0)%Z
              && (g_long_pause_remaining g2 >? 0)%Z) eqn:Eb;
      [cbn; repeat split; intros; lia|].
    split; [reflexivity|]. split; [reflexivity|].
    apply andb_false_iff in Ea, Eb.
    rewrite !Z.gtb_ltb in Ea, Eb. rewrite !Z.ltb_ge in Ea, Eb.
    split; intros; lia. }
  destruct H3 as (H3s & H3l & H3a & H3b). rewrite <- H3s, <- H3l in H1.
  clearbody g3. clear g2 H3s H3l.
  destruct H1 as [H1s H1l].
  match goal with
  | |- context [if ?c then _ else g3] => destruct c
  end; cbn [g_next_target_contracts g_short_pause_remaining
            g_long_pause_remaining].
  - split; [exact H1s|]. split; [exact H1l|]. split; intros; lia.
  - split; [exact H1s|]. split; [exact H1l|]. split; assumption.
Qed.

Lemma gate_adaptive_arms (args : Args) (decision : SignalDecision)
    (o : Overlay) (next_target position short_pause long_pause : Z) :
  let g := gate_adaptive args decision o next_target position short_pause
             long_pause in
  let pause_len :=
    Z.max (args_adaptive_pause_bars args) (args_cooldown_bars args) in
  adaptive_pause_requires_invalid o = false ->
  (adaptive_pause_side o = "short"%string ->
   g_short_pause_remaining g = Z.max short_pause pause_len
   /\ g_next_target_contracts g = 0%Z)
  /\ (adaptive_pause_side o = "long"%string ->
      g_long_pause_remaining g = Z.max long_pause pause_len
      /\ g_next_target_contracts g = 0%Z).
Proof.
  cbv zeta. intros Hi. unfold gate_adaptive. cbv zeta.
  unfold gate_paused_or_flatten. rewrite Hi.
  split; intros Hs; rewrite Hs;
    cbn [String.eqb Ascii.eqb Bool.eqb negb andb];
    destruct (Stance_eqb (stance decision) PAUSED);
    destruct (flatten_for_risk o);
    cbn [g_next_target_contracts g_short_pause_remaining
         g_long_pause_remaining Z.ltb Z.gtb Z.compare andb orb];
    rewrite ?andb_false_r; cbn [orb];
    split; reflexivity.
Qed.

(** In adaptive mode a flatten with a short position open names the
    short side, without the condition on the stance. *)
Lemma overlay_adaptive_short_side (args : Args)
    (k : KillSwitch.KillSwitchAction) (dd : Q) (opening : Z) :
  (opening < 0)%Z ->
  let o := overlay_adaptive args k dd opening in
  adaptive_pause_requires_invalid o = false
  /\ (flatten_for_risk o = true -> adaptive_pause_side o = "short"%string).
Proof.
  intros Hneg. cbv zeta. unfold overlay_adaptive. cbv zeta.
  assert (E1 : (opening =? 0)%Z = false) by (apply Z.eqb_neq; lia).
  assert (E2 : (opening <? 0)%Z = true) by (apply Z.ltb_lt; exact Hneg).
  rewrite E1, E2. cbn [negb String.eqb Ascii.eqb Bool.eqb andb].
  rewrite !andb_true_r.
  unfold overlay_long_drawdown. rewrite !andb_false_r.
  unfold overlay_global. rewrite !andb_true_r.
  destruct (KillSwitch.flatten_positions k) eqn:Ek;
    destruct (dd >=? global_drawdown_kill_threshold args);
    try destruct (dd >=? global_drawdown_throttle_threshold args);
    cbn [flatten_for_risk adaptive_pause_side adaptive_pause_requires_invalid
         overlay_of_kill or_default String.eqb];
    split; try reflexivity; intros H; try reflexivity;
    try (rewrite Ek in H; discriminate H); discriminate H.
Qed.

Section RiskPause.

Variable ln : Q -> Q.
Variable mode : StrategyMode.
Variable args : Args.

(** The gate outcome of a completed bar. *)
Lemma bar_step_gate (st st' : SimState) (row : Bar) (r : StepRow) :
  bar_step ln mode args st row = Ok (st', r) ->
  let g :=
    strategy_gate mode args row (row_decision r) (row_overlay r)
      (row_sized_target r) (row_option_contracts r)
      (ticked (adaptive_short_pause_remaining st))
      (ticked (adaptive_long_pause_remaining st)) in
  adaptive_short_pause_remaining st' = g_short_pause_remaining g
  /\ adaptive_long_pause_remaining st' = g_long_pause_remaining g
  /\ queued_option_contracts r = g_next_target_contracts g
  /\ strategy_gate_reason r = g_reason g
  /\ row_overlay r
     = risk_overlay mode args (row_kill_action r)
         (row_drawdown_before_trade r) (option_contracts st).
Proof.
  intros H. unfold bar_step in H.
  destruct (long_diagnostic ln st row) as [diag|];
    cbv beta iota delta [bind] in H; [|discriminate H].
  destruct (next_return_history ln st row) as [rh|];
    cbv beta iota delta [bind] in H; [|discriminate H].
  cbv zeta in H.
  destruct (RegimeSignalEngine.decide (signal_engine st) (iv row)
              (rv_history st ++ [realized_vol row]) (close row)
              (spot_history st ++ [close row]) rh) as [ed|];
    [|discriminate H].
  apply Ok_pair_inj in H. destruct H as [<- <-].
  cbn [adaptive_short_pause_remaining adaptive_long_pause_remaining
       queued_option_contracts strategy_gate_reason row_decision row_overlay
       row_sized_target row_option_contracts row_kill_action
       row_drawdown_before_trade].
  repeat split; reflexivity.
Qed.

Lemma ticked_bounds (n : Z) : (n - 1 <= ticked n <= n)%Z.
Proof. unfold ticked. destruct (Z.gtb_spec n 0); lia. Qed.

Lemma bar_step_pause (st st' : SimState) (row : Bar) (r : StepRow) :
  bar_step ln mode args st row = Ok (st', r) ->
  (adaptive_short_pause_remaining st - 1
   <= adaptive_short_pause_remaining st')%Z
  /\ (adaptive_long_pause_remaining st - 1
      <= adaptive_long_pause_remaining st')%Z
  /\ (mode <> mode_short ->
      (0 < adaptive_long_pause_remaining st')%Z ->
      (queued_option_contracts r <= 0)%Z)
  /\ (mode = mode_adaptive ->
      (0 < adaptive_short_pause_remaining st')%Z ->
      (0 <= queued_option_contracts r)%Z).
Proof.
  intros Hstep.
  destruct (bar_step_gate _ _ _ _ Hstep) as (Hs & Hl & Hq & _).
  cbv zeta in Hs, Hl, Hq.
  pose proof (ticked_bounds (adaptive_short_pause_remaining st)) as Ts.
  pose proof (ticked_bounds (adaptive_long_pause_remaining st)) as Tl.
  rewrite Hs, Hl, Hq. unfold strategy_gate. destruct mode.
  - unfold gate_short.
    repeat match goal with
    | |- context [if ?c then _ else _] => destruct c
    end; cbn [g_short_pause_remaining g_long_pause_remaining];
    (split; [lia|]); (split; [lia|]); split; intros; congruence.
  - destruct (gate_long_pause args (row_decision r) (row_overlay r)
                (row_sized_target r)
                (ticked (adaptive_short_pause_remaining st))
                (ticked (adaptive_long_pause_remaining st)))
      as (G1 & G2 & G3 & _).
    cbv zeta in G1, G2, G3.
    split; [lia|]. split; [lia|].
    split; [intros _ Hp; rewrite (G3 Hp); lia | intros; congruence].
  - destruct (gate_adaptive_pause args (row_decision r) (row_overlay r)
                (row_sized_target r) (row_option_contracts r)
                (ticked (adaptive_short_pause_remaining st))
                (ticked (adaptive_long_pause_remaining st)))
      as (G1 & G2 & G3 & G4).
    cbv zeta in G1, G2, G3, G4.
    split; [lia|]. split; [lia|].
    split; [intros _; exact G4 | intros _; exact G3].
Qed.

Lemma steps_pause (st final : SimState) (rows : list StepRow) :
  steps ln mode args st rows final ->
  forall t r, nth_error rows t = Some r ->
    (mode <> mode_short ->
     (Z.of_nat t + 1 < adaptive_long_pause_remaining st)%Z ->
     (queued_option_contracts r <= 0)%Z)
    /\ (mode = mode_adaptive ->
        (Z.of_nat t + 1 < adaptive_short_pause_remaining st)%Z ->
        (0 <= queued_option_contracts r)%Z).
Proof.
  induction 1 as [st | st st' final row r rows Hstep _ IH]; intros t x Hx.
  - destruct t; discriminate Hx.
  - destruct (bar_step_pause _ _ _ _ Hstep) as (Bs & Bl & Blong & Bshort).
    destruct t as [|t].
    + cbn in Hx. injection Hx as <-. cbn [Z.of_nat].
      split; [intros Hm Hp; apply Blong; [exact Hm | lia]
             | intros Hm Hp; apply Bshort; [exact Hm | lia]].
    + cbn in Hx. destruct (IH t x Hx) as [I1 I2].
      rewrite Nat2Z.inj_succ.
      split; [intros Hm Hp; apply I1; [exact Hm | lia]
             | intros Hm Hp; apply I2; [exact Hm | lia]].
Qed.

(** X29.  A risk pause keeps its side closed.  In adaptive mode a bar
    flattened for risk with a short position open arms the short pause
    with max(adaptive_pause_bars, cooldown_bars) bars and queues
    nothing.  A pause counter goes down by one per bar, so from a
    state whose long (short) pause counter is n, none of the next
    n - 1 bars queues a long (short) target, whatever the signal: long
    and adaptive mode for the long counter, adaptive mode for the
    short one. *)
Theorem risk_pause_blocks_reentry :
  (forall (st st' : SimState) (row : Bar) (r : StepRow),
     mode = mode_adaptive ->
     bar_step ln mode args st row = Ok (st', r) ->
     (option_contracts st < 0)%Z ->
     row_flatten_for_risk r = true ->
     adaptive_short_pause_remaining st'
     = Z.max (ticked (adaptive_short_pause_remaining st))
             (Z.max (args_adaptive_pause_bars args) (args_cooldown_bars args))
     /\ queued_option_contracts r = 0%Z)
  /\ (forall (st final : SimState) (market_data : list Bar)
        (rows : list StepRow) (exn : option PyExn),
        run_bars ln mode args st market_data = (rows, final, exn) ->
        forall t r, nth_error rows t = Some r ->
          (mode <> mode_short ->
           (Z.of_nat t + 1 < adaptive_long_pause_remaining st)%Z ->
           (queued_option_contracts r <= 0)%Z)
          /\ (mode = mode_adaptive ->
              (Z.of_nat t + 1 < adaptive_short_pause_remaining st)%Z ->
              (0 <= queued_option_contracts r)%Z)).
Proof.
  split.
  - intros st st' row r Hmode Hstep Hneg Hflat.
    destruct (bar_step_gate _ _ _ _ Hstep) as (Hs & _ & Hq & _ & Hov).
    cbv zeta in Hs, Hq. rewrite Hs, Hq.
    unfold row_flatten_for_risk in Hflat.
    revert Hov Hflat. rewrite Hmode. cbn [risk_overlay strategy_gate].
    intros Hov Hflat.
    destruct (overlay_adaptive_short_side args (row_kill_action r)
                (row_drawdown_before_trade r) (option_contracts st) Hneg)
      as (Hinv & Hside).
    cbv zeta in Hinv, Hside. rewrite <- Hov in Hinv, Hside.
    destruct (gate_adaptive_arms args (row_decision r) (row_overlay r)
                (row_sized_target r) (row_option_contracts r)
                (ticked (adaptive_short_pause_remaining st))
                (ticked (adaptive_long_pause_remaining st)) Hinv)
      as (Harm & _).
    exact (Harm (Hside Hflat)).
  - intros st final market_data rows exn Hrun.
    apply run_bars_steps in Hrun. exact (steps_pause _ _ _ Hrun).
Qed.

End RiskPause.

(** Adaptive mode on the premium-spike market: the third bar flattens
    the five contracts held short and arms the short pause with 30
    bars; the fourth bar sizes three contracts short and queues
    none. *)
Lemma risk_pause_blocks_reentry_witness :
  let st2 :=
    snd (fst (run_single_mode flat_log mode_adaptive DEFAULT_ARGS
                (firstn 2 premium_spike_market) quick_config)) in
  exists st3 r3,
    bar_step flat_log mode_adaptive DEFAULT_ARGS st2 (sample_bar "d3" 10)
    = Ok (st3, r3)
    /\ adaptive_short_pause_remaining st3 = 30%Z
    /\ exists r4,
         nth_error
           (fst (fst (run_bars flat_log mode_adaptive DEFAULT_ARGS st3
                        (skipn 3 premium_spike_market)))) 0 = Some r4
         /\ row_sized_target r4 = (-3)%Z
         /\ (0 <= queued_option_contracts r4)%Z.
Proof.
  intros st2.
  destruct (bar_step flat_log mode_adaptive DEFAULT_ARGS st2
              (sample_bar "d3" 10)) as [[st3 r3]|] eqn:Hstep;
    [| vm_compute in Hstep; discriminate Hstep].
  exists st3, r3. split; [reflexivity|].
  pose proof Hstep as Hval. vm_compute in Hval. apply Ok_pair_inj in Hval.
  destruct Hval as [Hst3 Hr3].
  destruct (risk_pause_blocks_reentry flat_log mode_adaptive DEFAULT_ARGS)
    as [Harm Hblock].
  destruct (Harm st2 st3 (sample_bar "d3" 10) r3 eq_refl Hstep)
    as [Hsp _].
  { vm_compute. reflexivity. }
  { rewrite <- Hr3. reflexivity. }
  assert (H30 : adaptive_short_pause_remaining st3 = 30%Z)
    by (rewrite Hsp; vm_compute; reflexivity).
  split; [exact H30|].
  assert (Hrows : exists r4 rest,
            fst (fst (run_bars flat_log mode_adaptive DEFAULT_ARGS st3
                        (skipn 3 premium_spike_market))) = r4 :: rest
            /\ row_sized_target r4 = (-3)%Z)
    by (rewrite <- Hst3; vm_compute; do 2 eexists; split; reflexivity).
  destruct Hrows as (r4 & rest & Hrows & Hsz).
  exists r4. rewrite Hrows. split; [reflexivity|]. split; [exact Hsz|].
  destruct (Hblock st3 _ (skipn 3 premium_spike_market) _ _
              (run_result_eta _) 0%nat r4) as [_ Hshort].
  { rewrite Hrows. reflexivity. }
  apply Hshort; [reflexivity | rewrite H30; reflexivity].
Defined.
